(* ===== verification/_CoqProject ===== *)
-Q . S2P
Prelude.v
GoStrings.v
Float64.v
Errors.v
Entity.v
External.v
MemBackend.v
Gpu.v
JobRepo.v
Queue.v
JobService.v
Scheduler.v
SchedulerSpec.v
Lock.v
WsPool.v
WsPump.v
SshSessions.v
Exec.v
MenuService.v
Access.v
SessionRepo.v
Auth.v
GoPath.v
Shell.v
FileService.v
DiskUsage.v
Terminal.v
TerminalConc.v
Users.v
Roles.v
QueueSpec.v
QueueConc.v
Liveness.v
SystemInfo.v
Home.v
OperationLog.v
Http.v
Routes.v
AccountCtl.v
FileCtl.v
JobCtl.v
Concurrent.v
SshClient.v
PermCtl.v
SystemCtl.v
App.v
Infra.v
