(* ===== verification/Prelude.v ===== *)
(** * CloudQue: verification of a GPU job-scheduling backend

    CloudQue is a Go server.  Users submit training jobs for the GPU cards of
    one host; jobs wait in a priority queue, a scheduler starts the head of
    the queue over SSH when its cards are free, and monitors free the cards
    when the process ends.  State lives in MySQL (through gorm), in Redis, in
    tables in memory, and on the host.

    ** Parts of the program and the files that model them

    - [Prelude]: error values, [result], the state monad [M], loops with and
      without early return, wrap-around of machine integers; the tactics that
      open a run ([run_inv], [solve_keeps], [solve_respects]) and the hint
      databases.
    - [GoStrings], [Float64]: what the program uses of strings, strconv and
      of float64 arithmetic.  Go strings are byte sequences; a finite float64
      is an exact multiple of 2^-1074, rounded to nearest even.
    - [Errors]: pkg/errors and pkg/response.
    - [Entity]: the structs of internal/model/entity.
    - [External]: interfaces to what is outside the repository.  [Table] and
      [TableLaws] are a MySQL table behind gorm, [Redis] and [RedisLaws] the
      Redis commands, [Env] the calls that leave the process.  [Backend]
      bundles them and [World] is their joint state.  Every call may fail.
    - [MemBackend]: an implementation of these interfaces in memory, with a
      script of faults, and the proof of the laws: the hypotheses of the
      development hold together, and theorems are run on concrete states.
    - [Gpu]: gpu_repository.go, gpu_service.go, gpu_utils.go.
    - [JobRepo]: job_repository.go, process_repository.go.
    - [Queue]: queue_repository.go, queue_service.go.
    - [JobService]: job_service.go.
    - [Scheduler], [SchedulerSpec]: scheduler_service.go.  [Scheduler] has the
      operations, the system as a step relation and its invariants;
      [SchedulerSpec] the theorems on single handlers and concrete executions.
    - [Lock]: the Redis lock of scheduler_service.go between several servers.
    - [Concurrent]: the operations of the job components on a table of cards
      that other goroutines and servers write between any two statements
      ([SharedTable]), and the abstract allocator [card_step].
    - [WsPool]: pkg/websocket/pool.go: tables, counter and buffers.  [WsPump]: the
      two goroutines of each connection, [ReadPump] and [WritePump], with
      deadlines, pings and the frames on the wire, over time.
    - [SshSessions]: pkg/ssh/session_manager.go.
    - [Exec]: exec_service.go, the remote commands.
    - [MenuService]: menu_service.go, menu_repository.go.
    - [Access]: who may do what.  The reads and association updates of
      user_repository.go and role_repository.go over one relational view of
      the seven access tables ([Sql], [SqlLaws]), and the permission checks of
      auth_service.go.
    - [SessionRepo]: session_repository.go over Redis strings and sets ([Kv],
      [KvLaws]).
    - [Auth]: jwt.go, middleware/auth.go, aes_cryptojs.go and the rest of
      auth_service.go, on top of [Access], [SessionRepo] and [SshSessions].
    - [GoPath], [Shell]: package path, and how a POSIX shell splits a command
      into words; what the file service quotes.
    - [FileService]: files_service.go without disk usage: sessions, path
      checks, lists and pages, uploads, downloads, deleting and unpacking over
      an interface [FileHost] of the remote host.  [DiskUsage]: the rest of
      files_service.go and disk_usage_scheduler.go.
    - [Terminal]: terminal_service.go, on top of [WsPool] and [SshSessions].
      [TerminalConc]: goroutines that close terminals, lock by lock, while the
      rest of the service goes on.
    - [Users]: user_service.go, admin_service.go, the rest of
      user_repository.go and the checks of validator.go.
    - [Roles]: role_service.go, api_service.go and the rest of
      role_repository.go and api_repository.go.
    - [QueueSpec]: an abstract priority queue and the refinement of it by
      [Queue].  [QueueConc]: calls of [Enqueue] that overlap, one Redis command
      at a time.  [Liveness]: what follows when the process of a job is gone.
    - [SystemInfo]: systemInfo_repository.go and systemInfo_service.go over an
      interface [SysHost] of the server's commands and process table.
    - [Home]: home_service.go on top of [SystemInfo], [JobRepo] and [WsPool],
      with [time.ParseDuration].
    - [OperationLog]: middleware/operationLog.go, the two log repositories and
      services, the controller of the log pages, pkg/throttle.
    - [Http]: a handler as a function to a [Reply] (the responses it writes in
      order, and a panic), recovery.go, cors.go, the validator tags, utils.
    - [Routes]: internal/api/router.go and all route files: the table of routes
      with the middlewares in front of each, and how a request runs through it.
    - [AccountCtl] (api/v1/auth, user, admin), [FileCtl] (files), [JobCtl] (job,
      queue), [PermCtl] (permissionManage), [SystemCtl] (system, home,
      terminal): the controllers on top of the services, with the tags of
      their requests.
    - [SshClient]: pkg/server/client.go over an interface [SshLib] of the ssh
      and sftp libraries, whose laws account for the handles they give out.
    - [App]: internal/app/app.go, start and shutdown over the states of the
      components.  [Infra]: pkg/config, pkg/database, pkg/logger, pkg/email,
      middleware/logger.go and redis_repository.go over what viper, gorm, go-redis
      and gomail offer, and the life of the process from the configuration file
      to the closed databases.

    A Go function is a definition of the same name; methods that share a name
    carry a prefix ([repo_], [cache_], [job_]).  A function that returns
    [(T, error)] returns [result T]; one that may return a nil pointer returns
    an option in it.  A Go panic is the error [ErrPanic].  Log lines are left
    out but in [Infra].

    ** What the theorems show

    The properties are numbered C1 to C40 in the order of their importance;
    each carries its number in its comment.  By component:

    - Cards ([Gpu], [Concurrent]): acquisition is all or nothing and never gives
      a card twice; any number of servers, interleaved at every statement,
      refine an allocator that takes sets of idle cards as a whole, so that a
      card never goes from one job to another without having been idle.
    - Queue ([Queue], [QueueSpec], [QueueConc]): within 10^9 sequence numbers
      every sequence of requests with ids and priorities of the range behaves as
      the abstract queue, highest priority first, then first come; from an empty
      queue this order also holds for submissions that overlap on several
      servers, and a job that was removed stays out; scores stay bounded.
    - Jobs ([JobService]): submission and cancellation on every path;
      after a failure something is left only if the rollback itself failed.
    - Scheduler ([Scheduler], [SchedulerSpec], [Liveness]): in every
      interleaving of handlers with restarts and arbitrary failures of MySQL,
      Redis and the host, a job only moves forward and card rows stay
      consistent; what one round, a start, a monitor tick and a run of failing
      ticks do; a job whose process is gone gives its cards back.
    - Lock ([Lock]): no process touches the lock of another one; mutual
      exclusion when renewals are in time.
    - Connections ([WsPool], [WsPump], [SshSessions], [Terminal], [TerminalConc]): exact counting;
      an open connection was heard of within the last minute and a peer that
      answers pings is not cut off; frames carry what the buffer accepted in
      order; isolation of sessions by user and privilege; every PTY is that of
      an open terminal or in the hands of a goroutine that closes it, and the
      output of terminals is cut only between characters.
    - Access ([Access], [Auth]): root access and request permission
      are granted exactly to those the tables name, and never because a read
      failed; [Login] checks everything before it makes a token; a recovered
      session is open and of the user and the privilege that were asked for,
      which the caller has to check; passwords survive the way from
      the browser.  [SessionRepo] shows that metadata and credentials are read
      back as they were saved and credentials not after they expire.
    - Administration ([MenuService], [Users], [Roles]): complete menu trees,
      unique and well-formed roles and APIs, registration with its rollback,
      password changes only with the old password or the mailed code.
    - Files ([FileService], [DiskUsage], [Shell]): the text of an accepted path
      begins with that of the home directory, commands have the intended words
      whatever the path, pages equal a reference page while offsets fit an int,
      uploads leave no file behind but those the disk refuses to remove.
    - Server ([SystemInfo], [Home], [OperationLog]): the checker ends exactly
      the overdue processes and spares those of jobs and the retained ones; the
      overview shows every process once; log entries are saved in order.
    - Requests ([Routes], [AccountCtl], [FileCtl], [JobCtl], [PermCtl],
      [SystemCtl]): every route has the guards it needs and they decide; no
      sequence of account requests sends the host a command other than those on
      one alphanumeric account, as far as passwords have no line break; the file
      requests of a user without root access, but the list of all home
      directories, use his own session only, and delete and unpack on paths whose
      text begins with that of his home (or, for one archive name, its parent);
      he never gets a root terminal; registration, password changes, the removal of a job and the
      administration of roles and APIs on every path from the request.
    - SSH client ([SshClient]): bounded retries of transient errors only, and
      no connection, channel, session or file is ever left open.
    - Process ([App], [Infra]): a start that succeeds has the secrets of the
      environment and opened two pools; after any run a shutdown without requests
      ends, with every loop it waits for, and closes everything that is
      registered, the pools included if MySQL's can be closed; the sweeper of idle
      terminals is never stopped ([App.halted]); the Redis
      repository keeps the laws of the store its clients are written against.

    Concrete executions show where the code does less than its comments say:
    [Gpu.release_with_stale_cache_blocks_card], [Queue.enqueue_priority_overflow],
    [Queue.MoveBefore_precision_exhausted],
    [JobService.CancelJob_rollback_keeps_finish_time],
    [SchedulerSpec.recovery_double_monitor],
    [SchedulerSpec.graceful_restart_fails_running_job],
    [SchedulerSpec.executeJob_leaks_cards], [SchedulerSpec.ghost_job_blocks_queue],
    [SchedulerSpec.cancel_lost_in_start], [Lock.stalled_holder_overlaps],
    [WsPool.unknown_role_leaks], [WsPool.broadcast_close_race],
    [SshSessions.fallback_raises_privilege], [MenuService.Create_nil_parent_panics],
    [MenuService.Create_catalogue_keeps_parent], [Access.disabled_role_grants_requests],
    [Auth.decrypt_header_panics], [FileService.resolve_sibling],
    [FileService.resolve_sibling_relative], [FileService.unpack_beside],
    [FileService.huge_page_list],
    [FileService.huge_page_home], [DiskUsage.df_percent_mount],
    [DiskUsage.restart_dies], [Terminal.early_output_lost],
    [Terminal.sweep_closes_fresh_terminal], [Users.username_injection],
    [Users.password_injection], [Roles.role_slug_unchecked],
    [Roles.api_path_unchecked], [SystemInfo.retained_read_fails],
    [SystemInfo.cache_read_fails], [SystemInfo.limit_overflow],
    [SystemInfo.zero_limit], [Home.system_process_zero_seconds],
    [OperationLog.send_after_close], [Routes.all_disk_usage_unguarded],
    [AccountCtl.unconfirmed_change], [AccountCtl.unconfirmed_reset],
    [AccountCtl.long_password_refused], [AccountCtl.power_logs_success],
    [FileCtl.upload_conflict_dead], [JobCtl.cancel_failure_status],
    [JobCtl.ghost_after_remove], [JobCtl.empty_gpus_lost],
    [SshClient.terminal_error_lost], [App.late_terminal_survives],
    [App.no_cards_no_start], [App.disabled_server_no_start],
    [Concurrent.lost_race_loses_job], [Concurrent.late_release_frees_other],
    [WsPump.slow_write_cuts_off], [WsPump.long_input_closes],
    [WsPump.close_frame_lost], [Infra.secrets_printed], [Infra.failed_ping_leaks],
    [Infra.token_in_access_log], [Infra.sent_mail_logged_as_error].

    ** Granularity, bounds and fuel

    - [Scheduler.step] runs each handler body to its end before the next one
      starts.  Two handlers of the real server may overlap; the queue lock and
      the mutex of the process table exclude some overlaps, not all:
      [SchedulerSpec.cancel_lost_in_start] runs a cancellation between the
      reads and the writes of a start.  [Lock.step] is finer: every Redis
      command and every unit of time is a step of its own.  In [QueueConc] a step
      is one Redis command of one call.  In [Concurrent] there is no limit on
      overlaps: around every statement other parties may change the rows of the
      cards by any number of steps of the allocator, and no lock is assumed; the
      one condition is that the count and the update of [Acquire], which are in
      one transaction, see the same rows.  In [WsPump] a step is one turn of the
      loop of one goroutine or the passing of time.  In
      [TerminalConc] a goroutine that closes terminals gives way where it releases
      a lock.  In [App] a step is what a component does under its lock, closing a
      terminal being one step; the waits
      of the shutdown let the goroutines take turns ([wait_for]), as many as there
      are goroutines, and [wait_for_ends] shows that this is enough.  A goroutine
      that finds a tick and the cancelled context at once may take the tick first;
      the turn is the one in which it takes the context.
    - Statements on one table are atomic, a failed statement changes nothing,
      a transaction is undone on error; a reply that is lost after a commit is
      outside the laws of [External].
    - Integers of the program are [Z] with [wrap64] where a computation can
      leave the range.
    - Loops over lists are structural.  Fuel is used for the walk through menu
      trees, where the number of rows is proved to be enough, for the
      scanners of [GoStrings.drop_spaces] and [Exec.fields_loop], where it is
      the length of the text and every turn consumes a character, for the key
      derivation [Auth.evp_loop], where one digest per byte is more than
      enough, for the retries of [Exec.GetJobExitCode] and [SshClient.dial_loop], where it is
      the bound the code has,
      for [Users.rune_count] and [Home.duration_terms], where it is the length of
      the text, and for [Terminal.cut_loop] and [FileService.unit_loop], where it
      is the number of turns the loop has.

    ** What is not modelled

    The libraries: viper, gorm, go-redis, zap, gomail, base64Captcha, gin and the
    HTTP server of Go with the context of a request and its timeouts.  The SSH
    transport itself, JWT signatures, password hashes, ciphers, JSON and form
    decoding, the upgrade to a WebSocket, [nvidia-smi] and the process table come
    from libraries or the host as well and are parameters where a modelled part
    calls them.  The encoding of log entries, [With] and [Sync] of the logger are
    those of zap.  The shutdown is modelled without requests in flight, background
    uploads and the goroutines of connections, none of which it waits for.  What a read sees while a transaction of another connection is
    open depends on the isolation level of MySQL, which the code leaves at its
    default; [SharedTable] states what [Acquire] needs of it. *)

(** ** Shared prelude *)

From stdpp Require Export base gmap strings list fin_maps sorting.
From Stdlib Require Export ZArith Lia.

Open Scope Z_scope.

(** ** Errors and fallible results *)

(** The error values the code builds or compares: errors that come from a
    driver or the network ([ErrExt]), the sentinels [redis.Nil] and
    [gorm.ErrRecordNotFound], [fmt.Errorf] with and without [%w], the
    [*errors.BizError] of pkg/errors, the two errors of [strconv].  [ErrPanic] is not an
    error value: it marks a run that ends in a Go panic. *)
Inductive error : Type :=
  | ErrExt (n : nat)
  | ErrRedisNil
  | ErrRecordNotFound
  | ErrMsg (msg : string)
  | ErrWrap (msg : string) (inner : error)
  | ErrBiz (code : Z) (msg : string) (inner : option error)
  | ErrSyntax
  | ErrRange
  | ErrPanic (what : string).

(** A Go pair [(A, error)] whose callers look at the value only when the
    error is nil. *)
Inductive result (A : Type) : Type :=
  | Ok (a : A)
  | Err (e : error).
Arguments Ok {A} a.
Arguments Err {A} e.

Definition is_ok {A} (r : result A) : bool :=
  match r with Ok _ => true | Err _ => false end.

(** ** Stateful code *)

(** A computation over a state [W]: explicit state passing. *)
Definition M (W A : Type) : Type := W → W * A.

#[export] Instance M_ret (W : Type) : MRet (M W) := λ A a w, (w, a).
#[export] Instance M_bind (W : Type) : MBind (M W) :=
  λ A B k c w, let '(w', a) := c w in k a w'.

(** Run a computation on a component of the state. *)
Definition lift {W S A : Type} (get : W → S) (put : S → W → W) (c : M S A) : M W A :=
  λ w, let '(s, a) := c (get w) in (put s w, a).

(** Read the state; change it. *)
Definition gets {W A : Type} (f : W → A) : M W A := λ w, (w, f w).
Definition modify {W : Type} (f : W → W) : M W unit := λ w, (f w, tt).

(** [for _, x := range l { body }] without early exit. *)
Fixpoint for_each {W A : Type} (l : list A) (body : A → M W unit) : M W unit :=
  match l with
  | [] => mret tt
  | x :: l' => _ ← body x; for_each l' body
  end.

(** The same loop whose body may [return]: [Some b] leaves the loop. *)
Fixpoint for_ret {W A B : Type} (l : list A) (body : A → M W (option B)) : M W (option B) :=
  match l with
  | [] => mret None
  | x :: l' =>
      r ← body x;
      match r with
      | Some b => mret (Some b)
      | None => for_ret l' body
      end
  end.

(** The same loop collecting a value per element. *)
Fixpoint for_collect {W A B : Type} (l : list A) (body : A → M W B) : M W (list B) :=
  match l with
  | [] => mret []
  | x :: l' => b ← body x; bs ← for_collect l' body; mret (b :: bs)
  end.

(** ** Machine integers *)

(** Go's [int] and [int64] on the 64-bit targets of the program, and the
    conversion to [int32]. *)
Definition min_int64 : Z := - 2 ^ 63.
Definition max_int64 : Z := 2 ^ 63 - 1.
Definition in_int64 (z : Z) : bool := (min_int64 <=? z) && (z <=? max_int64).
Definition wrap64 (z : Z) : Z := (z + 2 ^ 63) mod 2 ^ 64 - 2 ^ 63.
Definition wrap32 (z : Z) : Z := (z + 2 ^ 31) mod 2 ^ 32 - 2 ^ 31.

(** A comparison function as a relation. *)
Definition brel {A : Type} (o : A → A → bool) : relation A := λ a b, o a b = true.
#[export] Instance brel_dec {A : Type} (o : A → A → bool) : RelDecision (brel o).
Proof. intros a b. unfold brel. apply _. Defined.

(** ** Tactics *)

(** Open a run of a monadic program: split binds, loops, lets and the
    matches that decide the result. *)
Ltac run_step :=
  match goal with
  | u : unit |- _ => destruct u
  | H : (_, _) = (_, _) |- _ => injection H as H; subst
  | H : mret _ _ = (_, _) |- _ => unfold mret, M_ret in H
  | H : mbind ?k ?c ?w = (_, _) |- _ =>
      unfold mbind, M_bind in H;
      let w' := fresh "w" in let a := fresh "a" in let E := fresh "E" in
      destruct (c w) as [w' a] eqn:E
  | H : match ?c with pair _ _ => _ end = (_, _) |- _ =>
      let w' := fresh "w" in let a := fresh "a" in let E := fresh "E" in
      destruct c as [w' a] eqn:E
  | H : lift ?g ?p ?c ?w = (_, _) |- _ =>
      unfold lift in H;
      let s := fresh "s" in let a := fresh "a" in let E := fresh "E" in
      destruct (c (g w)) as [s a] eqn:E
  | H : gets _ _ = (_, _) |- _ => unfold gets in H
  | H : modify _ _ = (_, _) |- _ => unfold modify in H
  | H : context [match ?x with Ok _ => _ | Err _ => _ end] |- _ =>
      is_var x; destruct x
  end.
Ltac run_inv := repeat (run_step; simplify_eq/=).

Create HintDb cloudque.

(** ** Machine-integer lemmas *)

Lemma in_int64_spec z : in_int64 z = true ↔ min_int64 ≤ z ≤ max_int64.
Proof. unfold in_int64. rewrite andb_true_iff, !Z.leb_le. tauto. Qed.

Lemma wrap64_small z : min_int64 ≤ z ≤ max_int64 → wrap64 z = z.
Proof. unfold wrap64, min_int64, max_int64. intros. rewrite Z.mod_small; lia. Qed.

Lemma wrap64_range z : min_int64 ≤ wrap64 z ≤ max_int64.
Proof.
  unfold wrap64, min_int64, max_int64.
  pose proof (Z.mod_pos_bound (z + 2 ^ 63) (2 ^ 64)). lia.
Qed.

Lemma wrap32_small z : - 2 ^ 31 ≤ z < 2 ^ 31 → wrap32 z = z.
Proof. unfold wrap32. intros. rewrite Z.mod_small; lia. Qed.

(** A run whose result is known. *)
Lemma run_eq {W A : Type} (p : W * A) (a : A) : snd p = a → p = (fst p, a).
Proof. destruct p. by intros <-. Qed.

(** ** Frames *)

(** The computation leaves the observation [f] of the state alone. *)
Definition keeps {W A X : Type} (f : W → X) (c : M W A) : Prop :=
  ∀ w w' a, c w = (w', a) → f w' = f w.

Section Keeps.
Context {W X : Type} (f : W → X).

Lemma keeps_ret {A} (a : A) : keeps f (mret a).
Proof. by intros w w' b [= <- <-]. Qed.

Lemma keeps_gets {A} (g : W → A) : keeps f (gets g).
Proof. by intros w w' b [= <- <-]. Qed.

Lemma keeps_bind {A B'} (c : M W A) (k : A → M W B') :
  keeps f c → (∀ a, keeps f (k a)) → keeps f (c ≫= k).
Proof.
  intros Hc Hk w w' b H. run_inv. apply Hk in H. apply Hc in E. congruence.
Qed.

Lemma keeps_for_each {A} (l : list A) body :
  (∀ x, keeps f (body x)) → keeps f (for_each l body).
Proof.
  intros Hb. induction l as [|x l IH]; cbn; [apply keeps_ret|].
  by apply keeps_bind.
Qed.

Lemma keeps_for_ret {A B'} (l : list A) (body : A → M W (option B')) :
  (∀ x, keeps f (body x)) → keeps f (for_ret l body).
Proof.
  intros Hb. induction l as [|x l IH]; cbn; [apply keeps_ret|].
  apply keeps_bind; [done|]. intros [b|]; [apply keeps_ret|done].
Qed.

Lemma keeps_for_collect {A B'} (l : list A) (body : A → M W B') :
  (∀ x, keeps f (body x)) → keeps f (for_collect l body).
Proof.
  intros Hb. induction l as [|x l IH]; cbn; [apply keeps_ret|].
  apply keeps_bind; [done|]. intros b. apply keeps_bind; [done|]. intros. apply keeps_ret.
Qed.

Lemma keeps_lift {S A} (get : W → S) (put : S → W → W) (c : M S A) :
  (∀ x w, f (put x w) = f w) → keeps f (lift get put c).
Proof. intros Hp w w' a H. run_inv. apply Hp. Qed.

Lemma keeps_lift_in {S A} (g : S → X) (get : W → S) (put : S → W → W) (c : M S A) :
  (∀ x w, f (put x w) = g x) → (∀ w, f w = g (get w)) → keeps g c → keeps f (lift get put c).
Proof. intros Hp Hg Hc w w' a H. run_inv. rewrite Hp, Hg. by eapply Hc. Qed.
End Keeps.

Create HintDb keeps.

Ltac solve_keeps :=
  repeat first
    [ progress intros
    | apply keeps_ret
    | apply keeps_gets
    | solve [eauto with keeps]
    | apply keeps_bind
    | apply keeps_for_each
    | apply keeps_for_ret
    | apply keeps_for_collect
    | progress cbv zeta
    | case_match ].

(** The fact that the run [E] leaves the observation [f] alone. *)
Ltac frame_fact f E :=
  match type of E with
  | ?c ?w = (?w', _) =>
      let H := fresh "K" in
      assert (f w' = f w) as H by (refine ((_ : keeps f c) _ _ _ E); solve_keeps)
  end.

(** ** Steps within a preorder *)

(** Every run of the computation moves the state along [R]. *)
Definition respects {W A : Type} (R : relation W) (c : M W A) : Prop :=
  ∀ w w' a, c w = (w', a) → R w w'.

Section Respects.
Context {W : Type} (R : relation W) `{!PreOrder R}.

Lemma respects_ret {A} (a : A) : respects R (mret a).
Proof. by intros w w' b [= <- <-]. Qed.

Lemma respects_gets {A} (g : W → A) : respects R (gets g).
Proof. by intros w w' b [= <- <-]. Qed.

Lemma respects_bind {A B'} (c : M W A) (k : A → M W B') :
  respects R c → (∀ a, respects R (k a)) → respects R (c ≫= k).
Proof.
  intros Hc Hk w w' b H. run_inv. apply Hk in H. apply Hc in E. by etrans.
Qed.

Lemma respects_for_each {A} (l : list A) body :
  (∀ x, respects R (body x)) → respects R (for_each l body).
Proof.
  intros Hb. induction l as [|x l IH]; cbn; [apply respects_ret|].
  by apply respects_bind.
Qed.

Lemma respects_for_ret {A B'} (l : list A) (body : A → M W (option B')) :
  (∀ x, respects R (body x)) → respects R (for_ret l body).
Proof.
  intros Hb. induction l as [|x l IH]; cbn; [apply respects_ret|].
  apply respects_bind; [done|]. intros [b|]; [apply respects_ret|done].
Qed.

(** A loop whose body needs a precondition that the relation keeps. *)
Lemma for_each_pre {A} (P : A → W → Prop) (l : list A) body :
  (∀ x w w' u, x ∈ l → P x w → body x w = (w', u) → R w w') →
  (∀ x w w', P x w → R w w' → P x w') →
  ∀ w w' u, (∀ x, x ∈ l → P x w) → for_each l body w = (w', u) → R w w'.
Proof.
  intros Hb HP. induction l as [|x l IH]; intros w w' u Hl H; cbn in H; [by run_inv|].
  run_inv. assert (R w w0) as H1 by (eapply Hb; [by left|apply Hl; by left|done]).
  etrans; [exact H1|]. eapply IH; [|intros y Hy; eapply HP; [apply Hl; by right|done]|done].
  intros y v v' u' Hy. apply Hb. by right.
Qed.
End Respects.

(** ** Runs with a result *)

Lemma bind_inv {W A B : Type} (c : M W A) (k : A → M W B) w w' b :
  (c ≫= k) w = (w', b) → ∃ w1 a, c w = (w1, a) ∧ k a w1 = (w', b).
Proof. intros H. unfold mbind, M_bind in H. destruct (c w) as [w1 a]. by exists w1, a. Qed.

(** A run moves the state along [R] and its result satisfies [Q]. *)
Definition triple {W A : Type} (R : relation W) (Q : A → Prop) (c : M W A) : Prop :=
  ∀ w w' a, c w = (w', a) → R w w' ∧ Q a.

Section Triples.
Context {W : Type} (R : relation W) `{!PreOrder R}.

Lemma triple_ret {A} (Q : A → Prop) a : Q a → triple R Q (mret a).
Proof. intros Ha w w' b [= <- <-]. split; [reflexivity|done]. Qed.

Lemma triple_bind {A B'} (Q1 : A → Prop) (Q : B' → Prop) (c : M W A) (k : A → M W B') :
  triple R Q1 c → (∀ a, Q1 a → triple R Q (k a)) → triple R Q (c ≫= k).
Proof.
  intros Hc Hk w w' b (w1 & a & E1 & E2)%bind_inv. apply Hc in E1 as [H1 Ha].
  apply (Hk _ Ha) in E2 as [H2 Hb]. split; [by etrans|done].
Qed.

Lemma triple_weaken {A} (Q1 Q : A → Prop) (c : M W A) :
  triple R Q1 c → (∀ a, Q1 a → Q a) → triple R Q c.
Proof. intros Hc HQ w w' a E. apply Hc in E as [? ?]. eauto. Qed.

Lemma triple_gets {A} (g : W → A) : triple R (λ _, True) (gets g).
Proof. intros w w' b [= <- <-]. split; [reflexivity|done]. Qed.
End Triples.

(** From states that satisfy [P]: the run keeps [P], moves the state along
    [R] and its result satisfies [Q]. *)
Definition hoare {W A : Type} (P : W → Prop) (R : relation W) (Q : A → Prop) (c : M W A) : Prop :=
  ∀ w w' a, P w → c w = (w', a) → P w' ∧ R w w' ∧ Q a.

Section Hoare.
Context {W : Type} (P : W → Prop) (R : relation W) `{!PreOrder R}.

Lemma hoare_ret {A} (Q : A → Prop) a : Q a → hoare P R Q (mret a).
Proof. intros Ha w w' b Hw [= <- <-]. split; [done|]. split; [reflexivity|done]. Qed.

Lemma hoare_bind {A B'} (Q1 : A → Prop) (Q : B' → Prop) (c : M W A) (k : A → M W B') :
  hoare P R Q1 c → (∀ a, Q1 a → hoare P R Q (k a)) → hoare P R Q (c ≫= k).
Proof.
  intros Hc Hk w w' b Hw (w1 & a & E1 & E2)%bind_inv. apply Hc in E1 as (H1 & HR & Ha); [|done].
  apply (Hk _ Ha) in E2 as (H2 & HR' & Hb); [|done]. split_and!; [done|by etrans|done].
Qed.

Lemma hoare_any {A} (Q : A → Prop) (c : M W A) : hoare P R Q c → hoare P R (λ _, True) c.
Proof. intros Hc w w' a Hw E. apply Hc in E as (? & ? & _); [|done]. by split. Qed.
End Hoare.

(** ** Waiting *)

(** [sync.WaitGroup.Wait]: the other goroutines take their turns until the
    counter is zero; [None] if it still waits after [n] of them. *)
Fixpoint wait_for {S : Type} (done : S → bool) (turn : S → S) (n : nat) (s : S) : option S :=
  if done s then Some s
  else match n with O => None | Datatypes.S n => wait_for done turn n (turn s) end.

(** A wait ends where every turn brings the end nearer. *)
Lemma wait_for_ends {S} (done : S → bool) (turn : S → S) (P : S → Prop) (left : S → nat) n s :
  (∀ x, P x → done x = false → P (turn x) ∧ (left (turn x) < left x)%nat) →
  P s → (left s ≤ n)%nat → ∃ s', wait_for done turn n s = Some s' ∧ done s' = true ∧ P s'.
Proof.
  intros Ht. revert s. induction n as [|n IH]; intros s Hs Hn; cbn; destruct (done s) eqn:Hd; eauto;
    destruct (Ht s Hs Hd); [lia|]. apply IH; [done|lia].
Qed.

Create HintDb hoare.

(** Follow the program: a hint for each call, then its branches. *)
Ltac solve_hoare :=
  repeat first
    [ progress intros
    | apply hoare_ret; [apply _|by eauto]
    | solve [eauto with hoare]
    | eapply hoare_bind; [apply _|solve [eauto with hoare]|]
    | progress cbv zeta
    | progress cbn beta iota in *
    | case_match ].

Ltac tret := apply triple_ret; [apply _|].
Tactic Notation "tbind" constr(L) := eapply triple_bind; [apply _|apply L|].
(** Open the first bind of a run. *)
Tactic Notation "open_bind" hyp(H) "as" ident(w) simple_intropattern(a) ident(E) :=
  apply bind_inv in H as (w & a & E & H).

Create HintDb respects.

Ltac solve_respects :=
  repeat first
    [ progress intros
    | assumption
    | apply respects_ret; [apply _]
    | apply respects_gets; [apply _]
    | solve [eauto with respects]
    | apply respects_bind; [apply _| |]
    | apply respects_for_each; [apply _|]
    | apply respects_for_ret; [apply _|]
    | progress cbv zeta
    | case_match ].
