(* ===== verification/GoStrings.v ===== *)
(** * The parts of Go's strings and strconv packages the program uses

    Go strings are byte sequences: a [string] here is a sequence of 8-bit
    characters, so a UTF-8 text is the sequence of its bytes. *)

From Stdlib Require Import Ascii Decimal DecimalString DecimalZ DecimalFacts.
From S2P Require Import Prelude.

(** ** strconv *)

(** [strconv.Itoa]. *)
Definition Itoa (z : Z) : string := NilZero.string_of_int (Z.to_int z).

(** [strconv.Atoi]: an optional sign, then at least one decimal digit, and
    nothing else; the value must fit an [int]. *)
Definition parse_int (s : string) : option Z :=
  match s with
  | String "+" r => Z.of_uint <$> NilZero.uint_of_string r
  | _ => Z.of_int <$> NilZero.int_of_string s
  end.

Definition Atoi (s : string) : result Z :=
  match parse_int s with
  | None => Err ErrSyntax
  | Some z => if in_int64 z then Ok z else Err ErrRange
  end.

(** ** strings *)

(** [strings.Split] with a one-byte separator: never the empty list. *)
Fixpoint Split (c : ascii) (s : string) : list string :=
  match s with
  | EmptyString => [EmptyString]
  | String x r =>
      if Ascii.eqb x c then EmptyString :: Split c r
      else match Split c r with
           | [] => [String x EmptyString]
           | h :: t => String x h :: t
           end
  end.

(** The separators the program splits at. *)
Notation comma := (","%char) (only parsing).
Notation newline := ("010"%char) (only parsing).
Notation space := (" "%char) (only parsing).
Notation hyphen := ("-"%char) (only parsing).
Notation colon := (":"%char) (only parsing).

(** [strings.Join]. *)
Fixpoint Join (sep : string) (l : list string) : string :=
  match l with
  | [] => EmptyString
  | [s] => s
  | s :: l' => s +:+ (sep +:+ Join sep l')
  end.

(** The encodings of the white-space code points that [unicode.IsSpace]
    accepts, as byte sequences. *)
Definition bytes_of (l : list nat) : list ascii := map ascii_of_nat l.
Definition space_encodings : list (list ascii) :=
  map bytes_of
    ([[9]; [10]; [11]; [12]; [13]; [32]; [194; 133]; [194; 160]; [225; 154; 128];
      [226; 128; 128]; [226; 128; 129]; [226; 128; 130]; [226; 128; 131];
      [226; 128; 132]; [226; 128; 133]; [226; 128; 134]; [226; 128; 135];
      [226; 128; 136]; [226; 128; 137]; [226; 128; 138]; [226; 128; 168];
      [226; 128; 169]; [226; 128; 175]; [226; 129; 159]; [227; 128; 128]])%nat.

(** Drop one occurrence of a prefix. *)
Fixpoint strip_prefix (p l : list ascii) : option (list ascii) :=
  match p, l with
  | [], _ => Some l
  | x :: p', y :: l' => if Ascii.eqb x y then strip_prefix p' l' else None
  | _ :: _, [] => None
  end.

Fixpoint first_some {A B : Type} (f : A → option B) (l : list A) : option B :=
  match l with
  | [] => None
  | x :: l' => match f x with Some b => Some b | None => first_some f l' end
  end.

(** Drop leading encodings; the fuel is the length, every encoding dropped
    is at least one byte. *)
Fixpoint drop_spaces (enc : list (list ascii)) (fuel : nat) (l : list ascii) : list ascii :=
  match fuel with
  | O => l
  | S n =>
      match first_some (λ e, strip_prefix e l) enc with
      | Some l' => drop_spaces enc n l'
      | None => l
      end
  end.

(** [strings.TrimSpace]. *)
Definition TrimSpace (s : string) : string :=
  let l := String.list_ascii_of_string s in
  let l1 := drop_spaces space_encodings (length l) l in
  let l2 := reverse (drop_spaces (reverse <$> space_encodings) (length l1) (reverse l1)) in
  String.string_of_list_ascii l2.

(** [strings.HasPrefix]. *)
Definition HasPrefix (s p : string) : bool := String.prefix p s.

(** ** Examples *)

Example itoa_neg : Itoa (-42) = "-42"%string.
Proof. reflexivity. Qed.
Example atoi_plus : Atoi "+007" = Ok 7.
Proof. reflexivity. Qed.
Example atoi_empty : Atoi "" = Err ErrSyntax.
Proof. reflexivity. Qed.
Example atoi_range : Atoi "9223372036854775808" = Err ErrRange.
Proof. reflexivity. Qed.
Example split_ex : Split "," "1,,2" = ["1"; ""; "2"]%string.
Proof. reflexivity. Qed.
Example trim_ex : TrimSpace "  a b   " = "a b"%string.
Proof. vm_compute. reflexivity. Qed.

(** ** Round trips *)

Lemma Itoa_parse z : parse_int (Itoa z) = Some z.
Proof.
  assert (NilZero.int_of_string (Itoa z) = Some (Z.to_int z)) as H.
  { unfold Itoa. apply NilZero.isi; destruct z as [|p|p]; cbn; try done;
      intros [=H]; by apply (DecimalPos.Unsigned.to_uint_nonnil p). }
  assert (parse_int (Itoa z) = Z.of_int <$> NilZero.int_of_string (Itoa z)) as ->.
  { unfold parse_int, Itoa. destruct (Z.to_int z) as [d|d]; cbn; [|done].
    unfold NilZero.string_of_uint. by destruct d. }
  rewrite H. cbn. by rewrite DecimalZ.of_to.
Qed.

Lemma Atoi_Itoa z : in_int64 z = true → Atoi (Itoa z) = Ok z.
Proof. intros H. unfold Atoi. by rewrite Itoa_parse, H. Qed.

#[export] Instance Itoa_inj : Inj (=) (=) Itoa.
Proof. intros x y H. apply (f_equal parse_int) in H. rewrite !Itoa_parse in H. congruence. Qed.

(** Every character of a decimal numeral satisfies [P]. *)
Fixpoint all_chars (P : ascii → bool) (s : string) : bool :=
  match s with
  | EmptyString => true
  | String c r => P c && all_chars P r
  end.

Definition is_num_char (c : ascii) : bool :=
  let n := nat_of_ascii c in ((48 <=? n) && (n <=? 57) || (n =? 45))%nat.

Lemma uint_chars d : all_chars is_num_char (NilEmpty.string_of_uint d) = true.
Proof. by induction d. Qed.

Lemma Itoa_chars z : all_chars is_num_char (Itoa z) = true.
Proof.
  assert (∀ d, all_chars is_num_char (NilZero.string_of_uint d) = true) as Hu.
  { intros []; try apply uint_chars. done. }
  unfold Itoa. destruct (Z.to_int z) as [d|d]; cbn; by rewrite Hu.
Qed.

Lemma Itoa_nonempty z : Itoa z ≠ EmptyString.
Proof. intros H. pose proof (Itoa_parse z) as Hp. by rewrite H in Hp. Qed.

Lemma Split_no_sep c s : all_chars (λ x, negb (Ascii.eqb x c)) s = true → Split c s = [s].
Proof.
  induction s as [|x r IH]; [done|]. cbn [Split all_chars]. intros H.
  apply andb_true_iff in H as [H1 H2]. apply negb_true_iff in H1. by rewrite H1, IH.
Qed.

Lemma Split_app c s r :
  all_chars (λ x, negb (Ascii.eqb x c)) s = true →
  Split c (s +:+ String c r) = s :: Split c r.
Proof.
  induction s as [|x s IH]; cbn [Split all_chars]; intros H.
  - change (EmptyString +:+ String c r) with (String c r). cbn [Split].
    by rewrite Ascii.eqb_refl.
  - apply andb_true_iff in H as [H1 H2]. apply negb_true_iff in H1.
    change (String x s +:+ String c r) with (String x (s +:+ String c r)). cbn [Split].
    by rewrite H1, IH.
Qed.

(** Splitting a joined list of separator-free strings gives the list. *)
Lemma Split_Join c (l : list string) :
  l ≠ [] → Forall (λ s, all_chars (λ x, negb (Ascii.eqb x c)) s = true) l →
  Split c (Join (String c EmptyString) l) = l.
Proof.
  intros Hne HF. induction HF as [|s l Hs HF IH]; [done|].
  destruct l as [|s' l]; [by apply Split_no_sep|].
  change (Split c (s +:+ String c (Join (String c EmptyString) (s' :: l))) = s :: s' :: l).
  rewrite Split_app by done. by rewrite IH.
Qed.

Lemma all_chars_impl (P Q : ascii → bool) s :
  (∀ c, P c = true → Q c = true) → all_chars P s = true → all_chars Q s = true.
Proof.
  intros HPQ. induction s as [|c s IH]; [done|]. cbn.
  rewrite !andb_true_iff. intros [? ?]. auto.
Qed.

(** Numerals are not white space, so [TrimSpace] leaves them alone. *)
Lemma num_no_space c l enc :
  is_num_char c = true → enc ∈ space_encodings → strip_prefix enc (c :: l) = None.
Proof.
  intros Hc He. destruct enc as [|x enc].
  - exfalso. cbn in He. by repeat (apply elem_of_cons in He as [He|He]; [done|]); inversion He.
  - cbn. destruct (Ascii.eqb_spec x c) as [->|]; [exfalso|done].
    cbn in He. repeat (apply elem_of_cons in He as [[= -> ->]|He]; [done|]). inversion He.
Qed.

Lemma num_no_space_rev c l enc :
  is_num_char c = true → enc ∈ (reverse <$> space_encodings) → strip_prefix enc (c :: l) = None.
Proof.
  intros Hc He. destruct enc as [|x enc].
  - exfalso. cbn in He. by repeat (apply elem_of_cons in He as [He|He]; [done|]); inversion He.
  - cbn. destruct (Ascii.eqb_spec x c) as [->|]; [exfalso|done].
    cbn in He. repeat (apply elem_of_cons in He as [[= -> ->]|He]; [done|]). inversion He.
Qed.

Lemma first_some_None {A B} (f : A → option B) l :
  (∀ x, x ∈ l → f x = None) → first_some f l = None.
Proof.
  induction l as [|x l IH]; [done|]. intros H. cbn.
  assert (f x = None) as -> by (apply H; left). apply IH. intros y Hy. apply H. by right.
Qed.

Lemma drop_spaces_head enc n c l :
  (∀ e, e ∈ enc → strip_prefix e (c :: l) = None) → drop_spaces enc n (c :: l) = c :: l.
Proof. intros H. destruct n; [done|]. cbn. by rewrite first_some_None. Qed.

Lemma all_chars_Forall P s :
  all_chars P s = true ↔ Forall (λ c, P c = true) (String.list_ascii_of_string s).
Proof.
  induction s as [|c s IH]; cbn; [done|].
  rewrite andb_true_iff, IH, Forall_cons. done.
Qed.

Lemma TrimSpace_num s : all_chars is_num_char s = true → TrimSpace s = s.
Proof.
  rewrite all_chars_Forall. unfold TrimSpace.
  set (l := String.list_ascii_of_string s). intros HF.
  assert (drop_spaces space_encodings (length l) l = l) as ->.
  { destruct HF as [|c l' Hc]; [done|].
    apply drop_spaces_head. intros. by apply num_no_space. }
  assert (drop_spaces (reverse <$> space_encodings) (length l) (reverse l) = reverse l) as ->.
  { assert (Forall (λ c, is_num_char c = true) (reverse l)) as HR by by apply Forall_reverse.
    destruct HR as [|c l' Hc]; [by destruct (length l)|].
    apply drop_spaces_head. intros. by apply num_no_space_rev. }
  rewrite reverse_involutive. apply String.string_of_list_ascii_of_string.
Qed.

(** A list of ids printed with commas and read back field by field. *)
Lemma Itoa_no_comma z : all_chars (λ x, negb (Ascii.eqb x ",")) (Itoa z) = true.
Proof.
  eapply all_chars_impl; [|apply Itoa_chars].
  intros c Hc. apply negb_true_iff. by destruct (Ascii.eqb_spec c ",") as [->|].
Qed.

Lemma Split_Join_Itoa (ids : list Z) :
  ids ≠ [] → Split "," (Join "," (Itoa <$> ids)) = Itoa <$> ids.
Proof.
  intros Hne. apply Split_Join; [by destruct ids|].
  apply Forall_fmap, Forall_true. intros z. apply Itoa_no_comma.
Qed.

Lemma Join_Itoa_nonempty (ids : list Z) : ids ≠ [] → Join "," (Itoa <$> ids) ≠ EmptyString.
Proof.
  destruct ids as [|z [|z' l]]; [done| |]; intros _ H; cbn in H.
  - by apply Itoa_nonempty in H.
  - destruct (Itoa z) eqn:E; [by apply Itoa_nonempty in E|done].
Qed.

(** A numeral of a natural number has no sign. *)
Lemma Itoa_nonneg_no_minus z :
  0 ≤ z → all_chars (λ x, negb (Ascii.eqb x hyphen)) (Itoa z) = true.
Proof.
  assert (∀ d, all_chars (λ x, negb (Ascii.eqb x hyphen)) (NilEmpty.string_of_uint d) = true) as Hu.
  { by induction d. }
  intros Hz. unfold Itoa. destruct z as [|q|q]; [done| |lia]. cbn.
  destruct (Pos.to_uint q) eqn:E; try apply Hu. done.
Qed.

(** A numeral followed by a line feed, as a shell prints it. *)
Lemma TrimSpace_num_newline s :
  all_chars is_num_char s = true → s ≠ EmptyString →
  TrimSpace (s +:+ String newline EmptyString) = s.
Proof.
  rewrite all_chars_Forall. intros HF Hne. unfold TrimSpace.
  assert (∀ s t, String.list_ascii_of_string (s +:+ t) =
                 String.list_ascii_of_string s ++ String.list_ascii_of_string t) as Happ.
  { induction s0 as [|c s0 IH]; intros t; [done|].
    change (String c s0 +:+ t) with (String c (s0 +:+ t)). cbn. by rewrite IH. }
  rewrite Happ. cbn [String.list_ascii_of_string].
  set (l := String.list_ascii_of_string s) in *.
  assert (l ≠ []) as Hl by (unfold l; by destruct s).
  assert (drop_spaces space_encodings (length (l ++ [newline])) (l ++ [newline]) = l ++ [newline]) as ->.
  { destruct HF as [|c l' Hc]; [done|]. apply drop_spaces_head. intros. by apply num_no_space. }
  rewrite reverse_snoc, length_app. cbn [length]. rewrite Nat.add_1_r.
  assert (drop_spaces (reverse <$> space_encodings) (S (length l)) (newline :: reverse l) =
          drop_spaces (reverse <$> space_encodings) (length l) (reverse l)) as -> by done.
  assert (drop_spaces (reverse <$> space_encodings) (length l) (reverse l) = reverse l) as ->.
  { assert (Forall (λ c, is_num_char c = true) (reverse l)) as HR by by apply Forall_reverse.
    destruct HR as [|c l' Hc]; [by destruct (length l)|].
    apply drop_spaces_head. intros. by apply num_no_space_rev. }
  rewrite reverse_involutive. apply String.string_of_list_ascii_of_string.
Qed.
