(* ===== verification/Float64.v ===== *)
(** * Go's float64 for queue scores

    Every finite IEEE-754 double is an integer multiple of 2^-1074, so a
    finite [float64] is represented by that integer.  A sum or difference is
    the exact integer result rounded to 53 significant bits, ties to even.
    Infinities are not represented: [Queue] proves that every score the
    program computes stays below 2^91, far from the overflow threshold. *)

From S2P Require Import Prelude.

Definition float64 : Type := Z.

(** One unit (the value 1.0). *)
Definition f_one : Z := 2 ^ 1074.

(** Nearest integer to [n / m], ties to even, for [m > 0]. *)
Definition rne_div (n m : Z) : Z :=
  let q := n / m in
  let r := n mod m in
  if 2 * r <? m then q
  else if m <? 2 * r then q + 1
  else if Z.even q then q else q + 1.

(** Rounding to 53 significant bits. *)
Definition round_pos (n : Z) : Z :=
  if n <? 2 ^ 53 then n
  else let m := 2 ^ (Z.log2 n - 52) in rne_div n m * m.
Definition round64 (n : Z) : Z :=
  if n <? 0 then - round_pos (- n) else round_pos n.

(** The conversions and operations the queue uses: [float64(i)],
    [int(x)], [+], [-] and [x / 2]. *)
Definition f_of_int (z : Z) : float64 := round64 (z * f_one).
Definition f_to_int (x : float64) : Z := Z.quot x f_one.
Definition f_add (x y : float64) : float64 := round64 (x + y).
Definition f_sub (x y : float64) : float64 := round64 (x - y).
Definition f_half (x : float64) : float64 := rne_div x 2.

(** [x / d] for a positive integer constant [d]. *)
Definition round_quot (n d : Z) : Z :=
  if n / d <? 2 ^ 53 then rne_div n d
  else let m := 2 ^ (Z.log2 (n / d) - 52) in rne_div n (d * m) * m.
Definition f_div_const (x : float64) (d : Z) : float64 :=
  if x <? 0 then - round_quot (- x) d else round_quot x d.

(** ** Durations *)

(** [t.Sub(u)] on instants in nanoseconds saturates at the limits of
    [time.Duration]. *)
Definition dur_sub (t u : Z) : Z := Z.max min_int64 (Z.min max_int64 (t - u)).
(** [int(d.Seconds())]: whole seconds plus the fraction, in floating point,
    truncated. *)
Definition dur_seconds (d : Z) : Z :=
  f_to_int (f_add (f_of_int (Z.quot d (10 ^ 9)))
                  (f_div_const (f_of_int (Z.rem d (10 ^ 9))) (10 ^ 9))).
(** The zero [time.Time], in nanoseconds from the Unix epoch. *)
Definition zero_time : Z := - 62135596800 * 10 ^ 9.

(** ** Rounding division *)

Lemma rne_div_bounds n m : 0 < m → n / m ≤ rne_div n m ≤ n / m + 1.
Proof.
  intros. unfold rne_div.
  destruct (2 * (n mod m) <? m), (m <? 2 * (n mod m)), (Z.even (n / m)); lia.
Qed.

Lemma rne_div_exact k m : 0 < m → rne_div (k * m) m = k.
Proof.
  intros. unfold rne_div. rewrite Z.div_mul, Z.mod_mul by lia.
  destruct (Z.ltb_spec (2 * 0) m); [done|lia].
Qed.

Lemma rne_div_mono n1 n2 m : 0 < m → n1 ≤ n2 → rne_div n1 m ≤ rne_div n2 m.
Proof.
  intros Hm Hn. pose proof (Z.div_le_mono n1 n2 m Hm Hn) as Hq.
  pose proof (rne_div_bounds n1 m Hm). pose proof (rne_div_bounds n2 m Hm).
  destruct (Z.eq_dec (n1 / m) (n2 / m)) as [Heq|]; [|lia].
  assert (n1 mod m ≤ n2 mod m) as Hr.
  { rewrite !Z.mod_eq by lia. rewrite Heq. lia. }
  unfold rne_div in *. rewrite Heq in *.
  destruct (Z.ltb_spec (2 * (n1 mod m)) m), (Z.ltb_spec m (2 * (n1 mod m))),
    (Z.ltb_spec (2 * (n2 mod m)) m), (Z.ltb_spec m (2 * (n2 mod m))),
    (Z.even (n2 / m)); lia.
Qed.

(** ** Representable values *)

Definition representable (n : Z) : Prop :=
  ∃ m e, n = m * 2 ^ e ∧ Z.abs m ≤ 2 ^ 53 ∧ 0 ≤ e.

Lemma representable_small n : Z.abs n ≤ 2 ^ 53 → representable n.
Proof. intros. exists n, 0. lia. Qed.

Lemma representable_opp n : representable n → representable (- n).
Proof. intros (m & e & -> & ? & ?). exists (- m), e. lia. Qed.

Lemma representable_scale n k : 0 ≤ k → representable n → representable (n * 2 ^ k).
Proof.
  intros Hk (m & e & -> & ? & ?). exists m, (e + k).
  rewrite Z.pow_add_r by lia. lia.
Qed.

Lemma round_pos_exact n : 0 ≤ n → representable n → round_pos n = n.
Proof.
  intros Hn (m & e & Heq & Hm & He). unfold round_pos.
  destruct (Z.ltb_spec n (2 ^ 53)) as [|Hbig]; [done|].
  assert (0 < 2 ^ e) as Hpe by (apply Z.pow_pos_nonneg; lia).
  assert (0 ≤ m ≤ 2 ^ 53) as Hm' by nia.
  set (k := Z.log2 n - 52).
  assert (0 ≤ k) as Hk.
  { unfold k. pose proof (Z.log2_le_mono (2 ^ 53) n Hbig) as Hl.
    rewrite Z.log2_pow2 in Hl by lia. lia. }
  assert (∃ j, n = j * 2 ^ k) as [j Hj].
  { destruct (Z.eq_dec m (2 ^ 53)) as [->|].
    - assert (n = 2 ^ (53 + e)) as Hn2 by (rewrite Z.pow_add_r by lia; lia).
      exists (2 ^ (53 + e - k)). rewrite <- Z.pow_add_r; [|unfold k; rewrite Hn2, Z.log2_pow2 by lia; lia|done].
      rewrite Hn2. f_equal. lia.
    - assert (n < 2 ^ (53 + e)) as Hlt by (rewrite Z.pow_add_r by lia; nia).
      apply Z.log2_lt_pow2 in Hlt; [|lia].
      exists (m * 2 ^ (e - k)). rewrite <- Z.mul_assoc, <- Z.pow_add_r by lia.
      rewrite Heq. do 2 f_equal. lia. }
  rewrite Hj. rewrite rne_div_exact; [done|]. apply Z.pow_pos_nonneg; lia.
Qed.

Lemma round64_exact n : representable n → round64 n = n.
Proof.
  intros H. unfold round64. destruct (Z.ltb_spec n 0).
  - rewrite round_pos_exact; [lia|lia|by apply representable_opp].
  - by apply round_pos_exact.
Qed.

(** Rounding stays inside the binade, its upper end included. *)
Lemma round_pos_binade k n :
  52 ≤ k → 2 ^ k ≤ n < 2 ^ (k + 1) → 2 ^ k ≤ round_pos n ≤ 2 ^ (k + 1).
Proof.
  intros Hk [H1 H2]. unfold round_pos.
  destruct (Z.ltb_spec n (2 ^ 53)); [lia|].
  assert (Z.log2 n = k) as ->.
  { apply Z.log2_unique; [lia|]. by rewrite <- Z.add_1_r. }
  set (m := 2 ^ (k - 52)).
  assert (0 < m) as Hm by (apply Z.pow_pos_nonneg; lia).
  assert (2 ^ k = 2 ^ 52 * m) as Hl by (unfold m; rewrite <- Z.pow_add_r by lia; f_equal; lia).
  assert (2 ^ (k + 1) = 2 ^ 53 * m) as Hu by (unfold m; rewrite <- Z.pow_add_r by lia; f_equal; lia).
  pose proof (rne_div_mono (2 ^ 52 * m) n m Hm ltac:(lia)) as Ha.
  pose proof (rne_div_mono n (2 ^ 53 * m) m Hm ltac:(lia)) as Hb.
  rewrite rne_div_exact in Ha, Hb by done. rewrite Hl, Hu. nia.
Qed.

Lemma round_pos_nonneg n : 0 ≤ n → 0 ≤ round_pos n.
Proof.
  intros Hn. destruct (Z.ltb_spec n (2 ^ 53)) as [Hlt|Hge].
  - unfold round_pos. rewrite (proj2 (Z.ltb_lt _ _) Hlt). done.
  - pose proof (Z.log2_spec n ltac:(lia)) as [Hl Hu].
    pose proof (Z.log2_le_mono (2 ^ 53) n Hge) as Hk. rewrite Z.log2_pow2 in Hk by lia.
    pose proof (round_pos_binade (Z.log2 n) n ltac:(lia)) as Hb.
    rewrite Z.add_1_r in Hb. pose proof (Z.pow_nonneg 2 (Z.log2 n)). lia.
Qed.

Lemma round_pos_mono n1 n2 : 0 ≤ n1 → n1 ≤ n2 → round_pos n1 ≤ round_pos n2.
Proof.
  intros H0 H12.
  destruct (Z.ltb_spec n2 (2 ^ 53)) as [Hs|Hs2].
  { unfold round_pos. rewrite !(proj2 (Z.ltb_lt _ _)) by lia. done. }
  pose proof (Z.log2_spec n2 ltac:(lia)) as [Hl2 Hu2]. rewrite <- Z.add_1_r in Hu2.
  pose proof (Z.log2_le_mono (2 ^ 53) n2 Hs2) as Hk2. rewrite Z.log2_pow2 in Hk2 by lia.
  pose proof (round_pos_binade (Z.log2 n2) n2 ltac:(lia) ltac:(lia)) as Hb2.
  destruct (Z.ltb_spec n1 (2 ^ 53)) as [Hs1|Hs1].
  { pose proof (Z.pow_le_mono_r 2 53 (Z.log2 n2)).
    unfold round_pos at 1. rewrite (proj2 (Z.ltb_lt _ _)) by done. lia. }
  pose proof (Z.log2_spec n1 ltac:(lia)) as [Hl1 Hu1]. rewrite <- Z.add_1_r in Hu1.
  pose proof (Z.log2_le_mono (2 ^ 53) n1 Hs1) as Hk1. rewrite Z.log2_pow2 in Hk1 by lia.
  pose proof (round_pos_binade (Z.log2 n1) n1 ltac:(lia) ltac:(lia)) as Hb1.
  pose proof (Z.log2_le_mono n1 n2 H12) as Hlog.
  destruct (Z.eq_dec (Z.log2 n1) (Z.log2 n2)) as [Heq|Hne].
  - unfold round_pos. rewrite !(proj2 (Z.ltb_ge _ _)) by done. rewrite Heq.
    assert (0 < 2 ^ (Z.log2 n2 - 52)) by (apply Z.pow_pos_nonneg; lia).
    pose proof (rne_div_mono n1 n2 (2 ^ (Z.log2 n2 - 52)) ltac:(done) H12). nia.
  - pose proof (Z.pow_le_mono_r 2 (Z.log2 n1 + 1) (Z.log2 n2)). lia.
Qed.

Lemma round64_mono n1 n2 : n1 ≤ n2 → round64 n1 ≤ round64 n2.
Proof.
  intros H. unfold round64.
  destruct (Z.ltb_spec n1 0), (Z.ltb_spec n2 0).
  - pose proof (round_pos_mono (- n2) (- n1)). lia.
  - pose proof (round_pos_nonneg (- n1)). pose proof (round_pos_nonneg n2). lia.
  - lia.
  - apply round_pos_mono; lia.
Qed.

(** Rounding produces representable values. *)
Lemma round_pos_representable n : 0 ≤ n → representable (round_pos n).
Proof.
  intros Hn. destruct (Z.ltb_spec n (2 ^ 53)) as [Hs|Hs].
  - unfold round_pos. rewrite (proj2 (Z.ltb_lt _ _)) by done.
    apply representable_small. lia.
  - pose proof (Z.log2_spec n ltac:(lia)) as [Hl Hu]. rewrite <- Z.add_1_r in Hu.
    pose proof (Z.log2_le_mono (2 ^ 53) n Hs) as Hk. rewrite Z.log2_pow2 in Hk by lia.
    pose proof (round_pos_binade (Z.log2 n) n ltac:(lia) ltac:(lia)) as Hb.
    unfold round_pos in *. rewrite (proj2 (Z.ltb_ge _ _)) in * by done.
    set (m := 2 ^ (Z.log2 n - 52)) in *.
    assert (0 < m) by (apply Z.pow_pos_nonneg; lia).
    assert (2 ^ (Z.log2 n + 1) = 2 ^ 53 * m) as Hum
      by (unfold m; rewrite <- Z.pow_add_r by lia; f_equal; lia).
    pose proof (Z.pow_nonneg 2 (Z.log2 n) ltac:(lia)).
    exists (rne_div n m), (Z.log2 n - 52). split; [done|]. split; [|lia].
    rewrite Z.abs_eq by nia. nia.
Qed.

Lemma round64_representable n : representable (round64 n).
Proof.
  unfold round64. destruct (Z.ltb_spec n 0).
  - apply representable_opp, round_pos_representable. lia.
  - apply round_pos_representable. lia.
Qed.

(** ** The midpoint *)

(** [(x + y) / 2], computed in floating point, lies between [x] and [y]. *)
Lemma f_mid_between x y :
  representable x → representable y → x ≤ y → x ≤ f_half (f_add x y) ≤ y.
Proof.
  intros Hx Hy Hxy. unfold f_half, f_add.
  assert (∀ z, representable z → round64 (z * 2) = z * 2) as Hd.
  { intros z Hz. apply round64_exact. change 2 with (2 ^ 1) at 1.
    by apply representable_scale. }
  split.
  - transitivity (rne_div (x * 2) 2); [rewrite rne_div_exact; lia|].
    apply rne_div_mono; [lia|]. rewrite <- (Hd x) by done. apply round64_mono. lia.
  - transitivity (rne_div (y * 2) 2); [|rewrite rne_div_exact; lia].
    apply rne_div_mono; [lia|]. rewrite <- (Hd y) by done. apply round64_mono. lia.
Qed.

(** When the exact sum needs no rounding and is even the midpoint is exact,
    so it is strictly between distinct arguments. *)
Lemma f_mid_exact x y s :
  x + y = 2 * s → representable (2 * s) → f_half (f_add x y) = s.
Proof.
  intros Hs Hr. unfold f_half, f_add. rewrite Hs, round64_exact by done.
  replace (2 * s) with (s * 2) by lia. apply rne_div_exact. lia.
Qed.

Lemma f_half_representable x : representable x → representable (f_half x).
Proof.
  intros (m & e & -> & Hm & He). unfold f_half. destruct (Z.eq_dec e 0) as [->|].
  - apply representable_small. rewrite Z.mul_1_r.
    pose proof (rne_div_mono (- (2 ^ 52) * 2) m 2 ltac:(lia) ltac:(lia)) as H1.
    pose proof (rne_div_mono m (2 ^ 52 * 2) 2 ltac:(lia) ltac:(lia)) as H2.
    rewrite rne_div_exact in H1, H2 by lia. lia.
  - replace (2 ^ e) with (2 ^ (e - 1) * 2) 
      by (rewrite Z.mul_comm, <- Z.pow_succ_r by lia; f_equal; lia).
    rewrite Z.mul_assoc, rne_div_exact by lia. exists m, (e - 1). lia.
Qed.

(** ** Integers *)

(** Integers of at most 53 bits convert exactly. *)
Lemma f_of_int_exact z : Z.abs z ≤ 2 ^ 53 → f_of_int z = z * f_one.
Proof.
  intros. unfold f_of_int. apply round64_exact. unfold f_one.
  apply representable_scale; [lia|]. by apply representable_small.
Qed.

Lemma f_of_int_representable z : representable (f_of_int z).
Proof. apply round64_representable. Qed.

Lemma f_to_int_of_int z : Z.abs z ≤ 2 ^ 53 → f_to_int (f_of_int z) = z.
Proof.
  intros. unfold f_to_int. rewrite f_of_int_exact by done.
  apply Z.quot_mul. unfold f_one. apply Z.pow_nonzero; lia.
Qed.

Lemma f_of_int_mono z1 z2 : z1 ≤ z2 → f_of_int z1 ≤ f_of_int z2.
Proof.
  intros. unfold f_of_int. apply round64_mono.
  assert (0 < f_one) by (apply Z.pow_pos_nonneg; lia). nia.
Qed.

Lemma f_one_pos : 0 < f_one.
Proof. apply Z.pow_pos_nonneg; lia. Qed.

(** The midpoint of two distinct integers of at most 52 bits is strictly
    between them. *)
Lemma f_mid_int_strict a b :
  Z.abs a ≤ 2 ^ 52 → Z.abs b ≤ 2 ^ 52 → a < b →
  f_of_int a < f_half (f_add (f_of_int a) (f_of_int b)) < f_of_int b.
Proof.
  intros Ha Hb Hab. rewrite !f_of_int_exact by lia.
  assert (f_one = 2 * 2 ^ 1073) as H1 by (unfold f_one; rewrite <- (Z.pow_succ_r 2 1073) by lia; done).
  pose proof f_one_pos.
  rewrite (f_mid_exact _ _ ((a + b) * 2 ^ 1073)).
  - nia.
  - rewrite H1. lia.
  - replace (2 * ((a + b) * 2 ^ 1073)) with ((a + b) * 2 ^ 1074)
      by (change (2 ^ 1074) with f_one; rewrite H1; lia).
    apply representable_scale; [lia|]. apply representable_small. lia.
Qed.

#[export] Hint Resolve round64_representable f_of_int_representable f_half_representable
  : cloudque.

Lemma f_one_pow : f_one = 2 ^ 1074.
Proof. done. Qed.

Global Opaque f_one.

(** ** Quotients at most one *)

Lemma round_quot_unit n d :
  0 ≤ n → 0 < d → n ≤ d * 2 ^ 1074 → 0 ≤ round_quot n d ≤ 2 ^ 1074.
Proof.
  intros Hn Hd Hle. unfold round_quot.
  assert (0 ≤ n / d) as Hq0 by (apply Z.div_pos; lia).
  assert (n / d ≤ 2 ^ 1074) as Hq by (apply Z.div_le_upper_bound; lia).
  destruct (Z.ltb_spec (n / d) (2 ^ 53)) as [Hs|Hs].
  { pose proof (rne_div_bounds n d Hd). split; [lia|].
    assert (2 ^ 53 ≤ 2 ^ 1074) by (apply Z.pow_le_mono_r; lia). lia. }
  set (k := Z.log2 (n / d)).
  assert (53 ≤ k).
  { unfold k. rewrite <- (Z.log2_pow2 53) by lia. by apply Z.log2_le_mono. }
  set (m := 2 ^ (k - 52)). assert (0 < m) as Hm by (apply Z.pow_pos_nonneg; lia).
  assert (0 < d * m) as Hdm by nia.
  destruct (Z.eq_dec (n / d) (2 ^ 1074)) as [E|E].
  - assert (n = d * 2 ^ 1074) as ->.
    { pose proof (Z.mul_div_le n d Hd) as Hmul. rewrite E in Hmul. lia. }
    assert (k = 1074) as Hk by (unfold k; rewrite E; by apply Z.log2_pow2).
    assert (2 ^ 1074 = 2 ^ 52 * m) as Hpow by (unfold m; rewrite Hk, <- Z.pow_add_r by lia; f_equal; lia).
    replace (d * 2 ^ 1074) with (2 ^ 52 * (d * m)) by (rewrite Hpow; ring).
    rewrite rne_div_exact by done. rewrite Hpow. nia.
  - assert (k < 1074) as Hk by (apply Z.log2_lt_pow2; lia).
    pose proof (rne_div_bounds n (d * m) Hdm) as [Hlo Hhi].
    assert (0 ≤ n / (d * m)) by (apply Z.div_pos; lia).
    assert (n / (d * m) < 2 ^ 53) as Hq53.
    { rewrite <- Z.div_div by lia. apply Z.div_lt_upper_bound; [done|].
      rewrite Z.mul_comm. unfold m. rewrite <- Z.pow_add_r by lia.
      pose proof (Z.log2_spec (n / d) ltac:(lia)) as [_ Hlt]. fold k in Hlt.
      replace (53 + (k - 52)) with (Z.succ k) by lia. done. }
    assert (2 ^ 53 * m ≤ 2 ^ 1074) as Htop.
    { unfold m. rewrite <- Z.pow_add_r by lia. apply Z.pow_le_mono_r; lia. }
    split; nia.
Qed.

Lemma f_of_int_pos z : 0 < z → 0 < f_of_int z.
Proof.
  intros Hz. apply Z.lt_le_trans with (f_of_int 1); [|apply f_of_int_mono; lia].
  rewrite f_of_int_exact by (cbn; lia). pose proof f_one_pos. lia.
Qed.
