(* ===== verification/Errors.v ===== *)
(** * Business errors and responses (pkg/errors, pkg/response)

    Error codes, their texts, the constructors of [*errors.BizError], and how
    an error becomes an HTTP response. *)

From S2P Require Import Prelude GoStrings.

Open Scope Z_scope.

(** ** Codes *)

Definition CodeSuccess : Z := 0.
Definition CodeBadRequest : Z := 400.
Definition CodeUnauthorized : Z := 401.
Definition CodeForbidden : Z := 403.
Definition CodeNotFound : Z := 404.
Definition CodeMethodNotAllowed : Z := 405.
Definition CodeRequestTimeout : Z := 408.
Definition CodeConflict : Z := 409.
Definition CodeInternalError : Z := 500.
Definition CodeNotImplemented : Z := 501.
Definition CodeServiceUnavailable : Z := 503.
Definition CodeUserNotFound : Z := 1001.
Definition CodeUserAlreadyExists : Z := 1002.
Definition CodeInvalidCredentials : Z := 1003.
Definition CodeUserDisabled : Z := 1004.
Definition CodeInvalidToken : Z := 1005.
Definition CodeTokenExpired : Z := 1006.
Definition CodeInvalidCaptcha : Z := 1007.
Definition CodeSSHCredentialsNotFound : Z := 1008.
Definition CodeSSHLoginFailed : Z := 1009.
Definition CodeSSHConnectionFailed : Z := 1010.
Definition CodeInvalidParam : Z := 2001.
Definition CodeMissingParam : Z := 2002.
Definition CodeParamFormatError : Z := 2003.
Definition CodeFileNotFound : Z := 2004.
Definition CodeFileExists : Z := 2005.
Definition CodeResourceNotFound : Z := 3001.
Definition CodeResourceAlreadyExists : Z := 3002.
Definition CodeResourceLocked : Z := 3003.
Definition CodeJobNotFound : Z := 4001.
Definition CodeJobAlreadyRunning : Z := 4002.
Definition CodeJobCannotCancel : Z := 4003.
Definition CodeGPUInsufficient : Z := 4004.
Definition CodeJobSubmitFailed : Z := 4005.
Definition CodeJobExecutionFailed : Z := 4006.
Definition CodeSSHCommandExecutionFailed : Z := 4007.

Definition codeMessages : list (Z * string) := [
  (CodeSuccess, "成功");
  (CodeBadRequest, "请求参数错误");
  (CodeUnauthorized, "未授权");
  (CodeForbidden, "禁止访问");
  (CodeNotFound, "资源不存在");
  (CodeMethodNotAllowed, "方法不允许");
  (CodeRequestTimeout, "请求超时");
  (CodeConflict, "资源冲突");
  (CodeInternalError, "服务器内部错误");
  (CodeNotImplemented, "功能未实现");
  (CodeServiceUnavailable, "服务不可用");
  (CodeUserNotFound, "用户不存在");
  (CodeUserAlreadyExists, "用户已存在");
  (CodeInvalidCredentials, "用户名或密码错误");
  (CodeUserDisabled, "用户已被禁用");
  (CodeInvalidToken, "无效的令牌");
  (CodeTokenExpired, "令牌已过期");
  (CodeInvalidCaptcha, "验证码无效");
  (CodeSSHCredentialsNotFound, "SSH凭证未找到或已过期");
  (CodeSSHLoginFailed, "SSH登录失败（密码错误或服务不可用）");
  (CodeSSHConnectionFailed, "SSH连接失败");
  (CodeInvalidParam, "参数错误");
  (CodeMissingParam, "缺少必要参数");
  (CodeParamFormatError, "参数格式错误");
  (CodeFileNotFound, "文件不存在");
  (CodeFileExists, "文件或目录已存在");
  (CodeResourceNotFound, "资源不存在");
  (CodeResourceAlreadyExists, "资源已存在");
  (CodeResourceLocked, "资源已被锁定");
  (CodeJobNotFound, "任务不存在");
  (CodeJobAlreadyRunning, "任务正在运行");
  (CodeJobCannotCancel, "无法取消此任务");
  (CodeGPUInsufficient, "显卡数量不足");
  (CodeJobSubmitFailed, "提交任务失败");
  (CodeJobExecutionFailed, "任务执行失败");
  (CodeSSHCommandExecutionFailed, "SSH命令执行失败")].

Definition GetMessage (code : Z) : string :=
  match List.find (λ p, p.1 =? code) codeMessages with
  | Some (_, msg) => msg
  | None => "未知错误"
  end.

(** ** BizError *)

Definition New (code : Z) (message : string) : error := ErrBiz code message None.
Definition NewWithErr (code : Z) (message : string) (err : error) : error :=
  ErrBiz code message (Some err).
Definition NewDefault (code : Z) : error := ErrBiz code (GetMessage code) None.

Definition ErrBadRequest : error := NewDefault CodeBadRequest.
Definition ErrUnauthorized : error := NewDefault CodeUnauthorized.
Definition ErrForbidden : error := NewDefault CodeForbidden.
Definition ErrNotFound : error := NewDefault CodeNotFound.
Definition ErrInternalError : error := NewDefault CodeInternalError.
Definition ErrUserNotFound : error := NewDefault CodeUserNotFound.
Definition ErrUserAlreadyExists : error := NewDefault CodeUserAlreadyExists.
Definition ErrUserDisabled : error := NewDefault CodeUserDisabled.
Definition ErrInvalidCredentials : error := NewDefault CodeInvalidCredentials.
Definition ErrInvalidToken : error := NewDefault CodeInvalidToken.
Definition ErrTokenExpired : error := NewDefault CodeTokenExpired.
Definition ErrInvalidCaptcha : error := NewDefault CodeInvalidCaptcha.
Definition ErrSSHCredentialsNotFound : error := NewDefault CodeSSHCredentialsNotFound.
Definition ErrSSHLoginFailed : error := NewDefault CodeSSHLoginFailed.
Definition ErrInvalidParam : error := NewDefault CodeInvalidParam.
Definition ErrMissingParam : error := NewDefault CodeMissingParam.

(** ** Responses *)

(** The HTTP status and the JSON body; [Data] is left out when it is nil. *)
Record Response (D : Type) : Type := mkResponse {
  http_status : Z; Code : Z; Message : string; Data : option D
}.
Arguments mkResponse {D}.
Arguments http_status {D}. Arguments Code {D}. Arguments Message {D}. Arguments Data {D}.

Section Response.
Context {D : Type}.
Definition Success (data : D) : Response D :=
  mkResponse 200 CodeSuccess (GetMessage CodeSuccess) (Some data).
Definition SuccessWithMessage (message : string) (data : D) : Response D :=
  mkResponse 200 CodeSuccess message (Some data).
Definition Error (code : Z) (message : string) : Response D := mkResponse code code message None.
Definition ErrorWithData (code : Z) (message : string) (data : D) : Response D :=
  mkResponse 200 code message (Some data).

(** The type assertion sees a [*BizError] only at the top of the error. *)
Definition BizError (err : error) : Response D :=
  match err with
  | ErrBiz code msg _ => mkResponse 200 code msg None
  | _ => Error CodeInternalError (GetMessage CodeInternalError)
  end.

Definition BadRequest (message : string) : Response D := Error CodeBadRequest message.
Definition Unauthorized (message : string) : Response D := Error CodeUnauthorized message.
Definition Forbidden (message : string) : Response D := Error CodeForbidden message.
Definition NotFound (message : string) : Response D := Error CodeNotFound message.
Definition InternalError (message : string) : Response D := Error CodeInternalError message.
End Response.
