(* ===== verification/Entity.v ===== *)
(** * The rows of the tables (internal/model/entity)

    One record per struct, with the source's field names prefixed by the
    table; pointers that may be nil are options, times are instants in [Z].
    The setters are the column updates the repositories perform. *)

From S2P Require Import Prelude.

(** ** jobs *)

Module Job.
(** [entity.Job]; [sug] is the column of the jobs table that only the queue
    queries and [UpdateSug] name. *)
Record Job : Type := mkJob {
  ID : Z;
  Name : string;
  Description : string;
  UserId : Z;
  FilePath : string;
  CondaEnv : string;
  GpuIDs : string;
  Status : Z;
  CreatedAt : option Z;
  StartedAt : option Z;
  FinishedAt : option Z;
  sug : Z
}.

Definition set_id (k : Z) (j : Job) : Job :=
  mkJob k (Name j) (Description j) (UserId j) (FilePath j) (CondaEnv j) (GpuIDs j)
    (Status j) (CreatedAt j) (StartedAt j) (FinishedAt j) (sug j).
Definition set_created (t : Z) (j : Job) : Job :=
  mkJob (ID j) (Name j) (Description j) (UserId j) (FilePath j) (CondaEnv j) (GpuIDs j)
    (Status j) (Some t) (StartedAt j) (FinishedAt j) (sug j).
Definition set_sug (n : Z) (j : Job) : Job :=
  mkJob (ID j) (Name j) (Description j) (UserId j) (FilePath j) (CondaEnv j) (GpuIDs j)
    (Status j) (CreatedAt j) (StartedAt j) (FinishedAt j) n.
Definition set_status (st : Z) (started finished : option Z) (j : Job) : Job :=
  mkJob (ID j) (Name j) (Description j) (UserId j) (FilePath j) (CondaEnv j) (GpuIDs j)
    st (CreatedAt j) started finished (sug j).
End Job.
Notation Job := Job.Job.

(** Job states. *)
Definition JobStatusQueued : Z := 1.
Definition JobStatusRunning : Z := 2.
Definition JobStatusCompleted : Z := 3.
Definition JobStatusFailed : Z := 4.
Definition JobStatusCancelled : Z := 5.
Definition JobStatusWaitingGpu : Z := 6.

Definition JobPriorityHigh : Z := 2.
Definition JobPriorityLow : Z := 1.

(** ** gpu_cards *)

Module GpuCard.
Record GpuCard : Type := mkGpuCard {
  ID : Z;
  UUID : string;
  Name : string;
  Index : Z;
  Status : Z;
  CurrentJobID : option Z;
  GpuType : string;
  Memory : Z
}.

Definition set_id (k : Z) (c : GpuCard) : GpuCard :=
  mkGpuCard k (UUID c) (Name c) (Index c) (Status c) (CurrentJobID c) (GpuType c) (Memory c).
(** The column pair [status], [current_job_id]. *)
Definition set_status (st : Z) (j : option Z) (c : GpuCard) : GpuCard :=
  mkGpuCard (ID c) (UUID c) (Name c) (Index c) st j (GpuType c) (Memory c).
(** The columns [name], [index], [gpu_type], [memory], taken from [n]. *)
Definition set_hardware (c n : GpuCard) : GpuCard :=
  mkGpuCard (ID c) (UUID c) (Name n) (Index n) (Status c) (CurrentJobID c) (GpuType n) (Memory n).
End GpuCard.
Notation GpuCard := GpuCard.GpuCard.

Definition GpuStatusIdle : Z := 0.
Definition GpuStatusBusy : Z := 1.

(** ** processes *)

Module Process.
Record Process : Type := mkProcess {
  ID : Z;
  PID : Z;
  CardID : Z;
  JobID : Z;
  CreatedAt : option Z;
  EndedAt : option Z
}.

Definition set_id (k : Z) (p : Process) : Process :=
  mkProcess k (PID p) (CardID p) (JobID p) (CreatedAt p) (EndedAt p).
Definition set_created (t : Z) (p : Process) : Process :=
  mkProcess (ID p) (PID p) (CardID p) (JobID p) (Some t) (EndedAt p).
Definition set_ended (t : Z) (p : Process) : Process :=
  mkProcess (ID p) (PID p) (CardID p) (JobID p) (CreatedAt p) (Some t).
End Process.
Notation Process := Process.Process.

(** ** Access control *)

Module Permission.
Record Permission : Type := mkPermission {
  ID : Z; Name : string; Category : string; Slug : string; Type_ : string;
  Status : Z; HttpMethod : string; HttpPath : string; Sort : Z
}.
End Permission.
Notation Permission := Permission.Permission.

Module Menu.
Record Menu : Type := mkMenu {
  ID : Z; CreatedAt : Z; UpdatedAt : Z; ParentID : Z; Title : string; Type_ : string;
  Sort : Z; Status : Z; Icon : string; URI : string
}.

Definition set_id (k : Z) (m : Menu) : Menu :=
  mkMenu k (CreatedAt m) (UpdatedAt m) (ParentID m) (Title m) (Type_ m) (Sort m) (Status m)
    (Icon m) (URI m).
(** gorm fills both time columns of a new row. *)
Definition set_stamp (t : Z) (m : Menu) : Menu :=
  mkMenu (ID m) t t (ParentID m) (Title m) (Type_ m) (Sort m) (Status m) (Icon m) (URI m).
End Menu.
Notation Menu := Menu.Menu.

Module Role.
Record Role : Type := mkRole {
  ID : Z; Name : string; Status : Z; Slug : string;
  Permissions : list Permission; Menus : list Menu
}.
End Role.
Notation Role := Role.Role.

Module User.
Record User : Type := mkUser {
  ID : Z; Username : string; Password : string; RealName : string; Phone : string;
  Avatar : string; Email : string; Status : Z; Priority : Z; MultiTraining : Z;
  CrossServer : Z; Roles : list Role
}.
Definition set_id (k : Z) (u : User) : User :=
  mkUser k (Username u) (Password u) (RealName u) (Phone u) (Avatar u) (Email u)
    (Status u) (Priority u) (MultiTraining u) (CrossServer u) (Roles u).
End User.
Notation User := User.User.

(** [entity.Item]: the head of the queue. *)
Module Item.
Record Item : Type := mkItem { JobID : Z; Score : Z }.
End Item.
Notation Item := Item.Item.
