(* ===== verification/External.v ===== *)
(** * The services the program talks to

    MySQL through gorm, Redis, the host's process table and the clock are not
    part of the repository.  Each is a class of operations on a state of
    unknown type; what the code relies on is a second class of laws, stated
    through a view of the state: the rows of a table, the keys of Redis.
    Every operation may fail, and reads may change the unknown state (a
    connection drops), but never the view.  A failed statement leaves the
    view as it was: a reply lost after the commit is outside the laws. *)

From S2P Require Import Prelude GoStrings Float64 Entity.

(** ** MySQL tables through gorm *)

(** The primary key and the [autoCreateTime] column of a row type. *)
Class Row (R : Type) := {
  row_id : R → Z;
  row_set_id : Z → R → R;
  row_stamp : Z → R → R;
  row_set_id_id k r : row_id (row_set_id k r) = k;
  row_stamp_id t r : row_id (row_stamp t r) = row_id r
}.

#[export] Instance Job_row : Row Job :=
  { row_id := Job.ID; row_set_id := Job.set_id; row_stamp := Job.set_created;
    row_set_id_id _ _ := eq_refl; row_stamp_id _ _ := eq_refl }.
#[export] Instance GpuCard_row : Row GpuCard :=
  { row_id := GpuCard.ID; row_set_id := GpuCard.set_id; row_stamp := λ _ c, c;
    row_set_id_id _ _ := eq_refl; row_stamp_id _ _ := eq_refl }.
#[export] Instance Process_row : Row Process :=
  { row_id := Process.ID; row_set_id := Process.set_id; row_stamp := Process.set_created;
    row_set_id_id _ _ := eq_refl; row_stamp_id _ _ := eq_refl }.
#[export] Instance Menu_row : Row Menu :=
  { row_id := Menu.ID; row_set_id := Menu.set_id; row_stamp := Menu.set_stamp;
    row_set_id_id _ _ := eq_refl; row_stamp_id _ _ := eq_refl }.
#[export] Instance User_row : Row User :=
  { row_id := User.ID; row_set_id := User.set_id; row_stamp := λ _ u, u;
    row_set_id_id _ _ := eq_refl; row_stamp_id _ _ := eq_refl }.

(** [Find], [First], [Count], ordered and paged [Scan], [Updates] on a
    condition, [Create], [Save], [Delete] with its [RowsAffected], insert with [OnConflict] update,
    and [Transaction].  [tbl_rows] is the view. *)
Class Table (S R : Type) `{Row R} := {
  tbl_rows : S → list R;
  tbl_select : (R → bool) → M S (result (list R));
  tbl_page : (R → bool) → (R → R → bool) → Z → Z → M S (result (list R));
  tbl_first : (R → bool) → M S (result R);
  tbl_count : (R → bool) → M S (result Z);
  tbl_update : (R → bool) → (R → R) → M S (result unit);
  tbl_create : R → M S (result Z);
  tbl_save : R → M S (result unit);
  tbl_delete : (R → bool) → M S (result Z);
  tbl_upsert : (R → R → R) → list R → M S (result unit);
  tbl_tx : ∀ {A}, M S (result A) → M S (result A)
}.

(** SQL's LIMIT and OFFSET as gorm emits them: a negative limit and a
    non-positive offset are left out of the statement. *)
Definition limit_offset {A} (limit offset : Z) (l : list A) : list A :=
  let l' := if 0 <? offset then drop (Z.to_nat offset) l else l in
  if limit <? 0 then l' else take (Z.to_nat limit) l'.

(** The rows after [Save] of a row: replaced by primary key, else added. *)
Definition save_row {R} `{Row R} (r : R) (l : list R) : list R :=
  if existsb (λ x, row_id x =? row_id r) l
  then (λ x, if row_id x =? row_id r then r else x) <$> l
  else l ++ [r].

Class TableLaws (S R : Type) `{Table S R} : Prop := {
  tbl_pk s : NoDup (row_id <$> tbl_rows s);
  tbl_select_view p s s' r : tbl_select p s = (s', r) → tbl_rows s' = tbl_rows s;
  tbl_select_ok p s s' l :
    tbl_select p s = (s', Ok l) → l ≡ₚ List.filter p (tbl_rows s);
  tbl_page_view p o n k s s' r : tbl_page p o n k s = (s', r) → tbl_rows s' = tbl_rows s;
  tbl_page_ok p o n k s s' l :
    tbl_page p o n k s = (s', Ok l) →
    ∃ l0, l0 ≡ₚ List.filter p (tbl_rows s) ∧ Sorted (brel o) l0 ∧
          l = limit_offset n k l0;
  tbl_first_view p s s' r : tbl_first p s = (s', r) → tbl_rows s' = tbl_rows s;
  tbl_first_ok p s s' x : tbl_first p s = (s', Ok x) → x ∈ tbl_rows s ∧ p x = true;
  tbl_first_none p s s' :
    tbl_first p s = (s', Err ErrRecordNotFound) → List.filter p (tbl_rows s) = [];
  tbl_count_view p s s' r : tbl_count p s = (s', r) → tbl_rows s' = tbl_rows s;
  tbl_count_ok p s s' n :
    tbl_count p s = (s', Ok n) → n = Z.of_nat (length (List.filter p (tbl_rows s)));
  tbl_update_spec p f s s' r :
    (∀ x, row_id (f x) = row_id x) →
    tbl_update p f s = (s', r) →
    tbl_rows s' = if is_ok r then (λ x, if p x then f x else x) <$> tbl_rows s
                  else tbl_rows s;
  tbl_create_ok x s s' k :
    row_id x = 0 → tbl_create x s = (s', Ok k) →
    0 < k ∧ ∃ t, tbl_rows s' = tbl_rows s ++ [row_stamp t (row_set_id k x)];
  tbl_create_err x s s' e : tbl_create x s = (s', Err e) → tbl_rows s' = tbl_rows s;
  tbl_save_spec x s s' r :
    row_id x ≠ 0 → tbl_save x s = (s', r) →
    tbl_rows s' = if is_ok r then save_row x (tbl_rows s) else tbl_rows s;
  tbl_delete_spec p s s' r :
    tbl_delete p s = (s', r) →
    tbl_rows s' = if is_ok r then List.filter (λ x, negb (p x)) (tbl_rows s) else tbl_rows s;
  tbl_delete_count p s s' n :
    tbl_delete p s = (s', Ok n) → n = Z.of_nat (length (List.filter p (tbl_rows s)));
  tbl_upsert_ok g l s s' :
    (∀ x y, row_id (g x y) = row_id x) →
    tbl_upsert g l s = (s', Ok tt) →
    ∃ upd ins, tbl_rows s' = (upd <$> tbl_rows s) ++ ins ∧
      (∀ x, upd x = x ∨ ∃ y, y ∈ l ∧ upd x = g x y) ∧
      (∀ x, x ∈ ins → ∃ y k, y ∈ l ∧ x = row_set_id k y);
  tbl_upsert_err g l s s' e :
    tbl_upsert g l s = (s', Err e) → tbl_rows s' = tbl_rows s;
  tbl_tx_ok {A} (c : M S (result A)) s s' a :
    tbl_tx c s = (s', Ok a) →
    ∃ s0 s1, tbl_rows s0 = tbl_rows s ∧ c s0 = (s1, Ok a) ∧ tbl_rows s' = tbl_rows s1;
  tbl_tx_err {A} (c : M S (result A)) s s' e :
    tbl_tx c s = (s', Err e) → tbl_rows s' = tbl_rows s
}.

(** ** Redis *)

(** The view: sorted sets, hashes and counters by key; an absent key is an
    empty set, an empty hash, the counter 0. *)
Record rview : Type := mkRview {
  rv_zset : gmap string (gmap string float64);
  rv_hash : gmap string (gmap string string);
  rv_num : gmap string Z
}.

Definition zget (k : string) (v : rview) : gmap string float64 := default ∅ (rv_zset v !! k).
Definition hget (k : string) (v : rview) : gmap string string := default ∅ (rv_hash v !! k).
Definition nget (k : string) (v : rview) : Z := default 0 (rv_num v !! k).
Definition zput (k : string) (z : gmap string float64) (v : rview) : rview :=
  mkRview (<[k := z]> (rv_zset v)) (rv_hash v) (rv_num v).
Definition hput (k : string) (h : gmap string string) (v : rview) : rview :=
  mkRview (rv_zset v) (<[k := h]> (rv_hash v)) (rv_num v).
Definition nput (k : string) (n : Z) (v : rview) : rview :=
  mkRview (rv_zset v) (rv_hash v) (<[k := n]> (rv_num v)).

(** Redis orders a sorted set by score, then by the bytes of the member. *)
Definition zle (a b : string * float64) : Prop :=
  a.2 < b.2 ∨ a.2 = b.2 ∧ String.le a.1 b.1.
#[export] Instance zle_dec a b : Decision (zle a b).
Proof. unfold zle. apply _. Defined.
Definition zsort (z : gmap string float64) : list (string * float64) :=
  merge_sort zle (map_to_list z).

(** The elements from rank [start] to rank [stop], both included; negative
    ranks count from the end. *)
Definition zslice {A} (start stop : Z) (l : list A) : list A :=
  let n := Z.of_nat (length l) in
  let a := if start <? 0 then Z.max 0 (n + start) else start in
  let b := if stop <? 0 then n + stop else stop in
  if b <? a then [] else take (Z.to_nat (b - a + 1)) (drop (Z.to_nat a) l).

(** The number of elements in front of a member. *)
Fixpoint rank_of (m : string) (l : list (string * float64)) : option Z :=
  match l with
  | [] => None
  | (x, _) :: l' => if decide (x = m) then Some 0 else Z.succ <$> rank_of m l'
  end.

Lemma rank_of_None m l : rank_of m l = None ↔ m ∉ l.*1.
Proof.
  induction l as [|[x sc] l IH]; cbn; [split; [|done]; intros _; by apply not_elem_of_nil|].
  rewrite not_elem_of_cons. case_decide; [naive_solver|].
  rewrite fmap_None, IH. naive_solver.
Qed.

Lemma zsort_perm z : zsort z ≡ₚ map_to_list z.
Proof. apply merge_sort_Permutation. Qed.

Lemma zsort_lookup z m sc : (m, sc) ∈ zsort z ↔ z !! m = Some sc.
Proof. rewrite zsort_perm. apply elem_of_map_to_list. Qed.

Lemma zsort_member z m : m ∈ (zsort z).*1 ↔ is_Some (z !! m).
Proof.
  rewrite list_elem_of_fmap. split.
  - intros ([? sc] & -> & Hin). exists sc. by apply zsort_lookup.
  - intros [sc Hsc]. exists (m, sc). by rewrite zsort_lookup.
Qed.

Class Redis (S : Type) := {
  rd_view : S → rview;
  rd_zadd : string → float64 → string → M S (result unit);
  rd_zrem : string → string → M S (result unit);
  rd_zrange : string → Z → Z → M S (result (list (string * float64)));
  rd_zrank : string → string → M S (result Z);
  rd_zscore : string → string → M S (result float64);
  rd_incr : string → M S (result Z);
  rd_hset : string → string → string → M S (result unit);
  rd_hdel : string → string → M S (result unit);
  rd_hgetall : string → M S (result (gmap string string));
  rd_expire : string → Z → M S (result unit)
}.

Class RedisLaws (S : Type) `{Redis S} : Prop := {
  rd_zadd_spec k sc m s s' r :
    rd_zadd k sc m s = (s', r) →
    rd_view s' = if is_ok r then zput k (<[m := sc]> (zget k (rd_view s))) (rd_view s)
                 else rd_view s;
  rd_zrem_spec k m s s' r :
    rd_zrem k m s = (s', r) →
    rd_view s' = if is_ok r then zput k (delete m (zget k (rd_view s))) (rd_view s)
                 else rd_view s;
  rd_zrange_view k a b s s' r : rd_zrange k a b s = (s', r) → rd_view s' = rd_view s;
  rd_zrange_ok k a b s s' l :
    rd_zrange k a b s = (s', Ok l) → l = zslice a b (zsort (zget k (rd_view s)));
  rd_zrank_view k m s s' r : rd_zrank k m s = (s', r) → rd_view s' = rd_view s;
  rd_zrank_ok k m s s' n :
    rd_zrank k m s = (s', Ok n) → rank_of m (zsort (zget k (rd_view s))) = Some n;
  rd_zrank_nil k m s s' :
    rd_zrank k m s = (s', Err ErrRedisNil) → zget k (rd_view s) !! m = None;
  rd_zscore_view k m s s' r : rd_zscore k m s = (s', r) → rd_view s' = rd_view s;
  rd_zscore_ok k m s s' x :
    rd_zscore k m s = (s', Ok x) → zget k (rd_view s) !! m = Some x;
  rd_incr_spec k s s' r :
    rd_incr k s = (s', r) →
    rd_view s' = match r with Ok n => nput k n (rd_view s) | Err _ => rd_view s end;
  rd_incr_ok k s s' n : rd_incr k s = (s', Ok n) → n = nget k (rd_view s) + 1;
  rd_hset_spec k f x s s' r :
    rd_hset k f x s = (s', r) →
    rd_view s' = if is_ok r then hput k (<[f := x]> (hget k (rd_view s))) (rd_view s)
                 else rd_view s;
  rd_hdel_spec k f s s' r :
    rd_hdel k f s = (s', r) →
    rd_view s' = if is_ok r then hput k (delete f (hget k (rd_view s))) (rd_view s)
                 else rd_view s;
  rd_hgetall_view k s s' r : rd_hgetall k s = (s', r) → rd_view s' = rd_view s;
  rd_hgetall_ok k s s' h : rd_hgetall k s = (s', Ok h) → h = hget k (rd_view s);
  rd_expire_view k t s s' r : rd_expire k t s = (s', r) → rd_view s' = rd_view s
}.

(** ** The rest of the environment *)

(** The clock, the process table of the host (gopsutil), and the two service
    interfaces that reach remote machines: [AuthService.HasSystemAccess] for
    file access and [ExecService]; and the calls on the lock key of Redis:
    [SetNX] (key, token, ttl) and the script that deletes the key if it holds
    the token.  No law is assumed of them: a key with a time to live can
    disappear at any moment. *)
Class Env (S : Type) := {
  env_now : M S Z;
  env_PidExists : Z → M S (result bool);
  env_HasSystemAccess : Z → M S (result bool);
  env_ExecuteCommandRemote :
    Z → string → string → list (string * string) → bool → M S (result Z);
  env_FileExistsRemote : Z → string → bool → M S (result bool);
  env_GetJobExitCode : Z → Z → bool → M S (result Z);
  env_Getpid : M S Z;
  env_SetNX : string → string → Z → M S (result bool);
  env_EvalRelease : string → string → M S (result unit)
}.

(** Everything the job system is built on; [db_like s pat] is SQL's
    [s LIKE pat] under the collation of the database. *)
Class Backend := {
  TJ : Type; TG : Type; TP : Type; TU : Type; TR : Type; TE : Type;
  jobs_table :: Table TJ Job;
  gpus_table :: Table TG GpuCard;
  procs_table :: Table TP Process;
  users_table :: Table TU User;
  redis_ops :: Redis TR;
  env_ops :: Env TE;
  db_like : string → string → bool
}.

Class BackendLaws (B : Backend) : Prop := {
  jobs_laws :: TableLaws TJ Job;
  gpus_laws :: TableLaws TG GpuCard;
  procs_laws :: TableLaws TP Process;
  users_laws :: TableLaws TU User;
  redis_laws :: RedisLaws TR
}.

(** The state of the services, one component per service. *)
Record World `{Backend} : Type := mkWorld {
  w_jobs : TJ; w_gpus : TG; w_procs : TP; w_users : TU; w_redis : TR; w_env : TE
}.

Section World.
Context `{B : Backend}.

Definition put_jobs (x : TJ) (w : World) : World :=
  mkWorld _ x (w_gpus w) (w_procs w) (w_users w) (w_redis w) (w_env w).
Definition put_gpus (x : TG) (w : World) : World :=
  mkWorld _ (w_jobs w) x (w_procs w) (w_users w) (w_redis w) (w_env w).
Definition put_procs (x : TP) (w : World) : World :=
  mkWorld _ (w_jobs w) (w_gpus w) x (w_users w) (w_redis w) (w_env w).
Definition put_users (x : TU) (w : World) : World :=
  mkWorld _ (w_jobs w) (w_gpus w) (w_procs w) x (w_redis w) (w_env w).
Definition put_redis (x : TR) (w : World) : World :=
  mkWorld _ (w_jobs w) (w_gpus w) (w_procs w) (w_users w) x (w_env w).
Definition put_env (x : TE) (w : World) : World :=
  mkWorld _ (w_jobs w) (w_gpus w) (w_procs w) (w_users w) (w_redis w) x.

Definition on_jobs {A} : M TJ A → M World A := lift w_jobs put_jobs.
Definition on_gpus {A} : M TG A → M World A := lift w_gpus put_gpus.
Definition on_procs {A} : M TP A → M World A := lift w_procs put_procs.
Definition on_users {A} : M TU A → M World A := lift w_users put_users.
Definition on_redis {A} : M TR A → M World A := lift w_redis put_redis.
Definition on_env {A} : M TE A → M World A := lift w_env put_env.

(** The views. *)
Definition jobs_of (w : World) : list Job := tbl_rows (w_jobs w).
Definition gpus_of (w : World) : list GpuCard := tbl_rows (w_gpus w).
Definition procs_of (w : World) : list Process := tbl_rows (w_procs w).
Definition users_of (w : World) : list User := tbl_rows (w_users w).
Definition redis_of (w : World) : rview := rd_view (w_redis w).
End World.

(** ** Inverting runs over the world *)

Ltac w_step :=
  match goal with
  | H : on_jobs _ _ = (_, _) |- _ => unfold on_jobs in H
  | H : on_gpus _ _ = (_, _) |- _ => unfold on_gpus in H
  | H : on_procs _ _ = (_, _) |- _ => unfold on_procs in H
  | H : on_users _ _ = (_, _) |- _ => unfold on_users in H
  | H : on_redis _ _ = (_, _) |- _ => unfold on_redis in H
  | H : on_env _ _ = (_, _) |- _ => unfold on_env in H
  | _ => run_step
  end.
Ltac w_inv := repeat (w_step; simplify_eq/=).

(** An operation on one service keeps the views of the others. *)
Section Frames.
Context `{B : Backend}.
Context {A : Type}.

Lemma keeps_on_jobs (c : M TJ A) :
  keeps gpus_of (on_jobs c) ∧ keeps procs_of (on_jobs c) ∧ keeps users_of (on_jobs c) ∧
  keeps redis_of (on_jobs c).
Proof. by split_and!; apply keeps_lift. Qed.
Lemma keeps_on_gpus (c : M TG A) :
  keeps jobs_of (on_gpus c) ∧ keeps procs_of (on_gpus c) ∧ keeps users_of (on_gpus c) ∧
  keeps redis_of (on_gpus c).
Proof. by split_and!; apply keeps_lift. Qed.
Lemma keeps_on_procs (c : M TP A) :
  keeps jobs_of (on_procs c) ∧ keeps gpus_of (on_procs c) ∧ keeps users_of (on_procs c) ∧
  keeps redis_of (on_procs c).
Proof. by split_and!; apply keeps_lift. Qed.
Lemma keeps_on_users (c : M TU A) :
  keeps jobs_of (on_users c) ∧ keeps gpus_of (on_users c) ∧ keeps procs_of (on_users c) ∧
  keeps redis_of (on_users c).
Proof. by split_and!; apply keeps_lift. Qed.
Lemma keeps_on_redis (c : M TR A) :
  keeps jobs_of (on_redis c) ∧ keeps gpus_of (on_redis c) ∧ keeps procs_of (on_redis c) ∧
  keeps users_of (on_redis c).
Proof. by split_and!; apply keeps_lift. Qed.
Lemma keeps_on_env (c : M TE A) :
  keeps jobs_of (on_env c) ∧ keeps gpus_of (on_env c) ∧ keeps procs_of (on_env c) ∧
  keeps users_of (on_env c) ∧ keeps redis_of (on_env c).
Proof. by split_and!; apply keeps_lift. Qed.
End Frames.

#[export] Hint Extern 1 (keeps _ (on_jobs _)) => (apply keeps_on_jobs) : keeps.
#[export] Hint Extern 1 (keeps _ (on_gpus _)) => (apply keeps_on_gpus) : keeps.
#[export] Hint Extern 1 (keeps _ (on_procs _)) => (apply keeps_on_procs) : keeps.
#[export] Hint Extern 1 (keeps _ (on_users _)) => (apply keeps_on_users) : keeps.
#[export] Hint Extern 1 (keeps _ (on_redis _)) => (apply keeps_on_redis) : keeps.
#[export] Hint Extern 1 (keeps _ (on_env _)) => (apply keeps_on_env) : keeps.

(** Reads keep the view of their own table. *)
Section Reads.
Context {S R : Type} `{TableLaws S R}.
Lemma keeps_tbl_select p : keeps tbl_rows (tbl_select (S := S) (R := R) p).
Proof. intros s s' a. apply tbl_select_view. Qed.
Lemma keeps_tbl_page p o n k : keeps tbl_rows (tbl_page (S := S) (R := R) p o n k).
Proof. intros s s' a. apply tbl_page_view. Qed.
Lemma keeps_tbl_first p : keeps tbl_rows (tbl_first (S := S) (R := R) p).
Proof. intros s s' a. apply tbl_first_view. Qed.
Lemma keeps_tbl_count p : keeps tbl_rows (tbl_count (S := S) (R := R) p).
Proof. intros s s' a. apply tbl_count_view. Qed.
End Reads.

Section RedisReads.
Context {S : Type} `{RedisLaws S}.
Lemma keeps_rd_zrange k a b : keeps rd_view (rd_zrange (S := S) k a b).
Proof. intros s s' x. apply rd_zrange_view. Qed.
Lemma keeps_rd_zrank k m : keeps rd_view (rd_zrank (S := S) k m).
Proof. intros s s' x. apply rd_zrank_view. Qed.
Lemma keeps_rd_zscore k m : keeps rd_view (rd_zscore (S := S) k m).
Proof. intros s s' x. apply rd_zscore_view. Qed.
Lemma keeps_rd_hgetall k : keeps rd_view (rd_hgetall (S := S) k).
Proof. intros s s' x. apply rd_hgetall_view. Qed.
Lemma keeps_rd_expire k t : keeps rd_view (rd_expire (S := S) k t).
Proof. intros s s' x. apply rd_expire_view. Qed.
End RedisReads.

Section OwnReads.
Context `{B : Backend}.
Context {A : Type}.
Lemma keeps_jobs_read (c : M TJ A) : keeps tbl_rows c → keeps jobs_of (on_jobs c).
Proof. by apply keeps_lift_in. Qed.
Lemma keeps_gpus_read (c : M TG A) : keeps tbl_rows c → keeps gpus_of (on_gpus c).
Proof. by apply keeps_lift_in. Qed.
Lemma keeps_procs_read (c : M TP A) : keeps tbl_rows c → keeps procs_of (on_procs c).
Proof. by apply keeps_lift_in. Qed.
Lemma keeps_users_read (c : M TU A) : keeps tbl_rows c → keeps users_of (on_users c).
Proof. by apply keeps_lift_in. Qed.
Lemma keeps_redis_read (c : M TR A) : keeps rd_view c → keeps redis_of (on_redis c).
Proof. by apply keeps_lift_in. Qed.
End OwnReads.

#[export] Hint Resolve keeps_tbl_select keeps_tbl_page keeps_tbl_first keeps_tbl_count
  keeps_rd_zrange keeps_rd_zrank keeps_rd_zscore keeps_rd_hgetall keeps_rd_expire
  keeps_jobs_read keeps_gpus_read keeps_procs_read keeps_users_read keeps_redis_read : keeps.
#[export] Hint Extern 0 (RedisLaws _) => (apply _) : keeps.
#[export] Hint Extern 0 (TableLaws _ _) => (apply _) : keeps.

(** Every view the run [E] is known to leave alone. *)
Ltac frames E :=
  let fj := constr:(jobs_of) in let fg := constr:(gpus_of) in
  let fp := constr:(procs_of) in let fu := constr:(users_of) in
  let fr := constr:(redis_of) in
  try frame_fact fj E; try frame_fact fg E; try frame_fact fp E;
  try frame_fact fu E; try frame_fact fr E.

(** Open the first call of a sequence: its run becomes the equation [E]. *)
Ltac open_call H w r E :=
  match type of H with
  | (let '(_, _) := ?c in _) = _ => destruct c as [w r] eqn:E
  end.
