(* ===== verification/MemBackend.v ===== *)
(** * A reference backend in memory

    A concrete [Backend] with a script of faults per service, and the proof
    that it satisfies the laws of [External]: the laws can hold together, and
    the theorems about the program can be run on concrete states. *)

From S2P Require Import Prelude GoStrings Float64 Entity External.

(** ** Fault scripts *)

(** A service state: its data and the faults to come, one boolean per
    operation; [true] makes the operation fail before it touches the data. *)
Record mem (D : Type) : Type := mkMem { m_data : D; m_faults : list bool }.
Arguments mkMem {D}.
Arguments m_data {D}.
Arguments m_faults {D}.

Definition with_fault {D A} (c : D → D * result A) : M (mem D) (result A) := λ s,
  match m_faults s with
  | true :: fs => (mkMem (m_data s) fs, Err (ErrExt 0))
  | fs => let '(d, r) := c (m_data s) in (mkMem d (tail fs), r)
  end.

Lemma with_fault_inv {D A} (c : D → D * result A) s s' r :
  with_fault c s = (s', r) →
  (m_data s' = m_data s ∧ r = Err (ErrExt 0)) ∨ c (m_data s) = (m_data s', r).
Proof.
  unfold with_fault. destruct s as [d [|[] fs]]; cbn; intros H.
  1, 3: right; destruct (c d); by simplify_eq.
  left; by simplify_eq.
Qed.

Ltac mem_simpl :=
  repeat match goal with s : mem _ |- _ => destruct s end; simplify_eq/=.
Ltac mem_done := mem_simpl; done.

(** ** Tables *)

Section MemTable.
Context {R : Type} `{Row R}.
(** Rows that violate a unique index together. *)
Variable conflict : R → R → bool.

Definition pk_ok (l : list R) : Prop := NoDup (row_id <$> l).
#[local] Instance pk_ok_dec l : Decision (pk_ok l).
Proof. unfold pk_ok. apply _. Defined.

Definition rows : Type := { l : list R | bool_decide (pk_ok l) = true }.

Definition commit (l : list R) (d : rows) : rows * result unit :=
  match bool_decide (pk_ok l) as b return bool_decide (pk_ok l) = b → rows * result unit with
  | true => λ E, (exist _ l E, Ok tt)
  | false => λ _, (d, Err (ErrExt 1))
  end eq_refl.

Lemma commit_spec l d d' r :
  commit l d = (d', r) → proj1_sig d' = if is_ok r then l else proj1_sig d.
Proof.
  unfold commit. generalize (eq_refl (bool_decide (pk_ok l))).
  generalize (bool_decide (pk_ok l)) at 2 3. intros [] E Hc; by simplify_eq.
Qed.

Lemma commit_ok l d : pk_ok l → ∃ d', commit l d = (d', Ok tt) ∧ proj1_sig d' = l.
Proof.
  intros Hl. unfold commit. generalize (eq_refl (bool_decide (pk_ok l))).
  generalize (bool_decide (pk_ok l)) at 2 3. intros [] E; [by eexists|].
  by apply bool_decide_eq_false_1 in E.
Qed.

Definition next_id (l : list R) : Z := 1 + foldr Z.max 0 (row_id <$> l).

Lemma next_id_fresh l : 0 < next_id l ∧ next_id l ∉ row_id <$> l.
Proof.
  unfold next_id. generalize (row_id <$> l). intros ids.
  assert (∀ i, i ∈ ids → i ≤ foldr Z.max 0 ids) as Hi.
  { induction ids as [|x ids IH]; [by inversion 1|].
    intros i [->|Hin]%elem_of_cons; cbn; [lia|]. apply IH in Hin. lia. }
  assert (0 ≤ foldr Z.max 0 ids) by (clear Hi; induction ids; cbn; lia).
  split; [lia|]. intros Hin%Hi. lia.
Qed.

Definition mem_page (p : R → bool) (o : R → R → bool) (n k : Z) (d : rows)
  : rows * result (list R) :=
  let l0 := merge_sort (brel o) (List.filter p (proj1_sig d)) in
  if decide (Sorted (brel o) l0) then (d, Ok (limit_offset n k l0))
  else (d, Err (ErrExt 2)).

Definition upsert_one (g : R → R → R) (l : list R) (x : R) : R :=
  match List.find (conflict x) l with Some y => g x y | None => x end.
Fixpoint number_from (k : Z) (l : list R) : list R :=
  match l with
  | [] => []
  | y :: l' => row_set_id k y :: number_from (k + 1) l'
  end.
Definition mem_upsert (g : R → R → R) (l : list R) (d : rows) : rows * result unit :=
  let old := proj1_sig d in
  let fresh := List.filter (λ y, negb (existsb (λ x, conflict x y) old)) l in
  commit ((upsert_one g l <$> old) ++ number_from (next_id old) fresh) d.

#[export] Instance mem_table : Table (mem rows) R := {
  tbl_rows s := proj1_sig (m_data s);
  tbl_select p := with_fault (λ d, (d, Ok (List.filter p (proj1_sig d))));
  tbl_page p o n k := with_fault (mem_page p o n k);
  tbl_first p := with_fault (λ d,
    (d, match List.find p (proj1_sig d) with Some x => Ok x | None => Err ErrRecordNotFound end));
  tbl_count p := with_fault (λ d, (d, Ok (Z.of_nat (length (List.filter p (proj1_sig d))))));
  tbl_update p f := with_fault (λ d, commit ((λ x, if p x then f x else x) <$> proj1_sig d) d);
  tbl_create x := with_fault (λ d,
    let k := next_id (proj1_sig d) in
    let '(d', r) := commit (proj1_sig d ++ [row_stamp 0 (row_set_id k x)]) d in
    (d', match r with Ok _ => Ok k | Err e => Err e end));
  tbl_save x := with_fault (λ d, commit (save_row x (proj1_sig d)) d);
  tbl_delete p := with_fault (λ d,
    let n := Z.of_nat (length (List.filter p (proj1_sig d))) in
    let '(d', r) := commit (List.filter (λ x, negb (p x)) (proj1_sig d)) d in
    (d', match r with Ok _ => Ok n | Err e => Err e end));
  tbl_upsert g l := with_fault (mem_upsert g l);
  tbl_tx A c := λ s,
    match c s with
    | (s', Ok a) => (s', Ok a)
    | (s', Err e) => (mkMem (m_data s) (m_faults s'), Err e)
    end
}.

Lemma find_none_filter (p : R → bool) l : List.find p l = None → List.filter p l = [].
Proof. induction l as [|x l IH]; [done|]. cbn. destruct (p x); [done|auto]. Qed.

Lemma find_some_elem (p : R → bool) l x : List.find p l = Some x → x ∈ l ∧ p x = true.
Proof. intros Hf. apply List.find_some in Hf. by rewrite list_elem_of_In. Qed.

Lemma number_from_elem k l x : x ∈ number_from k l → ∃ y k', y ∈ l ∧ x = row_set_id k' y.
Proof.
  revert k. induction l as [|y l IH]; intros k; cbn; [by inversion 1|].
  intros [->|Hin]%elem_of_cons; [exists y, k; set_solver|].
  destruct (IH _ Hin) as (y' & k' & ? & ->). exists y', k'. set_solver.
Qed.

#[export] Instance mem_table_laws : TableLaws (mem rows) R.
Proof.
  split; cbn [tbl_rows tbl_select tbl_page tbl_first tbl_count tbl_update tbl_create tbl_save
              tbl_delete tbl_upsert tbl_tx mem_table].
  - intros [[l Hl] fs]. exact (bool_decide_eq_true_1 _ Hl).
  - intros p s s' r [[-> _]|Hc]%with_fault_inv; [done|mem_done].
  - intros p s s' l [[_ ?]|Hc]%with_fault_inv; [done|mem_done].
  - intros p o n k s s' r [[-> _]|Hc]%with_fault_inv; [done|].
    unfold mem_page in Hc. case_decide; mem_done.
  - intros p o n k s s' l [[_ ?]|Hc]%with_fault_inv; [done|].
    unfold mem_page in Hc. case_decide; mem_simpl.
    eexists. split_and!; [|done|done]. apply merge_sort_Permutation.
  - intros p s s' r [[-> _]|Hc]%with_fault_inv; [done|mem_done].
  - intros p s s' x [[_ ?]|Hc]%with_fault_inv; [done|].
    destruct (List.find p _) eqn:E; mem_simpl. by apply find_some_elem.
  - intros p s s' [[_ ?]|Hc]%with_fault_inv; [done|].
    destruct (List.find p _) eqn:E; mem_simpl. by apply find_none_filter.
  - intros p s s' r [[-> _]|Hc]%with_fault_inv; [done|mem_done].
  - intros p s s' n [[_ ?]|Hc]%with_fault_inv; [done|mem_done].
  - intros p f s s' r _ [[-> ->]|Hc]%with_fault_inv; [done|by apply commit_spec in Hc].
  - intros x s s' k _ [[_ ?]|Hc]%with_fault_inv; [done|].
    destruct (commit _ _) as [d' r] eqn:E. apply commit_spec in E.
    destruct r as [[]|]; mem_simpl. split; [apply next_id_fresh|]. by eexists.
  - intros x s s' e [[-> _]|Hc]%with_fault_inv; [done|].
    destruct (commit _ _) as [d' r] eqn:E. apply commit_spec in E.
    destruct r as [[]|]; mem_done.
  - intros x s s' r _ [[-> ->]|Hc]%with_fault_inv; [done|by apply commit_spec in Hc].
  - intros p s s' r [[-> ->]|Hc]%with_fault_inv; [done|].
    destruct (commit _ _) as [d' r'] eqn:E. apply commit_spec in E.
    destruct r' as [[]|]; mem_done.
  - intros p s s' n [[_ ?]|Hc]%with_fault_inv; [done|].
    destruct (commit _ _) as [d' r'] eqn:E. destruct r' as [[]|]; mem_done.
  - intros g l s s' _ [[_ ?]|Hc]%with_fault_inv; [done|].
    apply commit_spec in Hc. cbn in Hc. rewrite Hc. do 2 eexists. split_and!; [done| |].
    + intros x. unfold upsert_one. destruct (List.find _ l) as [y|] eqn:E; [right|by left].
      exists y. apply find_some_elem in E. naive_solver.
    + intros x Hx%number_from_elem. destruct Hx as (y & k & Hy & ->).
      exists y, k. split; [|done]. apply list_elem_of_In in Hy. apply List.filter_In in Hy as [Hy _].
      by apply list_elem_of_In.
  - intros g l s s' e [[-> _]|Hc]%with_fault_inv; [done|]. by apply commit_spec in Hc.
  - intros A c s s' a. destruct (c s) as [s1 [x|]] eqn:E; intros [=]; subst.
    exists s, s'. by split_and!.
  - intros A c s s' e. destruct (c s) as [s1 [x|]] eqn:E; intros [=]; subst. done.
Qed.
End MemTable.

(** Build a table state from rows that are known to be consistent. *)
Definition mem_rows {R} `{Row R} (l : list R) (E : bool_decide (NoDup (row_id <$> l)) = true)
  (fs : list bool) : mem (rows (R := R)) := mkMem (exist _ l E) fs.

(** ** Redis *)

#[export] Instance mem_redis : Redis (mem rview) := {
  rd_view s := m_data s;
  rd_zadd k sc m := with_fault (λ v, (zput k (<[m := sc]> (zget k v)) v, Ok tt));
  rd_zrem k m := with_fault (λ v, (zput k (delete m (zget k v)) v, Ok tt));
  rd_zrange k a b := with_fault (λ v, (v, Ok (zslice a b (zsort (zget k v)))));
  rd_zrank k m := with_fault (λ v,
    (v, match rank_of m (zsort (zget k v)) with Some n => Ok n | None => Err ErrRedisNil end));
  rd_zscore k m := with_fault (λ v,
    (v, match zget k v !! m with Some x => Ok x | None => Err ErrRedisNil end));
  rd_incr k := with_fault (λ v, let n := nget k v + 1 in (nput k n v, Ok n));
  rd_hset k f x := with_fault (λ v, (hput k (<[f := x]> (hget k v)) v, Ok tt));
  rd_hdel k f := with_fault (λ v, (hput k (delete f (hget k v)) v, Ok tt));
  rd_hgetall k := with_fault (λ v, (v, Ok (hget k v)));
  rd_expire k t := with_fault (λ v, (v, Ok tt))
}.

#[export] Instance mem_redis_laws : RedisLaws (mem rview).
Proof.
  split; cbn [rd_view rd_zadd rd_zrem rd_zrange rd_zrank rd_zscore rd_incr rd_hset rd_hdel
              rd_hgetall rd_expire mem_redis].
  all: intros *; repeat match goal with |- _ = _ → _ => fail 1 | _ => intro end.
  all: intros [[Hd Hr]|Hc]%with_fault_inv; mem_simpl; try done.
  all: repeat case_match; simplify_eq; try done.
  apply eq_None_not_Some. rewrite <- zsort_member. by apply rank_of_None.
Qed.

(** ** The rest of the environment, scripted *)

(** Answers to the calls that leave the program, consumed in order; when a
    script runs out the call fails. *)
Record script : Type := mkScript {
  sc_now : Z;
  sc_pid : list (result bool);
  sc_access : list (result bool);
  sc_exec : list (result Z);
  sc_exists : list (result bool);
  sc_exit : list (result Z);
  sc_lock : list (result bool)
}.

Definition pop {A} (l : list (result A)) : result A * list (result A) :=
  match l with x :: l' => (x, l') | [] => (Err (ErrExt 9), []) end.

#[export] Instance mem_env : Env script := {
  env_now '(mkScript t p a x f e k) := (mkScript (t + 1) p a x f e k, t);
  env_PidExists _ '(mkScript t p a x f e k) :=
    let '(r, l) := pop p in (mkScript t l a x f e k, r);
  env_HasSystemAccess _ '(mkScript t p a x f e k) :=
    let '(r, l) := pop a in (mkScript t p l x f e k, r);
  env_ExecuteCommandRemote _ _ _ _ _ '(mkScript t p a x f e k) :=
    let '(r, l) := pop x in (mkScript t p a l f e k, r);
  env_FileExistsRemote _ _ _ '(mkScript t p a x f e k) :=
    let '(r, l) := pop f in (mkScript t p a x l e k, r);
  env_GetJobExitCode _ _ _ '(mkScript t p a x f e k) :=
    let '(r, l) := pop e in (mkScript t p a x f l k, r);
  env_Getpid s := (s, 4242);
  env_SetNX _ _ _ '(mkScript t p a x f e k) :=
    let '(r, l) := pop k in (mkScript t p a x f e l, r);
  env_EvalRelease _ _ s := (s, Ok tt)
}.

#[export] Instance mem_backend : Backend := {
  TJ := mem (rows (R := Job)); TG := mem (rows (R := GpuCard));
  TP := mem (rows (R := Process)); TU := mem (rows (R := User));
  TR := mem rview; TE := script;
  jobs_table := mem_table (λ _ _, false);
  gpus_table := mem_table (λ x y, String.eqb (GpuCard.UUID x) (GpuCard.UUID y));
  procs_table := mem_table (λ _ _, false);
  users_table := mem_table (λ _ _, false);
  redis_ops := mem_redis;
  env_ops := mem_env;
  db_like s pat := String.eqb ("%" +:+ s +:+ "%") pat
}.

#[export] Instance mem_backend_laws : BackendLaws mem_backend.
Proof. split; apply _. Qed.

(** A world given by its rows, its Redis view and its script, free of
    faults. *)
Definition mem_world (jobs : list Job) (gpus : list GpuCard) (procs : list Process)
  (users : list User) (v : rview) (sc : script)
  (Ej : bool_decide (NoDup (row_id <$> jobs)) = true)
  (Eg : bool_decide (NoDup (row_id <$> gpus)) = true)
  (Ep : bool_decide (NoDup (row_id <$> procs)) = true)
  (Eu : bool_decide (NoDup (row_id <$> users)) = true) : World :=
  mkWorld mem_backend (mem_rows jobs Ej []) (mem_rows gpus Eg []) (mem_rows procs Ep [])
    (mem_rows users Eu []) (mkMem v []) sc.
