(* ===== verification/Gpu.v ===== *)
(** * GPU cards: repository, cache and service

    internal/repository/gpu_repository.go, internal/service/gpu_service.go and
    pkg/utils/gpu_utils.go.  The table gpu_cards is the truth; the Redis hashes
    gpu:status:<id> are a cache that may be stale or missing. *)

From S2P Require Import Prelude GoStrings Float64 Entity External MemBackend.

Open Scope Z_scope.

Definition id_in (ids : list Z) (i : Z) : bool := existsb (Z.eqb i) ids.

(** ** pkg/utils/gpu_utils.go *)

Module GpuInfo.
Record GpuInfo : Type := mkGpuInfo {
  Index : Z; UUID : string; Name : string; Type_ : string; Memory : Z
}.
End GpuInfo.
Notation GpuInfo := GpuInfo.GpuInfo.

(** The loop over the lines of the nvidia-smi output. *)
Fixpoint parse_gpu_lines (lines : list string) : result (list GpuInfo) :=
  match lines with
  | [] => Ok []
  | line :: rest =>
      if String.eqb line "" then parse_gpu_lines rest
      else
        match Split comma line with
        | p0 :: p1 :: p2 :: p3 :: _ =>
            match Atoi (TrimSpace p0) with
            | Err e => Err (ErrWrap "解析 GPU 显存失败" e)
            | Ok index =>
                match Atoi (TrimSpace p3) with
                | Err e => Err (ErrWrap "解析 GPU 显存失败" e)
                | Ok memory =>
                    match parse_gpu_lines rest with
                    | Err e => Err e
                    | Ok gpus =>
                        Ok (GpuInfo.mkGpuInfo index (TrimSpace p1) ("gpu-" +:+ Itoa index)
                              (TrimSpace p2) memory :: gpus)
                    end
                end
            end
        | _ => Err (ErrMsg "解析 nvidia-smi 输出失败")
        end
  end.

(** [GetGpuInfo]; [out] is the standard output of nvidia-smi, [None] when the
    command cannot be run. *)
Definition GetGpuInfo (out : option string) : result (list GpuInfo) :=
  match out with
  | None => Err (ErrPanic "exec.Command nvidia-smi 失败..")
  | Some o => parse_gpu_lines (Split newline (TrimSpace o))
  end.

Section Gpu.
Context `{B : Backend}.

(** ** gpuRepository *)

Definition FindByUUID (uuid : string) : M World (result GpuCard) :=
  on_gpus (tbl_first (λ c, String.eqb (GpuCard.UUID c) uuid)).

Definition GetByIDs (ids : list Z) : M World (result (list GpuCard)) :=
  on_gpus (tbl_select (λ c, id_in ids (GpuCard.ID c))).

(** [WHERE id IN ? AND status = idle]. *)
Definition idle_in (ids : list Z) (c : GpuCard) : bool :=
  id_in ids (GpuCard.ID c) && (GpuCard.Status c =? GpuStatusIdle).

Definition Acquire (cardIDs : list Z) (jobID : Z) : M World (result unit) :=
  match cardIDs with
  | [] => mret (Ok tt)
  | _ =>
      on_gpus (tbl_tx (
        r ← tbl_count (idle_in cardIDs);
        match r with
        | Err e => mret (Err (ErrWrap "检查显卡状态失败" e))
        | Ok count =>
            if negb (count =? Z.of_nat (length cardIDs))
            then mret (Err (ErrMsg "部分指定的显卡已被占用或不存在"))
            else
              u ← tbl_update (λ c, id_in cardIDs (GpuCard.ID c))
                    (GpuCard.set_status GpuStatusBusy (Some jobID));
              match u with
              | Err e => mret (Err (ErrWrap "更新显卡状态失败" e))
              | Ok _ => mret (Ok tt)
              end
        end))
  end.

Definition repo_CheckAvailable (cardIDs : list Z) : M World (result bool) :=
  match cardIDs with
  | [] => mret (Ok true)
  | _ =>
      r ← on_gpus (tbl_count (idle_in cardIDs));
      match r with
      | Err e => mret (Err e)
      | Ok count => mret (Ok (count =? Z.of_nat (length cardIDs)))
      end
  end.

Definition Release (cardIDs : list Z) : M World (result unit) :=
  match cardIDs with
  | [] => mret (Ok tt)
  | _ => on_gpus (tbl_update (λ c, id_in cardIDs (GpuCard.ID c))
                    (GpuCard.set_status GpuStatusIdle None))
  end.

Definition SyncCards (cards : list GpuCard) : M World (result unit) :=
  match cards with
  | [] => mret (Ok tt)
  | _ => on_gpus (tbl_upsert GpuCard.set_hardware cards)
  end.

Definition GetAllCards : M World (result (list GpuCard)) :=
  on_gpus (tbl_page (λ _, true) (λ a b, GpuCard.Index a <=? GpuCard.Index b) (-1) 0).

(** ** gpuCacheRepository *)

Definition gpu_key (gpuID : Z) : string := "gpu:status:" +:+ Itoa gpuID.
Definition day_seconds : Z := 24 * 3600.

(** The first error of a pipeline; every command of it is sent. *)
Fixpoint first_err (l : list (result unit)) : result unit :=
  match l with
  | [] => Ok tt
  | Err e :: _ => Err e
  | Ok _ :: l' => first_err l'
  end.

Definition set_cache (gpuID : Z) (status job : string) : M World (result unit) :=
  r1 ← on_redis (rd_hset (gpu_key gpuID) "status" status);
  r2 ← on_redis (rd_hset (gpu_key gpuID) "job_id" job);
  r3 ← on_redis (rd_expire (gpu_key gpuID) day_seconds);
  mret (first_err [r1; r2; r3]).

Definition SetBusy (gpuID jobID : Z) : M World (result unit) :=
  set_cache gpuID (Itoa GpuStatusBusy) (Itoa jobID).
Definition SetIdle (gpuID : Z) : M World (result unit) :=
  set_cache gpuID (Itoa GpuStatusIdle) "".

(** The loop over the replies. *)
Fixpoint check_replies (l : list (result (gmap string string))) : result bool :=
  match l with
  | [] => Ok true
  | Err e :: _ => Err e
  | Ok res :: l' =>
      if decide (res = ∅) then Err ErrRedisNil
      else
        match res !! "status" with
        | Some st => if String.eqb st (Itoa GpuStatusIdle) then check_replies l' else Ok false
        | None => Ok false
        end
  end.

(** [pipe.Exec]: the first error that is not nil. *)
Fixpoint exec_err (l : list (result (gmap string string))) : option error :=
  match l with
  | [] => None
  | Err e :: _ => Some e
  | Ok _ :: l' => exec_err l'
  end.

Definition cache_CheckAvailable (cardIDs : list Z) : M World (result bool) :=
  match cardIDs with
  | [] => mret (Ok true)
  | _ =>
      cmds ← for_collect cardIDs (λ id, on_redis (rd_hgetall (gpu_key id)));
      match exec_err cmds with
      | Some ErrRedisNil | None => mret (check_replies cmds)
      | Some e => mret (Err e)
      end
  end.

(** ** gpuService *)

Definition GetGpuCardsByIDs (ids : list Z) : M World (result (list GpuCard)) := GetByIDs ids.

Definition CheckAvailable (cardIDs : list Z) : M World (result bool) :=
  r ← cache_CheckAvailable cardIDs;
  match r with
  | Ok false => mret (Ok false)
  | _ => repo_CheckAvailable cardIDs
  end.

Definition AcquireCards (cardIDs : list Z) (jobID : Z) : M World (result unit) :=
  match cardIDs with
  | [] => mret (Err (ErrMsg "未指定显卡"))
  | _ =>
      r ← Acquire cardIDs jobID;
      match r with
      | Err e => mret (Err e)
      | Ok _ =>
          _ ← for_each cardIDs (λ id, _ ← SetBusy id jobID; mret tt);
          mret (Ok tt)
      end
  end.

Definition ReleaseCards (cardIDs : list Z) : M World (result unit) :=
  match cardIDs with
  | [] => mret (Ok tt)
  | _ =>
      r ← Release cardIDs;
      match r with
      | Err e => mret (Err (ErrWrap "释放显卡失败" e))
      | Ok _ =>
          _ ← for_each cardIDs (λ id, _ ← SetIdle id; mret tt);
          mret (Ok tt)
      end
  end.

(** The card a detected GPU becomes; the id is assigned by the table. *)
Definition card_of_info (i : GpuInfo) : GpuCard :=
  GpuCard.mkGpuCard 0 (GpuInfo.UUID i) (GpuInfo.Name i) (GpuInfo.Index i) GpuStatusIdle None
    (GpuInfo.Type_ i) (GpuInfo.Memory i).

Definition SyncGpuCards (out : option string) : M World (result unit) :=
  match GetGpuInfo out with
  | Err (ErrPanic m) => mret (Err (ErrPanic m))
  | Err e => mret (Err (ErrWrap "获取系统GPU信息失败" e))
  | Ok [] => mret (Ok tt)
  | Ok gpus =>
      let cards := card_of_info <$> gpus in
      r ← SyncCards cards;
      match r with
      | Err e => mret (Err (ErrWrap "同步GPU信息到数据库失败" e))
      | Ok _ =>
          _ ← for_each cards (λ card,
                d ← FindByUUID (GpuCard.UUID card);
                match d with
                | Err _ => mret tt
                | Ok dbCard =>
                    if GpuCard.Status dbCard =? GpuStatusIdle
                    then _ ← SetIdle (GpuCard.ID dbCard); mret tt
                    else
                      match GpuCard.CurrentJobID dbCard with
                      | Some j =>
                          if GpuCard.Status dbCard =? GpuStatusBusy
                          then _ ← SetBusy (GpuCard.ID dbCard) j; mret tt
                          else mret tt
                      | None => mret tt
                      end
                end);
          mret (Ok tt)
      end
  end.

(** [gpuRepository.GetGpus]: the columns the page shows, and the count. *)
Definition repo_GetGpus : M World (result (list GpuCard * Z)) :=
  r ← on_gpus (tbl_page (λ _, true) (λ a b, GpuCard.ID a <=? GpuCard.ID b) (-1) 0);
  match r with
  | Err e => mret (Err e)
  | Ok gpus =>
      n ← on_gpus (tbl_count (λ _, true));
      match n with
      | Err e => mret (Err e)
      | Ok total => mret (Ok (gpus, total))
      end
  end.

(** [GetGpus]: the memory in whole gigabytes. *)
Definition GetGpus : M World (result (list (GpuCard * Z) * Z)) :=
  r ← repo_GetGpus;
  match r with
  | Err e => mret (Err e)
  | Ok (gpus, total) => mret (Ok ((λ c, (c, Z.quot (GpuCard.Memory c) 1024)) <$> gpus, total))
  end.

(** ** Ids and counts *)

Lemma id_in_spec ids i : id_in ids i = true ↔ i ∈ ids.
Proof.
  unfold id_in. rewrite existsb_exists. setoid_rewrite Z.eqb_eq.
  rewrite list_elem_of_In. naive_solver.
Qed.

(** If as many rows as there are requested ids match, the ids are distinct
    and each of them is the id of a matching row. *)
Lemma count_all (rows : list GpuCard) (ids : list Z) (q : GpuCard → bool) :
  NoDup (GpuCard.ID <$> rows) →
  (∀ c, q c = true → GpuCard.ID c ∈ ids) →
  length (List.filter q rows) = length ids →
  NoDup ids ∧ ∀ i, i ∈ ids → ∃ c, c ∈ rows ∧ GpuCard.ID c = i ∧ q c = true.
Proof.
  intros Hnd Hsub Hlen.
  set (L := GpuCard.ID <$> List.filter q rows).
  assert (NoDup L) as HL.
  { unfold L. clear Hlen. induction rows as [|c rows IH]; cbn; [constructor|].
    cbn in Hnd. apply NoDup_cons in Hnd as [Hni Hnd].
    destruct (q c); [|auto]. cbn. apply NoDup_cons. split; [|auto].
    intros Hin. apply Hni. apply list_elem_of_fmap in Hin as (c' & -> & Hin).
    apply list_elem_of_fmap. exists c'. split; [done|].
    apply list_elem_of_In in Hin. apply List.filter_In in Hin as [Hin _].
    by apply list_elem_of_In. }
  assert (∀ i, i ∈ L → ∃ c, c ∈ rows ∧ GpuCard.ID c = i ∧ q c = true) as HLr.
  { intros i (c & -> & Hin)%list_elem_of_fmap. apply list_elem_of_In in Hin.
    apply List.filter_In in Hin as [Hin Hq]. exists c. by rewrite list_elem_of_In. }
  assert (L ⊆+ ids) as Hsm.
  { apply NoDup_submseteq; [done|]. intros i Hi. destruct (HLr i Hi) as (c & _ & <- & Hq).
    by apply Hsub. }
  assert (L ≡ₚ ids) as HP.
  { apply submseteq_length_Permutation; [done|]. unfold L. rewrite length_fmap. lia. }
  split; [by rewrite <- HP|]. intros i Hi. apply HLr. by rewrite HP.
Qed.

(** What a successful acquisition finds: distinct ids of idle cards. *)
Definition all_idle (ids : list Z) (rows : list GpuCard) : Prop :=
  NoDup ids ∧
  ∀ i, i ∈ ids → ∃ c, c ∈ rows ∧ GpuCard.ID c = i ∧ GpuCard.Status c = GpuStatusIdle.

Definition assign (ids : list Z) (st : Z) (j : option Z) (rows : list GpuCard) : list GpuCard :=
  (λ c, if id_in ids (GpuCard.ID c) then GpuCard.set_status st j c else c) <$> rows.

Lemma idle_count ids (rows : list GpuCard) :
  NoDup (GpuCard.ID <$> rows) →
  length (List.filter (idle_in ids) rows) = length ids → all_idle ids rows.
Proof.
  intros Hnd Hlen.
  destruct (count_all rows ids (idle_in ids) Hnd) as [H1 H2]; [|done|].
  - intros c [Hc _]%andb_true_iff. by apply id_in_spec.
  - split; [done|]. intros i Hi. destruct (H2 i Hi) as (c & ? & ? & Hq).
    apply andb_true_iff in Hq as [_ Hq]. apply Z.eqb_eq in Hq. eauto.
Qed.

(** ** Laws of the operations *)
Context {BL : BackendLaws B}.

Lemma gpu_pk (w : World) : NoDup (GpuCard.ID <$> gpus_of w).
Proof. exact (tbl_pk (w_gpus w)). Qed.

Lemma Acquire_ok ids j w w' :
  ids ≠ [] → Acquire ids j w = (w', Ok tt) →
  all_idle ids (gpus_of w) ∧ gpus_of w' = assign ids GpuStatusBusy (Some j) (gpus_of w).
Proof.
  intros Hne H. unfold Acquire in H. destruct ids as [|i0 ids0]; [done|].
  set (ids := i0 :: ids0) in *. clearbody ids. w_inv.
  unfold gpus_of. cbn.
  apply tbl_tx_ok in E as (s0 & s1 & Hr0 & Hc & ->). rewrite <- Hr0.
  w_inv.
  pose proof (tbl_count_view _ _ _ _ E) as Hv. apply tbl_count_ok in E. subst.
  destruct (Z.eqb_spec (Z.of_nat (length (List.filter (idle_in ids) (tbl_rows s0))))
              (Z.of_nat (length ids))) as [Heq|]; cbn in Hc; [|by w_inv].
  w_inv. apply tbl_update_spec in E; [|done]. cbn in E. rewrite E, Hv. split; [|done].
  by apply idle_count; [exact (tbl_pk s0)|].
Qed.

Lemma Acquire_err ids j w w' e : Acquire ids j w = (w', Err e) → gpus_of w' = gpus_of w.
Proof.
  unfold Acquire. destruct ids; intros H; w_inv. unfold gpus_of. cbn. by eapply tbl_tx_err.
Qed.

Lemma Release_spec ids w w' r :
  Release ids w = (w', r) →
  gpus_of w' = if is_ok r then assign ids GpuStatusIdle None (gpus_of w) else gpus_of w.
Proof.
  unfold Release. destruct ids as [|i0 ids0]; intros H; w_inv.
  - unfold assign. cbn. by rewrite list_fmap_id.
  - unfold gpus_of at 1. cbn. by apply tbl_update_spec in E.
Qed.

Lemma set_cache_keeps_gpus id st j : keeps gpus_of (set_cache id st j).
Proof. unfold set_cache. solve_keeps. Qed.
Hint Resolve set_cache_keeps_gpus : keeps.

Lemma idle_count_iff ids (rows : list GpuCard) :
  NoDup (GpuCard.ID <$> rows) →
  length (List.filter (idle_in ids) rows) = length ids ↔ all_idle ids rows.
Proof.
  intros Hnd. split; [by apply idle_count|]. intros [Hni Hall].
  set (L := GpuCard.ID <$> List.filter (idle_in ids) rows).
  assert (∀ i, i ∈ L ↔ i ∈ ids) as HL.
  { intros i. unfold L. rewrite list_elem_of_fmap. split.
    - intros (c & -> & Hin). apply list_elem_of_In, List.filter_In in Hin as [_ Hq].
      apply andb_true_iff in Hq as [Hq _]. by apply id_in_spec.
    - intros Hi. destruct (Hall i Hi) as (c & Hc & Hci & Hst). exists c. split; [done|].
      apply list_elem_of_In, List.filter_In. split; [by apply list_elem_of_In|].
      apply andb_true_iff. rewrite id_in_spec, Z.eqb_eq, Hci. done. }
  assert (NoDup L) as HNL.
  { unfold L. clear HL L Hall. induction rows as [|c rows IH]; cbn in *; [constructor|].
    apply NoDup_cons in Hnd as [Hc Hnd]. destruct (idle_in ids c); [|auto].
    cbn. apply NoDup_cons. split; [|auto]. intros (c' & Heq & Hin)%list_elem_of_fmap.
    apply Hc. rewrite Heq. apply list_elem_of_fmap_2.
    apply list_elem_of_In, List.filter_In in Hin as [Hin _]. by apply list_elem_of_In. }
  transitivity (length L); [unfold L; by rewrite length_fmap|].
  apply Permutation_length, NoDup_Permutation; done.
Qed.

Lemma repo_CheckAvailable_ok ids w w' b :
  ids ≠ [] → repo_CheckAvailable ids w = (w', Ok b) → b = true ↔ all_idle ids (gpus_of w).
Proof.
  intros Hne H. unfold repo_CheckAvailable in H. destruct ids as [|i0 ids0]; [done|].
  set (ids := i0 :: ids0) in *. clearbody ids. w_inv.
  match goal with H : tbl_count _ _ = _ |- _ => apply tbl_count_ok in H end.
  subst. rewrite Z.eqb_eq, <- idle_count_iff by apply gpu_pk.
  unfold gpus_of. lia.
Qed.

(** A requested card the cache knows and does not call idle. *)
Definition cache_busy (ids : list Z) (v : rview) : Prop :=
  ∃ i, i ∈ ids ∧ hget (gpu_key i) v ≠ ∅ ∧
       hget (gpu_key i) v !! "status" ≠ Some (Itoa GpuStatusIdle).

Lemma hgetall_collect ids w w' cmds :
  for_collect ids (λ id, on_redis (rd_hgetall (gpu_key id))) w = (w', cmds) →
  redis_of w' = redis_of w ∧
  Forall2 (λ i r, ∀ h, r = Ok h → h = hget (gpu_key i) (redis_of w)) ids cmds.
Proof.
  revert w cmds. induction ids as [|i ids IH]; intros w cmds H; cbn in H; w_inv; [by split|].
  match goal with H : for_collect _ _ _ = _ |- _ => apply IH in H as [Hv HF] end.
  match goal with H : rd_hgetall _ _ = _ |- _ => rename H into Hg end.
  pose proof (rd_hgetall_view _ _ _ _ Hg) as Hv1.
  unfold redis_of in *. cbn in *. rewrite Hv1 in *. split; [done|].
  constructor; [|done]. intros h ->. by apply rd_hgetall_ok in Hg.
Qed.

Lemma check_replies_false ids cmds v :
  Forall2 (λ i r, ∀ h, r = Ok h → h = hget (gpu_key i) v) ids cmds →
  check_replies cmds = Ok false → cache_busy ids v.
Proof.
  induction 1 as [|i r ids cmds Hr HF IH]; [done|]. cbn -[Itoa]. destruct r as [h|e]; [|done].
  specialize (Hr h eq_refl). case_decide as Hemp; [done|].
  assert (cache_busy ids v → cache_busy (i :: ids) v) as Hmono.
  { intros (k & ? & ?). exists k. split; [by right|done]. }
  destruct (h !! "status") as [st|] eqn:Hst.
  - destruct (String.eqb_spec st (Itoa GpuStatusIdle)) as [_|Hne]; [auto|].
    intros _. exists i. split; [by left|]. rewrite <- Hr, Hst. split; [done|by intros [= Heq]].
  - intros _. exists i. split; [by left|]. by rewrite <- Hr, Hst.
Qed.

Lemma AcquireCards_post ids j w w' r :
  AcquireCards ids j w = (w', r) →
  match r with
  | Ok _ => ids ≠ [] ∧ all_idle ids (gpus_of w) ∧
            gpus_of w' = assign ids GpuStatusBusy (Some j) (gpus_of w)
  | Err _ => gpus_of w' = gpus_of w
  end.
Proof.
  intros H. unfold AcquireCards in H. destruct ids as [|i0 ids0]; [by w_inv|].
  set (ids := i0 :: ids0) in *. assert (ids ≠ []) as Hne by done. clearbody ids.
  w_inv; [|by eapply Acquire_err].
  apply Acquire_ok in E as [Hi Hg]; [|done].
  assert (gpus_of w' = gpus_of w0) as ->; [|done].
  refine ((_ : keeps gpus_of (for_each ids _)) _ _ _ E0).
  solve_keeps.
Qed.

(** ** Results *)

(** C5: [AcquireCards] returns nil only if the requested ids are non-empty,
    pairwise distinct and every one of them is the id of a card that was
    idle; then exactly those cards become busy with the job and every other
    row is unchanged.  On any error the table gpu_cards is unchanged. *)
Theorem AcquireCards_spec ids j w w' r :
  AcquireCards ids j w = (w', r) →
  match r with
  | Ok _ => ids ≠ [] ∧ all_idle ids (gpus_of w) ∧
            gpus_of w' = assign ids GpuStatusBusy (Some j) (gpus_of w)
  | Err _ => gpus_of w' = gpus_of w
  end.
Proof. apply AcquireCards_post. Qed.

Lemma assign_busy_not_idle a b st j rows i :
  NoDup (GpuCard.ID <$> rows) → st ≠ GpuStatusIdle → i ∈ a → i ∈ b →
  ¬ all_idle b (assign a st j rows).
Proof.
  intros Hnd Hst Ha Hb [_ Hall]. destruct (Hall i Hb) as (c & Hc & Hci & Hs).
  unfold assign in Hc. apply list_elem_of_fmap in Hc as (c0 & -> & Hc0).
  destruct (id_in a (GpuCard.ID c0)) eqn:E; cbn in *; [done|].
  apply not_true_iff_false in E. apply E, id_in_spec. by subst i.
Qed.

(** a card is never given to two jobs: as long as no release touched the
    table since a successful acquisition, acquiring a set that shares a card
    with it fails and changes nothing. *)
Theorem AcquireCards_no_double_booking a b i j1 j2 w w1 w2 w3 r :
  AcquireCards a j1 w = (w1, Ok tt) → gpus_of w2 = gpus_of w1 →
  i ∈ a → i ∈ b → AcquireCards b j2 w2 = (w3, r) →
  is_ok r = false ∧ gpus_of w3 = gpus_of w2.
Proof.
  intros H1 Hg Ha Hb H2.
  apply AcquireCards_post in H1 as (_ & _ & Hg1). apply AcquireCards_post in H2.
  destruct r; [|done]. exfalso. destruct H2 as (_ & Hi & _). revert Hi.
  rewrite Hg, Hg1. by apply assign_busy_not_idle with i; [apply gpu_pk|..].
Qed.

Lemma cache_CheckAvailable_post ids w w' r :
  cache_CheckAvailable ids w = (w', r) →
  gpus_of w' = gpus_of w ∧ redis_of w' = redis_of w ∧
  (r = Ok false → cache_busy ids (redis_of w)).
Proof.
  intros H. split; [|split].
  - refine ((_ : keeps gpus_of (cache_CheckAvailable ids)) _ _ _ H).
    unfold cache_CheckAvailable. solve_keeps.
  - refine ((_ : keeps redis_of (cache_CheckAvailable ids)) _ _ _ H).
    unfold cache_CheckAvailable. solve_keeps.
  - intros ->. unfold cache_CheckAvailable in H. destruct ids as [|i0 ids0]; [by w_inv|].
    set (ids := i0 :: ids0) in *. clearbody ids.
    unfold mbind, M_bind in H. destruct (for_collect ids _ w) as [w1 cmds] eqn:E.
    apply hgetall_collect in E as [_ HF].
    destruct (exec_err cmds) as [[]|]; try by w_inv; w_inv.
    all: unfold mret, M_ret in H; injection H as -> H; by eapply check_replies_false.
Qed.

(** [CheckAvailable] answers from three cases: it says available only if
    the table shows every requested card idle (so a stale "idle" in the
    cache cannot make a busy card available); it says unavailable only if the
    cache holds an entry that is not idle for one of the cards, or the table
    shows that not all of them are idle (so a card missing from the cache is
    decided by the table); it changes neither the table nor the cache. *)
Theorem CheckAvailable_spec ids w w' r :
  ids ≠ [] → CheckAvailable ids w = (w', r) →
  gpus_of w' = gpus_of w ∧ redis_of w' = redis_of w ∧
  match r with
  | Ok true => all_idle ids (gpus_of w)
  | Ok false => cache_busy ids (redis_of w) ∨ ¬ all_idle ids (gpus_of w)
  | Err _ => True
  end.
Proof.
  intros Hne H.
  assert (keeps gpus_of (repo_CheckAvailable ids) ∧ keeps redis_of (repo_CheckAvailable ids))
    as [Kg Kr] by (unfold repo_CheckAvailable; split; solve_keeps).
  unfold CheckAvailable, mbind, M_bind in H.
  destruct (cache_CheckAvailable ids w) as [w1 rc] eqn:Ec.
  apply cache_CheckAvailable_post in Ec as (Hg & Hr & Hbusy).
  assert (rc = Ok false ∧ (w1, Ok false) = (w', r) ∨ repo_CheckAvailable ids w1 = (w', r)) as [Hc|Hc]
    by (destruct rc as [[]|]; auto).
  - destruct Hc as [-> [= <- <-]]. auto.
  - rewrite (Kg _ _ _ Hc), (Kr _ _ _ Hc). split_and!; [done..|].
    destruct r as [b|]; [|done]. pose proof (repo_CheckAvailable_ok _ _ _ _ Hne Hc) as Hb.
    rewrite Hg in Hb. destruct b; [by apply Hb|]. right. intros Hi. by apply Hb in Hi.
Qed.

Lemma ReleaseCards_post ids w w' r :
  ReleaseCards ids w = (w', r) →
  gpus_of w' = if is_ok r then assign ids GpuStatusIdle None (gpus_of w) else gpus_of w.
Proof.
  intros H. unfold ReleaseCards in H. destruct ids as [|i0 ids0].
  { w_inv. unfold assign. cbn. by rewrite list_fmap_id. }
  set (ids := i0 :: ids0) in *. clearbody ids.
  w_inv; [|by apply Release_spec in E].
  apply Release_spec in E. cbn in E. rewrite <- E.
  refine ((_ : keeps gpus_of (for_each ids _)) _ _ _ E0). solve_keeps.
Qed.

(** The consistency of a row: busy exactly when a job is recorded. *)
Definition card_wf (c : GpuCard) : Prop :=
  (GpuCard.Status c = GpuStatusIdle ∧ GpuCard.CurrentJobID c = None) ∨
  (GpuCard.Status c = GpuStatusBusy ∧ is_Some (GpuCard.CurrentJobID c)).

Lemma assign_wf ids st j rows :
  card_wf (GpuCard.mkGpuCard 0 "" "" 0 st j "" 0) →
  Forall card_wf rows → Forall card_wf (assign ids st j rows).
Proof.
  intros Hst HF. unfold assign. apply Forall_fmap.
  eapply Forall_impl; [exact HF|]. intros c Hc. cbn. destruct (id_in _ _); done.
Qed.

Lemma SyncCards_wf infos w w' r :
  SyncCards (card_of_info <$> infos) w = (w', r) →
  Forall card_wf (gpus_of w) → Forall card_wf (gpus_of w').
Proof.
  intros H HF. unfold SyncCards in H. destruct infos as [|i0 infos0]; cbn in H; [by w_inv|].
  change (card_of_info i0 :: (card_of_info <$> infos0)) with (card_of_info <$> (i0 :: infos0)) in H.
  set (infos := i0 :: infos0) in *. clearbody infos. w_inv. unfold gpus_of in *. cbn.
  destruct r as [[]|]; [|by apply tbl_upsert_err in E; rewrite E].
  apply tbl_upsert_ok in E as (upd & ins & -> & Hupd & Hins); [|done].
  apply Forall_app. split.
  - apply Forall_fmap. eapply Forall_impl; [exact HF|]. intros c Hc. cbn.
    destruct (Hupd c) as [->|(y & _ & ->)]; [done|]. exact Hc.
  - apply Forall_forall. intros x Hx. destruct (Hins x Hx) as (y & k & Hy & ->).
    apply list_elem_of_fmap in Hy as (i & -> & _). by left.
Qed.

Lemma SyncGpuCards_wf out w w' r :
  SyncGpuCards out w = (w', r) → Forall card_wf (gpus_of w) → Forall card_wf (gpus_of w').
Proof.
  intros H HF. unfold SyncGpuCards in H.
  destruct (GetGpuInfo out) as [[|g gpus]|e]; [by w_inv| |by destruct e; w_inv].
  set (infos := g :: gpus) in *. clearbody infos.
  unfold mbind, M_bind in H.
  destruct (SyncCards _ w) as [w1 r1] eqn:E. apply SyncCards_wf in E; [|done].
  destruct r1; [|by w_inv].
  destruct (for_each _ _ w1) as [w2 u] eqn:E2.
  assert (gpus_of w2 = gpus_of w1) as Hg.
  { refine ((_ : keeps gpus_of (for_each _ _)) _ _ _ E2). unfold FindByUUID. solve_keeps. }
  unfold mret, M_ret in H. injection H as <- _. by rewrite Hg.
Qed.

(** acquisition, release and hardware synchronisation keep the rows of
    gpu_cards consistent, whether they succeed or fail: a card is busy exactly
    when a current job is recorded. *)
Theorem gpu_ops_preserve_wf ids j out w w' :
  (fst (AcquireCards ids j w) = w' ∨ fst (ReleaseCards ids w) = w' ∨
   fst (SyncGpuCards out w) = w') →
  Forall card_wf (gpus_of w) → Forall card_wf (gpus_of w').
Proof.
  intros [H|[H|H]] HF.
  - destruct (AcquireCards ids j w) as [w1 r] eqn:E; cbn in H; subst w1.
    apply AcquireCards_post in E. destruct r; [destruct E as (_ & _ & ->)|by rewrite E].
    apply assign_wf; [|done]. right. cbn. eauto.
  - destruct (ReleaseCards ids w) as [w1 r] eqn:E; cbn in H; subst w1.
    apply ReleaseCards_post in E. destruct (is_ok r); rewrite E; [|done].
    apply assign_wf; [by left|done].
  - destruct (SyncGpuCards out w) as [w1 r] eqn:E; cbn in H; subst w1.
    by eapply SyncGpuCards_wf.
Qed.

Lemma assign_assign ids st j st' j' rows :
  assign ids st' j' (assign ids st j rows) = assign ids st' j' rows.
Proof.
  unfold assign. rewrite <- list_fmap_compose. apply list_fmap_ext. intros i c _. cbn.
  destruct (id_in ids (GpuCard.ID c)) eqn:E; cbn; by rewrite E.
Qed.

(** releasing the cards just acquired restores the table. *)
Theorem acquire_release_roundtrip ids j w w1 w2 :
  Forall card_wf (gpus_of w) →
  AcquireCards ids j w = (w1, Ok tt) → ReleaseCards ids w1 = (w2, Ok tt) →
  gpus_of w2 = gpus_of w.
Proof.
  intros HF H1 H2. apply AcquireCards_post in H1 as (_ & [_ Hidle] & Hg1).
  apply ReleaseCards_post in H2. cbn in H2. rewrite H2, Hg1, assign_assign.
  pose proof (gpu_pk w) as Hpk. unfold assign.
  rewrite <- (list_fmap_id (gpus_of w)) at 2. apply list_fmap_ext. intros k c Hk. cbn.
  destruct (id_in ids (GpuCard.ID c)) eqn:E; [|done].
  apply id_in_spec in E. destruct (Hidle _ E) as (c' & Hc' & Hid & Hst).
  assert (c' = c) as ->.
  { apply list_elem_of_lookup in Hc' as [k' Hk'].
    assert (k' = k) as ->; [|congruence].
    eapply (NoDup_lookup (GpuCard.ID <$> gpus_of w)); [done| |].
    - by rewrite list_lookup_fmap, Hk'.
    - rewrite list_lookup_fmap, Hk. cbn. by rewrite Hid. }
  assert (card_wf c) as [[_ Hj]|[Hb _]].
  { rewrite Forall_forall in HF. apply HF. by eapply list_elem_of_lookup_2. }
  - destruct c; cbn in *; by subst.
  - rewrite Hst in Hb. done.
Qed.
End Gpu.
#[export] Hint Resolve set_cache_keeps_gpus : keeps.

(** ** Concrete runs *)

Definition demo_card (i st : Z) (j : option Z) : GpuCard :=
  GpuCard.mkGpuCard i ("GPU-" +:+ Itoa i) ("gpu-" +:+ Itoa i) i st j "RTX 3090" 24576.
Definition demo_script : script := mkScript 1000 [] [] [] [] [] [].
(** Two idle cards and one busy with job 9; the cache knows the busy one. *)
Definition demo_view : rview :=
  mkRview ∅ {[ "gpu:status:3" := {[ "status" := "1"; "job_id" := "9" ]} ]} ∅.
Definition demo_gpu_world : World :=
  mem_world [] [demo_card 1 0 None; demo_card 2 0 None; demo_card 3 1 (Some 9)] [] []
    demo_view demo_script eq_refl eq_refl eq_refl eq_refl.

Lemma AcquireCards_spec_witness :
  gpus_of (fst (AcquireCards [1; 2] 7 demo_gpu_world)) =
    [demo_card 1 1 (Some 7); demo_card 2 1 (Some 7); demo_card 3 1 (Some 9)].
Proof.
  assert (AcquireCards [1; 2] 7 demo_gpu_world =
          (fst (AcquireCards [1; 2] 7 demo_gpu_world), Ok tt)) as E
    by (apply run_eq; vm_compute; reflexivity).
  rewrite (proj2 (proj2 (AcquireCards_spec [1; 2] 7 demo_gpu_world _ (Ok tt) E))).
  vm_compute. reflexivity.
Defined.

Lemma AcquireCards_no_double_booking_witness :
  is_ok (snd (AcquireCards [2; 1] 8 (fst (AcquireCards [1; 2] 7 demo_gpu_world)))) = false.
Proof.
  set (w1 := fst (AcquireCards [1; 2] 7 demo_gpu_world)).
  assert (AcquireCards [1; 2] 7 demo_gpu_world = (w1, Ok tt)) as E by (apply run_eq; vm_compute; reflexivity).
  assert (1 ∈ [1; 2]) as H1 by (left).
  assert (1 ∈ [2; 1]) as H2 by (right; left).
  exact (proj1 (AcquireCards_no_double_booking [1; 2] [2; 1] 1 7 8 demo_gpu_world w1 w1 _ _ E
           eq_refl H1 H2 (surjective_pairing _))).
Defined.

(** Card 1 is not in the cache and idle in the table: available. *)
Lemma CheckAvailable_spec_witness :
  snd (CheckAvailable [1] demo_gpu_world) = Ok true ∧ all_idle [1] (gpus_of demo_gpu_world).
Proof.
  assert (CheckAvailable [1] demo_gpu_world =
          (fst (CheckAvailable [1] demo_gpu_world), Ok true)) as E by (apply run_eq; vm_compute; reflexivity).
  split; [by rewrite E|].
  exact (proj2 (proj2 (CheckAvailable_spec [1] demo_gpu_world _ (Ok true) ltac:(done) E))).
Defined.

Lemma demo_gpu_wf : Forall card_wf (gpus_of demo_gpu_world).
Proof.
  change (Forall card_wf [demo_card 1 0 None; demo_card 2 0 None; demo_card 3 1 (Some 9)]).
  rewrite !Forall_cons. split_and!; [by left|by left| |by constructor].
  right. split; [done|by eexists].
Qed.

Lemma gpu_ops_preserve_wf_witness :
  Forall card_wf (gpus_of (fst (ReleaseCards [3] demo_gpu_world))).
Proof.
  apply (gpu_ops_preserve_wf [3] 9 None demo_gpu_world _ (or_intror (or_introl eq_refl))).
  exact demo_gpu_wf.
Defined.

Lemma acquire_release_roundtrip_witness :
  gpus_of (fst (ReleaseCards [2] (fst (AcquireCards [2] 5 demo_gpu_world)))) =
  gpus_of demo_gpu_world.
Proof.
  set (w1 := fst (AcquireCards [2] 5 demo_gpu_world)).
  assert (AcquireCards [2] 5 demo_gpu_world = (w1, Ok tt)) as E1 by (apply run_eq; vm_compute; reflexivity).
  assert (ReleaseCards [2] w1 = (fst (ReleaseCards [2] w1), Ok tt)) as E2
    by (apply run_eq; vm_compute; reflexivity).
  exact (acquire_release_roundtrip [2] 5 demo_gpu_world w1 _ demo_gpu_wf E1 E2).
Defined.

(** A release whose cache update fails: the table shows card 3 idle, the
    cache keeps saying busy and [CheckAvailable] refuses the card. *)
Definition stale_world : World :=
  put_redis (mkMem demo_view [true; true; true]) demo_gpu_world.

(** [ReleaseCards] returns nil although the cache update failed, and from
    then on [CheckAvailable] reports the card unavailable while the table
    shows it idle: the stale entry decides until it expires. *)
Theorem release_with_stale_cache_blocks_card :
  let '(w1, r) := ReleaseCards [3] stale_world in
  r = Ok tt ∧ all_idle [3] (gpus_of w1) ∧ snd (CheckAvailable [3] w1) = Ok false.
Proof.
  set (p := ReleaseCards [3] stale_world).
  assert (p = (fst p, Ok tt)) as E by (apply run_eq; vm_compute; reflexivity).
  assert (snd (CheckAvailable [3] (fst p)) = Ok false) as H by (vm_compute; reflexivity).
  unfold p in E at 1. apply ReleaseCards_post in E. cbn [is_ok] in E.
  assert (snd p = Ok tt) as H2 by (vm_compute; reflexivity).
  destruct p as [w1 r]; cbn [fst snd] in *. split_and!; [done| |done]. rewrite E.
  split; [apply NoDup_singleton|]. intros i ->%list_elem_of_singleton.
  exists (demo_card 3 0 None). split; [|done]. by do 2 right; left.
Qed.
