(* ===== verification/JobRepo.v ===== *)
(** * The job repository (internal/repository/job_repository.go) and the
    process repositories (process_repository.go) *)

From S2P Require Import Prelude GoStrings Float64 Entity External MemBackend Gpu.

Open Scope Z_scope.

(** ** Requests and rows *)

Module QueueListRequest.
Record QueueListRequest : Type := mkQueueListRequest {
  Id : Z; Name : string; PageSize : Z; Page : Z
}.
End QueueListRequest.
Notation QueueListRequest := QueueListRequest.QueueListRequest.

Module JobListRequest.
Record JobListRequest : Type := mkJobListRequest {
  Id : Z; Status : Z; Name : string; PageSize : Z; Page : Z
}.
End JobListRequest.
Notation JobListRequest := JobListRequest.JobListRequest.

Module QueueJobDBRow.
Record QueueJobDBRow : Type := mkQueueJobDBRow {
  JobID : Z; JobName : string; Description : string; Status : Z;
  SubmittedAt : option Z; UserName : string; Sug : Z
}.
End QueueJobDBRow.
Notation QueueJobDBRow := QueueJobDBRow.QueueJobDBRow.

Module JobResponse.
Record JobResponse : Type := mkJobResponse {
  ID : Z; Name : string; Description : string; Status : Z; CondaEnv : string;
  CreatedAt : option Z; Card : string; Count : Z; WaitTime : string
}.
End JobResponse.
Notation JobResponse := JobResponse.JobResponse.

Module JobStats.
Record JobStats : Type := mkJobStats { Total : Z; Running : Z; Queued : Z; Exception : Z }.
End JobStats.

Module HomeQueueSummary.
Record HomeQueueSummary : Type := mkHomeQueueSummary {
  Running : Z; Queued : Z; WaitingGpu : Z
}.
End HomeQueueSummary.

(** ** Conditions *)

(** SQL comparisons with a NULL operand are not true. *)
Definition sql_ge (x : option Z) (y : Z) : bool :=
  match x with Some a => y <=? a | None => false end.
Definition sql_le (x : option Z) (y : Z) : bool :=
  match x with Some a => a <=? y | None => false end.

(** [ORDER BY created_at DESC]: NULL is the smallest value. *)
Definition created_desc (a b : Job) : bool :=
  match Job.CreatedAt a, Job.CreatedAt b with
  | _, None => true
  | None, Some _ => false
  | Some x, Some y => y <=? x
  end.

(** [CASE id WHEN id0 THEN 0 WHEN id1 THEN 1 ... END]. *)
Fixpoint index_of (ids : list Z) (i : Z) : nat :=
  match ids with
  | [] => O
  | x :: l => if x =? i then O else S (index_of l i)
  end.
Definition queue_order (ids : list Z) (a b : Job) : bool :=
  Nat.leb (index_of ids (Job.ID a)) (index_of ids (Job.ID b)).

(** The dynamic type of [statusFilter]. *)
Inductive status_filter : Type :=
  | FilterInt (v : Z)
  | FilterInts (v : list Z).

Definition status_ok (f : status_filter) (st : Z) : bool :=
  match f with
  | FilterInt v => if 0 <? v then st =? v else true
  | FilterInts [] => true
  | FilterInts v => id_in v st
  end.

Section JobRepo.
Context `{B : Backend}.

(** The conditions that [buildBaseQueueJobQuery] and the job list share. *)
Definition common_filter (id : Z) (name : string) (startTime endTime : option Z) (j : Job) : bool :=
  (if 0 <? id then Job.ID j =? id else true) &&
  (if String.eqb name "" then true else db_like (Job.Name j) ("%" +:+ name +:+ "%")) &&
  (match startTime with Some t => sql_ge (Job.CreatedAt j) t | None => true end) &&
  (match endTime with Some t => sql_le (Job.CreatedAt j) t | None => true end).

Definition buildBaseQueueJobQuery (req : QueueListRequest) (startTime endTime : option Z)
  : Job → bool :=
  common_filter (QueueListRequest.Id req) (QueueListRequest.Name req) startTime endTime.

(** [LEFT JOIN admin_users]: the user's name, empty when there is none. *)
Definition user_name (users : list User) (uid : Z) : string :=
  match List.find (λ u, User.ID u =? uid) users with
  | Some u => User.Username u
  | None => ""
  end.
Definition db_row (users : list User) (j : Job) : QueueJobDBRow :=
  QueueJobDBRow.mkQueueJobDBRow (Job.ID j) (Job.Name j) (Job.Description j) (Job.Status j)
    (Job.CreatedAt j) (user_name users (Job.UserId j)) (Job.sug j).

(** One [Scan] of the joined query. *)
Definition scan_rows (p : Job → bool) (o : Job → Job → bool) (limit offset : Z)
  : M World (result (list QueueJobDBRow)) :=
  r ← on_jobs (tbl_page p o limit offset);
  match r with
  | Err e => mret (Err e)
  | Ok js =>
      u ← on_users (tbl_select (λ x, id_in (Job.UserId <$> js) (User.ID x)));
      match u with
      | Err e => mret (Err e)
      | Ok users => mret (Ok (db_row users <$> js))
      end
  end.

(** ** Lists *)

Definition queued_or_waiting : list Z := [JobStatusQueued; JobStatusWaitingGpu].

Definition GetQueueJobListFiltered (orderedJobIDs : list Z) (req : QueueListRequest)
  (startTime endTime : option Z) : M World (result (list QueueJobDBRow * Z)) :=
  match orderedJobIDs with
  | [] => mret (Ok ([], 0))
  | _ =>
      let p j := buildBaseQueueJobQuery req startTime endTime j &&
                 id_in orderedJobIDs (Job.ID j) && id_in queued_or_waiting (Job.Status j) in
      c ← on_jobs (tbl_count p);
      match c with
      | Err e => mret (Err e)
      | Ok total =>
          let offset := wrap64 (wrap64 (QueueListRequest.Page req - 1) * QueueListRequest.PageSize req) in
          r ← scan_rows p (queue_order orderedJobIDs) (QueueListRequest.PageSize req) offset;
          match r with
          | Err e => mret (Err e)
          | Ok rows => mret (Ok (rows, total))
          end
      end
  end.

Definition GetRunningJobs (req : QueueListRequest) (startTime endTime : option Z)
  : M World (result (list QueueJobDBRow * Z)) :=
  let p j := buildBaseQueueJobQuery req startTime endTime j && (Job.Status j =? JobStatusRunning) in
  c ← on_jobs (tbl_count p);
  match c with
  | Err e => mret (Err e)
  | Ok total =>
      r ← scan_rows p created_desc (-1) 0;
      match r with
      | Err e => mret (Err e)
      | Ok rows => mret (Ok (rows, total))
      end
  end.

(** The statement of [GetQueueJobsByIDs] does not select [sug]. *)
Definition without_sug (r : QueueJobDBRow) : QueueJobDBRow :=
  QueueJobDBRow.mkQueueJobDBRow (QueueJobDBRow.JobID r) (QueueJobDBRow.JobName r)
    (QueueJobDBRow.Description r) (QueueJobDBRow.Status r) (QueueJobDBRow.SubmittedAt r)
    (QueueJobDBRow.UserName r) 0.

Definition GetQueueJobsByIDs (jobIDs : list Z) : M World (result (gmap Z QueueJobDBRow)) :=
  match jobIDs with
  | [] => mret (Ok ∅)
  | _ =>
      r ← scan_rows (λ j, id_in jobIDs (Job.ID j)) (λ _ _, true) (-1) 0;
      match r with
      | Err e => mret (Err e)
      | Ok rows =>
          mret (Ok (foldl (λ acc x, <[QueueJobDBRow.JobID x := x]> acc) ∅ (without_sug <$> rows)))
      end
  end.

(** Replacing the ids in [Card] by the names of the cards that exist. *)
Definition card_names (names : gmap string string) (card : string) : string :=
  if String.eqb card "" then ""
  else Join "," (omap (λ id, names !! id) (Split comma card)).

Definition set_card (c : string) (r : JobResponse) : JobResponse :=
  JobResponse.mkJobResponse (JobResponse.ID r) (JobResponse.Name r) (JobResponse.Description r)
    (JobResponse.Status r) (JobResponse.CondaEnv r) (JobResponse.CreatedAt r) c
    (JobResponse.Count r) (JobResponse.WaitTime r).

Definition job_response (j : Job) : JobResponse :=
  JobResponse.mkJobResponse (Job.ID j) (Job.Name j) (Job.Description j) (Job.Status j)
    (Job.CondaEnv j) (Job.CreatedAt j) (Job.GpuIDs j) 0 "".

Definition getJobListWithFilters (req : JobListRequest) (startTime endTime : option Z)
  (userID : Z) (f : status_filter) : M World (result (list JobResponse * Z * Z * Z)) :=
  let p j := (Job.UserId j =? userID) && status_ok f (Job.Status j) &&
             common_filter (JobListRequest.Id req) (JobListRequest.Name req) startTime endTime j in
  c ← on_jobs (tbl_count p);
  match c with
  | Err e => mret (Err e)
  | Ok total =>
      let offset := wrap64 (wrap64 (JobListRequest.Page req - 1) * JobListRequest.PageSize req) in
      r ← on_jobs (tbl_page p created_desc (JobListRequest.PageSize req) offset);
      match r with
      | Err e => mret (Err e)
      | Ok js =>
          let list := job_response <$> js in
          let allGpuIDs := mjoin ((λ x, if String.eqb (JobResponse.Card x) "" then []
                                        else Split comma (JobResponse.Card x)) <$> list) in
          names ← (match allGpuIDs with
                   | [] => mret ∅
                   | _ =>
                       g ← on_gpus (tbl_select (λ c, existsb (String.eqb (Itoa (GpuCard.ID c))) allGpuIDs));
                       match g with
                       | Err _ => mret ∅
                       | Ok cards =>
                           mret (foldl (λ acc c, <[Itoa (GpuCard.ID c) := GpuCard.Name c]> acc)
                                   (∅ : gmap string string) cards)
                       end
                   end : M World (gmap string string));
          mret (Ok ((λ x, set_card (card_names names (JobResponse.Card x)) x) <$> list,
                    total, JobListRequest.Page req, JobListRequest.PageSize req))
      end
  end.

Definition repo_GetJobList req startTime endTime userID :=
  getJobListWithFilters req startTime endTime userID (FilterInt (JobListRequest.Status req)).
Definition repo_GetWaitJobList req startTime endTime userID :=
  getJobListWithFilters req startTime endTime userID (FilterInts queued_or_waiting).

(** ** Single rows *)

Definition job_Create (j : Job) : M World (result Z) := on_jobs (tbl_create j).
Definition job_Delete (jobId : Z) : M World (result unit) :=
  r ← on_jobs (tbl_delete (λ j, Job.ID j =? jobId));
  mret (match r with Ok _ => Ok tt | Err e => Err e end).

(** The pointer is never nil without an error. *)
Definition GetByID (id : Z) : M World (result (option Job)) :=
  r ← on_jobs (tbl_first (λ j, Job.ID j =? id));
  match r with
  | Ok j => mret (Ok (Some j))
  | Err ErrRecordNotFound => mret (Err (ErrMsg ("任务id为：" +:+ Itoa id +:+ " 的任务不存在")))
  | Err e => mret (Err e)
  end.

Definition is_terminal (st : Z) : bool :=
  (st =? JobStatusCompleted) || (st =? JobStatusFailed) || (st =? JobStatusCancelled).

Definition status_update (status now : Z) (j : Job) : Job :=
  Job.set_status status
    (if status =? JobStatusRunning then Some now else Job.StartedAt j)
    (if is_terminal status then Some now else Job.FinishedAt j) j.

Definition UpdateStatus (id status : Z) : M World (result unit) :=
  now ← on_env env_now;
  on_jobs (tbl_update (λ j, Job.ID j =? id) (status_update status now)).

Definition UpdateSug (jobId : Z) : M World (result unit) :=
  on_jobs (tbl_update (λ j, Job.ID j =? jobId) (Job.set_sug 1)).

Definition GetRunningJobsWithoutPagination : M World (result (list Job)) :=
  on_jobs (tbl_select (λ j, Job.Status j =? JobStatusRunning)).

(** ** Statistics *)

Definition GetStats : M World (result JobStats.JobStats) :=
  t ← on_jobs (tbl_count (λ _, true));
  match t with
  | Err e => mret (Err e)
  | Ok total =>
      a ← on_jobs (tbl_count (λ j, Job.Status j =? JobStatusRunning));
      match a with
      | Err e => mret (Err e)
      | Ok running =>
          b ← on_jobs (tbl_count (λ j, id_in queued_or_waiting (Job.Status j)));
          match b with
          | Err e => mret (Err e)
          | Ok queued =>
              c ← on_jobs (tbl_count (λ j, id_in [JobStatusFailed] (Job.Status j)));
              match c with
              | Err e => mret (Err e)
              | Ok exception => mret (Ok (JobStats.mkJobStats total running queued exception))
              end
          end
      end
  end.

Definition GetHomeQueueSummary : M World (result HomeQueueSummary.HomeQueueSummary) :=
  a ← on_jobs (tbl_count (λ j, Job.Status j =? JobStatusRunning));
  match a with
  | Err e => mret (Err e)
  | Ok running =>
      b ← on_jobs (tbl_count (λ j, Job.Status j =? JobStatusQueued));
      match b with
      | Err e => mret (Err e)
      | Ok queued =>
          c ← on_jobs (tbl_count (λ j, Job.Status j =? JobStatusWaitingGpu));
          match c with
          | Err e => mret (Err e)
          | Ok waiting => mret (Ok (HomeQueueSummary.mkHomeQueueSummary running queued waiting))
          end
      end
  end.

(** ** processes and the pid cache *)

Definition proc_Create (p : Process) : M World (result Z) := on_procs (tbl_create p).
Definition proc_Update (p : Process) : M World (result unit) := on_procs (tbl_save p).

Definition FindActiveByJobID (jobID : Z) : M World (result (list Process)) :=
  on_procs (tbl_select (λ p, (Process.JobID p =? jobID) &&
                             match Process.EndedAt p with None => true | Some _ => false end)).
Definition FindAll : M World (result (list Process)) :=
  on_procs (tbl_select (λ p, match Process.EndedAt p with None => true | Some _ => false end)).

Definition PidKey : string := "job:pid".
Definition CreatePid (pid : Z) (jobName : string) : M World (result unit) :=
  on_redis (rd_hset PidKey (Itoa pid) jobName).
Definition DelPid (pid : Z) : M World (result unit) := on_redis (rd_hdel PidKey (Itoa pid)).

(** The loop over the hash; a field that is not a number fails the call. *)
Fixpoint parse_pids (l : list (string * string)) : result (list string * list Z) :=
  match l with
  | [] => Ok ([], [])
  | (k, v) :: l' =>
      match Atoi k with
      | Err e => Err (ErrWrap "PID不合规" e)
      | Ok pid =>
          match parse_pids l' with
          | Err e => Err e
          | Ok (names, pids) => Ok (v :: names, pid :: pids)
          end
      end
  end.
Definition GetAllPid : M World (result (list string * list Z)) :=
  r ← on_redis (rd_hgetall PidKey);
  match r with
  | Err e => mret (Err e)
  | Ok all => mret (parse_pids (map_to_list all))
  end.

(** ** Laws *)
Context {BL : BackendLaws B}.

Lemma job_pk (w : World) : NoDup (Job.ID <$> jobs_of w).
Proof. exact (tbl_pk (w_jobs w)). Qed.

(** Rows by id. *)
Definition job_row (id : Z) (w : World) : option Job :=
  List.find (λ j, Job.ID j =? id) (jobs_of w).
Definition job_status (id : Z) (w : World) : option Z := Job.Status <$> job_row id w.

Lemma find_unique {A} (key : A → Z) (l : list A) x :
  NoDup (key <$> l) → x ∈ l → List.find (λ y, key y =? key x) l = Some x.
Proof.
  induction l as [|y l IH]; cbn; [by intros _ ?%elem_of_nil|].
  intros [Hy Hnd]%NoDup_cons [->|Hx]%elem_of_cons; [by rewrite Z.eqb_refl|].
  destruct (Z.eqb_spec (key y) (key x)) as [Heq|]; [|auto].
  exfalso. apply Hy. rewrite Heq. by apply list_elem_of_fmap_2.
Qed.

Lemma GetByID_ok id w w' o :
  GetByID id w = (w', Ok o) →
  ∃ j, o = Some j ∧ job_row id w = Some j ∧ Job.ID j = id ∧ j ∈ jobs_of w.
Proof.
  unfold GetByID. intros H. w_inv.
  - match goal with H : tbl_first _ _ = _ |- _ => apply tbl_first_ok in H as [Hin Hp] end.
    apply Z.eqb_eq in Hp. subst id. eexists. split_and!; [done| |done..].
    unfold job_row. apply find_unique; [apply job_pk|done].
  - destruct e; by w_inv.
Qed.

Lemma GetByID_keeps : ∀ id,
  keeps jobs_of (GetByID id) ∧ keeps gpus_of (GetByID id) ∧ keeps procs_of (GetByID id) ∧
  keeps redis_of (GetByID id).
Proof. intros id. unfold GetByID. split_and!; solve_keeps. Qed.

Lemma UpdateStatus_post id st w w' r :
  UpdateStatus id st w = (w', r) →
  ∃ now, jobs_of w' =
    if is_ok r then (λ j, if Job.ID j =? id then status_update st now j else j) <$> jobs_of w
    else jobs_of w.
Proof.
  unfold UpdateStatus. intros H. w_inv.
  match goal with H : tbl_update _ _ _ = _ |- _ => apply tbl_update_spec in H; [|done] end.
  eexists. done.
Qed.

Lemma UpdateStatus_keeps id st :
  keeps gpus_of (UpdateStatus id st) ∧ keeps procs_of (UpdateStatus id st) ∧
  keeps redis_of (UpdateStatus id st) ∧ keeps users_of (UpdateStatus id st).
Proof. unfold UpdateStatus. split_and!; solve_keeps. Qed.

(** The status seen by id after an update. *)
Lemma find_map_update (f : Job → Job) id id' l :
  (∀ j, Job.ID (f j) = Job.ID j) →
  List.find (λ j, Job.ID j =? id') ((λ j, if Job.ID j =? id then f j else j) <$> l) =
  (if id' =? id then f <$> List.find (λ j, Job.ID j =? id') l
   else List.find (λ j, Job.ID j =? id') l).
Proof.
  intros Hf. induction l as [|j l IH]; cbn; [by destruct (id' =? id)|].
  destruct (Z.eqb_spec (Job.ID j) id) as [<-|Hne]; rewrite ?Hf.
  - destruct (Z.eqb_spec (Job.ID j) id') as [<-|]; [by rewrite Z.eqb_refl|exact IH].
  - destruct (Z.eqb_spec (Job.ID j) id') as [<-|]; [|exact IH].
    by rewrite (proj2 (Z.eqb_neq _ _)).
Qed.

Lemma UpdateStatus_status id st id' w w' r :
  UpdateStatus id st w = (w', r) →
  job_status id' w' =
    (if is_ok r && (id' =? id) then (λ _, st) <$> job_status id w else job_status id' w).
Proof.
  intros H. apply UpdateStatus_post in H as [now Hj]. unfold job_status, job_row. rewrite Hj.
  destruct (is_ok r); cbn; [|done].
  rewrite find_map_update by done. destruct (Z.eqb_spec id' id) as [->|]; [|done].
  rewrite <- !option_fmap_compose. by apply option_fmap_ext.
Qed.
End JobRepo.

#[export] Hint Extern 1 (keeps _ (GetByID _)) => (apply GetByID_keeps) : keeps.
#[export] Hint Extern 1 (keeps _ (UpdateStatus _ _)) => (apply UpdateStatus_keeps) : keeps.
