(* ===== verification/Queue.v ===== *)
(** * The waiting queue: repository and service

    internal/repository/queue_repository.go and
    internal/service/queue_service.go.  The queue is the Redis sorted set
    queue:jobs: members are job ids in decimal, scores are float64, the head is
    the member with the least score (ties by the bytes of the id). *)

From S2P Require Import Prelude GoStrings Float64 Entity External MemBackend Gpu JobRepo.

Open Scope Z_scope.

Definition QueueKey : string := "queue:jobs".
Definition SeqKey : string := "queue:seq".

Definition PriorityGap : Z := 1000000000.
Definition MaxPriority : Z := 10.

Module QueueJobResponse.
Record QueueJobResponse : Type := mkQueueJobResponse {
  JobID : Z; UserName : string; JobName : string; Description : string; Status : Z;
  SubmittedAt : option Z; WaitSeconds : Z; FrontCount : Z; Sug : Z
}.
End QueueJobResponse.
Notation QueueJobResponse := QueueJobResponse.QueueJobResponse.

(** The score given to a job of a priority with a sequence number. *)
Definition enqueue_score (priority seq : Z) : float64 :=
  let base := wrap64 (wrap64 (MaxPriority - priority) * PriorityGap) in
  f_of_int (wrap64 (base + seq)).

Section Queue.
Context `{B : Backend}.

(** ** queueRepository *)

Definition repo_Add (jobID : Z) (score : float64) : M World (result unit) :=
  on_redis (rd_zadd QueueKey score (Itoa jobID)).

Definition repo_Remove (jobID : Z) : M World (result unit) :=
  on_redis (rd_zrem QueueKey (Itoa jobID)).

(** Job id 0 stands for an empty queue. *)
Definition repo_Peek : M World (result (Z * float64)) :=
  r ← on_redis (rd_zrange QueueKey 0 0);
  match r with
  | Err e => mret (Err e)
  | Ok [] => mret (Ok (0, 0))
  | Ok ((m, score) :: _) =>
      match Atoi m with
      | Err e => mret (Err e)
      | Ok jobID => mret (Ok (jobID, score))
      end
  end.

Definition NextSeq : M World (result Z) := on_redis (rd_incr SeqKey).

Definition repo_Range (start stop : Z) : M World (result (list string)) :=
  r ← on_redis (rd_zrange QueueKey start stop);
  match r with
  | Err e => mret (Err e)
  | Ok l => mret (Ok (fst <$> l))
  end.

Definition RangeWithScores (start stop : Z) : M World (result (list (string * float64))) :=
  on_redis (rd_zrange QueueKey start stop).

Definition Rank (jobID : Z) : M World (result Z) := on_redis (rd_zrank QueueKey (Itoa jobID)).
Definition Score (jobID : Z) : M World (result float64) :=
  on_redis (rd_zscore QueueKey (Itoa jobID)).

(** ** queueService *)

Definition Enqueue (jobID priority : Z) : M World (result unit) :=
  r ← NextSeq;
  match r with
  | Err e => mret (Err e)
  | Ok seq => repo_Add jobID (enqueue_score priority seq)
  end.

Definition Peek : M World (result (option Item)) :=
  r ← repo_Peek;
  match r with
  | Err e => mret (Err e)
  | Ok (jobID, score) =>
      if jobID =? 0 then mret (Ok None)
      else mret (Ok (Some (Item.mkItem jobID (f_to_int score))))
  end.

Definition Remove (jobID : Z) : M World (result unit) := repo_Remove jobID.

Definition fixJobStatusIfMovedFromHead (jobID : Z) : M World unit :=
  r ← Rank jobID;
  match r with
  | Err _ => mret tt
  | Ok rank =>
      if 0 <? rank then
        g ← GetByID jobID;
        match g with
        | Ok (Some job) =>
            if Job.Status job =? JobStatusWaitingGpu
            then _ ← UpdateStatus jobID JobStatusQueued; mret tt
            else mret tt
        | _ => mret tt
        end
      else mret tt
  end.

(** The score of the place in front of [beforeJobID]. *)
Definition place_before (rank : Z) (beforeScore : float64) : M World (result float64) :=
  if rank =? 0 then mret (Ok (f_sub beforeScore (f_of_int PriorityGap)))
  else
    r ← RangeWithScores (rank - 1) (rank - 1);
    match r with
    | Err e => mret (Err e)
    | Ok [] => mret (Err (ErrPanic "index out of range [0] with length 0"))
    | Ok ((_, prevScore) :: _) => mret (Ok (f_half (f_add prevScore beforeScore)))
    end.

(** The end of [MoveBefore], after the new score is stored. *)
Definition move_finish (oldHeadID jobID : Z) : M World (result unit) :=
  u ← UpdateSug jobID;
  match u with
  | Err e => mret (Err e)
  | Ok _ =>
      _ ← (if negb (oldHeadID =? 0)
           then fixJobStatusIfMovedFromHead oldHeadID
           else mret tt : M World unit);
      _ ← fixJobStatusIfMovedFromHead jobID;
      mret (Ok tt)
  end.

Definition MoveBefore (jobID beforeJobID : Z) : M World (result unit) :=
  p ← repo_Peek;
  match p with
  | Err e => mret (Err e)
  | Ok (oldHeadID, _) =>
      k ← Rank beforeJobID;
      match k with
      | Err e => mret (Err e)
      | Ok rank =>
          sc ← Score beforeJobID;
          match sc with
          | Err e => mret (Err e)
          | Ok beforeScore =>
              n ← place_before rank beforeScore;
              match n with
              | Err e => mret (Err e)
              | Ok newScore =>
                  a ← repo_Add jobID newScore;
                  match a with
                  | Err e => mret (Err e)
                  | Ok _ => move_finish oldHeadID jobID
                  end
              end
          end
      end
  end.

Definition GetFrontCount (jobID : Z) : M World (result Z) :=
  r ← Rank jobID;
  match r with
  | Ok rank => mret (Ok rank)
  | Err ErrRedisNil => mret (Ok (-1))
  | Err e => mret (Err e)
  end.

(** The members that are numbers, in order. *)
Definition parse_members (members : list string) : list Z :=
  omap (λ m, match Atoi m with Ok i => Some i | Err _ => None end) members.

Definition page_row (now : Z) (row : QueueJobDBRow) : M World QueueJobResponse :=
  rank ← (if id_in queued_or_waiting (QueueJobDBRow.Status row)
          then r ← Rank (QueueJobDBRow.JobID row);
               match r with Ok n => mret n | Err _ => mret 0 end
          else mret 0 : M World Z);
  let waitSec := dur_seconds (dur_sub now (default zero_time (QueueJobDBRow.SubmittedAt row))) in
  mret (QueueJobResponse.mkQueueJobResponse (QueueJobDBRow.JobID row) (QueueJobDBRow.UserName row)
          (QueueJobDBRow.JobName row) (QueueJobDBRow.Description row) (QueueJobDBRow.Status row)
          (QueueJobDBRow.SubmittedAt row) (if waitSec <? 0 then 0 else waitSec) rank
          (QueueJobDBRow.Sug row)).

(** [allJobs[startIdx:endIdx]] with the two guards in front of it. *)
Definition page_slice {A} (page pageSize : Z) (l : list A) : result (list A) :=
  let n := Z.of_nat (length l) in
  let startIdx := wrap64 (wrap64 (page - 1) * pageSize) in
  let endIdx := wrap64 (startIdx + pageSize) in
  if n <=? startIdx then Ok []
  else
    let endIdx := if n <? endIdx then n else endIdx in
    if (startIdx <? 0) || (endIdx <? startIdx)
    then Err (ErrPanic "slice bounds out of range")
    else Ok (take (Z.to_nat (endIdx - startIdx)) (drop (Z.to_nat startIdx) l)).

Definition GetQueuePage (req : QueueListRequest) (startTime endTime : option Z)
  : M World (result (list QueueJobResponse * Z * Z * Z)) :=
  r ← GetRunningJobs req startTime endTime;
  match r with
  | Err e => mret (Err e)
  | Ok (runningJobs, _) =>
      m ← repo_Range 0 (-1);
      match m with
      | Err e => mret (Err e)
      | Ok members =>
          q ← GetQueueJobListFiltered (parse_members members) req startTime endTime;
          match q with
          | Err e => mret (Err e)
          | Ok (queuedAndWaitingJobs, _) =>
              let allJobs := runningJobs ++ queuedAndWaitingJobs in
              let total := Z.of_nat (length allJobs) in
              let pageSize := if QueueListRequest.PageSize req <=? 0 then 10
                              else QueueListRequest.PageSize req in
              let page := if QueueListRequest.Page req <=? 0 then 1
                          else QueueListRequest.Page req in
              match page_slice page pageSize allJobs with
              | Err e => mret (Err e)
              | Ok [] => mret (Ok ([], total, page, pageSize))
              | Ok paginatedJobs =>
                  now ← on_env env_now;
                  list ← for_collect paginatedJobs (page_row now);
                  mret (Ok (list, total, page, pageSize))
              end
          end
      end
  end.
End Queue.

(** ** The order of the sorted set *)

#[export] Instance zle_trans : Transitive zle.
Proof.
  intros [m1 s1] [m2 s2] [m3 s3]. unfold zle. cbn.
  intros [?|[-> ?]] [?|[-> ?]]; [left; lia|by left|by left|].
  right. split; [done|]. by etrans.
Qed.
#[export] Instance zle_total : Total zle.
Proof.
  intros [m1 s1] [m2 s2]. unfold zle. cbn.
  destruct (Z.lt_trichotomy s1 s2) as [?|[->|?]]; [by left; left| |by right; left].
  destruct (total String.le m1 m2); [left|right]; by right.
Qed.
#[export] Instance zle_antisymm : AntiSymm (=) zle.
Proof.
  intros [m1 s1] [m2 s2]. unfold zle. cbn.
  intros [?|[-> H1]] [?|[? H2]]; try lia.
  f_equal. by apply (anti_symm String.le).
Qed.
#[export] Instance zle_refl : Reflexive zle.
Proof. intros [m s]. right. by split. Qed.

Lemma zsort_sorted z : StronglySorted zle (zsort z).
Proof. apply StronglySorted_merge_sort; apply _. Qed.

Lemma zsort_NoDup z : NoDup (zsort z).*1.
Proof. unfold zsort. rewrite merge_sort_Permutation. apply NoDup_fst_map_to_list. Qed.

Lemma zsort_length z : length (zsort z) = size z.
Proof. rewrite zsort_perm. apply length_map_to_list. Qed.

(** The rank is the number of elements in front. *)
Lemma rank_of_Some m l n :
  rank_of m l = Some n ↔
  ∃ l1 x l2, l = l1 ++ (m, x) :: l2 ∧ m ∉ l1.*1 ∧ n = Z.of_nat (length l1).
Proof.
  revert n. induction l as [|[y sc] l IH]; intros n; cbn.
  { split; [done|]. intros (l1 & x & l2 & H & _). by destruct l1. }
  case_decide as Hy.
  - subst y. split.
    + intros [= <-]. exists [], sc, l. by split_and!; [|apply not_elem_of_nil|].
    + intros (l1 & x & l2 & H & Hni & ->). destruct l1 as [|[y s1] l1]; [done|].
      cbn in H, Hni. simplify_eq. exfalso. apply Hni. by left.
  - rewrite fmap_Some. setoid_rewrite IH. split.
    + intros (k & (l1 & x & l2 & -> & Hni & ->) & ->). exists ((y, sc) :: l1), x, l2. cbn.
      rewrite not_elem_of_cons. split_and!; [done|done|done|lia].
    + intros (l1 & x & l2 & H & Hni & ->). destruct l1 as [|[y1 s1] l1]; cbn in *; simplify_eq.
      apply not_elem_of_cons in Hni as [_ Hni]. eexists. split; [by exists l1, x, l2|]. lia.
Qed.

Lemma rank_of_is_Some z m : is_Some (rank_of m (zsort z)) ↔ is_Some (z !! m).
Proof.
  rewrite <- zsort_member, <- not_eq_None_Some, rank_of_None.
  destruct (decide (m ∈ (zsort z).*1)); tauto.
Qed.

(** An element in front of another one is below it. *)
Lemma zsort_front z l1 m x l2 k y :
  zsort z = l1 ++ (m, x) :: l2 → (k, y) ∈ l1 → zle (k, y) (m, x).
Proof.
  intros Hz Hk. pose proof (zsort_sorted z) as HS. rewrite Hz in HS.
  eapply StronglySorted_app_1_elem_of; [exact HS|done|by left].
Qed.

Lemma zsort_back z l1 m x l2 k y :
  zsort z = l1 ++ (m, x) :: l2 → (k, y) ∈ l2 → zle (m, x) (k, y).
Proof.
  intros Hz Hk. pose proof (zsort_sorted z) as HS. rewrite Hz in HS.
  apply StronglySorted_app_1_r in HS. apply StronglySorted_cons in HS as [HF _].
  rewrite Forall_forall in HF. by apply HF.
Qed.

Lemma sorted_lookup {A} (R : relation A) l (i j : nat) a b :
  StronglySorted R l → (i < j)%nat → l !! i = Some a → l !! j = Some b → R a b.
Proof.
  intros HS. revert i j. induction HS as [|x l HS IH HF]; intros i j Hij Hi Hj; [done|].
  destruct i as [|i], j as [|j]; cbn in *; simplify_eq; try lia.
  - rewrite Forall_forall in HF. apply HF. by eapply list_elem_of_lookup_2.
  - apply (IH i j); [lia|done..].
Qed.

Lemma rank_of_lookup z m n :
  rank_of m (zsort z) = Some n →
  ∃ x, z !! m = Some x ∧ zsort z !! Z.to_nat n = Some (m, x) ∧ 0 ≤ n.
Proof.
  intros (l1 & x & l2 & Hz & _ & ->)%rank_of_Some. exists x.
  rewrite <- zsort_lookup, Hz, Nat2Z.id. split_and!; [set_solver| |lia].
  rewrite lookup_app_r by lia. by rewrite Nat.sub_diag.
Qed.

(** [a] is served before [b]. *)
Definition ahead (z : gmap string float64) (a b : string) : Prop :=
  ∃ ra rb, rank_of a (zsort z) = Some ra ∧ rank_of b (zsort z) = Some rb ∧ ra < rb.

Lemma ahead_iff z a b x y :
  z !! a = Some x → z !! b = Some y → a ≠ b → ahead z a b ↔ zle (a, x) (b, y).
Proof.
  intros Ha Hb Hab.
  destruct (proj2 (rank_of_is_Some z a)) as [ra Hra]; [eauto|].
  destruct (proj2 (rank_of_is_Some z b)) as [rb Hrb]; [eauto|].
  destruct (rank_of_lookup _ _ _ Hra) as (x' & Hx & Hla & ?).
  destruct (rank_of_lookup _ _ _ Hrb) as (y' & Hy & Hlb & ?). simplify_eq.
  pose proof (zsort_sorted z) as HS. split.
  - intros (ra' & rb' & ? & ? & Hlt). simplify_eq.
    eapply sorted_lookup; [exact HS| |exact Hla|exact Hlb]. lia.
  - intros Hle. exists ra, rb. split_and!; [done..|].
    destruct (Z.lt_trichotomy ra rb) as [|[->|Hgt]]; [done|congruence|exfalso].
    assert (zle (b, y) (a, x)) as Hle'.
    { eapply sorted_lookup; [exact HS| |exact Hlb|exact Hla]. lia. }
    apply Hab. pose proof (anti_symm zle _ _ Hle Hle'). congruence.
Qed.

Lemma zslice_one {A} (l : list A) k :
  0 ≤ k → zslice k k l = match l !! Z.to_nat k with Some x => [x] | None => [] end.
Proof.
  intros Hk. unfold zslice. rewrite (proj2 (Z.ltb_ge k 0)), Z.ltb_irrefl by lia.
  replace (Z.to_nat (k - k + 1)) with 1%nat by lia. generalize (Z.to_nat k). clear.
  induction l as [|x l IH]; intros [|n]; cbn; [done..|by destruct l|apply IH].
Qed.

Section QueueLaws.
Context `{B : Backend} {BL : BackendLaws B}.

Definition queue_of (w : World) : gmap string float64 := zget QueueKey (redis_of w).
Definition seq_of (w : World) : Z := nget SeqKey (redis_of w).

Lemma zget_zput k z v : zget k (zput k z v) = z.
Proof. unfold zget, zput. cbn. by rewrite lookup_insert_eq. Qed.
Lemma nget_nput k n v : nget k (nput k n v) = n.
Proof. unfold nget, nput. cbn. by rewrite lookup_insert_eq. Qed.

Lemma repo_Add_post j sc w w' r :
  repo_Add j sc w = (w', r) →
  queue_of w' = (if is_ok r then <[Itoa j := sc]> (queue_of w) else queue_of w) ∧
  seq_of w' = seq_of w ∧ jobs_of w' = jobs_of w ∧ gpus_of w' = gpus_of w.
Proof.
  unfold repo_Add. intros H. w_inv. apply rd_zadd_spec in E.
  unfold queue_of, seq_of, redis_of. cbn. rewrite E. split_and!; [|by destruct r|done..].
  destruct r; cbn; [by rewrite zget_zput|done].
Qed.

Lemma Remove_post j w w' r :
  Remove j w = (w', r) →
  queue_of w' = (if is_ok r then delete (Itoa j) (queue_of w) else queue_of w).
Proof.
  unfold Remove, repo_Remove. intros H. w_inv. apply rd_zrem_spec in E.
  unfold queue_of, redis_of. cbn. rewrite E.
  destruct r; cbn; [by rewrite zget_zput|done].
Qed.

Lemma Remove_keeps j :
  keeps jobs_of (Remove j) ∧ keeps gpus_of (Remove j) ∧ keeps procs_of (Remove j).
Proof. unfold Remove, repo_Remove. split_and!; solve_keeps. Qed.

Lemma Enqueue_post j p w w' r :
  Enqueue j p w = (w', r) →
  jobs_of w' = jobs_of w ∧ gpus_of w' = gpus_of w ∧
  match r with
  | Ok _ => seq_of w' = seq_of w + 1 ∧
            queue_of w' = <[Itoa j := enqueue_score p (seq_of w + 1)]> (queue_of w)
  | Err _ => queue_of w' = queue_of w
  end.
Proof.
  unfold Enqueue, NextSeq. intros H. w_inv.
  - pose proof (rd_incr_ok _ _ _ _ E0) as Hn. apply rd_incr_spec in E0.
    apply repo_Add_post in H as (Hq & Hs & Hj & Hg). split_and!; [done..|].
    unfold queue_of, seq_of, redis_of in *. cbn in *. rewrite E0 in *.
    rewrite nget_nput in Hs. subst. destruct r; cbn in Hq; [|done].
    split; [done|]. by rewrite Hq, Hn.
  - apply rd_incr_spec in E0. unfold queue_of, redis_of. cbn. rewrite E0. by split_and!.
Qed.

(** ** Scores of enqueued jobs *)

Lemma enqueue_score_int p s :
  0 ≤ p ≤ MaxPriority → 0 ≤ s ≤ 2 ^ 50 →
  enqueue_score p s = f_of_int ((MaxPriority - p) * PriorityGap + s).
Proof.
  unfold enqueue_score, MaxPriority, PriorityGap. intros Hp Hs.
  rewrite (wrap64_small (10 - p)) by (unfold min_int64, max_int64; lia).
  rewrite (wrap64_small ((10 - p) * _)) by (unfold min_int64, max_int64; lia).
  by rewrite wrap64_small by (unfold min_int64, max_int64; lia).
Qed.

Lemma f_of_int_lt a b : Z.abs a ≤ 2 ^ 53 → Z.abs b ≤ 2 ^ 53 → f_of_int a < f_of_int b ↔ a < b.
Proof.
  intros. rewrite !f_of_int_exact by done. pose proof f_one_pos.
  split; intros; [|nia]. apply Z.nle_gt. intros ?. nia.
Qed.

Lemma enqueue_score_lt p1 s1 p2 s2 :
  0 ≤ p1 ≤ MaxPriority → 0 ≤ p2 ≤ MaxPriority →
  1 ≤ s1 ≤ PriorityGap → 1 ≤ s2 ≤ PriorityGap →
  enqueue_score p1 s1 < enqueue_score p2 s2 ↔ p2 < p1 ∨ p1 = p2 ∧ s1 < s2.
Proof.
  unfold MaxPriority, PriorityGap. intros Hp1 Hp2 Hs1 Hs2.
  rewrite !enqueue_score_int by (unfold MaxPriority; lia).
  unfold MaxPriority, PriorityGap. rewrite f_of_int_lt by lia. lia.
Qed.

(** priority first, then first come first served.  A job enqueued with
    priority [p] is served after every queued job whose priority [q] is at
    least [p] and before every queued job of lower priority, as long as
    priorities are within 0..10 and at most 10^9 sequence numbers were used. *)
Theorem Enqueue_order j p w w' m q s :
  Enqueue j p w = (w', Ok tt) → m ≠ Itoa j →
  queue_of w !! m = Some (enqueue_score q s) →
  0 ≤ p ≤ MaxPriority → 0 ≤ q ≤ MaxPriority → 1 ≤ s ≤ seq_of w → seq_of w < PriorityGap →
  (p ≤ q → ahead (queue_of w') m (Itoa j)) ∧ (q < p → ahead (queue_of w') (Itoa j) m).
Proof.
  intros H Hm Hq Hp Hpq Hs Hgap. apply Enqueue_post in H as (_ & _ & _ & Hz).
  assert (queue_of w' !! Itoa j = Some (enqueue_score p (seq_of w + 1))) as H1
    by (by rewrite Hz, lookup_insert_eq).
  assert (queue_of w' !! m = Some (enqueue_score q s)) as H2
    by (by rewrite Hz, lookup_insert_ne).
  split; intros Hpr.
  - rewrite (ahead_iff _ _ _ _ _ H2 H1) by done. left. cbn.
    apply enqueue_score_lt; lia.
  - rewrite (ahead_iff _ _ _ _ _ H1 H2) by done. left. cbn.
    apply enqueue_score_lt; lia.
Qed.

(** The bound is sharp: after 10^9 enqueued jobs the score of a job of
    high priority (2) reaches that of the first job of low priority (1), and
    the next one is served after it. *)
Theorem enqueue_priority_overflow :
  enqueue_score JobPriorityHigh (PriorityGap + 1) = enqueue_score JobPriorityLow 1 ∧
  enqueue_score JobPriorityLow 1 < enqueue_score JobPriorityHigh (PriorityGap + 2).
Proof.
  rewrite !enqueue_score_int
    by (unfold MaxPriority, JobPriorityHigh, JobPriorityLow, PriorityGap; lia).
  unfold MaxPriority, JobPriorityHigh, JobPriorityLow, PriorityGap.
  split; [done|]. apply f_of_int_lt; lia.
Qed.

(** ** Reads *)

Lemma Rank_keeps j :
  keeps jobs_of (Rank j) ∧ keeps gpus_of (Rank j) ∧ keeps procs_of (Rank j) ∧
  keeps redis_of (Rank j).
Proof. unfold Rank. split_and!; solve_keeps. Qed.
Hint Extern 1 (keeps _ (Rank _)) => (apply Rank_keeps) : keeps.

Lemma Rank_ok j w w' n :
  Rank j w = (w', Ok n) → rank_of (Itoa j) (zsort (queue_of w)) = Some n.
Proof. unfold Rank. intros H. w_inv. by apply rd_zrank_ok in E. Qed.

Lemma repo_Peek_keeps : keeps redis_of repo_Peek ∧ keeps jobs_of repo_Peek.
Proof. unfold repo_Peek. split; solve_keeps. Qed.

Lemma zslice_head {A} (l : list A) : zslice 0 0 l = match l with x :: _ => [x] | [] => [] end.
Proof. rewrite zslice_one by done. by destruct l. Qed.

Lemma repo_Peek_ok w w' i sc :
  repo_Peek w = (w', Ok (i, sc)) →
  match zsort (queue_of w) with
  | [] => i = 0 ∧ sc = 0
  | (m, x) :: _ => Atoi m = Ok i ∧ x = sc
  end.
Proof.
  unfold repo_Peek. intros H. w_inv.
  apply rd_zrange_ok in E0. rewrite zslice_head in E0.
  unfold queue_of, redis_of. destruct (zsort _) as [|[m x] l]; subst; w_inv; [done|].
  destruct (Atoi m); w_inv; done.
Qed.

Lemma Peek_post w w' o :
  Peek w = (w', Ok o) →
  redis_of w' = redis_of w ∧ jobs_of w' = jobs_of w ∧
  match o with
  | Some it => ∃ m x, queue_of w !! m = Some x ∧ Atoi m = Ok (Item.JobID it) ∧
      Item.JobID it ≠ 0 ∧ (∀ k y, queue_of w !! k = Some y → zle (m, x) (k, y))
  | None => queue_of w = ∅ ∨ ∃ m x, queue_of w !! m = Some x ∧ Atoi m = Ok 0
  end.
Proof.
  unfold Peek, mbind, M_bind. destruct (repo_Peek w) as [w1 r] eqn:E. intros H.
  destruct r as [[i sc]|]; [|by w_inv].
  assert (w' = w1) as -> by (destruct (i =? 0); by w_inv).
  split; [by apply (proj1 repo_Peek_keeps) in E|]. split; [by apply (proj2 repo_Peek_keeps) in E|].
  apply repo_Peek_ok in E. destruct (zsort (queue_of w)) as [|[m x] l] eqn:Hz.
  { destruct E as [-> ->]. cbn in H. w_inv. left.
    apply map_size_empty_iff. by rewrite <- zsort_length, Hz. }
  destruct E as [Ha ->].
  assert (queue_of w !! m = Some sc) as Hm by (rewrite <- zsort_lookup, Hz; by left).
  destruct (Z.eqb_spec i 0) as [->|Hi]; w_inv; [right; eauto|].
  exists m, sc. split_and!; [done..|]. intros k y Hk%zsort_lookup. rewrite Hz in Hk.
  apply elem_of_cons in Hk as [[= -> ->]|Hk]; [reflexivity|].
  by eapply (zsort_back _ []).
Qed.

(** [Peek] reports the job served next: the member with the least score
    of the queue, ties broken by the bytes of the id.  It answers nil only
    for an empty queue or a head with id 0, and changes nothing. *)
Theorem Peek_spec w w' o :
  Peek w = (w', Ok o) →
  redis_of w' = redis_of w ∧ jobs_of w' = jobs_of w ∧
  match o with
  | Some it => ∃ m x, queue_of w !! m = Some x ∧ Atoi m = Ok (Item.JobID it) ∧
      Item.JobID it ≠ 0 ∧ (∀ k y, queue_of w !! k = Some y → zle (m, x) (k, y))
  | None => queue_of w = ∅ ∨ ∃ m x, queue_of w !! m = Some x ∧ Atoi m = Ok 0
  end.
Proof. apply Peek_post. Qed.

(** [GetFrontCount] is the number of jobs served earlier, and -1 exactly
    when the job is not queued. *)
Theorem GetFrontCount_spec j w w' n :
  GetFrontCount j w = (w', Ok n) →
  match queue_of w !! Itoa j with
  | None => n = -1
  | Some _ => ∃ front, NoDup front ∧ n = Z.of_nat (length front) ∧
                (∀ k, k ∈ front ↔ ahead (queue_of w) k (Itoa j))
  end.
Proof.
  unfold GetFrontCount, mbind, M_bind. destruct (Rank j w) as [w1 r] eqn:E. intros H.
  destruct r as [rk|e].
  - w_inv. apply Rank_ok in E. destruct (rank_of_lookup _ _ _ E) as (x & Hx & _).
    rewrite Hx. pose proof E as (l1 & x' & l2 & Hz & Hni & Hn)%rank_of_Some.
    assert (x' = x) as ->.
    { assert ((Itoa j, x') ∈ zsort (queue_of w)) as Hin%zsort_lookup by (rewrite Hz; set_solver).
      congruence. }
    pose proof (zsort_NoDup (queue_of w)) as Hnd. rewrite Hz in Hnd.
    rewrite fmap_app in Hnd. apply NoDup_app in Hnd as (Hnd1 & Hdis & Hnd2).
    exists l1.*1. split; [done|]. split; [by rewrite length_fmap|]. intros k. split.
    + intros ([k' y] & -> & Hk)%list_elem_of_fmap. cbn.
      assert (queue_of w !! k' = Some y) as Hky.
      { apply zsort_lookup. rewrite Hz. set_solver. }
      apply (ahead_iff _ _ _ _ _ Hky Hx).
      * intros ->. apply Hni. by apply (list_elem_of_fmap_2 fst) in Hk.
      * by eapply zsort_front.
    + intros Hah. pose proof Hah as (ra & rb & Hra & Hrb & Hlt). simplify_eq.
      apply rank_of_Some in Hra as (k1 & y & k2 & Hz' & _ & ->).
      rewrite Hz in Hz'.
      assert ((l1 ++ (Itoa j, x) :: l2) !! length k1 = Some (k, y)) as Hlk.
      { rewrite Hz'. rewrite lookup_app_r by lia. by rewrite Nat.sub_diag. }
      rewrite lookup_app_l in Hlk by lia.
      apply (list_elem_of_fmap_2' fst _ (k, y)); [|done]. by eapply list_elem_of_lookup_2.
  - destruct e; w_inv. unfold Rank in E. w_inv. apply rd_zrank_nil in E0.
    unfold queue_of, redis_of. by rewrite E0.
Qed.
End QueueLaws.

#[export] Hint Extern 1 (keeps _ (Rank _)) => (apply Rank_keeps) : keeps.
#[export] Hint Extern 1 (keeps _ (Remove _)) => (apply Remove_keeps) : keeps.

(** ** Moving a job *)

(** The score [MoveBefore] computes from the sorted queue. *)
Definition place_score (z : gmap string float64) (b : string) (ns : float64) : Prop :=
  ∃ l1 bs l2, zsort z = l1 ++ (b, bs) :: l2 ∧
    ns = match last l1 with
         | None => f_sub bs (f_of_int PriorityGap)
         | Some (_, prev) => f_half (f_add prev bs)
         end.

(** The range of scores: representable, and at most 2^90 in absolute value. *)
Definition score_ok (x : float64) : Prop := representable x ∧ Z.abs x ≤ 2 ^ 90 * f_one.
Definition scores_ok (z : gmap string float64) : Prop := map_Forall (λ _ x, score_ok x) z.

Lemma scores_ok_lookup z m x : scores_ok z → z !! m = Some x → score_ok x.
Proof. intros Hz Hm. exact (Hz m x Hm). Qed.

Lemma gap_below_bound : round64 (2 ^ 90 * f_one + f_of_int PriorityGap) = 2 ^ 90 * f_one.
Proof. vm_compute. reflexivity. Qed.

Lemma gap_above_bound x :
  Z.abs x ≤ 2 ^ 90 * f_one → Z.abs (f_sub x (f_of_int PriorityGap)) ≤ 2 ^ 90 * f_one.
Proof.
  intros Hx. unfold f_sub. pose proof gap_below_bound as Hb.
  assert (0 ≤ f_of_int PriorityGap) as Hg.
  { rewrite f_of_int_exact by (unfold PriorityGap; lia). pose proof f_one_pos.
    unfold PriorityGap. lia. }
  assert (∀ n, round64 (- n) = - round64 n) as Hodd.
  { intros n. unfold round64. destruct (Z.ltb_spec (- n) 0), (Z.ltb_spec n 0); try lia.
    - by rewrite Z.opp_involutive.
    - replace n with 0 by lia. done. }
  assert (round64 (2 ^ 90 * f_one) = 2 ^ 90 * f_one) as He.
  { apply round64_exact. rewrite Z.mul_comm. apply representable_scale; [lia|].
    rewrite <- (Z.mul_1_l f_one). change (1 * f_one) with (f_one).
    pose proof (f_of_int_representable 1) as H1. rewrite f_of_int_exact in H1 by lia.
    by rewrite Z.mul_1_l in H1. }
  pose proof (round64_mono (- (2 ^ 90 * f_one + f_of_int PriorityGap)) (x - f_of_int PriorityGap)) as H1.
  pose proof (round64_mono (x - f_of_int PriorityGap) (2 ^ 90 * f_one)) as H2.
  rewrite Hodd, Hb in H1. rewrite He in H2. lia.
Qed.

Lemma place_score_ok z b ns : scores_ok z → place_score z b ns → score_ok ns.
Proof.
  intros Hz (l1 & bs & l2 & Hs & ->).
  assert (∀ m x, (m, x) ∈ zsort z → score_ok x) as Hin
    by (intros m x Hm%zsort_lookup; by eapply scores_ok_lookup).
  assert (score_ok bs) as [Hb1 Hb2] by (apply (Hin b); rewrite Hs; set_solver).
  destruct (last l1) as [[k prev]|] eqn:Hl.
  - apply last_Some in Hl as [l' ->].
    assert (score_ok prev) as [Hp1 Hp2] by (apply (Hin k); rewrite Hs; set_solver).
    split; [apply f_half_representable, round64_representable|].
    destruct (Z.le_ge_cases prev bs).
    + pose proof (f_mid_between prev bs Hp1 Hb1 ltac:(done)). lia.
    + pose proof (f_mid_between bs prev Hb1 Hp1 ltac:(done)) as Hm.
      unfold f_add in *. rewrite (Z.add_comm prev). lia.
  - split; [apply round64_representable|]. by apply gap_above_bound.
Qed.

Lemma ahead_front z l1 b bs l2 k y :
  zsort z = l1 ++ (b, bs) :: l2 → ahead z k b → z !! k = Some y → (k, y) ∈ l1.
Proof.
  intros Hs (ra & rb & Hra & Hrb & Hlt) Hk.
  assert (rb = Z.of_nat (length l1)) as ->.
  { pose proof (zsort_NoDup z) as Hnd. rewrite Hs, fmap_app in Hnd.
    apply NoDup_app in Hnd as (_ & Hdis & _).
    assert (rank_of b (zsort z) = Some (Z.of_nat (length l1))) as Hr; [|congruence].
    apply rank_of_Some. exists l1, bs, l2. split_and!; [done| |done].
    intros Hin. apply (Hdis b Hin). by left. }
  destruct (rank_of_lookup _ _ _ Hra) as (y' & Hy & Hl & ?). simplify_eq.
  rewrite Hs, lookup_app_l in Hl by lia. by eapply list_elem_of_lookup_2.
Qed.

(** Everything in front of the target keeps a score at most the new one,
    and the new one is at most the target's. *)
Lemma place_score_between z b ns :
  scores_ok z → place_score z b ns →
  ∃ bs, z !! b = Some bs ∧ ns ≤ bs ∧ ∀ k y, ahead z k b → z !! k = Some y → y ≤ ns.
Proof.
  intros Hz (l1 & bs & l2 & Hs & ->).
  assert (z !! b = Some bs) as Hb by (apply zsort_lookup; rewrite Hs; set_solver).
  assert (∀ k y, ahead z k b → z !! k = Some y → (k, y) ∈ l1) as Hfr
    by (intros; by eapply ahead_front).
  exists bs. split; [done|].
  destruct (last l1) as [[k0 prev]|] eqn:Hl.
  - apply last_Some in Hl as [l' ->].
    assert (z !! k0 = Some prev) as Hk0 by (apply zsort_lookup; rewrite Hs; set_solver).
    assert (zle (k0, prev) (b, bs)) as Hle by (eapply zsort_front; [exact Hs|set_solver]).
    assert (prev ≤ bs) as Hpb by (destruct Hle as [|[]]; cbn in *; lia).
    destruct (f_mid_between prev bs) as [H1 H2];
      [by eapply (scores_ok_lookup _ _ _ Hz)|by eapply (scores_ok_lookup _ _ _ Hz)|done|].
    split; [done|]. intros k y Hk Hky. pose proof (Hfr k y Hk Hky) as Hin.
    assert (y ≤ prev); [|lia].
    apply elem_of_app in Hin as [Hin| [= -> ->]%list_elem_of_singleton]; [|lia].
    rewrite <- (app_assoc l') in Hs. cbn in Hs.
    pose proof (zsort_front _ _ _ _ _ _ _ Hs Hin) as [|[]]; cbn in *; lia.
  - apply last_None in Hl as ->. split.
    + unfold f_sub. transitivity (round64 bs).
      * apply round64_mono. rewrite f_of_int_exact by (unfold PriorityGap; lia).
        pose proof f_one_pos. unfold PriorityGap. lia.
      * rewrite round64_exact; [lia|]. by eapply (scores_ok_lookup _ _ _ Hz).
    + intros k y Hk Hky. by apply (Hfr k y Hk), elem_of_nil in Hky.
Qed.

Section MoveLaws.
Context `{B : Backend} {BL : BackendLaws B}.
Hint Extern 1 (keeps _ (UpdateSug _)) => (unfold UpdateSug; solve [solve_keeps]) : keeps.
Hint Extern 1 (keeps _ (Score _)) => (unfold Score; solve [solve_keeps]) : keeps.
Hint Extern 1 (keeps _ (place_before _ _)) =>
  (unfold place_before, RangeWithScores; solve [solve_keeps]) : keeps.

Lemma fix_keeps j : keeps redis_of (fixJobStatusIfMovedFromHead j) ∧
  keeps gpus_of (fixJobStatusIfMovedFromHead j).
Proof. unfold fixJobStatusIfMovedFromHead. split; solve_keeps. Qed.
Hint Extern 1 (keeps _ (fixJobStatusIfMovedFromHead _)) => (apply fix_keeps) : keeps.
Hint Extern 1 (keeps _ repo_Peek) => (apply repo_Peek_keeps) : keeps.

Lemma Score_ok j w w' x :
  Score j w = (w', Ok x) → queue_of w !! Itoa j = Some x ∧ redis_of w' = redis_of w.
Proof.
  unfold Score. intros H. w_inv. split; [by apply rd_zscore_ok in E|].
  by apply rd_zscore_view in E.
Qed.

Lemma place_before_ok rank bs w w' ns b :
  place_before rank bs w = (w', Ok ns) →
  rank_of b (zsort (queue_of w)) = Some rank → queue_of w !! b = Some bs →
  redis_of w' = redis_of w ∧ place_score (queue_of w) b ns.
Proof.
  intros H Hr Hb.
  split; [by frame_fact redis_of H|].
  pose proof Hr as (l1 & bs' & l2 & Hs & _ & Hrk)%rank_of_Some.
  assert (bs' = bs) as ->.
  { assert ((b, bs') ∈ zsort (queue_of w)) as Hin%zsort_lookup by (rewrite Hs; set_solver).
    congruence. }
  exists l1, bs, l2. split; [done|]. unfold place_before in H.
  destruct (Z.eqb_spec rank 0) as [->|Hne].
  - w_inv. assert (l1 = []) as -> by (destruct l1; [done|cbn in *; lia]). done.
  - unfold RangeWithScores in H. w_inv. apply rd_zrange_ok in E0.
    destruct l1 as [|e l1 _] using rev_ind; [cbn in *; lia|].
    rewrite length_app in E0. cbn in E0.
    rewrite zslice_one in E0 by lia.
    assert (zsort (queue_of w) !! Z.to_nat (Z.of_nat (length l1 + 1) - 1) = Some e) as Hl.
    { rewrite Hs, <- app_assoc. by apply list_lookup_middle; lia. }
    unfold queue_of, redis_of in Hl. rewrite Hl in E0. subst.
    rewrite last_snoc. destruct e as [k prev]. by w_inv.
Qed.

Lemma UpdateSug_status j w w' r i :
  UpdateSug j w = (w', r) → job_status i w' = job_status i w.
Proof.
  unfold UpdateSug. intros H. w_inv.
  match goal with H : tbl_update _ _ _ = _ |- _ => apply tbl_update_spec in H as HU; [|done] end.
  unfold job_status, job_row, jobs_of. cbn. rewrite HU. destruct (is_ok r); [|done].
  rewrite find_map_update by done. destruct (i =? j); [|done].
  rewrite <- option_fmap_compose. by apply option_fmap_ext.
Qed.

(** The status of a job goes from waiting for GPUs back to queued, and the job
    is not at the head of the queue. *)
Definition sent_back (z : gmap string float64) (i : Z) (w w' : World) : Prop :=
  job_status i w = Some JobStatusWaitingGpu ∧ job_status i w' = Some JobStatusQueued ∧
  ∃ n, rank_of (Itoa i) (zsort z) = Some n ∧ 0 < n.

Lemma fix_post j w w' u i :
  fixJobStatusIfMovedFromHead j w = (w', u) →
  job_status i w' = job_status i w ∨ sent_back (queue_of w) i w w'.
Proof.
  unfold fixJobStatusIfMovedFromHead, mbind, M_bind.
  destruct (Rank j w) as [w1 r] eqn:E1. frame_fact jobs_of E1. intros H.
  assert (∀ w2, jobs_of w2 = jobs_of w → job_status i w2 = job_status i w) as Hj
    by (unfold job_status, job_row; by intros ? ->).
  destruct r as [n|]; [|w_inv; left; by apply Hj]. apply Rank_ok in E1.
  destruct (Z.ltb_spec 0 n); [|w_inv; left; by apply Hj].
  destruct (GetByID j w1) as [w2 g] eqn:E2. frame_fact jobs_of E2.
  assert (jobs_of w2 = jobs_of w) as Hw2 by congruence.
  destruct g as [o|]; [|w_inv; left; by apply Hj].
  apply GetByID_ok in E2 as (jb & -> & Hrow & _).
  destruct (Z.eqb_spec (Job.Status jb) JobStatusWaitingGpu) as [Hst|]; [|w_inv; left; by apply Hj].
  destruct (UpdateStatus j JobStatusQueued w2) as [w3 r3] eqn:E3. w_inv.
  apply (UpdateStatus_status _ _ i) in E3.
  destruct (is_ok r3); cbn in E3; [|left; rewrite E3; by apply Hj].
  destruct (Z.eqb_spec i j) as [->|]; [|left; rewrite E3; by apply Hj]. right.
  assert (job_status j w = Some JobStatusWaitingGpu) as Hs.
  { rewrite <- (Hj w1) by done. unfold job_status. rewrite Hrow. cbn. by rewrite Hst. }
  split; [done|]. split; [|by exists n]. rewrite E3, (Hj w2), Hs by done. done.
Qed.

Lemma move_finish_post old j w w' r :
  move_finish old j w = (w', r) →
  redis_of w' = redis_of w ∧
  ∀ i, job_status i w' = job_status i w ∨ sent_back (queue_of w) i w w'.
Proof.
  intros H. split.
  { unfold move_finish in H. by frame_fact redis_of H. }
  intros i. unfold move_finish, mbind, M_bind in H.
  destruct (UpdateSug j w) as [w1 ru] eqn:E1. frame_fact redis_of E1.
  apply (UpdateSug_status _ _ _ _ i) in E1. destruct ru; [|w_inv; by left].
  match type of H with (let '(_, _) := ?c in _) = _ => destruct c as [w2 []] eqn:E2 end.
  assert (redis_of w2 = redis_of w1 ∧
          (job_status i w2 = job_status i w1 ∨ sent_back (queue_of w) i w1 w2)) as [R2 S2].
  { destruct (negb (old =? 0)); [|w_inv; by split; [|left]]. frame_fact redis_of E2.
    split; [done|]. apply (fix_post _ _ _ _ i) in E2. unfold queue_of in *. by rewrite <- K. }
  destruct (fixJobStatusIfMovedFromHead j w2) as [w3 []] eqn:E3.
  apply (fix_post _ _ _ _ i) in E3. w_inv. unfold sent_back in *.
  replace (queue_of w2) with (queue_of w) in E3 by (unfold queue_of in *; congruence).
  rewrite E1 in S2. destruct S2 as [S2|S2], E3 as [E3|E3];
    [left; congruence|right|right|exfalso].
  - by rewrite <- S2.
  - by rewrite E3.
  - destruct S2 as (_ & S2 & _), E3 as (E3 & _). rewrite S2 in E3. done.
Qed.

Lemma MoveBefore_gpus j b : keeps gpus_of (MoveBefore j b).
Proof. unfold MoveBefore, move_finish, repo_Add, repo_Peek. solve_keeps. Qed.

Lemma MoveBefore_split j b w w' r :
  MoveBefore j b w = (w', r) →
  queue_of w' = queue_of w ∧ jobs_of w' = jobs_of w ∧ is_ok r = false ∨
  ∃ ns old w1, place_score (queue_of w) (Itoa b) ns ∧ jobs_of w1 = jobs_of w ∧
    queue_of w1 = <[Itoa j := ns]> (queue_of w) ∧ move_finish old j w1 = (w', r).
Proof.
  intros H. unfold MoveBefore, mbind, M_bind in H.
  destruct (repo_Peek w) as [w1 rp] eqn:E1. frame_fact redis_of E1. frame_fact jobs_of E1.
  destruct rp as [[old osc]|]; [|left; w_inv; unfold queue_of; split_and!; congruence].
  destruct (Rank b w1) as [w2 rk] eqn:E2. frame_fact redis_of E2. frame_fact jobs_of E2.
  destruct rk as [rank|]; [|left; w_inv; unfold queue_of; split_and!; congruence].
  apply Rank_ok in E2.
  destruct (Score b w2) as [w3 rs] eqn:E3. frame_fact redis_of E3. frame_fact jobs_of E3.
  destruct rs as [bs|]; [|left; w_inv; unfold queue_of; split_and!; congruence].
  apply Score_ok in E3 as [Hb R3].
  destruct (place_before rank bs w3) as [w4 rn] eqn:E4.
  frame_fact redis_of E4. frame_fact jobs_of E4.
  destruct rn as [ns|]; [|left; w_inv; unfold queue_of; split_and!; congruence].
  assert (queue_of w1 = queue_of w ∧ queue_of w2 = queue_of w ∧ queue_of w3 = queue_of w ∧
          queue_of w4 = queue_of w) as (Q1 & Q2 & Q3 & Q4)
    by (unfold queue_of; split_and!; congruence).
  eapply place_before_ok in E4 as [R4 Hpl]; [|by rewrite Q3, <- Q1|by rewrite Q3, <- Q2].
  rewrite Q3 in Hpl.
  destruct (repo_Add j ns w4) as [w5 ra] eqn:E5. apply repo_Add_post in E5 as (Hq & _ & Hj & _).
  rewrite Q4 in Hq. destruct ra; [|left; w_inv; split_and!; [done|congruence|done]].
  right. exists ns, old, w5. split_and!; [done|congruence|done|done].
Qed.

Lemma MoveBefore_post j b w w' r :
  MoveBefore j b w = (w', r) →
  queue_of w' = queue_of w ∧ is_ok r = false ∨
  ∃ ns, place_score (queue_of w) (Itoa b) ns ∧ queue_of w' = <[Itoa j := ns]> (queue_of w).
Proof.
  intros [(? & _ & ?)|(ns & old & w1 & Hpl & _ & Hq & Hf)]%MoveBefore_split; [by left|].
  right. exists ns. split; [done|]. apply move_finish_post in Hf as [Hr _].
  rewrite <- Hq. unfold queue_of. by rewrite Hr.
Qed.

(** a successful [MoveBefore] changes only the score of the moved job;
    the new score is not above the target's and not below the score of any
    job that was served before the target. *)
Theorem MoveBefore_scores j b w w' :
  MoveBefore j b w = (w', Ok tt) → scores_ok (queue_of w) →
  ∃ bs ns, queue_of w !! Itoa b = Some bs ∧ queue_of w' = <[Itoa j := ns]> (queue_of w) ∧
    ns ≤ bs ∧ ∀ k y, ahead (queue_of w) k (Itoa b) → queue_of w !! k = Some y → y ≤ ns.
Proof.
  intros H Hz. apply MoveBefore_post in H as [[_ ?]|(ns & Hpl & Hq)]; [done|].
  destruct (place_score_between _ _ _ Hz Hpl) as (bs & ? & ? & ?). by exists bs, ns.
Qed.

(** C34: scores stay representable doubles of absolute value at most 2^90,
    whatever priorities are used and however often jobs are moved, so the
    float arithmetic of the queue never overflows. *)
Theorem queue_scores_bounded j b p w w' :
  (fst (Enqueue j p w) = w' ∨ fst (MoveBefore j b w) = w' ∨ fst (Remove j w) = w') →
  scores_ok (queue_of w) → scores_ok (queue_of w').
Proof.
  intros [H|[H|H]] Hz.
  - destruct (Enqueue j p w) as [w1 r] eqn:E. cbn in H. subst w1.
    apply Enqueue_post in E as (_ & _ & E). destruct r; [destruct E as [_ ->]|by rewrite E].
    apply map_Forall_insert_2; [|done]. split; [apply round64_representable|].
    unfold enqueue_score. set (v := wrap64 (_ + _)).
    pose proof (wrap64_range (wrap64 (wrap64 (MaxPriority - p) * PriorityGap) + (seq_of w + 1))) as Hv.
    fold v in Hv. unfold min_int64, max_int64 in Hv. pose proof f_one_pos.
    pose proof (f_of_int_mono v (2 ^ 63) ltac:(lia)) as H1.
    pose proof (f_of_int_mono (- 2 ^ 63) v ltac:(lia)) as H2.
    assert (∀ s, s = 1 ∨ s = -1 → f_of_int (s * 2 ^ 63) = s * 2 ^ 63 * f_one) as He.
    { intros s Hs. unfold f_of_int. apply round64_exact.
      replace (s * 2 ^ 63 * f_one) with (s * f_one * 2 ^ 63) by lia.
      apply representable_scale; [lia|]. rewrite <- f_of_int_exact by lia.
      apply f_of_int_representable. }
    pose proof (He 1 ltac:(lia)) as Hp. pose proof (He (-1) ltac:(lia)) as Hm.
    rewrite Z.mul_1_l in Hp. replace (-1 * 2 ^ 63) with (- 2 ^ 63) in Hm by lia.
    rewrite Hp in H1. rewrite Hm in H2. lia.
  - destruct (MoveBefore j b w) as [w1 r] eqn:E. cbn in H. subst w1.
    apply MoveBefore_post in E as [[-> _]|(ns & Hpl & ->)]; [done|].
    apply map_Forall_insert_2; [|done]. by eapply place_score_ok.
  - destruct (Remove j w) as [w1 r] eqn:E. cbn in H. subst w1.
    apply Remove_post in E. rewrite E. destruct (is_ok r); [|done]. by apply map_Forall_delete.
Qed.
End MoveLaws.

(** ** The exact place, and the end of the doubles *)

(** Integer scores up to 2^52, no two equal: what [Enqueue] produces. *)
Definition int_queue (z : gmap string float64) : Prop :=
  map_Forall (λ _ x, ∃ i, Z.abs i ≤ 2 ^ 52 ∧ x = f_of_int i) z ∧
  ∀ a b x, z !! a = Some x → z !! b = Some x → a = b.

Lemma place_score_strict z b ns :
  int_queue z → place_score z b ns →
  ∃ bs, z !! b = Some bs ∧ ns < bs ∧ ∀ k y, ahead z k b → z !! k = Some y → y < ns.
Proof.
  intros [Hi Hd] (l1 & bs & l2 & Hs & ->).
  assert (z !! b = Some bs) as Hb by (apply zsort_lookup; rewrite Hs; set_solver).
  pose proof (zsort_NoDup z) as Hnd. rewrite Hs, fmap_app in Hnd.
  apply NoDup_app in Hnd as (_ & Hdis & _).
  assert (b ∉ l1.*1) as Hnb by (intros Hin; apply (Hdis b Hin); by left).
  assert (∀ k y, ahead z k b → z !! k = Some y → (k, y) ∈ l1) as Hfr
    by (intros; by eapply ahead_front).
  destruct (Hi b bs Hb) as (ib & Hib & ->).
  exists (f_of_int ib). split; [done|].
  destruct (last l1) as [[k0 prev]|] eqn:Hl.
  - apply last_Some in Hl as [l' ->].
    assert (z !! k0 = Some prev) as Hk0 by (apply zsort_lookup; rewrite Hs; set_solver).
    destruct (Hi k0 prev Hk0) as (ip & Hip & ->).
    assert (ip < ib) as Hlt.
    { apply (f_of_int_lt ip ib); [lia..|].
      assert (zle (k0, f_of_int ip) (b, f_of_int ib)) as [?|[Heq _]]
        by (eapply zsort_front; [exact Hs|set_solver]); [done|].
      cbn in Heq. rewrite Heq in Hk0. rewrite (Hd _ _ _ Hk0 Hb) in Hnb. set_solver. }
    destruct (f_mid_int_strict ip ib) as [H1 H2]; [done..|]. split; [done|].
    intros k y Hk Hky. assert (y ≤ f_of_int ip); [|lia].
    pose proof (Hfr k y Hk Hky) as [Hin|[= -> ->]%list_elem_of_singleton]%elem_of_app; [|lia].
    rewrite <- (app_assoc l') in Hs. cbn in Hs.
    pose proof (zsort_front _ _ _ _ _ _ _ Hs Hin) as [|[]]; cbn in *; lia.
  - apply last_None in Hl as ->. split.
    + pose proof f_one_pos. unfold f_sub. rewrite !f_of_int_exact by (unfold PriorityGap; lia).
      rewrite <- Z.mul_sub_distr_r, round64_exact; [unfold PriorityGap; nia|].
      rewrite <- f_of_int_exact by (unfold PriorityGap; lia). apply f_of_int_representable.
    + intros k y Hk Hky. by apply (Hfr k y Hk), elem_of_nil in Hky.
Qed.

Section MoveExact.
Context `{B : Backend} {BL : BackendLaws B}.

(** among jobs with distinct integer scores (as [Enqueue] gives them) a
    successful [MoveBefore] puts the job exactly in front of the target: the
    jobs served before it are those that were served before the target. *)
Theorem MoveBefore_exact_place j b w w' :
  MoveBefore j b w = (w', Ok tt) → int_queue (queue_of w) → Itoa j ≠ Itoa b →
  ahead (queue_of w') (Itoa j) (Itoa b) ∧
  ∀ k, k ≠ Itoa j → k ≠ Itoa b →
    (ahead (queue_of w') k (Itoa j) ↔ ahead (queue_of w) k (Itoa b)).
Proof.
  intros H Hz Hjb. apply MoveBefore_post in H as [[_ ?]|(ns & Hpl & Hq)]; [done|].
  destruct (place_score_strict _ _ _ Hz Hpl) as (bs & Hb & Hlt & Hfr). rewrite Hq.
  assert (<[Itoa j:=ns]> (queue_of w) !! Itoa j = Some ns) as Hj by (by rewrite lookup_insert_eq).
  split.
  { apply (ahead_iff _ _ _ ns bs); [done|by rewrite lookup_insert_ne|done|]. by left. }
  intros k Hkj Hkb. destruct (queue_of w !! k) as [y|] eqn:Hk.
  - assert (<[Itoa j:=ns]> (queue_of w) !! k = Some y) as Hk' by (by rewrite lookup_insert_ne).
    rewrite (ahead_iff _ _ _ _ _ Hk' Hj) by done. split.
    + intros Hle. apply (ahead_iff _ _ _ _ _ Hk Hb); [done|]. left.
      destruct Hle as [|[]]; cbn in *; lia.
    + intros Ha. left. by eapply Hfr.
  - split; intros (ra & _ & Hra & _); exfalso;
      apply mk_is_Some, rank_of_is_Some in Hra as [? Hx].
    + by rewrite lookup_insert_ne, Hk in Hx by done.
    + by rewrite Hk in Hx.
Qed.

Lemma MoveBefore_status j b i w w' r :
  MoveBefore j b w = (w', r) →
  job_status i w' = job_status i w ∨ sent_back (queue_of w') i w w'.
Proof.
  intros [(_ & Hj & _)|(ns & old & w1 & Hpl & Hj & Hq & Hf)]%MoveBefore_split.
  { left. unfold job_status, job_row. by rewrite Hj. }
  apply move_finish_post in Hf as [Hr Hs]. specialize (Hs i).
  assert (job_status i w1 = job_status i w) as H1 by (unfold job_status, job_row; by rewrite Hj).
  unfold sent_back in *. rewrite H1 in Hs.
  replace (queue_of w') with (queue_of w1) by (unfold queue_of; by rewrite Hr). done.
Qed.

(** [MoveBefore] changes the status of a job only from waiting-for-GPU
    back to queued, and only for a job that is not at the head of the queue it
    leaves behind; this holds on every error path too. *)
Theorem MoveBefore_status_safe j b i w w' r :
  MoveBefore j b w = (w', r) →
  job_status i w' = job_status i w ∨ sent_back (queue_of w') i w w'.
Proof. apply MoveBefore_status. Qed.
End MoveExact.

(** ** Concrete queues *)

Definition demo_job (i st : Z) : Job :=
  Job.mkJob i "job" "" 1 "/home/u/run.py" "base" "1" st (Some 0) None None 0.

(** Jobs 1 to 4 enqueued one after the other with low priority. *)
Definition demo_queue : gmap string float64 :=
  list_to_map ((λ i, (Itoa i, enqueue_score JobPriorityLow i)) <$> [1; 2; 3; 4]).
Definition demo_queue_world : World :=
  mem_world [demo_job 1 JobStatusWaitingGpu; demo_job 2 JobStatusQueued;
             demo_job 3 JobStatusQueued; demo_job 4 JobStatusQueued] [] [] []
    (mkRview {[QueueKey := demo_queue]} ∅ {[SeqKey := 4]})
    (mkScript 100 [] [] [] [] [] []) eq_refl eq_refl eq_refl eq_refl.

(** [n] times: move job 3 in front of job 2, then job 4 in front of job 2. *)
Fixpoint shuffle (n : nat) : M World unit :=
  match n with
  | O => mret tt
  | S n' => _ ← MoveBefore 3 2; _ ← MoveBefore 4 2; shuffle n'
  end.

(** The guarantee ends with the precision of the doubles.  After nineteen
    moves of two jobs in front of the same target, the twentieth
    [MoveBefore] reports success and leaves the moved job behind the target. *)
Theorem MoveBefore_precision_exhausted :
  let w := fst (MoveBefore 3 2 (fst (shuffle 9 demo_queue_world))) in
  fst <$> zsort (queue_of w) = ["1"; "4"; "3"; "2"]%string ∧
  snd (MoveBefore 4 2 w) = Ok tt ∧
  fst <$> zsort (queue_of (fst (MoveBefore 4 2 w))) = ["1"; "3"; "2"; "4"]%string.
Proof. vm_compute. split_and!; reflexivity. Qed.

(** ** Pages of the queue *)

Section Pages.
Context `{B : Backend} {BL : BackendLaws B}.

Lemma limit_offset_length {A} (n k : Z) (l : list A) :
  0 ≤ n → Z.of_nat (length (limit_offset n k l)) ≤ n.
Proof.
  intros Hn. unfold limit_offset. rewrite (proj2 (Z.ltb_ge n 0)) by lia.
  rewrite length_take. lia.
Qed.

Lemma scan_rows_ok p o n k w w' rows :
  scan_rows p o n k w = (w', Ok rows) →
  jobs_of w' = jobs_of w ∧
  ∃ js, js ≡ₚ List.filter p (jobs_of w) ∧ Sorted (brel o) js ∧
        QueueJobDBRow.JobID <$> rows = Job.ID <$> limit_offset n k js.
Proof.
  unfold scan_rows. intros H. w_inv.
  match goal with H : tbl_page _ _ _ _ _ = _ |- _ =>
    pose proof (tbl_page_view _ _ _ _ _ _ _ H) as Hv; apply tbl_page_ok in H as (l0 & Hp & Ho & ->) end.
  split; [exact Hv|]. exists l0. split_and!; [done..|].
  rewrite <- list_fmap_compose. by apply list_fmap_ext.
Qed.

Lemma GetRunningJobs_ok req st et w w' rows total :
  GetRunningJobs req st et w = (w', Ok (rows, total)) →
  jobs_of w' = jobs_of w ∧
  ∃ js, js ≡ₚ List.filter (λ j, buildBaseQueueJobQuery req st et j &&
                               (Job.Status j =? JobStatusRunning)) (jobs_of w) ∧
        QueueJobDBRow.JobID <$> rows = Job.ID <$> js.
Proof.
  unfold GetRunningJobs, mbind, M_bind. intros H.
  match type of H with (let '(_, _) := ?c in _) = _ => destruct c as [w1 [n|]] eqn:E1 end;
    [|by w_inv]. frame_fact jobs_of E1.
  match type of H with (let '(_, _) := ?c in _) = _ => destruct c as [w2 [l|]] eqn:E2 end;
    [|by w_inv]. w_inv.
  apply scan_rows_ok in E2 as (Hj & js & Hp & _ & Hr).
  split; [congruence|]. exists js. split; [by rewrite Hp, K|]. by rewrite Hr.
Qed.

Lemma GetQueueJobListFiltered_length ids req st et w w' rows total :
  GetQueueJobListFiltered ids req st et w = (w', Ok (rows, total)) →
  0 ≤ QueueListRequest.PageSize req → Z.of_nat (length rows) ≤ QueueListRequest.PageSize req.
Proof.
  unfold GetQueueJobListFiltered, mbind, M_bind. intros H Hs.
  destruct ids as [|i ids]; [w_inv; cbn; lia|].
  match type of H with (let '(_, _) := ?c in _) = _ => destruct c as [w1 [n|]] eqn:E1 end;
    [|by w_inv].
  match type of H with (let '(_, _) := ?c in _) = _ => destruct c as [w2 [l|]] eqn:E2 end;
    [|by w_inv]. w_inv.
  apply scan_rows_ok in E2 as (Hj & js & _ & _ & Hr).
  rewrite <- (length_fmap QueueJobDBRow.JobID), Hr, length_fmap. by apply limit_offset_length.
Qed.

(** the queued part is paged twice, by the statement and by the slice.
    When no running job matches the filter, every page after the first one is
    empty, however many jobs are queued. *)
Theorem GetQueuePage_later_pages_empty req st et w w' list total page pageSize :
  GetQueuePage req st et w = (w', Ok (list, total, page, pageSize)) →
  List.filter (λ j, buildBaseQueueJobQuery req st et j && (Job.Status j =? JobStatusRunning))
    (jobs_of w) = [] →
  1 ≤ QueueListRequest.PageSize req ≤ 1000 → 2 ≤ QueueListRequest.Page req ≤ 2 ^ 50 →
  list = [].
Proof.
  unfold GetQueuePage, mbind, M_bind. intros H Hrun Hs Hp.
  destruct (GetRunningJobs req st et w) as [w1 [[rj rt]|]] eqn:E1; [|by w_inv].
  apply GetRunningJobs_ok in E1 as (_ & js & Hjs & Hrj). rewrite Hrun in Hjs.
  apply Permutation_nil_r in Hjs. subst js. apply fmap_nil_inv in Hrj. subst rj.
  destruct (repo_Range 0 (-1) w1) as [w2 [ms|]] eqn:E2; [|by w_inv].
  destruct (GetQueueJobListFiltered (parse_members ms) req st et w2) as [w3 [[qj qt]|]] eqn:E3;
    [|by w_inv].
  apply GetQueueJobListFiltered_length in E3; [|lia]. cbv zeta in H. rewrite app_nil_l in H.
  rewrite (proj2 (Z.leb_gt (QueueListRequest.PageSize req) 0)),
    (proj2 (Z.leb_gt (QueueListRequest.Page req) 0)) in H by lia.
  assert (page_slice (QueueListRequest.Page req) (QueueListRequest.PageSize req) qj = Ok []) as Hps.
  { unfold page_slice. set (pg := QueueListRequest.Page req) in *.
    set (ps := QueueListRequest.PageSize req) in *.
    rewrite (wrap64_small (pg - 1)) by (unfold min_int64, max_int64; lia).
    rewrite (wrap64_small ((pg - 1) * ps)) by (unfold min_int64, max_int64; nia).
    rewrite (proj2 (Z.leb_le _ _)) by nia. done. }
  rewrite Hps in H. by w_inv.
Qed.
End Pages.

(** ** The hypotheses hold on concrete queues *)

Lemma demo_queue_elem m x :
  demo_queue !! m = Some x →
  ∃ i, 1 ≤ i ≤ 4 ∧ m = Itoa i ∧ x = f_of_int (9 * PriorityGap + i).
Proof.
  intros Hm%elem_of_list_to_map_2. apply list_elem_of_fmap in Hm as (i & [= -> ->] & Hi).
  assert (1 ≤ i ≤ 4) as Hr by set_solver by lia. exists i. split_and!; [lia..|done|].
  rewrite enqueue_score_int by (unfold JobPriorityLow, MaxPriority; lia). done.
Qed.

Lemma demo_queue_int : int_queue (queue_of demo_queue_world).
Proof.
  change (queue_of demo_queue_world) with demo_queue. split.
  - intros m x (i & Hi & _ & ->)%demo_queue_elem. exists (9 * PriorityGap + i).
    split; [unfold PriorityGap; lia|done].
  - intros a b x (i & Hi & -> & ->)%demo_queue_elem (k & Hk & -> & Hx)%demo_queue_elem.
    rewrite !f_of_int_exact in Hx by (unfold PriorityGap; lia). pose proof f_one_pos.
    f_equal. nia.
Qed.

Lemma demo_queue_scores_ok : scores_ok (queue_of demo_queue_world).
Proof.
  intros m x (i & Hi & _ & ->)%demo_queue_elem. split; [apply f_of_int_representable|].
  rewrite f_of_int_exact by (unfold PriorityGap; lia). pose proof f_one_pos.
  unfold PriorityGap. nia.
Qed.

Lemma Enqueue_order_witness :
  ahead (queue_of (fst (Enqueue 7 JobPriorityHigh demo_queue_world))) (Itoa 7) (Itoa 1).
Proof.
  set (w' := fst (Enqueue 7 JobPriorityHigh demo_queue_world)).
  assert (Enqueue 7 JobPriorityHigh demo_queue_world = (w', Ok tt)) as E
    by (apply run_eq; vm_compute; reflexivity).
  refine (proj2 (Enqueue_order 7 JobPriorityHigh demo_queue_world w' (Itoa 1) JobPriorityLow 1
            E _ _ _ _ _ _) _).
  - by vm_compute.
  - vm_compute. reflexivity.
  - unfold JobPriorityHigh, MaxPriority. lia.
  - unfold JobPriorityLow, MaxPriority. lia.
  - change (seq_of demo_queue_world) with 4. lia.
  - change (seq_of demo_queue_world) with 4. unfold PriorityGap. lia.
  - unfold JobPriorityHigh, JobPriorityLow. lia.
Defined.

Lemma Peek_spec_witness :
  ∃ m x, demo_queue !! m = Some x ∧ Atoi m = Ok 1 ∧
         (∀ k y, demo_queue !! k = Some y → zle (m, x) (k, y)).
Proof.
  set (it := Item.mkItem 1 (9 * PriorityGap + 1)).
  assert (Peek demo_queue_world = (fst (Peek demo_queue_world), Ok (Some it))) as E
    by (apply run_eq; vm_compute; reflexivity).
  destruct (proj2 (proj2 (Peek_spec demo_queue_world _ _ E))) as (m & x & H1 & H2 & _ & H3).
  exists m, x. by split_and!.
Defined.

Lemma GetFrontCount_spec_witness :
  ∃ front : list string, NoDup front ∧ length front = 2%nat ∧
    ∀ k, k ∈ front ↔ ahead (queue_of demo_queue_world) k (Itoa 3).
Proof.
  assert (GetFrontCount 3 demo_queue_world = (fst (GetFrontCount 3 demo_queue_world), Ok 2)) as E
    by (apply run_eq; vm_compute; reflexivity).
  pose proof (GetFrontCount_spec 3 demo_queue_world _ _ E) as H.
  assert (is_Some (queue_of demo_queue_world !! Itoa 3)) as [x Hx] by (vm_compute; by eexists).
  rewrite Hx in H. destruct H as (front & H1 & H2 & H3). exists front. split_and!; [done|lia|done].
Defined.

Lemma MoveBefore_scores_witness :
  ∃ bs ns, queue_of (fst (MoveBefore 4 2 demo_queue_world)) =
             <[Itoa 4 := ns]> (queue_of demo_queue_world) ∧ ns ≤ bs.
Proof.
  assert (MoveBefore 4 2 demo_queue_world = (fst (MoveBefore 4 2 demo_queue_world), Ok tt)) as E
    by (apply run_eq; vm_compute; reflexivity).
  destruct (MoveBefore_scores 4 2 demo_queue_world _ E demo_queue_scores_ok)
    as (bs & ns & _ & H1 & H2 & _).
  exists bs, ns. exact (conj H1 H2).
Defined.

Lemma queue_scores_bounded_witness :
  scores_ok (queue_of (fst (MoveBefore 4 1 demo_queue_world))).
Proof.
  exact (queue_scores_bounded 4 1 0 demo_queue_world _ (or_intror (or_introl eq_refl))
           demo_queue_scores_ok).
Defined.

Lemma MoveBefore_exact_place_witness :
  ahead (queue_of (fst (MoveBefore 4 2 demo_queue_world))) (Itoa 4) (Itoa 2).
Proof.
  assert (MoveBefore 4 2 demo_queue_world = (fst (MoveBefore 4 2 demo_queue_world), Ok tt)) as E
    by (apply run_eq; vm_compute; reflexivity).
  refine (proj1 (MoveBefore_exact_place 4 2 demo_queue_world _ E demo_queue_int _)).
  by vm_compute.
Defined.

(** Job 1 waits for GPUs at the head; moving job 4 in front sends it back. *)
Lemma MoveBefore_status_safe_witness :
  sent_back (queue_of (fst (MoveBefore 4 1 demo_queue_world))) 1 demo_queue_world
    (fst (MoveBefore 4 1 demo_queue_world)).
Proof.
  destruct (MoveBefore_status_safe 4 1 1 demo_queue_world _ _ (surjective_pairing _)) as [H|H].
  - exfalso. vm_compute in H. discriminate H.
  - exact H.
Defined.

Definition demo_page2 : QueueListRequest := QueueListRequest.mkQueueListRequest 0 "" 2 2.

Lemma GetQueuePage_later_pages_empty_witness :
  match snd (GetQueuePage demo_page2 None None demo_queue_world) with
  | Ok (list, _, _, _) => list = []
  | Err _ => False
  end.
Proof.
  destruct (GetQueuePage demo_page2 None None demo_queue_world) as [w' r] eqn:E.
  assert (is_ok r = true) as Hr.
  { change (is_ok (snd (w', r)) = true). rewrite <- E. vm_compute. reflexivity. }
  destruct r as [[[[l t] pg] ps]|]; [|discriminate Hr].
  refine (GetQueuePage_later_pages_empty demo_page2 None None demo_queue_world w' l t pg ps E _ _ _).
  - vm_compute. reflexivity.
  - cbn. lia.
  - cbn. lia.
Defined.
