(* ===== verification/JobService.v ===== *)
(** * The job service (internal/service/job_service.go) *)

From S2P Require Import Prelude GoStrings Float64 Errors Entity External MemBackend Gpu JobRepo Queue.

Open Scope Z_scope.

Module SubmitJobRequest.
Record SubmitJobRequest : Type := mkSubmitJobRequest {
  Name : string; Description : string; FilePath : string; CondaEnv : string; GpuIDs : list Z
}.
End SubmitJobRequest.
Notation SubmitJobRequest := SubmitJobRequest.SubmitJobRequest.

(** The two guards on the page size. *)
Definition clamp_page (req : JobListRequest) : JobListRequest :=
  let ps := JobListRequest.PageSize req in
  let ps := if ps <=? 0 then 5 else ps in
  let ps := if 100 <? ps then 100 else ps in
  JobListRequest.mkJobListRequest (JobListRequest.Id req) (JobListRequest.Status req)
    (JobListRequest.Name req) ps (JobListRequest.Page req).

(** [priority]: the user's own when it is positive. *)
Definition job_priority (user : option User) : Z :=
  match user with
  | Some u => if 0 <? User.Priority u then User.Priority u else JobPriorityLow
  | None => JobPriorityLow
  end.

Definition new_job (req : SubmitJobRequest) (userID : Z) : Job :=
  Job.mkJob 0 (SubmitJobRequest.Name req) (SubmitJobRequest.Description req) userID
    (SubmitJobRequest.FilePath req) (SubmitJobRequest.CondaEnv req)
    (Join "," (Itoa <$> SubmitJobRequest.GpuIDs req)) JobStatusQueued None None None 0.

Section JobService.
Context `{B : Backend}.

Definition GetJobList (req : JobListRequest) (startTime endTime : option Z) (userID : Z) :=
  repo_GetJobList (clamp_page req) startTime endTime userID.
Definition GetWaitJobList (req : JobListRequest) (startTime endTime : option Z) (userID : Z) :=
  repo_GetWaitJobList (clamp_page req) startTime endTime userID.

(** [userRepository.FindByID]: nil without an error when there is no row. *)
Definition user_FindByID (id : Z) : M World (result (option User)) :=
  r ← on_users (tbl_first (λ u, User.ID u =? id));
  match r with
  | Ok u => mret (Ok (Some u))
  | Err ErrRecordNotFound => mret (Ok None)
  | Err e => mret (Err e)
  end.

(** Create the row, queue it, take the row back when queueing fails.  The
    result is the id of the row. *)
Definition create_and_enqueue (job : Job) (priority : Z) : M World (result Z) :=
  c ← job_Create job;
  match c with
  | Err e => mret (Err (ErrWrap "创建任务失败" e))
  | Ok id =>
      q ← Enqueue id priority;
      match q with
      | Err e =>
          _ ← job_Delete id;
          mret (Err (ErrWrap "加入排队队列失败" e))
      | Ok _ => mret (Ok id)
      end
  end.

Definition SubmitJob (req : SubmitJobRequest) (userID : Z) : M World (result Z) :=
  a ← on_env (env_HasSystemAccess userID);
  match a with
  | Err e => mret (Err (ErrWrap "检查用户权限失败" e))
  | Ok isRoot =>
      x ← on_env (env_FileExistsRemote userID (SubmitJobRequest.FilePath req) isRoot);
      match x with
      | Err e => mret (Err (ErrWrap "检查任务文件失败" e))
      | Ok false => mret (Err (New CodeFileNotFound "任务文件不存在"))
      | Ok true =>
          u ← user_FindByID userID;
          match u with
          | Err e => mret (Err (ErrWrap "获取用户信息失败" e))
          | Ok user => create_and_enqueue (new_job req userID) (job_priority user)
          end
      end
  end.

Definition CancelJob (jobID userID : Z) : M World (result unit) :=
  g ← GetByID jobID;
  match g with
  | Err e => mret (Err (ErrWrap "获取任务失败" e))
  | Ok None => mret (Err (ErrPanic "nil pointer dereference"))
  | Ok (Some job) =>
      if negb (Job.UserId job =? userID)
      then mret (Err (New CodeForbidden "无权取消此任务"))
      else if negb (Job.Status job =? JobStatusQueued) && negb (Job.Status job =? JobStatusWaitingGpu)
      then mret (Err (New CodeJobCannotCancel "任务状态不允许取消"))
      else
        u ← UpdateStatus jobID JobStatusCancelled;
        match u with
        | Err e => mret (Err (ErrWrap "更新任务状态失败" e))
        | Ok _ =>
            r ← Remove jobID;
            match r with
            | Err e =>
                _ ← UpdateStatus jobID (Job.Status job);
                mret (Err (ErrWrap "从队列移除失败" e))
            | Ok _ => mret (Ok tt)
            end
        end
  end.

(** The slice is updated in place: the elements before a failing one keep
    their new values. *)
Definition enrich (now front : Z) (j : JobResponse) : JobResponse :=
  JobResponse.mkJobResponse (JobResponse.ID j) (JobResponse.Name j) (JobResponse.Description j)
    (JobResponse.Status j) (JobResponse.CondaEnv j) (JobResponse.CreatedAt j) (JobResponse.Card j)
    (if 0 <=? front then front else -1)
    (if 0 <=? front
     then Itoa (dur_seconds (dur_sub now (default zero_time (JobResponse.CreatedAt j))))
     else JobResponse.WaitTime j).

Fixpoint enrich_loop (now : Z) (jobs : list JobResponse) : M World (list JobResponse * result unit) :=
  match jobs with
  | [] => mret ([], Ok tt)
  | j :: rest =>
      f ← GetFrontCount (JobResponse.ID j);
      match f with
      | Err e => mret (j :: rest, Err e)
      | Ok front =>
          r ← enrich_loop now rest;
          mret (enrich now front j :: r.1, r.2)
      end
  end.

Definition EnrichJobList (jobs : list JobResponse) : M World (list JobResponse * result unit) :=
  now ← on_env env_now;
  enrich_loop now jobs.

Definition GetJobByID (jobID : Z) : M World (result (option Job)) := GetByID jobID.
End JobService.

Section JobServiceLaws.
Context `{B : Backend} {BL : BackendLaws B}.

(** ** Rows *)

Lemma user_pk (w : World) : NoDup (User.ID <$> users_of w).
Proof. exact (tbl_pk (w_users w)). Qed.

Definition user_row (id : Z) (w : World) : option User :=
  List.find (λ u, User.ID u =? id) (users_of w).

Lemma filter_nil_find {A} (p : A → bool) l : List.filter p l = [] → List.find p l = None.
Proof. induction l as [|x l IH]; cbn; [done|]. by destruct (p x). Qed.

Lemma user_FindByID_ok id w w' o : user_FindByID id w = (w', Ok o) → o = user_row id w.
Proof.
  unfold user_FindByID. intros H. w_inv.
  - match goal with H : tbl_first _ _ = _ |- _ => apply tbl_first_ok in H as [Hin Hp] end.
    apply Z.eqb_eq in Hp. subst id. symmetry. apply find_unique; [apply user_pk|done].
  - destruct e; w_inv.
    match goal with H : tbl_first _ _ = _ |- _ => apply tbl_first_none in H end.
    symmetry. by apply filter_nil_find.
Qed.

Lemma user_FindByID_keeps id :
  keeps jobs_of (user_FindByID id) ∧ keeps gpus_of (user_FindByID id) ∧
  keeps redis_of (user_FindByID id) ∧ keeps users_of (user_FindByID id).
Proof. unfold user_FindByID. split_and!; solve_keeps. Qed.
Hint Extern 1 (keeps _ (user_FindByID _)) => (apply user_FindByID_keeps) : keeps.

Lemma job_Create_post j w w' r :
  Job.ID j = 0 → job_Create j w = (w', r) →
  match r with
  | Ok k => 0 < k ∧ ∃ t, jobs_of w' = jobs_of w ++ [Job.set_created t (Job.set_id k j)]
  | Err _ => jobs_of w' = jobs_of w
  end.
Proof.
  unfold job_Create. intros Hid H. w_inv. destruct r.
  - match goal with H : tbl_create _ _ = _ |- _ => by apply tbl_create_ok in H end.
  - match goal with H : tbl_create _ _ = _ |- _ => by apply tbl_create_err in H end.
Qed.

Lemma job_Delete_post k w w' r :
  job_Delete k w = (w', r) →
  jobs_of w' = if is_ok r then List.filter (λ j, negb (Job.ID j =? k)) (jobs_of w)
               else jobs_of w.
Proof.
  unfold job_Delete. intros H. w_inv.
  match goal with H : tbl_delete _ _ = (_, ?a) |- _ =>
    apply tbl_delete_spec in H; by destruct a end.
Qed.

Lemma job_Create_keeps j :
  keeps gpus_of (job_Create j) ∧ keeps redis_of (job_Create j) ∧ keeps procs_of (job_Create j).
Proof. unfold job_Create. split_and!; solve_keeps. Qed.
Lemma job_Delete_keeps k :
  keeps gpus_of (job_Delete k) ∧ keeps redis_of (job_Delete k) ∧ keeps procs_of (job_Delete k).
Proof. unfold job_Delete. split_and!; solve_keeps. Qed.
Hint Extern 1 (keeps _ (job_Create _)) => (apply job_Create_keeps) : keeps.
Hint Extern 1 (keeps _ (job_Delete _)) => (apply job_Delete_keeps) : keeps.

(** Deleting the row that was just added gives the old rows back. *)
Lemma filter_other_ids (l : list Job) k :
  k ∉ Job.ID <$> l → List.filter (λ j, negb (Job.ID j =? k)) l = l.
Proof.
  induction l as [|x l IH]; cbn; [done|]. intros [Hx Hl]%not_elem_of_cons.
  rewrite (proj2 (Z.eqb_neq _ _)) by congruence. cbn. by rewrite IH.
Qed.

Lemma added_fresh (w w' : World) x :
  jobs_of w' = jobs_of w ++ [x] → Job.ID x ∉ Job.ID <$> jobs_of w.
Proof.
  intros Hw. pose proof (job_pk w') as Hnd. rewrite Hw, fmap_app in Hnd.
  apply NoDup_app in Hnd as (_ & Hd & _). intros Hin. apply (Hd _ Hin). by left.
Qed.

Lemma add_delete_row (w w' : World) x :
  jobs_of w' = jobs_of w ++ [x] →
  List.filter (λ j, negb (Job.ID j =? Job.ID x)) (jobs_of w') = jobs_of w.
Proof.
  intros Hw. pose proof (added_fresh _ _ _ Hw). rewrite Hw, List.filter_app. cbn.
  rewrite Z.eqb_refl, app_nil_r. by apply filter_other_ids.
Qed.

(** ** Submitting *)

Lemma create_and_enqueue_post j p w w' r :
  Job.ID j = 0 → create_and_enqueue j p w = (w', r) →
  gpus_of w' = gpus_of w ∧
  match r with
  | Ok id => 0 < id ∧ (id ∉ Job.ID <$> jobs_of w) ∧
      (∃ t, jobs_of w' = jobs_of w ++ [Job.set_created t (Job.set_id id j)]) ∧
      queue_of w' = <[Itoa id := enqueue_score p (seq_of w + 1)]> (queue_of w)
  | Err _ => queue_of w' = queue_of w ∧
      (jobs_of w' = jobs_of w ∨
       ∃ id t w1 e, jobs_of w' = jobs_of w ++ [Job.set_created t (Job.set_id id j)] ∧ job_Delete id w1 = (w', Err e))
  end.
Proof.
  unfold create_and_enqueue, mbind, M_bind. intros Hid H.
  open_call H w1 c E1. frames E1.
  apply job_Create_post in E1; [|done]. destruct c as [id|e].
  2:{ w_inv. unfold queue_of. split_and!; [done|congruence|by left]. }
  destruct E1 as (Hpos & t & Hj1). pose proof (added_fresh _ _ _ Hj1) as Hfr. cbn in Hfr.
  destruct (Enqueue id p w1) as [w2 q] eqn:E2. apply Enqueue_post in E2 as (Hj2 & Hg2 & Hq).
  assert (queue_of w1 = queue_of w ∧ seq_of w1 = seq_of w) as [Q1 S1]
    by (unfold queue_of, seq_of; split; congruence).
  destruct q as [u|e].
  - w_inv. destruct Hq as [_ Hq]. split_and!; [congruence|done|done| |by rewrite Hq, Q1, S1].
    exists t. congruence.
  - destruct (job_Delete id w2) as [w3 d] eqn:E3. frames E3.
    pose proof E3 as Ed. apply job_Delete_post in E3. w_inv.
    split_and!; [congruence|unfold queue_of in *; congruence|].
    rewrite E3, Hj2. destruct d as [[]|ed]; cbn; [left|right; by exists id, t, w2, ed].
    by apply (add_delete_row _ _ _) in Hj1.
Qed.

Lemma SubmitJob_post req u w w' r :
  SubmitJob req u w = (w', r) →
  gpus_of w' = gpus_of w ∧
  match r with
  | Ok id => 0 < id ∧ (id ∉ Job.ID <$> jobs_of w) ∧
      (∃ t, jobs_of w' = jobs_of w ++ [Job.set_created t (Job.set_id id (new_job req u))]) ∧
      queue_of w' = <[Itoa id := enqueue_score (job_priority (user_row u w)) (seq_of w + 1)]>
                      (queue_of w)
  | Err _ => queue_of w' = queue_of w ∧
      (jobs_of w' = jobs_of w ∨
       ∃ id t w1 e, jobs_of w' = jobs_of w ++ [Job.set_created t (Job.set_id id (new_job req u))] ∧
         job_Delete id w1 = (w', Err e))
  end.
Proof.
  unfold SubmitJob, mbind, M_bind. intros H.
  open_call H w1 a E1. frames E1.
  destruct a as [isRoot|]; [|w_inv; unfold queue_of; split_and!; [|congruence|left]; congruence].
  open_call H w2 x E2. frames E2.
  destruct x as [[]|];
    [|w_inv; unfold queue_of; split_and!; [|congruence|left]; congruence..].
  open_call H w3 f E3. frames E3.
  destruct f as [user|]; [|w_inv; unfold queue_of; split_and!; [|congruence|left]; congruence].
  apply user_FindByID_ok in E3. apply create_and_enqueue_post in H as [Hg H]; [|done].
  assert (jobs_of w3 = jobs_of w ∧ queue_of w3 = queue_of w ∧ seq_of w3 = seq_of w ∧
          user = user_row u w) as (Hj & Hq & Hs & ->).
  { unfold queue_of, seq_of, user_row in *. split_and!; congruence. }
  rewrite Hj, Hq, Hs in H. split; [congruence|done].
Qed.

(** C21: a submission that succeeds adds exactly one row with what was
    requested, queued and owned by the caller, under a fresh positive id, and
    queues that id with the score of the caller's priority.  A submission that
    fails leaves the queue alone; a row that was already added is deleted again,
    so that no row is added unless that last delete failed as well.  GPU cards
    are never touched. *)
Theorem SubmitJob_spec req u w w' r :
  SubmitJob req u w = (w', r) →
  gpus_of w' = gpus_of w ∧
  match r with
  | Ok id => 0 < id ∧ (id ∉ Job.ID <$> jobs_of w) ∧
      (∃ row, jobs_of w' = jobs_of w ++ [row] ∧ Job.ID row = id ∧ Job.UserId row = u ∧ Job.Status row = JobStatusQueued ∧
         Job.Name row = SubmitJobRequest.Name req ∧ Job.Description row = SubmitJobRequest.Description req ∧
         Job.FilePath row = SubmitJobRequest.FilePath req ∧ Job.CondaEnv row = SubmitJobRequest.CondaEnv req ∧
         Job.GpuIDs row = Join "," (Itoa <$> SubmitJobRequest.GpuIDs req)) ∧
      queue_of w' = <[Itoa id := enqueue_score
                        (match user_row u w with
                         | Some user => if 0 <? User.Priority user then User.Priority user else JobPriorityLow
                         | None => JobPriorityLow
                         end) (seq_of w + 1)]> (queue_of w)
  | Err _ => queue_of w' = queue_of w ∧
      (jobs_of w' = jobs_of w ∨
       ∃ id t w1 e, jobs_of w' = jobs_of w ++ [Job.set_created t (Job.set_id id (new_job req u))] ∧
         job_Delete id w1 = (w', Err e))
  end.
Proof.
  intros [Hg H]%SubmitJob_post. split; [done|]. destruct r as [id|e]; [|done].
  destruct H as (Hpos & Hnew & [t Ht] & Hq). split_and!; [done|done| |exact Hq]. eexists. by split; [exact Ht|].
Qed.

(** ** Cancelling *)

Lemma job_status_jobs i (w w' : World) : jobs_of w' = jobs_of w → job_status i w' = job_status i w.
Proof. unfold job_status, job_row. by intros ->. Qed.

Definition cancellable (st : Z) : Prop := st = JobStatusQueued ∨ st = JobStatusWaitingGpu.

Lemma CancelJob_post jobID userID w w' r :
  CancelJob jobID userID w = (w', r) →
  gpus_of w' = gpus_of w ∧
  match r with
  | Ok _ => ∃ job, job_row jobID w = Some job ∧ Job.UserId job = userID ∧
      cancellable (Job.Status job) ∧ queue_of w' = delete (Itoa jobID) (queue_of w) ∧
      ∀ i, job_status i w' = if i =? jobID then Some JobStatusCancelled else job_status i w
  | Err _ => queue_of w' = queue_of w ∧
      ∀ i, job_status i w' = job_status i w ∨
        i = jobID ∧ job_status i w' = Some JobStatusCancelled ∧
        ∃ st w1 e, job_status i w = Some st ∧ cancellable st ∧ UpdateStatus jobID st w1 = (w', Err e)
  end.
Proof.
  unfold CancelJob, mbind, M_bind. intros H. open_call H w1 g E1. frames E1.
  assert (queue_of w1 = queue_of w) as Q1 by (unfold queue_of; congruence).
  assert (∀ i, job_status i w1 = job_status i w) as J1 by (intros; by apply job_status_jobs).
  destruct g as [o|e]; [|w_inv; split_and!; [done|done|by left]].
  apply GetByID_ok in E1 as (job & -> & Hrow & _).
  destruct (Z.eqb_spec (Job.UserId job) userID) as [Hu|]; cbn [negb] in H;
    [|w_inv; split_and!; [done|done|by left]].
  destruct (negb (Job.Status job =? JobStatusQueued) && _) eqn:Hst;
    [w_inv; split_and!; [done|done|by left]|].
  assert (cancellable (Job.Status job)) as Hc.
  { unfold cancellable. apply andb_false_iff in Hst as [Hst|Hst];
      apply negb_false_iff, Z.eqb_eq in Hst; auto. }
  assert (job_status jobID w = Some (Job.Status job)) as Hs
    by (unfold job_status; by rewrite Hrow).
  open_call H w2 u E2. frames E2.
  assert (queue_of w2 = queue_of w) as Q2 by (unfold queue_of in *; congruence).
  destruct u as [u|e].
  2:{ w_inv. split_and!; [congruence|done|]. intros i. left.
      apply (UpdateStatus_status _ _ i) in E2. cbn in E2. by rewrite E2. }
  assert (∀ i, job_status i w2 = if i =? jobID then Some JobStatusCancelled else job_status i w) as J2.
  { intros i. apply (UpdateStatus_status _ _ i) in E2. cbn in E2. rewrite E2, !J1.
    by rewrite Hs. }
  open_call H w3 rm E3. frames E3. apply Remove_post in E3. rewrite Q2 in E3.
  assert (∀ i, job_status i w3 = job_status i w2) as J3 by (intros; by apply job_status_jobs).
  destruct rm as [rm|e].
  - w_inv. split; [congruence|]. exists job. split_and!; [done..|]. intros i. by rewrite J3, J2.
  - open_call H w4 u4 E4. frames E4. w_inv. split_and!; [congruence|unfold queue_of in *; congruence|].
    intros i. pose proof E4 as Eu. apply (UpdateStatus_status _ _ i) in E4. rewrite !J3, !J2, Z.eqb_refl in E4.
    destruct (Z.eqb_spec i jobID) as [Hi|]; [|left; by rewrite andb_false_r in E4].
    rewrite Hi, Hs in *. rewrite E4. destruct u4 as [[]|eu]; cbn; [by left|right]. split_and!; [done..|].
    by exists (Job.Status job), w3, eu.
Qed.

(** C22: [CancelJob] succeeds only for a job of the caller that is queued or
    waits for GPUs; the job is then cancelled and out of the queue, and no
    other job changes.  When it fails the queue is as before and so is every
    status, because the status is set back; the job stays cancelled only when
    this last update to its former status failed as well.  GPU cards are never
    touched. *)
Theorem CancelJob_spec jobID userID w w' r :
  CancelJob jobID userID w = (w', r) →
  gpus_of w' = gpus_of w ∧
  match r with
  | Ok _ => ∃ job, job_row jobID w = Some job ∧ Job.UserId job = userID ∧
      cancellable (Job.Status job) ∧ queue_of w' = delete (Itoa jobID) (queue_of w) ∧
      ∀ i, job_status i w' = if i =? jobID then Some JobStatusCancelled else job_status i w
  | Err _ => queue_of w' = queue_of w ∧
      ∀ i, job_status i w' = job_status i w ∨
        i = jobID ∧ job_status i w' = Some JobStatusCancelled ∧
        ∃ st w1 e, job_status i w = Some st ∧ cancellable st ∧ UpdateStatus jobID st w1 = (w', Err e)
  end.
Proof. apply CancelJob_post. Qed.

(** ** Lists *)

Lemma enrich_loop_keeps now l : keeps redis_of (enrich_loop now l) ∧ keeps jobs_of (enrich_loop now l).
Proof.
  induction l as [|j l [IH1 IH2]]; cbn; [split; apply keeps_ret|].
  split; (apply keeps_bind; [unfold GetFrontCount; solve_keeps|]; intros [f|e];
    [apply keeps_bind; [done|]; intros; apply keeps_ret|apply keeps_ret]).
Qed.

Lemma GetFrontCount_count j w w' n :
  GetFrontCount j w = (w', Ok n) →
  n = default (-1) (rank_of (Itoa j) (zsort (queue_of w))) ∧ redis_of w' = redis_of w.
Proof.
  unfold GetFrontCount, mbind, M_bind. intros H. open_call H w1 r E. frames E.
  destruct r as [n'|e].
  - apply Rank_ok in E. w_inv. by rewrite E.
  - destruct e; w_inv. split; [|done]. unfold Rank in E. w_inv.
    match goal with H : rd_zrank _ _ _ = _ |- _ => apply rd_zrank_nil in H as HN end.
    replace (rank_of (Itoa j) (zsort (queue_of w))) with (@None Z); [done|]. symmetry.
    apply eq_None_not_Some. rewrite rank_of_is_Some. unfold queue_of, redis_of. by rewrite HN.
Qed.

(** a successful [EnrichJobList] keeps the jobs and their order and sets
    the count of each to the number of jobs in front of it, or to -1 when it is
    not queued. *)
Theorem EnrichJobList_spec jobs w w' jobs' :
  EnrichJobList jobs w = (w', (jobs', Ok tt)) →
  JobResponse.ID <$> jobs' = JobResponse.ID <$> jobs ∧
  JobResponse.Count <$> jobs' =
    (λ j, default (-1) (rank_of (Itoa (JobResponse.ID j)) (zsort (queue_of w)))) <$> jobs.
Proof.
  unfold EnrichJobList, mbind, M_bind. intros H. open_call H w1 now E1. frames E1.
  replace (queue_of w) with (queue_of w1) by (unfold queue_of; congruence). clear E1 K K0 K1 K2 K3.
  revert w1 jobs' H. induction jobs as [|j l IH]; intros w1 jobs' H; cbn in H; [by w_inv|].
  unfold mbind, M_bind in H. open_call H w2 f E2. destruct f as [front|]; [|by w_inv].
  apply GetFrontCount_count in E2 as [Hf Hr].
  open_call H w3 rr E3. destruct rr as [l' r']. cbn in H. w_inv.
  apply IH in E3 as [IH1 IH2]. cbn.
  replace (queue_of w2) with (queue_of w1) in IH2 by (unfold queue_of; congruence).
  split; [by rewrite IH1|]. rewrite IH2. f_equal.
  destruct (rank_of (Itoa (JobResponse.ID j)) _) as [n|] eqn:Hn; cbn; [|done].
  apply rank_of_lookup in Hn as (_ & _ & _ & Hn). by rewrite (proj2 (Z.leb_le 0 n)).
Qed.

Lemma limit_offset_elem {A} (n k : Z) (l : list A) x : x ∈ limit_offset n k l → x ∈ l.
Proof.
  unfold limit_offset. repeat case_match; intros Hx;
    repeat first [done | apply subseteq_take in Hx | apply subseteq_drop in Hx].
Qed.

Lemma getJobListWithFilters_ok req st et u f w w' list total page ps :
  getJobListWithFilters req st et u f w = (w', Ok (list, total, page, ps)) →
  ∃ js, JobResponse.ID <$> list = Job.ID <$> js ∧ JobResponse.Status <$> list = Job.Status <$> js ∧
    (∀ j, j ∈ js → j ∈ jobs_of w ∧ Job.UserId j = u ∧ status_ok f (Job.Status j) = true) ∧
    (0 ≤ JobListRequest.PageSize req → Z.of_nat (length list) ≤ JobListRequest.PageSize req).
Proof.
  unfold getJobListWithFilters, mbind, M_bind. intros H. open_call H w1 c E1. frames E1.
  destruct c as [n|]; [|by w_inv]. open_call H w2 r E2. destruct r as [js|]; [|by w_inv].
  open_call H w3 names E3. clear E3. w_inv.
  match goal with H : tbl_page _ _ _ _ _ = _ |- _ => apply tbl_page_ok in H as (l0 & Hp & _ & ->) end.
  set (L := limit_offset _ _ l0). exists L.
  rewrite <- !list_fmap_compose. split; [by apply list_fmap_ext|].
  split; [by apply list_fmap_ext|]. split.
  - intros j Hj0%limit_offset_elem.
    rewrite Hp in Hj0. apply list_elem_of_In, List.filter_In in Hj0 as [Hin Hf].
    apply andb_true_iff in Hf as [[Hu Hs]%andb_true_iff _].
    split_and!; [|by apply Z.eqb_eq|done].
    apply list_elem_of_In in Hin. rewrite <- K. exact Hin.
  - intros Hn. rewrite !length_fmap. by apply limit_offset_length.
Qed.

(** the lists a user sees hold only the user's own jobs, the waiting list
    only queued ones, and at most 100 of them whatever page size was asked. *)
Theorem GetJobList_own req st et u w w' w'' l1 l2 t1 t2 p1 p2 s1 s2 :
  GetJobList req st et u w = (w', Ok (l1, t1, p1, s1)) →
  GetWaitJobList req st et u w = (w'', Ok (l2, t2, p2, s2)) →
  (length l1 ≤ 100 ∧ length l2 ≤ 100)%nat ∧
  (∀ r, r ∈ l1 → ∃ j, j ∈ jobs_of w ∧ Job.ID j = JobResponse.ID r ∧ Job.UserId j = u) ∧
  (∀ r, r ∈ l2 → ∃ j, j ∈ jobs_of w ∧ Job.ID j = JobResponse.ID r ∧ Job.UserId j = u ∧
                       cancellable (Job.Status j)).
Proof.
  intros (js1 & HI1 & _ & Hj1 & Hn1)%getJobListWithFilters_ok
         (js2 & HI2 & _ & Hj2 & Hn2)%getJobListWithFilters_ok.
  assert (0 ≤ JobListRequest.PageSize (clamp_page req) ≤ 100) as Hc.
  { cbn. destruct (Z.leb_spec (JobListRequest.PageSize req) 0); cbn; [lia|].
    destruct (Z.ltb_spec 100 (JobListRequest.PageSize req)); lia. }
  split; [lia|]. split.
  - intros r Hr. apply (list_elem_of_fmap_2 JobResponse.ID) in Hr. rewrite HI1 in Hr.
    apply list_elem_of_fmap in Hr as (j & Hid & Hj). apply Hj1 in Hj as (? & ? & _). eauto.
  - intros r Hr. apply (list_elem_of_fmap_2 JobResponse.ID) in Hr. rewrite HI2 in Hr.
    apply list_elem_of_fmap in Hr as (j & Hid & Hj). apply Hj2 in Hj as (? & ? & Hs).
    exists j. split_and!; [done..|]. cbn in Hs. unfold cancellable.
    apply orb_true_iff in Hs as [Hs|Hs]; [left; by apply Z.eqb_eq|right].
    apply orb_true_iff in Hs as [Hs|Hs]; [by apply Z.eqb_eq|done].
Qed.
End JobServiceLaws.

(** ** Concrete submissions and cancellations *)

Definition demo_req : SubmitJobRequest :=
  SubmitJobRequest.mkSubmitJobRequest "train" "" "/home/u/run.py" "base" [2; 3].
Definition demo_user (i prio : Z) : User :=
  User.mkUser i "u" "" "" "" "" "" 1 prio 0 0 [].

(** User 1 of priority 2, an idle queue server, one queued job of user 1. *)
Definition demo_service_world : World :=
  mem_world [demo_job 4 JobStatusQueued] [] [] [demo_user 1 2]
    (mkRview {[QueueKey := {["4" := enqueue_score JobPriorityLow 4]}]} ∅ {[SeqKey := 4]})
    (mkScript 100 [] [Ok false] [] [Ok true] [] []) eq_refl eq_refl eq_refl eq_refl.

Lemma SubmitJob_spec_witness :
  queue_of (fst (SubmitJob demo_req 1 demo_service_world)) =
    <[Itoa 5 := enqueue_score 2 5]> (queue_of demo_service_world).
Proof.
  assert (SubmitJob demo_req 1 demo_service_world =
          (fst (SubmitJob demo_req 1 demo_service_world), Ok 5)) as E
    by (apply run_eq; vm_compute; reflexivity).
  destruct (SubmitJob_spec demo_req 1 demo_service_world _ (Ok 5) E) as (_ & _ & _ & _ & H).
  exact H.
Defined.

Lemma CancelJob_spec_witness :
  queue_of (fst (CancelJob 4 1 demo_service_world)) = delete (Itoa 4) (queue_of demo_service_world).
Proof.
  assert (CancelJob 4 1 demo_service_world = (fst (CancelJob 4 1 demo_service_world), Ok tt)) as E
    by (apply run_eq; vm_compute; reflexivity).
  destruct (proj2 (CancelJob_spec 4 1 demo_service_world _ (Ok tt) E)) as (job & _ & _ & _ & H & _).
  exact H.
Defined.

Lemma EnrichJobList_spec_witness :
  JobResponse.Count <$>
    (snd (EnrichJobList [job_response (demo_job 9 1); job_response (demo_job 4 1)] demo_service_world)).1
  = [-1; 0].
Proof.
  set (l := [job_response (demo_job 9 1); job_response (demo_job 4 1)]).
  destruct (EnrichJobList l demo_service_world) as [w' [l' r]] eqn:E.
  assert (r = Ok tt) as -> by
    (change r with ((snd (w', (l', r))).2); rewrite <- E; vm_compute; reflexivity).
  cbn [snd fst]. rewrite (proj2 (EnrichJobList_spec l demo_service_world w' l' E)).
  vm_compute. reflexivity.
Defined.

Definition demo_list_req : JobListRequest := JobListRequest.mkJobListRequest 0 0 "" 1000 1.

Lemma GetJobList_own_witness :
  match snd (GetJobList demo_list_req None None 1 demo_service_world) with
  | Ok (l, _, _, _) => ∀ r, r ∈ l →
      ∃ j, j ∈ jobs_of demo_service_world ∧ Job.ID j = JobResponse.ID r ∧ Job.UserId j = 1
  | Err _ => False
  end.
Proof.
  destruct (GetJobList demo_list_req None None 1 demo_service_world) as [w1 r1] eqn:E1.
  destruct (GetWaitJobList demo_list_req None None 1 demo_service_world) as [w2 r2] eqn:E2.
  assert (is_ok r1 = true ∧ is_ok r2 = true) as [H1 H2].
  { change (is_ok (snd (w1, r1)) = true ∧ is_ok (snd (w2, r2)) = true).
    rewrite <- E1, <- E2. vm_compute. split; reflexivity. }
  destruct r1 as [[[[l1 t1] p1] s1]|]; [|discriminate H1].
  destruct r2 as [[[[l2 t2] p2] s2]|]; [|discriminate H2].
  exact (proj1 (proj2 (GetJobList_own demo_list_req None None 1 demo_service_world
           w1 w2 l1 l2 t1 t2 p1 p2 s1 s2 E1 E2))).
Defined.

(** A cancellation whose queue removal fails: the status is rolled back, the
    finish time of the aborted cancellation stays on the queued job. *)
Definition cancel_fault_world : World :=
  put_redis (mkMem (redis_of demo_service_world) [true]) demo_service_world.

Theorem CancelJob_rollback_keeps_finish_time :
  is_ok (snd (CancelJob 4 1 cancel_fault_world)) = false ∧
  (λ j, (Job.Status j, Job.FinishedAt j)) <$> jobs_of (fst (CancelJob 4 1 cancel_fault_world)) =
    [(JobStatusQueued, Some 100)].
Proof. vm_compute. split; reflexivity. Qed.
