(* ===== verification/Scheduler.v ===== *)
(** * The scheduler (internal/service/scheduler_service.go)

    The scheduler keeps a table of running processes and one monitor
    goroutine per process.  A goroutine is a value in [monitors]; its loop
    body is [monitor_tick], its deferred function [monitor_exit].  The loops
    [run], [startAuditor] and [monitorJob] are the rules of [step], which
    interleaves their bodies with each other and with the client operations;
    each body runs to its end before the next one starts. *)

From S2P Require Import Prelude GoStrings Float64 Errors Entity External MemBackend Gpu JobRepo.
From S2P Require Import Queue JobService.

Open Scope Z_scope.

Module JobProcess.
Record JobProcess : Type := mkJobProcess {
  pid : Z; jobID : Z; userID : Z; jobName : string; cardIDs : list Z
}.
End JobProcess.
Notation JobProcess := JobProcess.JobProcess.

(** [parseGpuIDs]; the loop of [processQueue] over the same string is the
    same code. *)
Definition parseGpuIDs (gpuIDsStr : string) : list Z :=
  if String.eqb gpuIDsStr "" then []
  else omap (λ s, match Atoi (TrimSpace s) with Ok id => Some id | Err _ => None end)
         (Split comma gpuIDsStr).

Definition lock_key : string := "lock:queue_process".
Definition second : Z := 1000000000.
(** [fmt.Sprintf("%d-%d", time.Now().UnixNano(), os.Getpid())]. *)
Definition queue_token (now pid : Z) : string := Itoa now +:+ String hyphen (Itoa pid).

Section Scheduler.
Context `{B : Backend}.

(** The scheduler: the services, the flag [isRunning], whether [s.ctx] is
    cancelled, the table of processes by pid, the live monitors with their
    [failCount]. *)
Record Sched : Type := mkSched {
  sw : World;
  isRunning : bool;
  ctx_done : bool;
  runningJobs : gmap Z JobProcess;
  monitors : list (JobProcess * Z)
}.

Definition put_sw (w : World) (s : Sched) : Sched :=
  mkSched w (isRunning s) (ctx_done s) (runningJobs s) (monitors s).
Definition on_world {A} : M World A → M Sched A := lift sw put_sw.
Definition track (jp : JobProcess) (s : Sched) : Sched :=
  mkSched (sw s) (isRunning s) (ctx_done s) (<[JobProcess.pid jp := jp]> (runningJobs s)) (monitors s).
Definition untrack (pid : Z) (s : Sched) : Sched :=
  mkSched (sw s) (isRunning s) (ctx_done s) (delete pid (runningJobs s)) (monitors s).
(** [s.wg.Add(1); go s.monitorJob(jp)]. *)
Definition spawn_monitor (jp : JobProcess) (s : Sched) : Sched :=
  mkSched (sw s) (isRunning s) (ctx_done s) (runningJobs s) (monitors s ++ [(jp, 0)]).

(** ** The queue lock *)

Definition acquireQueueLock (ttl : Z) : M Sched (string * bool) :=
  now ← on_world (on_env env_now);
  pid ← on_world (on_env env_Getpid);
  let token := queue_token now pid in
  r ← on_world (on_env (env_SetNX lock_key token ttl));
  match r with
  | Err _ => mret (""%string, false)
  | Ok ok => mret (token, ok)
  end.

Definition releaseQueueLock (token : string) : M Sched unit :=
  if String.eqb token "" then mret tt
  else _ ← on_world (on_env (env_EvalRelease lock_key token)); mret tt.

(** ** Starting a job *)

(** Give the cards back, fail the job, take it out of the queue; errors are
    only logged. *)
Definition abort_start (jobID : Z) (cardIDs : list Z) : M Sched unit :=
  _ ← on_world (ReleaseCards cardIDs);
  _ ← on_world (UpdateStatus jobID JobStatusFailed);
  _ ← on_world (Remove jobID);
  mret tt.

Definition env_vars (jobID : Z) (cards : list GpuCard) : list (string * string) :=
  [("CUDA_VISIBLE_DEVICES", Join "," ((λ c, Itoa (GpuCard.Index c)) <$> cards));
   ("JOB_ID", Itoa jobID); ("PYTHONUNBUFFERED", "1")]%string.

Definition new_process (pid jobID cardID : Z) : Process :=
  Process.mkProcess 0 pid cardID jobID None None.

(** The end of [executeJob], once the remote process runs. *)
Definition record_start (jp : JobProcess) : M Sched (result unit) :=
  _ ← modify (track jp);
  r ← for_ret (JobProcess.cardIDs jp) (λ cardID,
        c ← on_world (proc_Create (new_process (JobProcess.pid jp) (JobProcess.jobID jp) cardID));
        match c with
        | Err e => mret (Some e)
        | Ok _ => mret None
        end);
  match r with
  | Some e => mret (Err e)
  | None =>
      c ← on_world (CreatePid (JobProcess.pid jp) (JobProcess.jobName jp));
      match c with
      | Err e => mret (Err e)
      | Ok _ => _ ← modify (spawn_monitor jp); mret (Ok tt)
      end
  end.

(** The part of [executeJob] after the job is marked running. *)
Definition launch (job : Job) (cardIDs : list Z) : M Sched (result unit) :=
  let jobID := Job.ID job in
  if String.eqb (Job.FilePath job) "" then
    _ ← abort_start jobID cardIDs;
    mret (Err (ErrMsg "任务脚本路径为空"))
  else
    g ← on_world (GetGpuCardsByIDs cardIDs);
    match g with
    | Err e => mret (Err (ErrWrap "获取显卡详情失败" e))
    | Ok cards =>
        a ← on_world (on_env (env_HasSystemAccess (Job.UserId job)));
        match a with
        | Err e =>
            _ ← abort_start jobID cardIDs;
            mret (Err (ErrWrap "检查用户权限失败" e))
        | Ok isRoot =>
            x ← on_world (on_env (env_ExecuteCommandRemote (Job.UserId job) (Job.CondaEnv job)
                  ("python3 -u " +:+ Job.FilePath job) (env_vars jobID cards) isRoot));
            match x with
            | Err e =>
                _ ← abort_start jobID cardIDs;
                mret (Err (ErrWrap "远程启动训练脚本失败" e))
            | Ok pid =>
                record_start (JobProcess.mkJobProcess pid jobID (Job.UserId job) (Job.Name job) cardIDs)
            end
        end
    end.

Definition executeJob (job : Job) (cardIDs : list Z) : M Sched (result unit) :=
  a ← on_world (AcquireCards cardIDs (Job.ID job));
  match a with
  | Err e => mret (Err (ErrWrap "占用显卡失败" e))
  | Ok _ =>
      u ← on_world (UpdateStatus (Job.ID job) JobStatusRunning);
      match u with
      | Err e =>
          _ ← on_world (ReleaseCards cardIDs);
          mret (Err (ErrWrap "更新任务状态失败" e))
      | Ok _ => launch job cardIDs
      end
  end.

(** ** One round of the queue *)

(** [processQueue] while it holds the lock. *)
Definition process_head : M Sched unit :=
  p ← on_world Peek;
  match p with
  | Err _ | Ok None => mret tt
  | Ok (Some item) =>
      let jobID := Item.JobID item in
      g ← on_world (GetByID jobID);
      match g with
      | Err _ => mret tt
      | Ok None => _ ← on_world (Remove jobID); mret tt
      | Ok (Some job) =>
          if negb (Job.Status job =? JobStatusQueued) && negb (Job.Status job =? JobStatusWaitingGpu)
          then _ ← on_world (Remove jobID); mret tt
          else
            let cardIDs := parseGpuIDs (Job.GpuIDs job) in
            match cardIDs with
            | [] => _ ← on_world (Remove jobID); mret tt
            | _ =>
                c ← on_world (CheckAvailable cardIDs);
                match c with
                | Err _ => mret tt
                | Ok false =>
                    if negb (Job.Status job =? JobStatusWaitingGpu)
                    then _ ← on_world (UpdateStatus (Job.ID job) JobStatusWaitingGpu); mret tt
                    else mret tt
                | Ok true =>
                    _ ← executeJob job cardIDs;
                    _ ← on_world (Remove jobID);
                    mret tt
                end
            end
      end
  end.

Definition processQueue : M Sched unit :=
  running ← gets isRunning;
  if negb running then mret tt
  else
    l ← acquireQueueLock (30 * second);
    if negb l.2 then mret tt
    else
      _ ← process_head;
      releaseQueueLock l.1.

(** ** Monitoring *)

(** The deferred function of [monitorJob]. *)
Definition monitor_exit (jp : JobProcess) : M Sched unit :=
  _ ← modify (untrack (JobProcess.pid jp));
  _ ← on_world (DelPid (JobProcess.pid jp));
  now ← on_world (on_env env_now);
  f ← on_world (FindActiveByJobID (JobProcess.jobID jp));
  _ ← match f with
      | Err _ => mret tt
      | Ok processes =>
          for_each processes (λ p, _ ← on_world (proc_Update (Process.set_ended now p)); mret tt)
      end : M Sched unit;
  _ ← on_world (ReleaseCards (JobProcess.cardIDs jp));
  mret tt.

(** One tick of the loop of [monitorJob]: [Some n] continues with
    [failCount = n], [None] returns (the deferred function is not run yet). *)
Definition monitor_check (jp : JobProcess) (failCount : Z) : M Sched (option Z) :=
  let jobID := JobProcess.jobID jp in
  r ← on_world (on_env (env_PidExists (wrap32 (JobProcess.pid jp))));
  match r with
  | Err _ =>
      let failCount := failCount + 1 in
      if 10 <=? failCount
      then _ ← on_world (UpdateStatus jobID JobStatusFailed); mret None
      else mret (Some failCount)
  | Ok true => mret (Some 0)
  | Ok false =>
      a ← on_world (on_env (env_HasSystemAccess (JobProcess.userID jp)));
      let isRoot := match a with Ok b => b | Err _ => false end in
      e ← on_world (on_env (env_GetJobExitCode (JobProcess.userID jp) jobID isRoot));
      let status := match e with
                    | Err _ => JobStatusCompleted
                    | Ok exitCode => if negb (exitCode =? 0) then JobStatusFailed
                                     else JobStatusCompleted
                    end in
      _ ← on_world (UpdateStatus jobID status);
      mret None
  end.

(** A tick with the deferred function when the loop returns. *)
Definition monitor_tick (jp : JobProcess) (failCount : Z) : M Sched (option Z) :=
  r ← monitor_check jp failCount;
  match r with
  | Some n => mret (Some n)
  | None => _ ← monitor_exit jp; mret None
  end.

(** ** Recovery and audit *)

Definition handleMissingProcess (job : Job) (processRecord : option Process) : M Sched unit :=
  _ ← on_world (UpdateStatus (Job.ID job) JobStatusFailed);
  _ ← match processRecord with
      | None => mret tt
      | Some p =>
          now ← on_world (on_env env_now);
          _ ← on_world (proc_Update (Process.set_ended now p));
          _ ← on_world (DelPid (Process.PID p));
          mret tt
      end : M Sched unit;
  _ ← on_world (ReleaseCards (parseGpuIDs (Job.GpuIDs job)));
  mret tt.

Definition recovered (job : Job) (pid : Z) : JobProcess :=
  JobProcess.mkJobProcess pid (Job.ID job) (Job.UserId job) (Job.Name job)
    (parseGpuIDs (Job.GpuIDs job)).

Definition recover_process (job : Job) (p : Process) : M Sched unit :=
  let pid := Process.PID p in
  r ← on_world (on_env (env_PidExists (wrap32 pid)));
  match r with
  | Err _ => mret tt
  | Ok true =>
      _ ← modify (track (recovered job pid));
      _ ← modify (spawn_monitor (recovered job pid));
      _ ← on_world (CreatePid pid (Job.Name job));
      mret tt
  | Ok false => handleMissingProcess job (Some p)
  end.

Definition recover_job (job : Job) : M Sched unit :=
  f ← on_world (FindActiveByJobID (Job.ID job));
  match f with
  | Err _ => mret tt
  | Ok [] => handleMissingProcess job None
  | Ok processes => for_each processes (recover_process job)
  end.

Definition recoverRunningJobs : M Sched unit :=
  r ← on_world GetRunningJobsWithoutPagination;
  match r with
  | Err _ => mret tt
  | Ok jobs => for_each jobs recover_job
  end.

Definition audit_process (job : Job) (p : Process) : M Sched unit :=
  let pid := Process.PID p in
  tracked ← gets runningJobs;
  match tracked !! pid with
  | Some _ => mret tt
  | None =>
      r ← on_world (on_env (env_PidExists (wrap32 pid)));
      match r with
      | Ok false => handleMissingProcess job (Some p)
      | _ => mret tt
      end
  end.

Definition audit_job (job : Job) : M Sched unit :=
  f ← on_world (FindActiveByJobID (Job.ID job));
  match f with
  | Err _ => mret tt
  | Ok [] => handleMissingProcess job None
  | Ok processes => for_each processes (audit_process job)
  end.

Definition auditRunningJobs : M Sched unit :=
  r ← on_world GetRunningJobsWithoutPagination;
  match r with
  | Err _ => mret tt
  | Ok jobs => for_each jobs audit_job
  end.

(** ** Start and Stop *)

(** [NewScheduler]. *)
Definition NewScheduler (w : World) : Sched := mkSched w false false ∅ [].

Definition set_running (s : Sched) : Sched :=
  mkSched (sw s) true (ctx_done s) (runningJobs s) (monitors s).
Definition set_stopped (s : Sched) : Sched :=
  mkSched (sw s) false true (runningJobs s) (monitors s).

Definition Start : M Sched unit :=
  running ← gets isRunning;
  match running with
  | true => mret tt
  | false => _ ← modify set_running; recoverRunningJobs
  end.

(** [Stop] cancels the context; the loops and the monitors return when they
    see it, which are steps of their own. *)
Definition Stop : M Sched unit :=
  running ← gets isRunning;
  if negb running then mret tt
  else modify set_stopped.
End Scheduler.

(** ** Frames *)

Section SchedFrames.
Context `{B : Backend} {BL : BackendLaws B}.

Lemma keeps_on_world {A X} (f : World → X) (c : M World A) :
  keeps f c → keeps (λ s, f (sw s)) (on_world c).
Proof. intros Hc. by apply (keeps_lift_in _ f). Qed.
Lemma keeps_on_world_rest {A} (c : M World A) :
  keeps monitors (on_world c) ∧ keeps runningJobs (on_world c) ∧ keeps isRunning (on_world c) ∧
  keeps ctx_done (on_world c).
Proof. by split_and!; apply keeps_lift. Qed.
End SchedFrames.

Definition s_jobs `{B : Backend} (s : Sched) : list Job := jobs_of (sw s).
Definition s_gpus `{B : Backend} (s : Sched) : list GpuCard := gpus_of (sw s).
Definition s_procs `{B : Backend} (s : Sched) : list Process := procs_of (sw s).
Definition s_queue `{B : Backend} (s : Sched) : gmap string float64 := queue_of (sw s).

#[export] Hint Extern 1 (keeps s_jobs (on_world _)) => (apply (keeps_on_world jobs_of)) : keeps.
#[export] Hint Extern 1 (keeps s_gpus (on_world _)) => (apply (keeps_on_world gpus_of)) : keeps.
#[export] Hint Extern 1 (keeps s_procs (on_world _)) => (apply (keeps_on_world procs_of)) : keeps.
#[export] Hint Extern 1 (keeps monitors (on_world _)) => (apply keeps_on_world_rest) : keeps.
#[export] Hint Extern 1 (keeps runningJobs (on_world _)) => (apply keeps_on_world_rest) : keeps.
#[export] Hint Extern 1 (keeps _ (Peek)) => (unfold Peek, repo_Peek; solve [solve_keeps]) : keeps.
#[export] Hint Extern 1 (keeps _ (CreatePid _ _)) => (unfold CreatePid; solve [solve_keeps]) : keeps.
#[export] Hint Extern 1 (keeps _ (DelPid _)) => (unfold DelPid; solve [solve_keeps]) : keeps.
#[export] Hint Extern 1 (keeps _ (proc_Create _)) => (unfold proc_Create; solve [solve_keeps]) : keeps.
#[export] Hint Extern 1 (keeps _ (proc_Update _)) => (unfold proc_Update; solve [solve_keeps]) : keeps.
#[export] Hint Extern 1 (keeps _ (FindActiveByJobID _)) =>
  (unfold FindActiveByJobID; solve [solve_keeps]) : keeps.
#[export] Hint Extern 1 (keeps _ GetRunningJobsWithoutPagination) =>
  (unfold GetRunningJobsWithoutPagination; solve [solve_keeps]) : keeps.
#[export] Hint Extern 1 (keeps _ (GetGpuCardsByIDs _)) =>
  (unfold GetGpuCardsByIDs, GetByIDs; solve [solve_keeps]) : keeps.
#[export] Hint Extern 1 (keeps _ (CheckAvailable _)) =>
  (unfold CheckAvailable, cache_CheckAvailable, repo_CheckAvailable; solve [solve_keeps]) : keeps.
#[export] Hint Extern 1 (keeps _ (AcquireCards _ _)) =>
  (unfold AcquireCards, Acquire, SetBusy, set_cache; solve [solve_keeps]) : keeps.
#[export] Hint Extern 1 (keeps _ (ReleaseCards _)) =>
  (unfold ReleaseCards, Release, SetIdle, set_cache; solve [solve_keeps]) : keeps.
#[export] Hint Extern 1 (keeps _ (acquireQueueLock _)) =>
  (unfold acquireQueueLock; solve [solve_keeps]) : keeps.
#[export] Hint Extern 1 (keeps _ (releaseQueueLock _)) =>
  (unfold releaseQueueLock; solve [solve_keeps]) : keeps.

Ltac s_frames E :=
  let fj := constr:(s_jobs) in let fg := constr:(s_gpus) in let fp := constr:(s_procs) in
  let fm := constr:(monitors) in let fr := constr:(runningJobs) in
  try frame_fact fj E; try frame_fact fg E; try frame_fact fp E;
  try frame_fact fm E; try frame_fact fr E.

(** ** The life cycle of a job *)

Inductive phase : Type := Absent | Pending | Active | Finished | Cancelled | Other.
#[export] Instance phase_eq_dec : EqDecision phase.
Proof. solve_decision. Defined.

Definition phase_of (st : option Z) : phase :=
  match st with
  | None => Absent
  | Some st =>
      if (st =? JobStatusQueued) || (st =? JobStatusWaitingGpu) then Pending
      else if st =? JobStatusRunning then Active
      else if (st =? JobStatusCompleted) || (st =? JobStatusFailed) then Finished
      else if st =? JobStatusCancelled then Cancelled
      else Other
  end.

(** A job is created, waits, runs, ends; a waiting job may also be cancelled
    or fail to start. *)
Definition phase_le (p q : phase) : Prop :=
  p = q ∨ p = Absent ∨
  p = Pending ∧ (q = Active ∨ q = Finished ∨ q = Cancelled) ∨
  p = Active ∧ q = Finished.

#[export] Instance phase_le_preorder : PreOrder phase_le.
Proof.
  split; [by left|]. intros p q r. unfold phase_le. intros H1 H2.
  destruct p, q, r; naive_solver.
Qed.

Section LifeCycle.
Context `{B : Backend} {BL : BackendLaws B}.

Definition job_phase (i : Z) (w : World) : phase := phase_of (job_status i w).

(** The job runs or has ended. *)
Definition started (i : Z) (w : World) : Prop := job_phase i w = Active ∨ job_phase i w = Finished.

Definition evolves (w w' : World) : Prop := ∀ i, phase_le (job_phase i w) (job_phase i w').
#[global] Instance evolves_preorder : PreOrder evolves.
Proof.
  split; [intros w i; reflexivity|]. intros w1 w2 w3 H1 H2 i. etrans; [apply H1|apply H2].
Qed.

Lemma started_evolves i w w' : started i w → evolves w w' → started i w'.
Proof.
  intros Hs He. specialize (He i). unfold started, phase_le in *.
  destruct (job_phase i w), (job_phase i w'); naive_solver.
Qed.

(** Statuses evolve, and a monitor that is new watches a started job. *)
Definition life (s s' : Sched) : Prop :=
  evolves (sw s) (sw s') ∧
  ∀ jp n, (jp, n) ∈ monitors s' →
    (∃ n', (jp, n') ∈ monitors s) ∨ started (JobProcess.jobID jp) (sw s').
#[global] Instance life_preorder : PreOrder life.
Proof.
  split.
  - intros s. split; [done|]. eauto.
  - intros s1 s2 s3 [E1 M1] [E2 M2]. split; [by etrans|]. intros jp n H.
    destruct (M2 _ _ H) as [[n' H']|H']; [|by right].
    destruct (M1 _ _ H') as [?|Hs]; [by left|right]. by eapply started_evolves.
Qed.

Lemma evolves_jobs w w' : jobs_of w' = jobs_of w → evolves w w'.
Proof. intros H i. unfold job_phase. by rewrite (job_status_jobs i _ _ H). Qed.

Lemma life_frame s s' : s_jobs s' = s_jobs s → monitors s' = monitors s → life s s'.
Proof. intros Hj Hm. split; [by apply evolves_jobs|]. rewrite Hm. eauto. Qed.

Lemma respects_life {A} (c : M Sched A) : keeps s_jobs c → keeps monitors c → respects life c.
Proof. intros H1 H2 s s' a E. apply life_frame; eauto. Qed.

Lemma life_track jp : respects life (modify (track jp)).
Proof. intros s s' u [= <- _]. by apply life_frame. Qed.
Lemma life_untrack pid : respects life (modify (untrack pid)).
Proof. intros s s' u [= <- _]. by apply life_frame. Qed.

Lemma life_spawn jp s : started (JobProcess.jobID jp) (sw s) → life s (spawn_monitor jp s).
Proof.
  intros Hs. split; [done|]. intros jp' n [H|H]%elem_of_app; [by left; exists n|].
  apply list_elem_of_singleton in H as [= -> ->]. by right.
Qed.

Lemma on_world_inv {A} (c : M World A) s s' a :
  on_world c s = (s', a) → c (sw s) = (sw s', a) ∧ s' = put_sw (sw s') s.
Proof. unfold on_world. intros H. by run_inv. Qed.

Lemma job_phase_UpdateStatus i st i' w w' r :
  UpdateStatus i st w = (w', r) →
  job_phase i' w' = if is_ok r && (i' =? i)
                    then phase_of ((λ _, st) <$> job_status i w) else job_phase i' w.
Proof.
  intros H. unfold job_phase. rewrite (UpdateStatus_status _ _ i' _ _ _ H).
  by destruct (is_ok r && (i' =? i)).
Qed.

Lemma life_UpdateStatus i st s s' r :
  on_world (UpdateStatus i st) s = (s', r) →
  phase_le (job_phase i (sw s)) (phase_of (Some st)) → life s s'.
Proof.
  intros [H ->]%on_world_inv Hle. split; [|cbn; eauto]. intros i'.
  cbn. rewrite (job_phase_UpdateStatus _ _ i' _ _ _ H).
  destruct (is_ok r && (i' =? i)) eqn:Hc; [|done].
  apply andb_true_iff in Hc as [_ ->%Z.eqb_eq]. unfold job_phase in *.
  destruct (job_status i (sw s)); cbn [fmap option_fmap option_map]; [done|by right; left].
Qed.

Lemma started_le i w st : started i w → st = JobStatusCompleted ∨ st = JobStatusFailed →
  phase_le (job_phase i w) (phase_of (Some st)).
Proof.
  intros [->| ->] [->| ->]; (by left) || (right; right; by right).
Qed.
End LifeCycle.

#[export] Hint Resolve respects_life life_track life_untrack : respects.

Section LifeOps.
Context `{B : Backend} {BL : BackendLaws B}.

(** The rest of a body after its status update touches neither jobs nor
    monitors. *)
Lemma life_then {B'} i st s s' b (k : result unit → M Sched B') :
  (r ← on_world (UpdateStatus i st); k r) s = (s', b) →
  phase_le (job_phase i (sw s)) (phase_of (Some st)) →
  (∀ r, respects life (k r)) → life s s'.
Proof.
  intros H Hle Hk. run_inv. etrans; [by eapply life_UpdateStatus|]. by eapply Hk.
Qed.

Lemma handleMissingProcess_life job p s s' u :
  handleMissingProcess job p s = (s', u) → started (Job.ID job) (sw s) → life s s'.
Proof.
  intros H Hs. eapply life_then; [exact H|apply started_le; auto|].
  intros r. solve_respects; apply respects_life; solve_keeps.
Qed.

Lemma on_env_life {A} (c : M TE A) : respects life (on_world (on_env c)).
Proof. apply respects_life; solve_keeps. Qed.

Lemma recover_process_life job p s s' u :
  recover_process job p s = (s', u) → started (Job.ID job) (sw s) → life s s'.
Proof.
  unfold recover_process. intros H Hs. unfold mbind at 1, M_bind at 1 in H.
  open_call H s1 r E. apply on_env_life in E.
  assert (started (Job.ID job) (sw s1)) as Hs1 by (eapply started_evolves; [exact Hs|apply E]).
  etrans; [exact E|]. destruct r as [[]|]; [|by eapply handleMissingProcess_life|by run_inv].
  unfold mbind, M_bind, modify in H. open_call H s2 c E2.
  assert (respects life (on_world (CreatePid (Process.PID p) (Job.Name job)))) as Hc
    by (apply respects_life; solve_keeps).
  apply Hc in E2. run_inv. etrans; [|exact E2]. etrans; [|by apply life_spawn].
  by eapply life_track.
Qed.

Lemma recover_job_life job s s' u :
  recover_job job s = (s', u) → started (Job.ID job) (sw s) → life s s'.
Proof.
  unfold recover_job. intros H Hs. unfold mbind, M_bind in H. open_call H s1 f E.
  assert (life s s1) as H1 by (s_frames E; by apply life_frame).
  assert (started (Job.ID job) (sw s1)) as Hs1 by (eapply started_evolves; [exact Hs|apply H1]).
  etrans; [exact H1|]. destruct f as [[|p l]|]; [by eapply handleMissingProcess_life| |by run_inv].
  eapply (for_each_pre life (λ (_ : Process) s, started (Job.ID job) (sw s))); [| |by intros|exact H].
  - intros. by eapply recover_process_life.
  - intros x v v' Hx [Hv _]. by eapply started_evolves.
Qed.

Lemma running_started (s s1 : Sched) jobs :
  on_world GetRunningJobsWithoutPagination s = (s1, Ok jobs) →
  life s s1 ∧ ∀ job, job ∈ jobs → started (Job.ID job) (sw s1).
Proof.
  intros E. s_frames E. split; [by apply life_frame|].
  apply on_world_inv in E as [E _]. unfold GetRunningJobsWithoutPagination in E. w_inv.
  match goal with H : tbl_select _ _ = _ |- _ => apply tbl_select_ok in H as HS end.
  intros job Hj. rewrite HS in Hj. apply list_elem_of_In, List.filter_In in Hj as [Hin Hst].
  apply list_elem_of_In in Hin. apply Z.eqb_eq in Hst.
  left. unfold job_phase, job_status, job_row.
  assert (jobs_of (sw s1) = jobs_of (sw s)) as -> by done.
  rewrite find_unique by (done || apply job_pk). cbn. by rewrite Hst.
Qed.

Lemma recoverRunningJobs_life : respects life recoverRunningJobs.
Proof.
  intros s s' u H. unfold recoverRunningJobs, mbind, M_bind in H. open_call H s1 r E.
  destruct r as [jobs|]; [|s_frames E; run_inv; by apply life_frame].
  apply running_started in E as [H1 Hs]. etrans; [exact H1|].
  eapply (for_each_pre life (λ job s, started (Job.ID job) (sw s))); [| |exact Hs|exact H].
  - intros. by eapply recover_job_life.
  - intros x v v' Hx [Hv _]. by eapply started_evolves.
Qed.

Lemma audit_process_life job p s s' u :
  audit_process job p s = (s', u) → started (Job.ID job) (sw s) → life s s'.
Proof.
  unfold audit_process. intros H Hs. unfold mbind, M_bind, gets in H.
  destruct (runningJobs s !! _); [by run_inv|]. open_call H s1 r E. apply on_env_life in E.
  assert (started (Job.ID job) (sw s1)) as Hs1 by (eapply started_evolves; [exact Hs|apply E]).
  etrans; [exact E|]. destruct r as [[]|]; [by run_inv|by eapply handleMissingProcess_life|by run_inv].
Qed.

Lemma auditRunningJobs_life : respects life auditRunningJobs.
Proof.
  intros s s' u H. unfold auditRunningJobs, mbind, M_bind in H. open_call H s1 r E.
  destruct r as [jobs|]; [|s_frames E; run_inv; by apply life_frame].
  apply running_started in E as [H1 Hs]. etrans; [exact H1|].
  eapply (for_each_pre life (λ job s, started (Job.ID job) (sw s))); [| |exact Hs|exact H].
  - intros job v v' u' _ Hv Hb. unfold audit_job, mbind, M_bind in Hb. open_call Hb v1 f E.
    assert (life v v1) as L1 by (s_frames E; by apply life_frame).
    assert (started (Job.ID job) (sw v1)) as Hv1 by (eapply started_evolves; [exact Hv|apply L1]).
    etrans; [exact L1|].
    destruct f as [[|p l]|]; [by eapply handleMissingProcess_life| |by run_inv].
    eapply (for_each_pre life (λ (_ : Process) s, started (Job.ID job) (sw s))); [| |by intros|exact Hb].
    + intros. by eapply audit_process_life.
    + intros x y y' Hx [Hy _]. by eapply started_evolves.
  - intros x v v' Hx [Hv _]. by eapply started_evolves.
Qed.

Lemma monitor_exit_life jp : respects life (monitor_exit jp).
Proof. unfold monitor_exit. solve_respects; apply respects_life; solve_keeps. Qed.

Lemma monitor_check_life jp n s s' o :
  monitor_check jp n s = (s', o) → started (JobProcess.jobID jp) (sw s) → life s s'.
Proof.
  unfold monitor_check. intros H Hs. unfold mbind at 1, M_bind at 1 in H. open_call H s1 r E.
  apply on_env_life in E.
  assert (started (JobProcess.jobID jp) (sw s1)) as Hs1
    by (eapply started_evolves; [exact Hs|apply E]).
  etrans; [exact E|]. destruct r as [[]|].
  - by run_inv.
  - unfold mbind at 1, M_bind at 1 in H. open_call H s2 a E2. apply on_env_life in E2.
    unfold mbind at 1, M_bind at 1 in H. open_call H s3 e E3. apply on_env_life in E3.
    etrans; [exact E2|]. etrans; [exact E3|].
    eapply life_then; [exact H| |solve_respects].
    apply started_le; [|repeat case_match; auto].
    eapply started_evolves; [|apply E3]. eapply started_evolves; [exact Hs1|apply E2].
  - destruct (10 <=? n + 1); [|by run_inv].
    eapply life_then; [exact H|apply started_le; auto|solve_respects].
Qed.
End LifeOps.

Section LifeHead.
Context `{B : Backend} {BL : BackendLaws B}.

Lemma abort_start_life i ids s s' u :
  abort_start i ids s = (s', u) → started i (sw s) → life s s'.
Proof.
  unfold abort_start. intros H Hs. unfold mbind at 1, M_bind at 1 in H. open_call H s1 r E.
  assert (life s s1) as H1 by (s_frames E; by apply life_frame).
  etrans; [exact H1|]. eapply life_then; [exact H| |].
  - apply started_le; [|auto]. eapply started_evolves; [exact Hs|apply H1].
  - intros. solve_respects; apply respects_life; solve_keeps.
Qed.

Lemma record_start_life jp s s' r :
  record_start jp s = (s', r) → started (JobProcess.jobID jp) (sw s) → life s s'.
Proof.
  unfold record_start. intros H Hs. unfold mbind at 1, M_bind at 1 in H.
  open_call H s1 u E1. apply life_track in E1. unfold mbind at 1, M_bind at 1 in H.
  open_call H s2 o E2.
  assert (life s1 s2) as H2 by (s_frames E2; by apply life_frame). etrans; [exact E1|].
  etrans; [exact H2|]. destruct o; [by run_inv|]. unfold mbind at 1, M_bind at 1 in H.
  open_call H s3 c E3. assert (life s2 s3) as H3 by (s_frames E3; by apply life_frame).
  etrans; [exact H3|]. destruct c; [|by run_inv]. run_inv. apply life_spawn.
  do 3 (eapply started_evolves; [|apply H3 || apply H2 || apply E1]). done.
Qed.

Lemma launch_life job ids s s' r :
  launch job ids s = (s', r) → started (Job.ID job) (sw s) → life s s'.
Proof.
  assert (∀ e s s' r, (_ ← abort_start (Job.ID job) ids; mret (Err e)) s = (s', r : result unit) →
            started (Job.ID job) (sw s) → life s s') as Habort.
  { intros e v v' r' H Hv. run_inv. by eapply abort_start_life. }
  unfold launch. intros H Hs. destruct (String.eqb _ _); [by eapply Habort|].
  unfold mbind at 1, M_bind at 1 in H. open_call H s1 g E1.
  assert (life s s1) as H1 by (s_frames E1; by apply life_frame). etrans; [exact H1|].
  assert (started (Job.ID job) (sw s1)) as Hs1 by (eapply started_evolves; [exact Hs|apply H1]).
  destruct g; [|by run_inv]. unfold mbind at 1, M_bind at 1 in H. open_call H s2 g2 E2.
  apply on_env_life in E2. etrans; [exact E2|].
  assert (started (Job.ID job) (sw s2)) as Hs2 by (eapply started_evolves; [exact Hs1|apply E2]).
  destruct g2; [|by eapply Habort]. unfold mbind at 1, M_bind at 1 in H. open_call H s3 g3 E3.
  apply on_env_life in E3. etrans; [exact E3|].
  assert (started (Job.ID job) (sw s3)) as Hs3 by (eapply started_evolves; [exact Hs2|apply E3]).
  destruct g3; [by eapply record_start_life|by eapply Habort].
Qed.

Lemma executeJob_life job ids s s' r :
  executeJob job ids s = (s', r) → job_phase (Job.ID job) (sw s) = Pending → life s s'.
Proof.
  unfold executeJob. intros H Hp. unfold mbind at 1, M_bind at 1 in H. open_call H s1 a E1.
  s_frames E1. assert (life s s1) as H1 by (by apply life_frame). etrans; [exact H1|].
  assert (job_phase (Job.ID job) (sw s1) = Pending) as Hp1
    by (rewrite <- Hp; unfold job_phase; f_equal; by apply job_status_jobs).
  destruct a; [|by run_inv]. unfold mbind at 1, M_bind at 1 in H. open_call H s2 u E2.
  assert (life s1 s2) as H2.
  { eapply life_UpdateStatus; [exact E2|]. rewrite Hp1. right; right; left. auto. }
  etrans; [exact H2|]. destruct u as [[]|].
  - eapply launch_life; [exact H|]. left. apply on_world_inv in E2 as [E2 _].
    rewrite (job_phase_UpdateStatus _ _ (Job.ID job) _ _ _ E2), Z.eqb_refl. cbn [is_ok andb].
    unfold job_phase in Hp1. by destruct (job_status (Job.ID job) (sw s1)).
  - run_inv. match goal with E : on_world (ReleaseCards _) _ = _ |- _ => s_frames E end.
    by apply life_frame.
Qed.

Lemma Remove_life {A} i (a : A) : respects life (_ ← on_world (Remove i); mret a).
Proof. solve_respects. apply respects_life; solve_keeps. Qed.

Lemma process_head_life : respects life process_head.
Proof.
  intros s s' u H. unfold process_head in H. unfold mbind at 1, M_bind at 1 in H.
  open_call H s1 p E1. s_frames E1. assert (life s s1) as H1 by (by apply life_frame).
  etrans; [exact H1|]. destruct p as [[item|]|]; [|by run_inv..].
  unfold mbind at 1, M_bind at 1 in H. open_call H s2 g E2. s_frames E2.
  etrans; [by apply life_frame|]. destruct g as [o|]; [|by run_inv].
  apply on_world_inv in E2 as [E2 _]. apply GetByID_ok in E2 as (job & -> & Hrow & Hid & _).
  destruct (negb (Job.Status job =? JobStatusQueued) && _) eqn:Hst; [by eapply Remove_life|].
  assert (job_phase (Job.ID job) (sw s2) = Pending) as Hp.
  { unfold job_phase. rewrite (job_status_jobs _ _ _ (ltac:(eassumption) : jobs_of (sw s2) = jobs_of (sw s1))).
    unfold job_status. rewrite Hid, Hrow. cbn.
    apply andb_false_iff in Hst as [Hst%negb_false_iff|Hst%negb_false_iff]; rewrite Hst;
      [done|by rewrite orb_true_r]. }
  destruct (parseGpuIDs (Job.GpuIDs job)) as [|c0 ids0]; [by eapply Remove_life|].
  unfold mbind at 1, M_bind at 1 in H. open_call H s3 c E3. s_frames E3.
  assert (life s2 s3) as H3 by (by apply life_frame). etrans; [exact H3|].
  assert (job_phase (Job.ID job) (sw s3) = Pending) as Hp3
    by (rewrite <- Hp; unfold job_phase; f_equal; by apply job_status_jobs).
  destruct c as [[]|]; [| |by run_inv].
  - unfold mbind at 1, M_bind at 1 in H. open_call H s4 x E4. apply executeJob_life in E4; [|done].
    etrans; [exact E4|]. by eapply Remove_life.
  - destruct (negb (Job.Status job =? JobStatusWaitingGpu)); [|by run_inv].
    eapply life_then; [exact H|rewrite Hp3; by left|solve_respects].
Qed.

Lemma processQueue_life : respects life processQueue.
Proof.
  intros s s' u H. unfold processQueue in H. unfold mbind at 1, M_bind at 1, gets in H.
  destruct (isRunning s); cbn [negb] in H; [|by run_inv].
  unfold mbind at 1, M_bind at 1 in H. open_call H s1 l E1. s_frames E1.
  etrans; [by apply (life_frame s s1)|].
  destruct (negb l.2); [by run_inv|]. unfold mbind at 1, M_bind at 1 in H.
  open_call H s2 x E2. apply process_head_life in E2. etrans; [exact E2|].
  s_frames H. by apply life_frame.
Qed.
End LifeHead.

(** ** The system: interleaved bodies *)

Section System.
Context `{B : Backend}.

(** The calls clients make through the HTTP handlers. *)
Inductive client (w w' : World) : Prop :=
  | client_submit req u r : SubmitJob req u w = (w', r) → client w w'
  | client_cancel j u r : CancelJob j u w = (w', r) → client w w'
  | client_move j b r : MoveBefore j b w = (w', r) → client w w'
  | client_sync out r : SyncGpuCards out w = (w', r) → client w w'.

(** Monitor [k] goes on with a new [failCount], or is gone. *)
Definition set_monitor (k : nat) (jp : JobProcess) (o : option Z) (s : Sched) : Sched :=
  mkSched (sw s) (isRunning s) (ctx_done s) (runningJobs s)
    (match o with
     | Some n => <[k := (jp, n)]> (monitors s)
     | None => delete k (monitors s)
     end).

Inductive step : Sched → Sched → Prop :=
  | step_tick s s' u : ctx_done s = false → processQueue s = (s', u) → step s s'
  | step_audit s s' u : ctx_done s = false → auditRunningJobs s = (s', u) → step s s'
  | step_start s s' u : Start s = (s', u) → step s s'
  | step_stop s s' u : Stop s = (s', u) → step s s'
  | step_monitor s s' k jp n o :
      monitors s !! k = Some (jp, n) → ctx_done s = false →
      monitor_tick jp n s = (s', o) → step s (set_monitor k jp o s')
  | step_monitor_stop s s' k jp n u :
      monitors s !! k = Some (jp, n) → ctx_done s = true →
      monitor_exit jp s = (s', u) → step s (set_monitor k jp None s')
  | step_client s w' : client (sw s) w' → step s (put_sw w' s)
  | step_restart s : step s (NewScheduler (sw s))
  | step_env s x : step s (put_sw (put_env x (sw s)) s).

Definition monitors_started (s : Sched) : Prop :=
  ∀ jp n, (jp, n) ∈ monitors s → started (JobProcess.jobID jp) (sw s).

Context {BL : BackendLaws B}.

Lemma life_started s s' : life s s' → monitors_started s → monitors_started s'.
Proof.
  intros [He Hm] Hs jp n H. destruct (Hm _ _ H) as [[n' H']|?]; [|done].
  eapply started_evolves; [by eapply Hs|done].
Qed.

Lemma evolves_append w w' x : jobs_of w' = jobs_of w ++ [x] → evolves w w'.
Proof.
  intros Hw i. unfold job_phase, job_status, job_row. rewrite Hw.
  assert (∀ l, List.find (λ j, Job.ID j =? i) (l ++ [x]) =
    match List.find (λ j, Job.ID j =? i) l with Some j => Some j
    | None => if Job.ID x =? i then Some x else None end) as ->.
  { induction l as [|y l IH]; cbn; [done|]. by destruct (Job.ID y =? i). }
  destruct (List.find _ (jobs_of w)); [done|]. by right; left.
Qed.

Lemma evolves_status w w' :
  (∀ i, job_status i w' = job_status i w ∨
        phase_le (phase_of (job_status i w)) (phase_of (job_status i w'))) → evolves w w'.
Proof. intros H i. unfold job_phase. destruct (H i) as [->|?]; [by left|done]. Qed.

Lemma cancellable_le st : cancellable st → phase_le (phase_of (Some st)) Cancelled.
Proof. intros [->| ->]; right; right; left; auto. Qed.

Lemma client_evolves w w' : client w w' → evolves w w'.
Proof.
  intros [req u r H|j u r H|j b r H|out r H].
  - apply SubmitJob_post in H as [_ H]. destruct r.
    + destruct H as (_ & _ & (t & H) & _). by eapply evolves_append.
    + destruct H as (_ & [H|(k & t & w1 & e0 & H & _)]); [by apply evolves_jobs|by eapply evolves_append].
  - apply CancelJob_post in H as [_ H]. apply evolves_status. intros i. destruct r.
    + destruct H as (job & Hrow & _ & Hc & _ & Hst). rewrite Hst.
      destruct (Z.eqb_spec i j) as [->|]; [right|by left].
      unfold job_status. rewrite Hrow. by apply cancellable_le.
    + destruct H as [_ H]. destruct (H i) as [?|(_ & -> & st & w1 & e0 & -> & Hc & _)]; [by left|right].
      by apply cancellable_le.
  - apply evolves_status. intros i.
    destruct (MoveBefore_status _ _ i _ _ _ H) as [?|(-> & -> & _)]; [by left|right; by left].
  - apply evolves_jobs. unfold SyncGpuCards in H.
    refine ((_ : keeps jobs_of (SyncGpuCards out)) _ _ _ H).
    unfold SyncGpuCards, SyncCards, FindByUUID, SetIdle, SetBusy, set_cache. solve_keeps.
Qed.

Lemma monitor_tick_life jp n s s' o :
  monitor_tick jp n s = (s', o) → started (JobProcess.jobID jp) (sw s) → life s s'.
Proof.
  unfold monitor_tick. intros H Hs. unfold mbind at 1, M_bind at 1 in H. open_call H s1 r E.
  apply monitor_check_life in E; [|done]. etrans; [exact E|].
  destruct r; [by run_inv|]. unfold mbind, M_bind in H. open_call H s2 u E2.
  apply monitor_exit_life in E2. by run_inv.
Qed.

Lemma set_monitor_life k jp n o s :
  monitors s !! k = Some (jp, n) → life s (set_monitor k jp o s).
Proof.
  intros Hk. split; [done|]. intros jp' n' H. left. cbn in H. destruct o as [m|].
  - apply list_elem_of_lookup in H as [i Hi]. destruct (decide (i = k)) as [->|Hne].
    + rewrite list_lookup_insert_eq in Hi by (by eapply lookup_lt_Some). simplify_eq.
      exists n. by eapply list_elem_of_lookup_2.
    + rewrite list_lookup_insert_ne in Hi by done. exists n'. by eapply list_elem_of_lookup_2.
  - exists n'. rewrite (delete_take_drop (monitors s)) in H.
    apply elem_of_app in H as [H|H]; [by apply subseteq_take in H|by apply subseteq_drop in H].
Qed.

Lemma monitor_monitors jp n :
  keeps monitors (monitor_tick jp n) ∧ keeps monitors (monitor_exit jp).
Proof.
  assert (∀ pid, keeps monitors (modify (untrack pid))) as Hu by (by intros pid s s' u [= <- _]).
  assert (keeps monitors (monitor_exit jp)) as He.
  { unfold monitor_exit. apply keeps_bind; [apply Hu|]. solve_keeps. }
  split; [|done]. unfold monitor_tick. apply keeps_bind.
  - unfold monitor_check. solve_keeps.
  - intros [m|]; [apply keeps_ret|]. apply keeps_bind; [exact He|]. intros. apply keeps_ret.
Qed.

Lemma step_life s s' : step s s' → monitors_started s → life s s' ∨ s' = NewScheduler (sw s).
Proof.
  intros H Hs. destruct H as [s s' u _ H|s s' u _ H|s s' u H|s s' u H|s s' k jp n o Hk _ H
    |s s' k jp n u Hk _ H|s w' H|s|s x]; try (by right); left.
  - by eapply processQueue_life.
  - by eapply auditRunningJobs_life.
  - unfold Start, mbind, M_bind, gets, modify in H. destruct (isRunning s); [by run_inv|].
    etrans; [|by eapply recoverRunningJobs_life]. by apply life_frame.
  - unfold Stop, mbind, M_bind, gets, modify in H.
    destruct (isRunning s); run_inv; by apply life_frame.
  - pose proof (proj1 (monitor_monitors jp n) _ _ _ H) as Hm.
    etrans; [eapply monitor_tick_life; [exact H|]; eapply Hs; by eapply list_elem_of_lookup_2|].
    eapply set_monitor_life. by rewrite Hm.
  - pose proof (proj2 (monitor_monitors jp n) _ _ _ H) as Hm.
    etrans; [by eapply monitor_exit_life|]. eapply set_monitor_life. by rewrite Hm.
  - split; [by apply client_evolves|]. cbn. eauto.
  - by apply life_frame.
Qed.

Lemma steps_evolve s s' :
  rtc step s s' → monitors_started s → evolves (sw s) (sw s') ∧ monitors_started s'.
Proof.
  induction 1 as [s|s s1 s' Hst _ IH]; intros Hs; [done|].
  assert (evolves (sw s) (sw s1) ∧ monitors_started s1) as [He Hs1].
  { destruct (step_life _ _ Hst Hs) as [Hl| ->].
    - split; [apply Hl|by eapply life_started].
    - split; [done|]. by intros jp n H%elem_of_nil. }
  destruct (IH Hs1) as [He' ?]. split; [by etrans|done].
Qed.

End System.

(** ** GPU cards under the scheduler *)

Section Cards.
Context `{B : Backend} {BL : BackendLaws B}.

(** The rows of gpu_cards stay consistent. *)
Definition cards_wf_le (s s' : Sched) : Prop :=
  Forall card_wf (s_gpus s) → Forall card_wf (s_gpus s').
#[local] Instance cards_wf_preorder : PreOrder cards_wf_le.
Proof. split; unfold cards_wf_le; [by intros s|]. intros s1 s2 s3. tauto. Qed.

Lemma respects_wf_keeps {A} (c : M Sched A) : keeps s_gpus c → respects cards_wf_le c.
Proof. intros Hk s s' a H. unfold cards_wf_le. by rewrite (Hk _ _ _ H). Qed.

Lemma respects_wf_acquire ids j : respects cards_wf_le (on_world (AcquireCards ids j)).
Proof.
  intros s s' r [H _]%on_world_inv HF. apply AcquireCards_post in H. unfold s_gpus in *.
  destruct r; [destruct H as (_ & _ & ->)|by rewrite H]. apply assign_wf; [|done].
  right. cbn. eauto.
Qed.
Lemma respects_wf_release ids : respects cards_wf_le (on_world (ReleaseCards ids)).
Proof.
  intros s s' r [H _]%on_world_inv HF. apply ReleaseCards_post in H. unfold s_gpus in *.
  rewrite H. destruct (is_ok r); [|done]. apply assign_wf; [by left|done].
Qed.
Lemma respects_wf_modify f : (∀ s, sw (f s) = sw s) → respects cards_wf_le (modify f).
Proof. intros Hf s s' u [= <- _]. unfold cards_wf_le, s_gpus. by rewrite Hf. Qed.

Hint Resolve respects_wf_acquire respects_wf_release : respects.
Hint Extern 2 (respects cards_wf_le (modify _)) => (by apply respects_wf_modify) : respects.
Hint Extern 3 (respects cards_wf_le _) => (apply respects_wf_keeps; solve [solve_keeps]) : respects.

Lemma abort_start_wf i ids : respects cards_wf_le (abort_start i ids).
Proof. unfold abort_start. solve_respects. Qed.
Lemma record_start_wf jp : respects cards_wf_le (record_start jp).
Proof. unfold record_start. solve_respects. Qed.
Lemma handleMissingProcess_wf job p : respects cards_wf_le (handleMissingProcess job p).
Proof. unfold handleMissingProcess. solve_respects. Qed.
Hint Resolve abort_start_wf record_start_wf handleMissingProcess_wf : respects.

Lemma process_head_wf : respects cards_wf_le process_head.
Proof. unfold process_head, executeJob, launch. solve_respects. Qed.
Lemma processQueue_wf : respects cards_wf_le processQueue.
Proof. pose proof process_head_wf. unfold processQueue. solve_respects. Qed.
Lemma recover_wf : respects cards_wf_le recoverRunningJobs.
Proof. unfold recoverRunningJobs, recover_job, recover_process. solve_respects. Qed.
Lemma audit_wf : respects cards_wf_le auditRunningJobs.
Proof. unfold auditRunningJobs, audit_job, audit_process. solve_respects. Qed.
Lemma monitor_exit_wf jp : respects cards_wf_le (monitor_exit jp).
Proof. unfold monitor_exit. solve_respects. Qed.
Lemma monitor_tick_wf jp n : respects cards_wf_le (monitor_tick jp n).
Proof. pose proof (monitor_exit_wf jp). unfold monitor_tick, monitor_check. solve_respects. Qed.

Lemma client_wf w w' : client w w' → Forall card_wf (gpus_of w) → Forall card_wf (gpus_of w').
Proof.
  intros [req u r H|j u r H|j b r H|out r H] HF.
  - apply SubmitJob_post in H as [H _]. by rewrite H.
  - apply CancelJob_post in H as [H _]. by rewrite H.
  - by rewrite (MoveBefore_gpus _ _ _ _ _ H).
  - by eapply SyncGpuCards_wf.
Qed.

(** in every execution of the system the rows of gpu_cards stay
    consistent: a card is busy exactly when a job is recorded on it. *)
Theorem system_cards_consistent s s' :
  rtc step s s' → Forall card_wf (s_gpus s) → Forall card_wf (s_gpus s').
Proof.
  induction 1 as [s|s s1 s' Hst _ IH]; [done|]. intros HF. apply IH. clear IH.
  destruct Hst as [s s1 u _ H|s s1 u _ H|s s1 u H|s s1 u H|s s1 k jp n o _ _ H
    |s s1 k jp n u _ _ H|s w' H|s|s x].
  - by eapply processQueue_wf.
  - by eapply audit_wf.
  - unfold Start, mbind, M_bind, gets, modify in H. destruct (isRunning s); [by run_inv|].
    by eapply recover_wf.
  - unfold Stop, mbind, M_bind, gets, modify in H. by destruct (isRunning s); run_inv.
  - exact (monitor_tick_wf _ _ _ _ _ H HF).
  - exact (monitor_exit_wf _ _ _ _ H HF).
  - exact (client_wf _ _ H HF).
  - done.
  - done.
Qed.

(** ** Starting a job *)

(** What a start may do to the cards: nothing, or assign idle ones to the
    job, or leave those idle ones idle. *)
Definition cards_after (i : Z) (ids : list Z) (g g' : list GpuCard) : Prop :=
  g' = g ∨ all_idle ids g ∧
    (g' = assign ids GpuStatusBusy (Some i) g ∨ g' = assign ids GpuStatusIdle None g).

Lemma abort_start_gpus i ids s s' u :
  abort_start i ids s = (s', u) →
  s_gpus s' = s_gpus s ∨ s_gpus s' = assign ids GpuStatusIdle None (s_gpus s).
Proof.
  unfold abort_start, mbind, M_bind. intros H. open_call H s1 r1 E1.
  apply on_world_inv in E1 as [E1 _]. apply ReleaseCards_post in E1.
  open_call H s2 r2 E2. s_frames E2. open_call H s3 r3 E3. s_frames E3. run_inv.
  unfold s_gpus in *. destruct (is_ok r1); [right|left]; congruence.
Qed.

Lemma record_start_keeps jp : keeps s_gpus (record_start jp).
Proof.
  unfold record_start. apply keeps_bind; [by intros s s' u [= <- _]|]. intros _.
  apply keeps_bind; [solve_keeps|]. intros [e|]; [apply keeps_ret|].
  apply keeps_bind; [solve_keeps|]. intros [u|e]; [|apply keeps_ret].
  apply keeps_bind; [by intros s s' v [= <- _]|]. intros. apply keeps_ret.
Qed.

Lemma launch_gpus job ids s s' r :
  launch job ids s = (s', r) →
  s_gpus s' = s_gpus s ∨ is_ok r = false ∧ s_gpus s' = assign ids GpuStatusIdle None (s_gpus s).
Proof.
  assert (∀ e v v' (r' : result unit), (_ ← abort_start (Job.ID job) ids; mret (Err e)) v = (v', r') →
    s_gpus v' = s_gpus v ∨
    is_ok r' = false ∧ s_gpus v' = assign ids GpuStatusIdle None (s_gpus v)) as Habort.
  { intros e v v' r' H. unfold mbind, M_bind in H. open_call H v1 u E.
    apply abort_start_gpus in E. run_inv. naive_solver. }
  unfold launch. intros H. destruct (String.eqb _ _); [by eapply Habort|].
  unfold mbind at 1, M_bind at 1 in H. open_call H s1 g E1. s_frames E1.
  destruct g; [|run_inv; by left]. unfold mbind at 1, M_bind at 1 in H. open_call H s2 g2 E2. s_frames E2.
  assert (s_gpus s2 = s_gpus s) as <- by congruence.
  destruct g2; [|by eapply Habort]. unfold mbind at 1, M_bind at 1 in H. open_call H s3 g3 E3.
  s_frames E3. assert (s_gpus s3 = s_gpus s2) as <- by congruence.
  destruct g3; [|by eapply Habort]. left. by eapply record_start_keeps.
Qed.

Lemma executeJob_gpus job ids s s' r :
  executeJob job ids s = (s', r) →
  cards_after (Job.ID job) ids (s_gpus s) (s_gpus s') ∧
  (is_ok r = true → ids ≠ [] ∧ all_idle ids (s_gpus s) ∧
     s_gpus s' = assign ids GpuStatusBusy (Some (Job.ID job)) (s_gpus s)).
Proof.
  unfold executeJob, cards_after. intros H. unfold mbind at 1, M_bind at 1 in H.
  open_call H s1 a E1. apply on_world_inv in E1 as [E1 _]. apply AcquireCards_post in E1.
  destruct a; [|unfold s_gpus; run_inv; split; [by left|done]].
  destruct E1 as (Hne & Hi & Hg). unfold mbind at 1, M_bind at 1 in H. open_call H s2 u E2.
  s_frames E2. assert (s_gpus s2 = assign ids GpuStatusBusy (Some (Job.ID job)) (s_gpus s)) as Hg2
    by (unfold s_gpus in *; congruence).
  destruct u as [[]|].
  - apply launch_gpus in H as [H|[-> H]]; rewrite Hg2 in H.
    + split; [|done]. right. split; [done|by left].
    + split; [|done]. right. split; [done|right]. by rewrite H, assign_assign.
  - unfold mbind, M_bind in H. open_call H s3 x E3. apply on_world_inv in E3 as [E3 _].
    apply ReleaseCards_post in E3. run_inv. split; [right; split; [done|]|done].
    unfold s_gpus in *. destruct (is_ok x); [right|left]; rewrite E3, Hg2; [|done].
    by rewrite assign_assign.
Qed.
End Cards.

Section Start.
Context `{B : Backend} {BL : BackendLaws B}.

(** Only the status of job [i] may change. *)
Definition others_same (i : Z) (s s' : Sched) : Prop :=
  ∀ k, k ≠ i → job_status k (sw s') = job_status k (sw s).
#[local] Instance others_preorder i : PreOrder (others_same i).
Proof. split; [by intros s k|]. intros s1 s2 s3 H1 H2 k Hk. rewrite H2, H1; done. Qed.

Lemma others_keeps {A} i (c : M Sched A) : keeps s_jobs c → respects (others_same i) c.
Proof. intros Hk s s' a H k _. apply job_status_jobs. by apply (Hk _ _ _ H). Qed.
Lemma others_update i st : respects (others_same i) (on_world (UpdateStatus i st)).
Proof.
  intros s s' r [H _]%on_world_inv k Hk. rewrite (UpdateStatus_status _ _ k _ _ _ H).
  by rewrite (proj2 (Z.eqb_neq k i)), andb_false_r.
Qed.
Lemma others_modify i f : (∀ s, sw (f s) = sw s) → respects (others_same i) (modify f).
Proof. intros Hf s s' u [= <- _] k _. by rewrite Hf. Qed.
Hint Resolve others_update : respects.
Hint Extern 2 (respects (others_same _) (modify _)) => (by apply others_modify) : respects.
Hint Extern 3 (respects (others_same _) _) => (apply others_keeps; solve [solve_keeps]) : respects.

Lemma executeJob_others job ids : respects (others_same (Job.ID job)) (executeJob job ids).
Proof. unfold executeJob, launch, record_start, abort_start. solve_respects. Qed.

(** ** The records of a successful start *)

(** What a process row records. *)
Definition proc_key (p : Process) : Z * Z * Z * option Z :=
  (Process.PID p, Process.CardID p, Process.JobID p, Process.EndedAt p).

Lemma proc_Create_ok p w w' k :
  Process.ID p = 0 → proc_Create p w = (w', Ok k) →
  ∃ t, procs_of w' = procs_of w ++ [Process.set_created t (Process.set_id k p)].
Proof.
  unfold proc_Create. intros Hp H. w_inv.
  match goal with H : tbl_create _ _ = _ |- _ => apply tbl_create_ok in H as (_ & t & HC); [|done] end.
  by exists t.
Qed.

Lemma proc_loop_ok pid jid ids s s' :
  for_ret ids (λ cardID,
    c ← on_world (proc_Create (new_process pid jid cardID));
    match c with Err e => mret (Some e) | Ok _ => mret None end) s = (s', None) →
  s_jobs s' = s_jobs s ∧ monitors s' = monitors s ∧ runningJobs s' = runningJobs s ∧
  ∃ rows, s_procs s' = s_procs s ++ rows ∧ proc_key <$> rows = (λ c, (pid, c, jid, None)) <$> ids.
Proof.
  revert s. induction ids as [|c ids IH]; intros s H; cbn in H.
  { run_inv. split_and!; [done..|]. exists []. by rewrite app_nil_r. }
  unfold mbind, M_bind in H. open_call H s1 o E. open_call E s2 r E2. s_frames E2.
  destruct r as [k|]; run_inv.
  apply IH in H as (Hj & Hm & Hr & rows & Hp & Hk).
  apply on_world_inv in E2 as [E2 _]. apply proc_Create_ok in E2 as [t Ht]; [|done].
  split_and!; [congruence..|]. eexists (_ :: rows). unfold s_procs in *.
  rewrite Hp, Ht, <- app_assoc. split; [done|]. cbn. by rewrite Hk.
Qed.

Lemma record_start_ok jp s s' :
  record_start jp s = (s', Ok tt) →
  s_jobs s' = s_jobs s ∧ monitors s' = monitors s ++ [(jp, 0)] ∧
  runningJobs s' = <[JobProcess.pid jp := jp]> (runningJobs s) ∧
  ∃ rows, s_procs s' = s_procs s ++ rows ∧
    proc_key <$> rows = (λ c, (JobProcess.pid jp, c, JobProcess.jobID jp, None)) <$> JobProcess.cardIDs jp.
Proof.
  unfold record_start. intros H. unfold mbind at 1, M_bind at 1, modify at 1 in H.
  unfold mbind at 1, M_bind at 1 in H. open_call H s1 o E1. destruct o; [by run_inv|].
  apply proc_loop_ok in E1 as (Hj & Hm & Hr & rows & Hp & Hk). cbn in Hm, Hr.
  unfold mbind, M_bind in H. open_call H s2 c E2. s_frames E2. destruct c; run_inv.
  split_and!; [|cbn; congruence|cbn; congruence|].
  - change (s_jobs s2 = s_jobs s). by rewrite K.
  - exists rows. split; [|done]. change (s_procs s2 = s_procs s ++ rows). by rewrite K1.
Qed.

Lemma launch_ok job ids s s' :
  launch job ids s = (s', Ok tt) →
  ∃ pid s1, s_jobs s1 = s_jobs s ∧ s_procs s1 = s_procs s ∧ monitors s1 = monitors s ∧
    runningJobs s1 = runningJobs s ∧
    record_start (JobProcess.mkJobProcess pid (Job.ID job) (Job.UserId job) (Job.Name job) ids) s1
      = (s', Ok tt).
Proof.
  assert (∀ e v v', (_ ← abort_start (Job.ID job) ids; mret (Err e)) v ≠ (v', @Ok unit tt)) as Habort.
  { intros e v v' H. by run_inv. }
  unfold launch. intros H. destruct (String.eqb _ _); [by apply Habort in H|].
  unfold mbind at 1, M_bind at 1 in H. open_call H s1 g E1. s_frames E1.
  destruct g; [|by run_inv]. unfold mbind at 1, M_bind at 1 in H. open_call H s2 g2 E2. s_frames E2.
  destruct g2; [|by apply Habort in H]. unfold mbind at 1, M_bind at 1 in H. open_call H s3 g3 E3.
  s_frames E3. destruct g3 as [pid|]; [|by apply Habort in H].
  exists pid, s3. split_and!; [congruence..|exact H].
Qed.

(** C6: a job that starts gets all its cards, which were idle and distinct,
    and no others; its status is running; one open process row per card is
    added under the pid the remote host returned; the process is tracked and
    has exactly one new monitor, which will free those cards. *)
Theorem executeJob_ok job ids s s' :
  executeJob job ids s = (s', Ok tt) → is_Some (job_status (Job.ID job) (sw s)) →
  ids ≠ [] ∧ all_idle ids (s_gpus s) ∧
  s_gpus s' = assign ids GpuStatusBusy (Some (Job.ID job)) (s_gpus s) ∧
  job_status (Job.ID job) (sw s') = Some JobStatusRunning ∧
  ∃ pid rows,
    let jp := JobProcess.mkJobProcess pid (Job.ID job) (Job.UserId job) (Job.Name job) ids in
    monitors s' = monitors s ++ [(jp, 0)] ∧ runningJobs s' = <[pid := jp]> (runningJobs s) ∧
    s_procs s' = s_procs s ++ rows ∧
    proc_key <$> rows = (λ c, (pid, c, Job.ID job, None)) <$> ids.
Proof.
  intros H [st Hst]. pose proof (proj2 (executeJob_gpus _ _ _ _ _ H) eq_refl) as (? & ? & ?).
  do 3 (split; [done|]). unfold executeJob in H. unfold mbind at 1, M_bind at 1 in H.
  open_call H s1 a E1. s_frames E1. destruct a; [|by run_inv].
  unfold mbind at 1, M_bind at 1 in H. open_call H s2 u E2. s_frames E2.
  destruct u as [[]|]; [|by run_inv].
  apply launch_ok in H as (pid & s3 & Hj & Hp & Hm & Hr & H).
  apply record_start_ok in H as (Hj' & Hm' & Hr' & rows & Hp' & Hk). cbn in *. split.
  - apply on_world_inv in E2 as [E2 _]. apply (UpdateStatus_status _ _ (Job.ID job)) in E2.
    rewrite Z.eqb_refl in E2. cbn [is_ok andb] in E2.
    rewrite (job_status_jobs _ (sw s2) (sw s')) by (unfold s_jobs in *; congruence).
    rewrite E2, (job_status_jobs _ (sw s) (sw s1)), Hst by done. done.
  - exists pid, rows. split_and!; congruence.
Qed.
End Start.

(** ** Card lists *)

(** the card list a submission stores is the one the scheduler reads back:
    printing ids with commas and parsing them is the identity on ids that fit
    an int. *)
Theorem parseGpuIDs_roundtrip req u :
  Forall (λ i, in_int64 i = true) (SubmitJobRequest.GpuIDs req) →
  parseGpuIDs (Job.GpuIDs (new_job req u)) = SubmitJobRequest.GpuIDs req.
Proof.
  cbn. set (ids := SubmitJobRequest.GpuIDs req). clearbody ids. intros HF. unfold parseGpuIDs.
  destruct (decide (ids = [])) as [->|Hne]; [done|].
  destruct (String.eqb_spec (Join "," (Itoa <$> ids)) "") as [He|_];
    [by apply Join_Itoa_nonempty in He|].
  rewrite Split_Join_Itoa by done. clear Hne.
  induction HF as [|i l Hi HF IH]; cbn; [done|].
  by rewrite TrimSpace_num, Atoi_Itoa, IH by (done || apply Itoa_chars).
Qed.
