(* ===== verification/SchedulerSpec.v ===== *)
(** * What the scheduler guarantees

    Theorems about one round of the queue, about monitors and about the card
    lists of jobs, with concrete executions: those where the hypotheses of the
    theorems hold, and those where the scheduler does not do what its comments
    say. *)

From S2P Require Import Prelude GoStrings Float64 Errors Entity External MemBackend Gpu JobRepo.
From S2P Require Import Queue JobService Scheduler.

Open Scope Z_scope.

Section Round.
Context `{B : Backend} {BL : BackendLaws B}.

(** The job served next: its id is the least member of the queue. *)
Definition head_of (z : gmap string float64) (i : Z) : Prop :=
  ∃ m x, z !! m = Some x ∧ Atoi m = Ok i ∧ ∀ k y, z !! k = Some y → zle (m, x) (k, y).

Lemma process_head_post s s' u :
  process_head s = (s', u) →
  s_gpus s' = s_gpus s ∧ s_jobs s' = s_jobs s ∨
  ∃ i ids, head_of (s_queue s) i ∧ job_phase i (sw s) = Pending ∧
    cards_after i ids (s_gpus s) (s_gpus s') ∧ others_same i s s'.
Proof.
  intros H. unfold process_head in H. unfold mbind at 1, M_bind at 1 in H.
  open_call H s1 p E1. s_frames E1.
  destruct p as [[item|]|]; [|left; run_inv; split; congruence..].
  apply on_world_inv in E1 as [E1 _]. apply Peek_post in E1 as (_ & _ & m & x & Hm & Ha & _ & Hmin).
  unfold mbind at 1, M_bind at 1 in H. open_call H s2 g E2. s_frames E2.
  assert (∀ i, (_ ← on_world (Remove i); mret tt) s2 = (s', u) →
               s_gpus s' = s_gpus s ∧ s_jobs s' = s_jobs s) as Hrem.
  { intros i Hr. unfold mbind, M_bind in Hr. open_call Hr s3 v E3. s_frames E3.
    assert (s' = s3) as -> by (by run_inv). split; congruence. }
  destruct g as [o|]; [|left; run_inv; split; congruence].
  apply on_world_inv in E2 as [E2 _]. apply GetByID_ok in E2 as (job & -> & Hrow & Hid & _).
  destruct (negb (Job.Status job =? JobStatusQueued) && _) eqn:Hst; [left; by eapply Hrem|].
  assert (job_phase (Job.ID job) (sw s) = Pending) as Hp.
  { unfold job_phase. rewrite (job_status_jobs _ (sw s1) (sw s)) by (unfold s_jobs in *; congruence).
    unfold job_status. rewrite Hid, Hrow. cbn.
    apply andb_false_iff in Hst as [Hst%negb_false_iff|Hst%negb_false_iff]; rewrite Hst;
      [done|by rewrite orb_true_r]. }
  destruct (parseGpuIDs (Job.GpuIDs job)) as [|c0 ids0]; [left; by eapply Hrem|].
  unfold mbind at 1, M_bind at 1 in H. open_call H s3 c E3. s_frames E3.
  assert (s_gpus s3 = s_gpus s) as Hg3 by congruence.
  assert (others_same (Job.ID job) s s3) as Ho3
    by (intros k _; apply job_status_jobs; unfold s_jobs in *; congruence).
  assert (head_of (s_queue s) (Job.ID job)) as Hh by (exists m, x; rewrite Hid; done).
  destruct c as [[]|]; [| |left; run_inv; split; congruence].
  - right. exists (Job.ID job), (c0 :: ids0). split; [done|]. split; [done|].
    unfold mbind, M_bind in H. open_call H s4 v E4. open_call H s5 v5 E5. s_frames E5.
    assert (s' = s5) as -> by (by run_inv).
    pose proof (executeJob_others _ _ _ _ _ E4) as Ho4. apply executeJob_gpus in E4 as [E4 _].
    split; [assert (s_gpus s5 = s_gpus s4) as -> by assumption; by rewrite <- Hg3|]. intros k Hk.
    rewrite (job_status_jobs _ (sw s4)), Ho4, Ho3 by done. done.
  - destruct (negb (Job.Status job =? JobStatusWaitingGpu)); [|left; run_inv; split; congruence].
    right. exists (Job.ID job), []. split; [done|]. split; [done|].
    unfold mbind, M_bind in H. open_call H s4 v E4. s_frames E4.
    assert (s' = s4) as -> by (by run_inv). split; [left; congruence|]. intros k Hk.
    rewrite (others_update _ _ _ _ _ E4 k Hk). by apply Ho3.
Qed.
End Round.

Section Spec.
Context `{B : Backend} {BL : BackendLaws B}.

Lemma card_unique (w : World) c c' :
  c ∈ gpus_of w → c' ∈ gpus_of w → GpuCard.ID c = GpuCard.ID c' → c = c'.
Proof.
  intros Hc Hc' Hid. pose proof (find_unique GpuCard.ID _ _ (gpu_pk w) Hc) as H1.
  pose proof (find_unique GpuCard.ID _ _ (gpu_pk w) Hc') as H2. rewrite Hid in H1. congruence.
Qed.

Lemma assign_elem ids st o rows c :
  c ∈ assign ids st o rows →
  c ∈ rows ∨ GpuCard.Status c = st ∧ GpuCard.CurrentJobID c = o.
Proof.
  intros (c0 & -> & Hin)%list_elem_of_fmap. destruct (id_in ids (GpuCard.ID c0)); [by right|by left].
Qed.

Lemma assign_keeps_elem ids st o rows c :
  c ∈ rows → GpuCard.ID c ∉ ids → c ∈ assign ids st o rows.
Proof.
  intros Hc Hn. apply list_elem_of_fmap. exists c. split; [|done].
  destruct (id_in ids (GpuCard.ID c)) eqn:E; [|done]. by apply id_in_spec in E.
Qed.

(** Busy cards are not among the idle ones a start takes. *)
Lemma cards_after_busy i ids (w w' : World) c :
  cards_after i ids (gpus_of w) (gpus_of w') →
  c ∈ gpus_of w → GpuCard.Status c ≠ GpuStatusIdle → c ∈ gpus_of w'.
Proof.
  intros [->|[[_ Hi] Hg]] Hc Hst; [done|].
  assert (GpuCard.ID c ∉ ids) as Hn.
  { intros Hin. destruct (Hi _ Hin) as (c' & Hc' & Hid & Hidle).
    apply Hst. by rewrite (card_unique w c c'). }
  destruct Hg as [->| ->]; by apply assign_keeps_elem.
Qed.

Lemma lock_keeps ttl : keeps (λ s, redis_of (sw s)) (acquireQueueLock ttl).
Proof.
  unfold acquireQueueLock. repeat (apply keeps_bind; [apply keeps_on_world; solve_keeps|intros]).
  case_match; apply keeps_ret.
Qed.

(** C7: one round of the queue serves the head only.  Every busy card stays
    with its job; a card that becomes busy is given to the job at the head of
    the queue; only that job, and only while it waits, changes its status. *)
Theorem processQueue_head_only s s' u :
  processQueue s = (s', u) →
  (∀ c, c ∈ s_gpus s → GpuCard.Status c ≠ GpuStatusIdle → c ∈ s_gpus s') ∧
  (∀ c, c ∈ s_gpus s' → c ∈ s_gpus s ∨ GpuCard.Status c = GpuStatusIdle ∨
     ∃ i, GpuCard.CurrentJobID c = Some i ∧ head_of (s_queue s) i) ∧
  (∀ k, job_status k (sw s') ≠ job_status k (sw s) →
     head_of (s_queue s) k ∧ job_phase k (sw s) = Pending).
Proof.
  intros H.
  assert (s_gpus s' = s_gpus s ∧ s_jobs s' = s_jobs s ∨
    ∃ i ids, head_of (s_queue s) i ∧ job_phase i (sw s) = Pending ∧
      cards_after i ids (s_gpus s) (s_gpus s') ∧ others_same i s s') as Hcase.
  { unfold processQueue in H. unfold mbind at 1, M_bind at 1, gets in H.
    destruct (isRunning s); cbn [negb] in H; [|left; by run_inv].
    unfold mbind at 1, M_bind at 1 in H. open_call H s1 l E1. s_frames E1.
    apply lock_keeps in E1 as Hr1.
    destruct (negb l.2); [left; by run_inv|]. unfold mbind at 1, M_bind at 1 in H.
    open_call H s2 x E2. s_frames H.
    assert (∀ k, job_status k (sw s1) = job_status k (sw s)) as Hj1
      by (intros k; by apply job_status_jobs).
    assert (∀ k, job_status k (sw s') = job_status k (sw s2)) as Hj2
      by (intros k; by apply job_status_jobs).
    apply process_head_post in E2 as [[Hg Hj]|(i & ids & Hh & Hp & Hc & Ho)];
      [left; split; congruence|right].
    exists i, ids. unfold s_queue, queue_of, job_phase in *. rewrite <- Hr1, <- Hj1.
    do 2 (split; [done|]). split; [congruence|]. intros k Hk. rewrite Hj2, Ho, Hj1; done. }
  destruct Hcase as [[Hg Hj]|(i & ids & Hh & Hp & Hc & Ho)].
  - rewrite Hg. split_and!; [done|by left|]. intros k Hk. destruct Hk. by apply job_status_jobs.
  - split_and!.
    + intros c. by eapply cards_after_busy.
    + intros c Hin. destruct Hc as [Hg|[_ [Hg|Hg]]]; rewrite Hg in Hin; [by left|..];
        apply assign_elem in Hin as [?|[? ?]]; eauto.
    + intros k Hk. destruct (decide (k = i)) as [->|Hne]; [done|]. destruct Hk. by apply Ho.
Qed.
End Spec.

(** ** Monitors *)

Section Monitors.
Context `{B : Backend} {BL : BackendLaws B}.

Definition is_outcome (st : Z) : Prop := st = JobStatusCompleted ∨ st = JobStatusFailed.

(** The outcome is stored, or the update failed. *)
Lemma outcome_update i st s s' r k :
  on_world (UpdateStatus i st) s = (s', r) → is_outcome st →
  job_status k (sw s') = job_status k (sw s) ∨
  k = i ∧ ∃ st', job_status k (sw s') = Some st' ∧ is_outcome st'.
Proof.
  intros [H _]%on_world_inv Hst. rewrite (UpdateStatus_status _ _ k _ _ _ H).
  destruct (is_ok r); [|by left]. destruct (Z.eqb_spec k i) as [->|]; [|by left]. cbn [andb].
  destruct (job_status i (sw s)); [|by left]. right. split; [done|]. by exists st.
Qed.

Hint Extern 1 (keeps _ (monitor_check _ _)) => (unfold monitor_check; solve [solve_keeps]) : keeps.

Lemma monitor_check_post jp n s s' o :
  monitor_check jp n s = (s', o) →
  s_gpus s' = s_gpus s ∧ s_procs s' = s_procs s ∧ runningJobs s' = runningJobs s ∧
  match o with
  | Some n' => s_jobs s' = s_jobs s ∧ (n' = 0 ∨ n' = n + 1 ∧ n' < 10)
  | None => ∀ k, job_status k (sw s') = job_status k (sw s) ∨
      k = JobProcess.jobID jp ∧ ∃ st, job_status k (sw s') = Some st ∧ is_outcome st
  end.
Proof.
  intros H. frame_fact (s_gpus (B := B)) H. frame_fact (s_procs (B := B)) H.
  frame_fact (runningJobs (B := B)) H.
  do 3 (split; [done|]). unfold monitor_check in H. unfold mbind at 1, M_bind at 1 in H.
  open_call H s1 r E1. s_frames E1.
  assert (∀ k, job_status k (sw s1) = job_status k (sw s)) as J1 by (intros; by apply job_status_jobs).
  destruct r as [[]|e].
  - run_inv. split; [congruence|by left].
  - unfold mbind, M_bind in H. open_call H s2 a E2. s_frames E2. open_call H s3 e E3. s_frames E3.
    open_call H s4 x E4. injection H as <- <-. intros k. rewrite <- (J1 k).
    assert (job_status k (sw s3) = job_status k (sw s1)) as <-
      by (apply job_status_jobs; unfold s_jobs in *; congruence).
    eapply outcome_update; [exact E4|]. unfold is_outcome. repeat case_match; auto.
  - destruct (Z.leb_spec 10 (n + 1)).
    + unfold mbind, M_bind in H. open_call H s2 x E2. run_inv. intros k. rewrite <- (J1 k).
      eapply outcome_update; [exact E2|]. by right.
    + run_inv. split; [congruence|right; lia].
Qed.

Lemma monitor_exit_post jp s s' u :
  monitor_exit jp s = (s', u) →
  s_jobs s' = s_jobs s ∧ runningJobs s' = delete (JobProcess.pid jp) (runningJobs s) ∧
  (s_gpus s' = assign (JobProcess.cardIDs jp) GpuStatusIdle None (s_gpus s) ∨ s_gpus s' = s_gpus s).
Proof.
  unfold monitor_exit, mbind, M_bind, modify. intros H. open_call H s1 r1 E1. s_frames E1.
  open_call H s2 r2 E2. s_frames E2. open_call H s3 f E3. s_frames E3.
  open_call H s4 r4 E4. assert (s_jobs s4 = s_jobs s3 ∧ s_gpus s4 = s_gpus s3 ∧
    runningJobs s4 = runningJobs s3) as (J4 & G4 & R4)
    by (destruct f; [s_frames E4; done|by run_inv]).
  open_call H s5 r5 E5. s_frames E5. injection H as <- _.
  match goal with E : on_world (ReleaseCards _) _ = _ |- _ => apply on_world_inv in E as [E6 _] end.
  apply ReleaseCards_post in E6. fold (s_gpus s5) (s_gpus s4) in E6.
  assert (s_gpus s4 = s_gpus s) as Hg by (unfold s_gpus in *; cbn in *; congruence).
  rewrite Hg in E6. split_and!.
  - unfold s_jobs in *. cbn in *. congruence.
  - cbn in *. congruence.
  - destruct (is_ok r5); auto.
Qed.

(** a monitor tick that goes on changes no job, card, process row or
    tracking entry and its failure count is 0 or one more, below 10.  A tick
    that ends forgets the process, gives back exactly the cards of the job
    (unless the update of the table fails), and touches no status but that of
    the job, which becomes completed or failed (unless its update fails). *)
Theorem monitor_tick_spec jp n s s' o :
  monitor_tick jp n s = (s', o) →
  match o with
  | Some n' => s_jobs s' = s_jobs s ∧ s_gpus s' = s_gpus s ∧ s_procs s' = s_procs s ∧
      runningJobs s' = runningJobs s ∧ (n' = 0 ∨ n' = n + 1 ∧ n' < 10)
  | None => runningJobs s' = delete (JobProcess.pid jp) (runningJobs s) ∧
      (s_gpus s' = assign (JobProcess.cardIDs jp) GpuStatusIdle None (s_gpus s) ∨
       s_gpus s' = s_gpus s) ∧
      ∀ k, job_status k (sw s') = job_status k (sw s) ∨
        k = JobProcess.jobID jp ∧ ∃ st, job_status k (sw s') = Some st ∧ is_outcome st
  end.
Proof.
  unfold monitor_tick, mbind, M_bind. intros H. open_call H s1 r E.
  apply monitor_check_post in E as (Hg & Hp & Hr & Hc). destruct r as [n'|].
  - run_inv. tauto.
  - open_call H s2 u E2. apply monitor_exit_post in E2 as (Hj2 & Hr2 & Hg2). run_inv.
    rewrite Hg, Hr in *. split_and!; [done|done|]. intros k.
    rewrite (job_status_jobs k (sw s1)) by done. apply Hc.
Qed.

(** [k] ticks of a monitor. *)
Fixpoint monitor_run (k : nat) (jp : JobProcess) (n : Z) : M Sched (option Z) :=
  match k with
  | O => mret (Some n)
  | S k' =>
      r ← monitor_tick jp n;
      match r with
      | Some n' => monitor_run k' jp n'
      | None => mret None
      end
  end.

Lemma monitor_tick_blind jp n s :
  (∀ pid e, is_ok (snd (env_PidExists (S := TE) pid e)) = false) →
  snd (monitor_tick jp n s) = if 10 <=? n + 1 then None else Some (n + 1).
Proof.
  intros Hblind. destruct (monitor_tick jp n s) as [s' o] eqn:H. cbn.
  unfold monitor_tick, monitor_check in H. unfold mbind, M_bind in H.
  open_call H s1 r1 E1. open_call E1 s2 r2 E2.
  assert (is_ok r2 = false) as Hr.
  { apply on_world_inv in E2 as [E2 _]. unfold on_env, lift in E2.
    specialize (Hblind (wrap32 (JobProcess.pid jp)) (w_env (sw s))).
    destruct (env_PidExists _ _) as [e x]. cbn in Hblind. by injection E2 as _ <-. }
  destruct r2; [done|]. destruct (10 <=? n + 1).
  - open_call E1 s3 x E3. injection E1 as <- <-. open_call H s4 y E4. by injection H as _ <-.
  - injection E1 as <- <-. by injection H as _ <-.
Qed.

Lemma monitor_run_blind jp k n s :
  (∀ pid e, is_ok (snd (env_PidExists (S := TE) pid e)) = false) →
  n + Z.of_nat k ≤ 9 → snd (monitor_run k jp n s) = Some (n + Z.of_nat k).
Proof.
  intros Hb. revert n s. induction k as [|k IH]; intros n s Hk; cbn; [f_equal; lia|].
  unfold mbind, M_bind. pose proof (monitor_tick_blind jp n s Hb) as Ht.
  destruct (monitor_tick jp n s) as [s1 o]. cbn in Ht. subst o.
  rewrite (proj2 (Z.leb_gt 10 (n + 1))) by lia. rewrite IH by lia. f_equal. lia.
Qed.

(** C40: a monitor that cannot read the process table any more keeps the job
    for nine ticks and ends at the tenth. *)
Theorem monitor_gives_up_at_ten jp s :
  (∀ pid e, is_ok (snd (env_PidExists (S := TE) pid e)) = false) →
  (∀ k, (k ≤ 9)%nat → snd (monitor_run k jp 0 s) = Some (Z.of_nat k)) ∧
  snd (monitor_run 10 jp 0 s) = None.
Proof.
  intros Hb. split; [intros k Hk; rewrite monitor_run_blind by (done || lia); done|].
  assert (∀ k n v, monitor_run (S k) jp n v =
    (let '(v', r) := monitor_run k jp n v in
     match r with Some n' => monitor_tick jp n' v' | None => (v', None) end)) as Hsnoc.
  { induction k as [|k IH]; intros n v.
    - cbn. unfold mbind, M_bind. destruct (monitor_tick jp n v) as [v' [m|]]; done.
    - change (monitor_run (S (S k)) jp n v) with
        (let '(v', r) := monitor_tick jp n v in
         match r with Some n' => monitor_run (S k) jp n' | None => mret None end v').
      change (monitor_run (S k) jp n v) with
        (let '(v', r) := monitor_tick jp n v in
         match r with Some n' => monitor_run k jp n' | None => mret None end v').
      destruct (monitor_tick jp n v) as [v' [m|]]; [apply IH|done]. }
  pose proof (monitor_run_blind jp 9 0 s Hb ltac:(done)) as H9.
  rewrite Hsnoc. destruct (monitor_run 9 jp 0 s) as [v' r]. cbn in H9. subst r.
  rewrite monitor_tick_blind by done. done.
Qed.
End Monitors.

(** ** Concrete executions *)

Definition sched_job (i st : Z) (gpus : string) : Job :=
  Job.mkJob i "job" "" 1 "/home/u/run.py" "base" gpus st (Some 0) None None 0.
Definition queue_view (ids : list Z) : rview :=
  mkRview {[QueueKey := list_to_map ((λ i, (Itoa i, enqueue_score JobPriorityLow i)) <$> ids)]}
    ∅ {[SeqKey := 100]}.

(** Job 4 waits for the idle cards 1 and 2. *)
Definition waiting_world : World :=
  mem_world [sched_job 4 JobStatusQueued "1,2"]
    [demo_card 1 0 None; demo_card 2 0 None; demo_card 3 1 (Some 9)] [] [] (queue_view [4])
    (mkScript 100 [] [Ok false] [Ok 777] [] [] [Ok true]) eq_refl eq_refl eq_refl eq_refl.
Definition w_s0 : Sched := NewScheduler waiting_world.
Definition w_s1 : Sched := fst (Start w_s0).
Definition w_s2 : Sched := fst (processQueue w_s1).

Lemma fst_eq {W A : Type} (p : W * A) : p = (fst p, snd p).
Proof. by destruct p. Qed.

Lemma waiting_steps : rtc step w_s0 w_s1 ∧ rtc step w_s1 w_s2.
Proof.
  split; apply rtc_once.
  - exact (step_start w_s0 w_s1 _ (fst_eq _)).
  - refine (step_tick w_s1 w_s2 _ _ (fst_eq _)). vm_compute. reflexivity.
Qed.


Lemma waiting_cards_wf : Forall card_wf (s_gpus w_s1).
Proof.
  change (Forall card_wf [demo_card 1 0 None; demo_card 2 0 None; demo_card 3 1 (Some 9)]).
  rewrite !Forall_cons. split_and!; [by left|by left| |by constructor].
  right. split; [done|by eexists].
Qed.

Lemma system_cards_consistent_witness : Forall card_wf (s_gpus w_s2).
Proof. exact (system_cards_consistent w_s1 w_s2 (proj2 waiting_steps) waiting_cards_wf). Defined.

Lemma processQueue_head_only_witness :
  demo_card 3 1 (Some 9) ∈ s_gpus w_s2 ∧ head_of (s_queue w_s1) 4.
Proof.
  pose proof (processQueue_head_only w_s1 w_s2 _ (fst_eq _)) as (H1 & _ & H3). split.
  - apply H1; [|done].
    change (demo_card 3 1 (Some 9) ∈ [demo_card 1 0 None; demo_card 2 0 None; demo_card 3 1 (Some 9)]).
    right. right. left.
  - apply (H3 4). vm_compute. discriminate.
Defined.

Lemma parseGpuIDs_roundtrip_witness : parseGpuIDs (Job.GpuIDs (new_job demo_req 1)) = [2; 3].
Proof.
  apply (parseGpuIDs_roundtrip demo_req 1). repeat constructor.
Defined.

Definition demo_sched_job : Job := sched_job 4 JobStatusQueued "1,2".

Lemma executeJob_ok_witness :
  job_status 4 (sw (fst (executeJob demo_sched_job [1; 2] w_s1))) = Some JobStatusRunning.
Proof.
  assert (executeJob demo_sched_job [1; 2] w_s1 =
          (fst (executeJob demo_sched_job [1; 2] w_s1), Ok tt)) as E
    by (apply run_eq; vm_compute; reflexivity).
  assert (is_Some (job_status (Job.ID demo_sched_job) (sw w_s1))) as Hs by (vm_compute; by eexists).
  exact (proj1 (proj2 (proj2 (proj2 (executeJob_ok demo_sched_job [1; 2] w_s1 _ E Hs))))).
Defined.

Definition demo_jp : JobProcess := JobProcess.mkJobProcess 777 4 1 "job" [1; 2].

(** The process table cannot be read: the first tick counts one failure. *)
Lemma monitor_tick_spec_witness :
  snd (monitor_tick demo_jp 0 w_s2) = Some 1 ∧
  s_gpus (fst (monitor_tick demo_jp 0 w_s2)) = s_gpus w_s2.
Proof.
  assert (monitor_tick demo_jp 0 w_s2 = (fst (monitor_tick demo_jp 0 w_s2), Some 1)) as E
    by (apply run_eq; vm_compute; reflexivity).
  split; [by rewrite E|].
  exact (proj1 (proj2 (monitor_tick_spec demo_jp 0 w_s2 _ (Some 1) E))).
Defined.

(** A host whose process table is unreadable. *)
Definition blind_env : Env unit := {|
  env_now e := (e, 0);
  env_PidExists _ e := (e, Err (ErrExt 1));
  env_HasSystemAccess _ e := (e, Ok false);
  env_ExecuteCommandRemote _ _ _ _ _ e := (e, Ok 777);
  env_FileExistsRemote _ _ _ e := (e, Ok true);
  env_GetJobExitCode _ _ _ e := (e, Ok 0);
  env_Getpid e := (e, 1);
  env_SetNX _ _ _ e := (e, Ok true);
  env_EvalRelease _ _ e := (e, Ok tt)
|}.
Definition blind_backend : Backend := {|
  TJ := mem (rows (R := Job)); TG := mem (rows (R := GpuCard));
  TP := mem (rows (R := Process)); TU := mem (rows (R := User));
  TR := mem rview; TE := unit;
  jobs_table := mem_table (λ _ _, false);
  gpus_table := mem_table (λ x y, String.eqb (GpuCard.UUID x) (GpuCard.UUID y));
  procs_table := mem_table (λ _ _, false);
  users_table := mem_table (λ _ _, false);
  redis_ops := mem_redis;
  env_ops := blind_env;
  db_like _ _ := false
|}.
Definition blind_sched : @Sched blind_backend :=
  @NewScheduler blind_backend
    (mkWorld blind_backend (mem_rows [sched_job 4 JobStatusRunning "1"] eq_refl [])
       (mem_rows [demo_card 1 1 (Some 4)] eq_refl []) (mem_rows [] eq_refl [])
       (mem_rows [] eq_refl []) (mkMem (queue_view []) []) tt).

Lemma monitor_gives_up_at_ten_witness :
  snd (@monitor_run blind_backend 10 demo_jp 0 blind_sched) = None.
Proof.
  exact (proj2 (@monitor_gives_up_at_ten blind_backend demo_jp blind_sched (λ pid e, eq_refl))).
Defined.

(** ** Executions that go wrong *)

(** A job on two cards has two process rows with one pid.  Recovery starts a
    monitor for each of them. *)
Definition two_card_world : World :=
  mem_world [sched_job 7 JobStatusRunning "1,2"; sched_job 8 JobStatusQueued "1,2"]
    [demo_card 1 1 (Some 7); demo_card 2 1 (Some 7)]
    [Process.mkProcess 1 900 1 7 (Some 0) None; Process.mkProcess 2 900 2 7 (Some 0) None] []
    (queue_view [8])
    (mkScript 100 [Ok true; Ok true; Ok false; Ok false] [Ok false; Ok false; Ok false] [Ok 901] []
       [Ok 1; Err (ErrMsg "no such file")] [Ok true]) eq_refl eq_refl eq_refl eq_refl.
Definition jp7 : JobProcess := recovered (sched_job 7 JobStatusRunning "1,2") 900.
Definition d_s0 : Sched := NewScheduler two_card_world.
Definition d_s1 : Sched := fst (Start d_s0).
Definition d_s2 : Sched := set_monitor 0 jp7 None (fst (monitor_tick jp7 0 d_s1)).
Definition d_s3 : Sched := fst (processQueue d_s2).
Definition d_s4 : Sched := set_monitor 0 jp7 None (fst (monitor_tick jp7 0 d_s3)).

(** Job 7 fails (exit code 1) and its cards go to job 8.  Then the second
    monitor of job 7 reports it completed and frees the cards under the running
    job 8. *)
Theorem recovery_double_monitor :
  rtc step d_s0 d_s4 ∧ monitors d_s1 = [(jp7, 0); (jp7, 0)] ∧
  job_status 7 (sw d_s2) = Some JobStatusFailed ∧
  (GpuCard.CurrentJobID <$> s_gpus d_s3) = [Some 8; Some 8] ∧
  job_status 8 (sw d_s4) = Some JobStatusRunning ∧
  (GpuCard.Status <$> s_gpus d_s4) = [GpuStatusIdle; GpuStatusIdle] ∧
  job_status 7 (sw d_s4) = Some JobStatusCompleted.
Proof.
  split.
  - eapply rtc_l; [exact (step_start d_s0 d_s1 _ (fst_eq _))|].
    eapply rtc_l; [eapply (step_monitor d_s1 _ 0 jp7 0); [| |]|].
    + vm_compute. reflexivity.
    + vm_compute. reflexivity.
    + apply (run_eq _ None). vm_compute. reflexivity.
    + eapply rtc_l; [refine (step_tick d_s2 d_s3 _ _ (fst_eq _)); vm_compute; reflexivity|].
      apply rtc_once. eapply (step_monitor d_s3 _ 0 jp7 0).
      * vm_compute. reflexivity.
      * vm_compute. reflexivity.
      * apply (run_eq _ None). vm_compute. reflexivity.
  - vm_compute. split_and!; reflexivity.
Qed.

(** [Stop] says that the processes of the running jobs go on.  The monitor it
    ends frees the cards and closes the process rows, so the next start finds
    no process and fails the job without looking at the host. *)
Definition one_card_world : World :=
  mem_world [sched_job 7 JobStatusRunning "1"] [demo_card 1 1 (Some 7)]
    [Process.mkProcess 1 900 1 7 (Some 0) None] [] (queue_view [])
    (mkScript 100 [Ok true; Ok true] [] [] [] [] []) eq_refl eq_refl eq_refl eq_refl.
Definition jp7' : JobProcess := recovered (sched_job 7 JobStatusRunning "1") 900.
Definition r_s1 : Sched := fst (Start (NewScheduler one_card_world)).
Definition r_s2 : Sched := fst (Stop r_s1).
Definition r_s3 : Sched := set_monitor 0 jp7' None (fst (monitor_exit jp7' r_s2)).
Definition r_s4 : Sched := fst (Start (NewScheduler (sw r_s3))).

Theorem graceful_restart_fails_running_job :
  rtc step (NewScheduler one_card_world) r_s4 ∧
  job_status 7 (sw r_s3) = Some JobStatusRunning ∧
  (GpuCard.Status <$> s_gpus r_s3) = [GpuStatusIdle] ∧
  job_status 7 (sw r_s4) = Some JobStatusFailed ∧
  sc_pid (w_env (sw r_s4)) = [Ok true].
Proof.
  split.
  - eapply rtc_l; [exact (step_start _ r_s1 _ (fst_eq _))|].
    eapply rtc_l; [exact (step_stop r_s1 r_s2 _ (fst_eq _))|].
    eapply rtc_l; [refine (step_monitor_stop r_s2 _ 0 jp7' 0 _ _ _ (fst_eq _)); vm_compute; reflexivity|].
    eapply rtc_l; [exact (step_restart r_s3)|].
    apply rtc_once. exact (step_start _ r_s4 _ (fst_eq _)).
  - vm_compute. split_and!; reflexivity.
Qed.

(** When the cards of a job cannot be read after they were taken, the start
    gives up without giving them back: the job counts as running and its cards
    stay busy, and nothing monitors it. *)
Definition leak_sched : Sched :=
  put_sw (put_gpus (mem_rows [demo_card 1 0 None; demo_card 2 0 None] eq_refl [false; false; true])
            waiting_world) w_s1.

Theorem executeJob_leaks_cards :
  is_ok (snd (executeJob demo_sched_job [1; 2] leak_sched)) = false ∧
  let s' := fst (executeJob demo_sched_job [1; 2] leak_sched) in
  job_status 4 (sw s') = Some JobStatusRunning ∧
  (GpuCard.CurrentJobID <$> s_gpus s') = [Some 4; Some 4] ∧ monitors s' = [] ∧ runningJobs s' = ∅.
Proof. vm_compute. split_and!; reflexivity. Qed.

(** [GetByID] never answers nil without an error, so the branch that removes
    an unknown job from the queue is dead: an id without a row stays at the
    head and the job behind it is never started. *)
Definition ghost_head_sched : Sched :=
  set_running (NewScheduler (put_redis (mkMem (queue_view [3; 4]) []) waiting_world)).

Theorem ghost_job_blocks_queue :
  fst <$> zsort (s_queue (fst (processQueue ghost_head_sched))) = ["3"; "4"]%string ∧
  job_status 4 (sw (fst (processQueue ghost_head_sched))) = Some JobStatusQueued.
Proof. vm_compute. split; reflexivity. Qed.

(** The start uses the row read before: a cancellation that comes between the
    read and the start is overwritten and the cancelled job runs. *)
Theorem cancel_lost_in_start :
  let w := fst (CancelJob 4 1 (sw w_s1)) in
  snd (CancelJob 4 1 (sw w_s1)) = Ok tt ∧ job_status 4 w = Some JobStatusCancelled ∧
  let '(s', r) := executeJob demo_sched_job [1; 2] (put_sw w w_s1) in
  r = Ok tt ∧ job_status 4 (sw s') = Some JobStatusRunning.
Proof. vm_compute. split_and!; reflexivity. Qed.
