(* ===== verification/Lock.v ===== *)
(** * The queue lock (scheduler_service.go: acquireQueueLock,
    startQueueLockWatchdog, releaseQueueLock)

    Several processes of the server share one Redis key.  A process enters
    [processQueue] when [SetNX] stores its token; its watchdog renews the time
    to live every third of it; leaving deletes the key if it still holds the
    token.  Time passes in steps of their own, and an expired key is absent. *)

From S2P Require Import Prelude GoStrings Entity External Scheduler.

Open Scope Z_scope.

Definition ttl : Z := 30 * second.

(** ** The commands on the key *)

(** The key: a token and the instant it expires. *)
Definition cell : Type := option (string * Z).

Definition get (now : Z) (c : cell) : option string :=
  match c with
  | Some (tok, exp) => if now <? exp then Some tok else None
  | None => None
  end.

Definition SetNX (now : Z) (tok : string) (d : Z) (c : cell) : cell * bool :=
  match get now c with
  | Some _ => (c, false)
  | None => (Some (tok, now + d), true)
  end.

(** The script of [releaseQueueLock]. *)
Definition eval_del (now : Z) (tok : string) (c : cell) : cell :=
  if decide (get now c = Some tok) then None else c.

(** The script of the watchdog: [pexpire] with the ttl in milliseconds. *)
Definition eval_pexpire (now : Z) (tok : string) (d : Z) (c : cell) : cell :=
  if decide (get now c = Some tok) then Some (tok, now + d) else c.

(** ** Processes *)

(** A process inside [processQueue]: its token and its last renewal. *)
Record section : Type := mkSection { tok : string; renewed : Z }.

Record LockState : Type := mkLock {
  now : Z; key : cell; inside : gmap Z section
}.

(** The moves of the process with pid [p]. *)
Definition acquire (p : Z) (s : LockState) : LockState :=
  let t := queue_token (now s) p in
  let '(c, ok) := SetNX (now s) t ttl (key s) in
  mkLock (now s) c (if ok then <[p := mkSection t (now s)]> (inside s) else inside s).

Definition renew (p : Z) (sec : section) (s : LockState) : LockState :=
  mkLock (now s) (eval_pexpire (now s) (tok sec) ttl (key s))
    (if decide (get (now s) (key s) = Some (tok sec))
     then <[p := mkSection (tok sec) (now s)]> (inside s) else inside s).

Definition release (p : Z) (sec : section) (s : LockState) : LockState :=
  mkLock (now s) (eval_del (now s) (tok sec) (key s)) (delete p (inside s)).

(** [T] restricts how time may pass. *)
Inductive lstep (T : Z → LockState → Prop) : LockState → LockState → Prop :=
  | l_acquire p s : 0 ≤ p → inside s !! p = None → lstep T s (acquire p s)
  | l_renew p sec s : inside s !! p = Some sec → lstep T s (renew p sec s)
  | l_release p sec s : inside s !! p = Some sec → lstep T s (release p sec s)
  | l_pass d s : 0 ≤ d → T d s → lstep T s (mkLock (now s + d) (key s) (inside s)).

(** Every process inside renews before its time to live ends. *)
Definition timely (d : Z) (s : LockState) : Prop :=
  ∀ p sec, inside s !! p = Some sec → now s + d < renewed sec + ttl.
Definition anytime (d : Z) (s : LockState) : Prop := True.

Definition initial (s : LockState) : Prop := 0 ≤ now s ∧ inside s = ∅.

(** ** Tokens *)

(** Tokens tell processes and instants apart. *)
Lemma queue_token_inj t p t' p' :
  0 ≤ t → 0 ≤ p → 0 ≤ t' → 0 ≤ p' → queue_token t p = queue_token t' p' → t = t' ∧ p = p'.
Proof.
  intros Ht Hp Ht' Hp' H. apply (f_equal (Split hyphen)) in H. unfold queue_token in H.
  rewrite !Split_app, !Split_no_sep in H by (by apply Itoa_nonneg_no_minus).
  injection H as H1 H2. split; by apply (inj Itoa).
Qed.

(** ** Safety *)

Definition own_token (s : LockState) : Prop :=
  0 ≤ now s ∧ ∀ p sec, inside s !! p = Some sec →
    0 ≤ p ∧ ∃ t, 0 ≤ t ∧ tok sec = queue_token t p.

Lemma own_token_step T s s' : lstep T s s' → own_token s → own_token s'.
Proof.
  intros Hst [Hn Ho]. destruct Hst as [p s Hp Hin|p sec s Hin|p sec s Hin|d s Hd HT].
  - unfold acquire. destruct (SetNX _ _ _ _) as [c ok]. split; [done|]. cbn.
    destruct ok; [|done]. intros q sec [[<- <-]|[_ ?]]%lookup_insert_Some; [|auto]. split; [done|].
    by exists (now s).
  - split; [done|]. unfold renew. cbn. case_decide; [|done].
    intros q sec' [[<- <-]|[_ ?]]%lookup_insert_Some; [cbn|]; eauto.
  - split; [done|]. cbn. intros q sec' [_ ?]%lookup_delete_Some. auto.
  - split; [cbn; lia|done].
Qed.

Lemma own_token_steps T s s' : rtc (lstep T) s s' → own_token s → own_token s'.
Proof. induction 1; eauto using own_token_step. Qed.

Lemma initial_own s : initial s → own_token s.
Proof. intros [? Hi]. split; [done|]. by rewrite Hi. Qed.

(** Two processes never share a token. *)
Lemma tokens_differ s p q sp sq :
  own_token s → inside s !! p = Some sp → inside s !! q = Some sq → tok sp = tok sq → p = q.
Proof.
  intros [_ Ho] Hp Hq Heq. destruct (Ho _ _ Hp) as (Hp0 & t & Ht & E1).
  destruct (Ho _ _ Hq) as (Hq0 & t' & Ht' & E2). rewrite E1, E2 in Heq.
  by apply queue_token_inj in Heq as [_ ?].
Qed.

(** C31: whatever the timing, a process never takes the lock away from another
    one: while the key holds the token of [q], neither the release nor the
    watchdog of [p] changes it, and no third process acquires it. *)
Theorem lock_no_steal s0 s p q r sp sq :
  initial s0 → rtc (lstep anytime) s0 s →
  inside s !! p = Some sp → inside s !! q = Some sq → p ≠ q →
  get (now s) (key s) = Some (tok sq) →
  key (release p sp s) = key s ∧ key (renew p sp s) = key s ∧
  key (acquire r s) = key s ∧ inside (acquire r s) = inside s.
Proof.
  intros Hi Hr Hp Hq Hne Hg. apply initial_own in Hi. eapply own_token_steps in Hi; [|exact Hr].
  assert (tok sp ≠ tok sq) as Ht by (intros Heq; by eapply Hne, tokens_differ).
  cbn. unfold eval_del, eval_pexpire, acquire, SetNX. rewrite Hg.
  rewrite !decide_False by (intros [= ?]; congruence). done.
Qed.

(** The key is the lock of every process inside. *)
Definition holds (s : LockState) : Prop :=
  ∀ p sec, inside s !! p = Some sec →
    key s = Some (tok sec, renewed sec + ttl) ∧ now s < renewed sec + ttl.

Lemma holds_get s p sec : holds s → inside s !! p = Some sec → get (now s) (key s) = Some (tok sec).
Proof.
  intros Hh Hp. destruct (Hh _ _ Hp) as [-> Hlt]. cbn. by rewrite (proj2 (Z.ltb_lt _ _)).
Qed.

Lemma holds_step s s' : lstep timely s s' → own_token s → holds s → holds s'.
Proof.
  intros Hst Ho Hh. destruct Hst as [p s Hp Hin|p sec s Hin|p sec s Hin|d s Hd HT].
  - unfold acquire, SetNX. destruct (get (now s) (key s)) eqn:Hg; [done|]. unfold holds. cbn [inside key now].
    intros q sec [[<- <-]|[_ Hq]]%lookup_insert_Some; [cbn; unfold ttl, second; split; [done|lia]|].
    by rewrite (holds_get _ _ _ Hh Hq) in Hg.
  - unfold renew, eval_pexpire. rewrite (holds_get _ _ _ Hh Hin), !decide_True by done.
    unfold holds. cbn [inside key now].
    intros q sec' [[<- <-]|[Hne Hq]]%lookup_insert_Some; [cbn; unfold ttl, second; split; [done|lia]|].
    exfalso. apply Hne. eapply tokens_differ; [exact Ho|done|done|].
    pose proof (holds_get _ _ _ Hh Hin). pose proof (holds_get _ _ _ Hh Hq). congruence.
  - unfold release, eval_del. rewrite (holds_get _ _ _ Hh Hin), decide_True by done.
    unfold holds. cbn [inside key now]. intros q sec' [Hne Hq]%lookup_delete_Some. exfalso. apply Hne. eapply tokens_differ; [exact Ho|done|done|].
    pose proof (holds_get _ _ _ Hh Hin). pose proof (holds_get _ _ _ Hh Hq). congruence.
  - intros q sec Hq. destruct (Hh _ _ Hq) as [Hk _]. split; [done|]. by apply (HT q sec).
Qed.

(** C16: mutual exclusion.  As long as every process inside renews the key
    before its time to live ends, at most one process is inside
    [processQueue], and the key holds its token. *)
Theorem lock_mutual_exclusion s0 s p q sp sq :
  initial s0 → rtc (lstep timely) s0 s →
  inside s !! p = Some sp → inside s !! q = Some sq →
  p = q ∧ get (now s) (key s) = Some (tok sp).
Proof.
  intros Hi Hr Hp Hq.
  assert (own_token s ∧ holds s) as [Ho Hh].
  { assert (own_token s0 ∧ holds s0) as H0
      by (split; [by apply initial_own|intros x y; destruct Hi as [_ ->]; done]).
    clear Hi Hp Hq. induction Hr; [done|]. destruct H0. eauto using own_token_step, holds_step. }
  pose proof (holds_get _ _ _ Hh Hp). pose proof (holds_get _ _ _ Hh Hq).
  split; [|done]. eapply tokens_differ; [exact Ho|done|done|congruence].
Qed.

(** ** Concrete runs *)

Definition l_s0 : LockState := mkLock 0 None ∅.
Definition l_s1 : LockState := acquire 10 l_s0.
Definition l_sec : section := mkSection (queue_token 0 10) 0.

Lemma lock_mutual_exclusion_witness : get (now l_s1) (key l_s1) = Some (queue_token 0 10).
Proof.
  assert (initial l_s0) as Hi by (split; [cbn; lia|done]).
  assert (rtc (lstep timely) l_s0 l_s1) as Hr by (apply rtc_once, l_acquire; [lia|done]).
  exact (proj2 (lock_mutual_exclusion l_s0 l_s1 10 10 l_sec l_sec Hi Hr
                  ltac:(vm_compute; reflexivity) ltac:(vm_compute; reflexivity))).
Defined.

(** Process 10 stalls for longer than the time to live; process 11 enters. *)
Definition l_s2 : LockState := mkLock (31 * second) (key l_s1) (inside l_s1).
Definition l_s3 : LockState := acquire 11 l_s2.
Definition l_sec' : section := mkSection (queue_token (31 * second) 11) (31 * second).

Lemma stall_steps : rtc (lstep anytime) l_s0 l_s3.
Proof.
  eapply rtc_l; [apply (l_acquire _ 10); [lia|done]|].
  eapply rtc_l; [exact (l_pass anytime (31 * second) l_s1 ltac:(by vm_compute) I)|].
  apply rtc_once. apply (l_acquire _ 11); [lia|done].
Qed.

Lemma lock_no_steal_witness : key (release 10 l_sec l_s3) = key l_s3.
Proof.
  assert (initial l_s0) as Hi by (split; [cbn; lia|done]).
  exact (proj1 (lock_no_steal l_s0 l_s3 10 11 12 l_sec l_sec' Hi stall_steps
    ltac:(vm_compute; reflexivity) ltac:(vm_compute; reflexivity) ltac:(done)
    ltac:(vm_compute; reflexivity))).
Defined.

(** Without timely renewals two processes are inside at once: the round that
    lost its lock is not told. *)
Theorem stalled_holder_overlaps :
  rtc (lstep anytime) l_s0 l_s3 ∧ is_Some (inside l_s3 !! 10) ∧ is_Some (inside l_s3 !! 11).
Proof. split; [exact stall_steps|]. vm_compute. split; by eexists. Qed.
