(* ===== verification/WsPool.v ===== *)
(** * The WebSocket connection pool (pkg/websocket/pool.go)

    Clients are pointers: an identifier into a heap of client records.  The
    pool keeps sets of pointers per user and for the administrators, and a
    counter of the administrators that watch system information.  A
    read or write failure ends a pump, and the end of either pump calls [Close];
    the network connection and the loops of the pumps are in [WsPump]. *)

From S2P Require Import Prelude GoStrings Entity External.

Open Scope Z_scope.

Module SessionMetadata.
Record SessionMetadata : Type := mkSessionMetadata {
  UserID : Z; SessionType : string; Role : string; CreatedAt : Z
}.
End SessionMetadata.
Notation SessionMetadata := SessionMetadata.SessionMetadata.

(** Capacity of the channel [Send]. *)
Definition send_capacity : nat := 1024.

Module Client.
(** [Send]: the messages buffered, oldest first.  [closed]: [once] has run, so
    [Done], [Send] and the connection are closed. *)
Record Client (msg : Type) : Type := mkClient {
  Metadata : option SessionMetadata; Send : list msg; closed : bool
}.
Arguments mkClient {msg}.
Arguments Metadata {msg}. Arguments Send {msg}. Arguments closed {msg}.
End Client.
Notation Client := Client.Client.

Section Pool.
(** The bytes of a message. *)
Context {msg : Type}.

(** [ConnectionPool] with the heap of its clients. *)
Record ConnectionPool : Type := mkPool {
  heap : gmap positive (Client msg);
  userClients : gmap Z (gset positive);
  adminClients : gset positive;
  systemInfoCount : Z
}.

Definition NewConnectionPool : ConnectionPool := mkPool ∅ ∅ ∅ 0.

Definition has_role (md : option SessionMetadata) (r : string) : bool :=
  match md with Some m => String.eqb (SessionMetadata.Role m) r | None => false end.
Definition has_type (md : option SessionMetadata) (t : string) : bool :=
  match md with Some m => String.eqb (SessionMetadata.SessionType m) t | None => false end.

(** The new client gets a fresh address. *)
Definition Add (userID : Z) (metadata : option SessionMetadata) (p : ConnectionPool)
  : ConnectionPool * positive :=
  let c := fresh (dom (heap p)) in
  let h := <[c := Client.mkClient metadata [] false]> (heap p) in
  if has_role metadata "admin" then
    (mkPool h (userClients p) ({[c]} ∪ adminClients p)
       (if has_type metadata "systemInfo" then systemInfoCount p + 1 else systemInfoCount p), c)
  else
    (mkPool h (<[userID := {[c]} ∪ default ∅ (userClients p !! userID)]> (userClients p))
       (adminClients p) (systemInfoCount p), c).

(** The effect of [Close] on the tables; [None] is the nil dereference of
    [c.Metadata]. *)
Definition close_tables (c : positive) (md : option SessionMetadata) (p : ConnectionPool)
  : option ConnectionPool :=
  match md with
  | None => None
  | Some m =>
      if String.eqb (SessionMetadata.Role m) "user" then
        match userClients p !! SessionMetadata.UserID m with
        | None => Some p
        | Some clients =>
            let clients' := clients ∖ {[c]} in
            Some (mkPool (heap p)
                    (if decide (clients' = ∅) then delete (SessionMetadata.UserID m) (userClients p)
                     else <[SessionMetadata.UserID m := clients']> (userClients p))
                    (adminClients p) (systemInfoCount p))
        end
      else if String.eqb (SessionMetadata.Role m) "admin" then
        Some (mkPool (heap p) (userClients p) (adminClients p ∖ {[c]})
                (if String.eqb (SessionMetadata.SessionType m) "systemInfo"
                 then (if 0 <? systemInfoCount p then systemInfoCount p - 1 else systemInfoCount p)
                 else systemInfoCount p))
      else Some p
  end.

(** [Close]: a second call does nothing. *)
Definition Close (c : positive) (p : ConnectionPool) : result ConnectionPool :=
  match heap p !! c with
  | None => Ok p
  | Some cl =>
      if Client.closed cl then Ok p
      else
        match close_tables c (Client.Metadata cl) p with
        | None => Err (ErrPanic "nil pointer dereference")
        | Some p' =>
            Ok (mkPool (<[c := Client.mkClient (Client.Metadata cl) (Client.Send cl) true]> (heap p'))
                  (userClients p') (adminClients p') (systemInfoCount p'))
        end
  end.

(** A test on the metadata of a client. *)
Definition client_is (P : option SessionMetadata → bool) (c : positive) (p : ConnectionPool) : bool :=
  match heap p !! c with
  | Some cl => P (Client.Metadata cl)
  | None => false
  end.

(** The clients a broadcast will send to, collected under the lock. *)
Definition broadcast_targets (sessionType : string) (p : ConnectionPool) : list positive :=
  filter (λ c, client_is (λ md, has_type md sessionType) c p = true) (elements (adminClients p)).

(** [select { case client.Send <- data: default: }]: a full buffer drops the
    message, a closed channel panics. *)
Definition send (data : msg) (c : positive) (p : ConnectionPool) : result ConnectionPool :=
  match heap p !! c with
  | None => Ok p
  | Some cl =>
      if Client.closed cl then Err (ErrPanic "send on closed channel")
      else if decide (length (Client.Send cl) < send_capacity)%nat
      then Ok (mkPool (<[c := Client.mkClient (Client.Metadata cl) (Client.Send cl ++ [data]) false]>
                         (heap p)) (userClients p) (adminClients p) (systemInfoCount p))
      else Ok p
  end.

Fixpoint send_all (data : msg) (cs : list positive) (p : ConnectionPool) : result ConnectionPool :=
  match cs with
  | [] => Ok p
  | c :: cs' => match send data c p with
                | Err e => Err e
                | Ok p' => send_all data cs' p'
                end
  end.

(** The sends happen after the lock is released; here nothing comes between. *)
Definition BroadcastToAdminsByType (sessionType : string) (data : msg) (p : ConnectionPool)
  : result ConnectionPool :=
  send_all data (broadcast_targets sessionType p) p.

(** The write pump takes the oldest message. *)
Definition WritePump_take (c : positive) (p : ConnectionPool) : ConnectionPool * option msg :=
  match heap p !! c with
  | Some cl =>
      match Client.Send cl with
      | [] => (p, None)
      | d :: ds =>
          (mkPool (<[c := Client.mkClient (Client.Metadata cl) ds (Client.closed cl)]> (heap p))
             (userClients p) (adminClients p) (systemInfoCount p), Some d)
      end
  | None => (p, None)
  end.

Definition IsHavingSystemInfoConnection (p : ConnectionPool) : bool := 0 <? systemInfoCount p.
Definition GetSystemInfoConnectionCount (p : ConnectionPool) : Z := systemInfoCount p.
Definition GetTotalConnectionCount (p : ConnectionPool) : Z :=
  map_fold (λ _ (s : gset positive) acc, acc + Z.of_nat (size s))
    (Z.of_nat (size (adminClients p))) (userClients p).
Definition IsHavingHomeOverviewConnection (p : ConnectionPool) : bool :=
  existsb (λ c, client_is (λ md, has_type md "homeOverview") c p) (elements (adminClients p)).

Fixpoint close_list (cs : list positive) (p : ConnectionPool) : result ConnectionPool :=
  match cs with
  | [] => Ok p
  | c :: cs' => match Close c p with
                | Err e => Err e
                | Ok p' => close_list cs' p'
                end
  end.

Definition user_client_list (p : ConnectionPool) : list positive :=
  mjoin ((λ x : Z * gset positive, elements x.2) <$> map_to_list (userClients p)).

Definition CloseAll (p : ConnectionPool) : result ConnectionPool :=
  close_list (user_client_list p ++ elements (adminClients p)) p.

(** ** The pool's invariant *)

Definition open_with (P : option SessionMetadata → bool) (c : positive) (p : ConnectionPool) : Prop :=
  ∃ cl, heap p !! c = Some cl ∧ Client.closed cl = false ∧ P (Client.Metadata cl) = true.

Definition is_admin (md : option SessionMetadata) : bool := has_role md "admin".
Definition is_system_info (md : option SessionMetadata) : bool :=
  has_role md "admin" && has_type md "systemInfo".

(** The administrators in the pool that watch system information. *)
Definition system_info_clients (p : ConnectionPool) : gset positive :=
  filter (λ c, client_is is_system_info c p = true) (adminClients p).

(** The administrators' set is the set of open administrator clients, the
    counter counts those that watch system information, and no buffer is over
    its capacity. *)
Definition pool_inv (p : ConnectionPool) : Prop :=
  (∀ c, c ∈ adminClients p ↔ open_with is_admin c p) ∧
  systemInfoCount p = Z.of_nat (size (system_info_clients p)) ∧
  map_Forall (λ _ cl, (length (Client.Send cl) ≤ send_capacity)%nat) (heap p).

(** What the server does with the pool; a panic ends the program. *)
Inductive pool_step : ConnectionPool → ConnectionPool → Prop :=
  | ps_add u md p : pool_step p (fst (Add u md p))
  | ps_close c p p' : Close c p = Ok p' → pool_step p p'
  | ps_send data c p p' : send data c p = Ok p' → pool_step p p'
  | ps_write c p : pool_step p (fst (WritePump_take c p)).
End Pool.
Arguments ConnectionPool : clear implicits.

Section PoolLaws.
Context {msg : Type}.
Implicit Types (p : ConnectionPool msg) (cl : Client msg).

Lemma open_insert P k c cl p p' :
  heap p' = <[c := cl]> (heap p) →
  open_with P k p' ↔
  k = c ∧ Client.closed cl = false ∧ P (Client.Metadata cl) = true ∨ k ≠ c ∧ open_with P k p.
Proof.
  intros Hh. unfold open_with. rewrite Hh. destruct (decide (k = c)) as [->|Hne].
  - setoid_rewrite lookup_insert_eq. naive_solver.
  - setoid_rewrite lookup_insert_ne; [|done]. naive_solver.
Qed.

Lemma open_heap P k p p' : heap p' = heap p → open_with P k p' ↔ open_with P k p.
Proof. unfold open_with. by intros ->. Qed.

Lemma system_info_elem p c :
  (∀ c, c ∈ adminClients p ↔ open_with is_admin c p) →
  c ∈ system_info_clients p ↔ open_with is_system_info c p.
Proof.
  intros Ha. unfold system_info_clients. rewrite elem_of_filter, Ha. unfold client_is, open_with.
  unfold is_system_info, is_admin. split.
  - intros [Hc (cl & Hcl & Ho & Hr)]. rewrite Hcl in Hc. eauto.
  - intros (cl & Hcl & Ho & Hs). rewrite Hcl. split; [done|].
    exists cl. apply andb_true_iff in Hs as [Hr _]. done.
Qed.

(** The counter follows the set of open system-information clients. *)
Lemma count_insert p p' c :
  (∀ k, k ∈ adminClients p ↔ open_with is_admin k p) →
  (∀ k, k ∈ adminClients p' ↔ open_with is_admin k p') →
  ¬ open_with is_system_info c p →
  (∀ k, open_with is_system_info k p' ↔ k = c ∨ open_with is_system_info k p) →
  size (system_info_clients p') = S (size (system_info_clients p)).
Proof.
  intros H1 H2 Hc Hk.
  assert (system_info_clients p' = {[c]} ∪ system_info_clients p) as ->.
  { apply set_eq. intros k. rewrite elem_of_union, elem_of_singleton, !system_info_elem by done.
    apply Hk. }
  rewrite size_union, size_singleton; [done|].
  apply disjoint_singleton_l. by rewrite system_info_elem.
Qed.

Lemma count_same p p' :
  (∀ k, k ∈ adminClients p ↔ open_with is_admin k p) →
  (∀ k, k ∈ adminClients p' ↔ open_with is_admin k p') →
  (∀ k, open_with is_system_info k p' ↔ open_with is_system_info k p) →
  size (system_info_clients p') = size (system_info_clients p).
Proof.
  intros H1 H2 Hk. f_equal. apply set_eq. intros k. rewrite !system_info_elem by done. apply Hk.
Qed.

Lemma is_system_info_admin md : is_system_info md = true → is_admin md = true.
Proof. unfold is_system_info, is_admin. by intros [? _]%andb_true_iff. Qed.

Lemma fresh_heap p : heap p !! fresh (dom (heap p)) = None.
Proof. apply not_elem_of_dom, is_fresh. Qed.

Lemma Add_inv u md p : pool_inv p → pool_inv (fst (Add u md p)).
Proof.
  intros (Ha & Hc & Hb). set (c := fresh (dom (heap p))).
  pose proof (fresh_heap p) as Hf. fold c in Hf.
  assert (∀ P, ¬ open_with P c p) as Hno by (intros P (cl & Hcl & _); congruence).
  set (cl := Client.mkClient (msg := msg) md [] false).
  assert (heap (fst (Add u md p)) = <[c := cl]> (heap p)) as Hh by (unfold Add; by destruct (has_role _ _)).
  assert (∀ k, k ∈ adminClients (fst (Add u md p)) ↔ open_with is_admin k (fst (Add u md p))) as Ha'.
  { intros k. rewrite (open_insert _ _ _ _ _ _ Hh). cbn [Client.closed Client.Metadata cl].
    unfold Add. fold c. unfold is_admin at 1. destruct (has_role md "admin") eqn:Hr; cbn.
    - rewrite elem_of_union, elem_of_singleton, Ha. destruct (decide (k = c)); naive_solver.
    - rewrite Ha. destruct (decide (k = c)) as [->|]; [|naive_solver]. split; [by intros ?%Hno|naive_solver]. }
  split; [done|]. split.
  - assert (∀ k, open_with is_system_info k (fst (Add u md p)) ↔
              k = c ∧ is_system_info md = true ∨ open_with is_system_info k p) as Hs.
    { intros k. rewrite (open_insert _ _ _ _ _ _ Hh). cbn.
      destruct (decide (k = c)) as [->|]; [|naive_solver]. pose proof (Hno is_system_info). naive_solver. }
    assert (systemInfoCount (fst (Add u md p)) =
            if is_system_info md then systemInfoCount p + 1 else systemInfoCount p) as ->.
    { unfold Add, is_system_info. by destruct (has_role md "admin"), (has_type md "systemInfo"). }
    destruct (is_system_info md) eqn:Hsi.
    + rewrite (count_insert p _ c) by (done || apply Hno || (intros k; rewrite Hs; naive_solver)). lia.
    + rewrite (count_same p) by (done || (intros k; rewrite Hs; naive_solver)). done.
  - rewrite Hh. apply map_Forall_insert_2; [cbn; lia|done].
Qed.

Lemma Close_inv c p p' : pool_inv p → Close c p = Ok p' → pool_inv p'.
Proof.
  intros Hinv. pose proof Hinv as (Ha & Hc & Hb). unfold Close. destruct (heap p !! c) as [cl|] eqn:Hcl; [|by intros [= <-]].
  destruct (Client.closed cl) eqn:Ho; [by intros [= <-]|].
  destruct (close_tables c (Client.Metadata cl) p) as [p1|] eqn:Ht; [|done]. intros [= <-].
  set (cl' := Client.mkClient (Client.Metadata cl) (Client.Send cl) true).
  assert (heap p1 = heap p ∧
    adminClients p1 = (if is_admin (Client.Metadata cl) then adminClients p ∖ {[c]} else adminClients p) ∧
    systemInfoCount p1 = (if is_system_info (Client.Metadata cl) then
       (if 0 <? systemInfoCount p then systemInfoCount p - 1 else systemInfoCount p)
       else systemInfoCount p)) as (Hh1 & Ha1 & Hc1).
  { unfold close_tables in Ht. destruct (Client.Metadata cl) as [m|]; [|done].
    unfold is_admin, is_system_info. cbn in *.
    destruct (String.eqb_spec (SessionMetadata.Role m) "user") as [Hu|].
    - rewrite Hu. cbn. destruct (userClients p !! _); by simplify_eq.
    - destruct (String.eqb (SessionMetadata.Role m) "admin"); simplify_eq; [|done]. cbn.
      by destruct (String.eqb (SessionMetadata.SessionType m) "systemInfo"). }
  set (p2 := mkPool _ _ _ _).
  assert (heap p2 = <[c := cl']> (heap p)) as Hh by (cbn; by rewrite Hh1).
  assert (∀ P k, open_with P k p2 ↔ k ≠ c ∧ open_with P k p) as Hop.
  { intros P k. rewrite (open_insert _ _ _ _ _ _ Hh). cbn. naive_solver. }
  assert (∀ P, P (Client.Metadata cl) = true ↔ open_with P c p) as Hoc.
  { intros P. split; [intros; by exists cl|]. intros (cl0 & ? & _ & ?). by simplify_eq. }
  assert (∀ k, k ∈ adminClients p2 ↔ open_with is_admin k p2) as Ha'.
  { intros k. rewrite Hop. cbn. rewrite Ha1. pose proof (Hoc is_admin).
    destruct (is_admin (Client.Metadata cl)).
    - rewrite elem_of_difference, elem_of_singleton, Ha. naive_solver.
    - rewrite Ha. destruct (decide (k = c)) as [->|]; naive_solver. }
  split; [done|]. split; [|rewrite Hh; apply map_Forall_insert_2; [exact (Hb c cl Hcl)|done]].
  cbn [systemInfoCount p2]. rewrite Hc1. destruct (is_system_info (Client.Metadata cl)) eqn:Hsi.
  - assert (size (system_info_clients p) = S (size (system_info_clients p2))) as Hsz.
    { apply (count_insert p2 p c); [done..| |].
      - rewrite Hop. naive_solver.
      - intros k. rewrite Hop. apply Hoc in Hsi. destruct (decide (k = c)) as [->|]; naive_solver. }
    rewrite (proj2 (Z.ltb_lt 0 (systemInfoCount p))) by lia. lia.
  - rewrite (count_same p p2), Hc; [done|done|done|]. intros k. rewrite Hop.
    destruct (decide (k = c)) as [->|]; [|naive_solver]. rewrite <- (Hoc is_system_info), Hsi. naive_solver.
Qed.
End PoolLaws.

Section PoolSteps.
Context {msg : Type}.
Implicit Types (p : ConnectionPool msg) (cl : Client msg).

(** Replacing the buffer of a client keeps the invariant. *)
Lemma buffer_inv c cl b p p' :
  pool_inv p → heap p !! c = Some cl → (length b ≤ send_capacity)%nat →
  heap p' = <[c := Client.mkClient (Client.Metadata cl) b (Client.closed cl)]> (heap p) →
  adminClients p' = adminClients p → systemInfoCount p' = systemInfoCount p → pool_inv p'.
Proof.
  intros (Ha & Hc & Hb) Hcl Hlen Hh Had Hct.
  assert (∀ P k, open_with P k p' ↔ open_with P k p) as Hop.
  { intros P k. rewrite (open_insert _ _ _ _ _ _ Hh). cbn.
    destruct (decide (k = c)) as [->|]; [|naive_solver].
    assert (open_with P c p ↔ Client.closed cl = false ∧ P (Client.Metadata cl) = true); [|naive_solver].
    unfold open_with. rewrite Hcl. naive_solver. }
  assert (∀ k, k ∈ adminClients p' ↔ open_with is_admin k p') as Ha'
    by (intros k; by rewrite Had, Ha, Hop).
  split; [done|]. split; [rewrite Hct, (count_same p p'), Hc by done; done|].
  rewrite Hh. by apply map_Forall_insert_2.
Qed.

Lemma send_inv d c p p' : pool_inv p → send d c p = Ok p' → pool_inv p'.
Proof.
  intros Hinv. unfold send. destruct (heap p !! c) as [cl|] eqn:Hcl; [|by intros [= <-]].
  destruct (Client.closed cl) eqn:Ho; [done|]. case_decide as Hlt; intros [= <-]; [|done].
  eapply (buffer_inv c cl (Client.Send cl ++ [d])); [done|done| |cbn; by rewrite Ho|done|done].
  rewrite length_app. cbn. lia.
Qed.

Lemma take_inv c p : pool_inv p → pool_inv (fst (WritePump_take c p)).
Proof.
  intros Hinv. unfold WritePump_take. destruct (heap p !! c) as [cl|] eqn:Hcl; [|done].
  destruct (Client.Send cl) as [|d ds] eqn:Hs; [done|].
  eapply (buffer_inv c cl ds); [done|done| |done|done|done].
  pose proof (proj2 (proj2 Hinv) c cl Hcl) as Hl. cbn in Hl. rewrite Hs in Hl. cbn in Hl. lia.
Qed.

Lemma pool_step_inv p p' : pool_step p p' → pool_inv p → pool_inv p'.
Proof.
  intros [u md q|c q q' H|d c q q' H|c q]; eauto using Add_inv, Close_inv, send_inv, take_inv.
Qed.

Lemma new_pool_inv : pool_inv (msg := msg) NewConnectionPool.
Proof.
  split; [|split; [done|apply map_Forall_empty]]. intros c. split; [set_solver|].
  intros (cl & Hcl & _). done.
Qed.

Lemma pool_reachable_inv p : rtc pool_step NewConnectionPool p → pool_inv p.
Proof.
  intros H. assert (∀ q, rtc pool_step q p → pool_inv q → pool_inv p) as Hind
    by (induction 1; eauto using pool_step_inv).
  eauto using new_pool_inv.
Qed.

(** C29: the counter that replaces a scan of the connections is exact: in
    every reachable state it is the number of open administrator connections
    of type systemInfo, so [IsHavingSystemInfoConnection] holds exactly when
    there is one; and no send buffer exceeds its capacity. *)
Theorem system_info_count_exact p :
  rtc pool_step NewConnectionPool p →
  (∃ S : gset positive, (∀ c, c ∈ S ↔ open_with is_system_info c p) ∧
     GetSystemInfoConnectionCount p = Z.of_nat (size S)) ∧
  (IsHavingSystemInfoConnection p = true ↔ ∃ c, open_with is_system_info c p) ∧
  (∀ c cl, heap p !! c = Some cl → (length (Client.Send cl) ≤ send_capacity)%nat).
Proof.
  intros (Ha & Hc & Hb)%pool_reachable_inv.
  split; [exists (system_info_clients p); split; [|done]; intros c; by apply system_info_elem|].
  split; [|exact Hb]. unfold IsHavingSystemInfoConnection. rewrite Z.ltb_lt, Hc. split.
  - intros Hpos. assert (system_info_clients p ≠ ∅) as Hne
      by (intros He; rewrite He, size_empty in Hpos; done).
    apply set_choose_L in Hne as [c Hin]. exists c. by apply system_info_elem in Hin.
  - intros [c Hin%system_info_elem]; [|done].
    assert (size (system_info_clients p) ≠ 0%nat); [|lia].
    intros H0%size_empty_inv. set_solver.
Qed.

(** ** Broadcasts *)

(** What one broadcast does to a client. *)
Definition delivered (d : msg) (cl : Client msg) : Client msg :=
  if decide (length (Client.Send cl) < send_capacity)%nat
  then Client.mkClient (Client.Metadata cl) (Client.Send cl ++ [d]) (Client.closed cl) else cl.

Lemma send_all_ok d cs p :
  NoDup cs → (∀ c, c ∈ cs → ∃ cl, heap p !! c = Some cl ∧ Client.closed cl = false) →
  ∃ p', send_all d cs p = Ok p' ∧ userClients p' = userClients p ∧
    adminClients p' = adminClients p ∧ systemInfoCount p' = systemInfoCount p ∧
    ∀ k, heap p' !! k = if decide (k ∈ cs) then delivered d <$> heap p !! k else heap p !! k.
Proof.
  intros Hnd. revert p. induction Hnd as [|c cs Hni Hnd IH]; intros p Hcs; cbn.
  { exists p. split_and!; [done..|]. intros k. rewrite decide_False; [done|apply not_elem_of_nil]. }
  destruct (Hcs c ltac:(by left)) as (cl & Hcl & Ho).
  set (p1 := mkPool (<[c := delivered d cl]> (heap p)) (userClients p) (adminClients p)
               (systemInfoCount p)).
  assert (∃ q, send d c p = Ok q ∧ heap q = heap p1 ∧ userClients q = userClients p ∧
    adminClients q = adminClients p ∧ systemInfoCount q = systemInfoCount p)
    as (q & Hq & Hh & Hu & Ha & Hc).
  { unfold send, delivered in *. rewrite Hcl, Ho. case_decide; eexists; split_and!; try done; cbn.
    - by rewrite Ho.
    - by rewrite insert_id. }
  rewrite Hq. destruct (IH q) as (p' & Hp' & Hu' & Ha' & Hc' & Hk).
  { intros k Hin. rewrite Hh. cbn. rewrite lookup_insert_ne by (intros ->; done).
    apply Hcs. by right. }
  exists p'. split_and!; [done|congruence..|]. intros k. rewrite Hk, Hh. cbn.
  destruct (decide (k = c)) as [->|Hne].
  - rewrite decide_False, decide_True by (done || by left). rewrite lookup_insert_eq, Hcl. done.
  - rewrite lookup_insert_ne by done. destruct (decide (k ∈ cs)) as [?|?].
    + by rewrite decide_True by (by right).
    + by rewrite decide_False by (intros [|]%elem_of_cons; done).
Qed.

(** a broadcast in a reachable state reaches exactly the open
    administrator connections of the given type: each of them gets the message
    at the end of its buffer unless the buffer is full, every other connection
    is untouched, and it neither blocks nor fails. *)
Theorem broadcast_reaches_type p t d :
  rtc pool_step NewConnectionPool p →
  ∃ p', BroadcastToAdminsByType t d p = Ok p' ∧ adminClients p' = adminClients p ∧
    userClients p' = userClients p ∧ systemInfoCount p' = systemInfoCount p ∧
    ∀ k, (open_with (λ md, is_admin md && has_type md t) k p →
            heap p' !! k = delivered d <$> heap p !! k) ∧
         (¬ open_with (λ md, is_admin md && has_type md t) k p → heap p' !! k = heap p !! k).
Proof.
  intros (Ha & _ & _)%pool_reachable_inv.
  assert (∀ k, k ∈ broadcast_targets t p ↔ open_with (λ md, is_admin md && has_type md t) k p) as Ht.
  { intros k. unfold broadcast_targets. rewrite list_elem_of_filter, elem_of_elements, Ha.
    unfold client_is, open_with. split.
    - intros [Hc (cl & Hcl & Ho & Hr)]. rewrite Hcl in Hc. exists cl. by rewrite Hr, Hc.
    - intros (cl & Hcl & Ho & [Hr Htp]%andb_true_iff). rewrite Hcl. eauto. }
  destruct (send_all_ok d (broadcast_targets t p) p) as (p' & Hp & Hu & Had & Hc & Hk).
  - unfold broadcast_targets. apply NoDup_filter, NoDup_elements.
  - intros c (cl & Hcl & Ho & _)%Ht. eauto.
  - exists p'. split_and!; [done..|]. intros k. rewrite Hk. setoid_rewrite <- Ht.
    destruct (decide (k ∈ broadcast_targets t p)); naive_solver.
Qed.
End PoolSteps.

(** ** Concrete pools *)

Definition md_admin : SessionMetadata := SessionMetadata.mkSessionMetadata 1 "systemInfo" "admin" 0.
Definition md_guest : SessionMetadata := SessionMetadata.mkSessionMetadata 2 "terminal" "guest" 0.

Definition pool1 : ConnectionPool string := fst (Add 1 (Some md_admin) NewConnectionPool).

Lemma pool1_reachable : rtc pool_step NewConnectionPool pool1.
Proof. apply rtc_once, ps_add. Qed.

Lemma system_info_count_exact_witness :
  IsHavingSystemInfoConnection pool1 = true ∧ ∃ c, open_with is_system_info c pool1.
Proof.
  assert (IsHavingSystemInfoConnection pool1 = true) as H by (vm_compute; reflexivity).
  split; [exact H|].
  exact (proj1 (proj1 (proj2 (system_info_count_exact pool1 pool1_reachable))) H).
Defined.

Lemma broadcast_reaches_type_witness :
  ∃ p', BroadcastToAdminsByType "systemInfo" "cpu"%string pool1 = Ok p'.
Proof.
  destruct (broadcast_reaches_type pool1 "systemInfo" "cpu"%string pool1_reachable) as (p' & H & _).
  by exists p'.
Defined.

(** A role that is neither user nor admin is pooled as a user and never
    removed: the total keeps counting the closed connection. *)
Theorem unknown_role_leaks :
  let p := fst (Add (msg := string) 2 (Some md_guest) NewConnectionPool) in
  match Close 1 p with
  | Ok p' => GetTotalConnectionCount p' = 1 ∧ Client.closed <$> heap p' !! 1%positive = Some true
  | Err _ => False
  end.
Proof. vm_compute. split; reflexivity. Qed.

(** The targets are collected under the lock and sent to after it is released:
    when one of them closes in between, the send panics. *)
Theorem broadcast_close_race :
  let targets := broadcast_targets "systemInfo" pool1 in
  match Close 1 pool1 with
  | Ok p' => send_all "cpu"%string targets p' = Err (ErrPanic "send on closed channel")
  | Err _ => False
  end.
Proof. vm_compute. reflexivity. Qed.
