(* ===== verification/WsPump.v ===== *)
(** * The pumps of a WebSocket connection (pkg/websocket/pool.go)

    [WsPool] has the tables and the buffers; here are [ReadPump] and
    [WritePump], the two goroutines of every connection, with the clock, the
    deadlines and the frames that reach the wire.  One turn of a loop is a
    function; what the network and the handler answer is its argument.  A hub
    is the pool with the pumps of its clients, and [hub_step] interleaves turns,
    sends, closes and the passing of time. *)

From S2P Require Import Prelude GoStrings Entity External WsPool.

Open Scope Z_scope.

(** Durations are in nanoseconds. *)
Definition ws_second : Z := 1000000000.
Definition WriteWait : Z := 10 * ws_second.
Definition PongWait : Z := 60 * ws_second.
Definition PingPeriod : Z := (PongWait * 9) / 10.
(** The argument of [SetReadLimit]. *)
Definition read_limit : Z := 1024.

Inductive frame (msg : Type) : Type := Text (d : msg) | Ping | CloseFrame.
Arguments Text {msg}. Arguments Ping {msg}. Arguments CloseFrame {msg}.

(** The read goroutine before its first statement, in its loop, returned. *)
Inductive read_phase : Type := ReadStart | ReadLoop | ReadEnd.

Section Pumps.
Context {msg : Type}.

(** The goroutines of a connection and its socket.  [p_heard]: when the deadline
    was last moved; [p_tick]: when the ticker fires next; [p_net]: the socket is
    open; [p_ping]: a ping waits for its answer since then; [p_accepted]: all
    that was ever put into [Send]. *)
Record pump : Type := mkPump {
  p_read : read_phase; p_writing : bool; p_deadline : Z; p_heard : Z; p_tick : Z; p_net : bool;
  p_ping : option Z; p_wire : list (frame msg); p_accepted : list msg
}.
Record hub : Type := mkHub { h_now : Z; h_pool : ConnectionPool msg; h_pumps : gmap positive pump }.
Definition empty_hub : hub := mkHub 0 NewConnectionPool ∅.

Definition set_read (r : read_phase) (p : pump) : pump :=
  mkPump r (p_writing p) (p_deadline p) (p_heard p) (p_tick p) (p_net p) (p_ping p) (p_wire p) (p_accepted p).
Definition stop_writing (p : pump) : pump :=
  mkPump (p_read p) false (p_deadline p) (p_heard p) (p_tick p) (p_net p) (p_ping p) (p_wire p) (p_accepted p).
(** [SetReadDeadline(time.Now().Add(PongWait))]. *)
Definition refresh (now : Z) (p : pump) : pump :=
  mkPump (p_read p) (p_writing p) (now + PongWait) now (p_tick p) (p_net p) (p_ping p) (p_wire p) (p_accepted p).
Definition answered (p : pump) : pump :=
  mkPump (p_read p) (p_writing p) (p_deadline p) (p_heard p) (p_tick p) (p_net p) None (p_wire p) (p_accepted p).
Definition write_frame (f : frame msg) (p : pump) : pump :=
  mkPump (p_read p) (p_writing p) (p_deadline p) (p_heard p) (p_tick p) (p_net p) (p_ping p) (p_wire p ++ [f]) (p_accepted p).
(** The ticker fires at fixed distances. *)
Definition ticked (p : pump) : pump :=
  mkPump (p_read p) (p_writing p) (p_deadline p) (p_heard p) (p_tick p + PingPeriod) (p_net p) (p_ping p) (p_wire p) (p_accepted p).
Definition pinged (now : Z) (p : pump) : pump :=
  mkPump (p_read p) (p_writing p) (p_deadline p) (p_heard p) (p_tick p) (p_net p) (Some now) (p_wire p) (p_accepted p).
Definition hang_up (p : pump) : pump :=
  mkPump (p_read p) (p_writing p) (p_deadline p) (p_heard p) (p_tick p) false (p_ping p) (p_wire p) (p_accepted p).
Definition accept (d : msg) (p : pump) : pump :=
  mkPump (p_read p) (p_writing p) (p_deadline p) (p_heard p) (p_tick p) (p_net p) (p_ping p) (p_wire p) (p_accepted p ++ [d]).

Definition on_pump (c : positive) (f : pump → pump) (h : hub) : hub :=
  mkHub (h_now h) (h_pool h) (alter f c (h_pumps h)).
Definition with_pool (q : ConnectionPool msg) (h : hub) : hub := mkHub (h_now h) q (h_pumps h).

(** [Add] starts both goroutines; [NewTicker] is the first statement of the
    write goroutine. *)
Definition hub_Add (u : Z) (md : SessionMetadata) (h : hub) : hub :=
  let '(q, c) := Add u (Some md) (h_pool h) in
  mkHub (h_now h) q
    (<[c := mkPump ReadStart true 0 (h_now h) (h_now h + PingPeriod) true None [] []]> (h_pumps h)).

(** The deferred [c.Close()]: the tables and the channels; [c.Conn.Close()] is
    its last statement and a step of its own ([hang_up]). *)
Definition hub_Close (c : positive) (h : hub) : result hub :=
  match Close c (h_pool h) with Err e => Err e | Ok q => Ok (with_pool q h) end.
Definition end_read (c : positive) (h : hub) : result hub := hub_Close c (on_pump c (set_read ReadEnd) h).
Definition end_write (c : positive) (h : hub) : result hub := hub_Close c (on_pump c stop_writing h).

(** ** ReadPump *)

(** [deadline_ok]: [SetReadDeadline] returns nil. *)
Definition ReadPump_start (deadline_ok : bool) (c : positive) (h : hub) : result hub :=
  if negb deadline_ok then end_read c h
  else Ok (on_pump c (λ p, set_read ReadLoop (refresh (h_now h) p)) h).

(** What [ReadMessage] meets: a pong, which it gives to the handler of the
    pump; a message of some size, with what [SetReadDeadline] and the
    [MessageHandler], if there is one, return; an error, also of the deadline. *)
Inductive read_event : Type :=
  | EvPong (deadline_ok : bool)
  | EvMessage (size : Z) (deadline_ok : bool) (handled : option (result unit))
  | EvError.

Definition ReadPump_turn (ev : read_event) (c : positive) (h : hub) : result hub :=
  match ev with
  | EvPong deadline_ok =>
      if deadline_ok then Ok (on_pump c (λ p, answered (refresh (h_now h) p)) h) else end_read c h
  | EvMessage size deadline_ok handled =>
      if read_limit <? size then end_read c h
      else if negb deadline_ok then end_read c h
      else
        let h' := on_pump c (refresh (h_now h)) h in
        match handled with
        | Some (Err _) => end_read c h'
        | _ => Ok h'
        end
  | EvError => end_read c h
  end.

(** ** WritePump *)

(** Which case of the [select] runs. *)
Inductive write_case : Type := OnSend | OnTick.

(** [write_ok]: the calls that write the frame return nil, which they do not on a
    closed socket. *)
Definition sent (write_ok : bool) (c : positive) (h : hub) : bool :=
  match h_pumps h !! c with Some p => write_ok && p_net p | None => false end.

Definition WritePump_turn (k : write_case) (deadline_ok write_ok : bool) (c : positive) (h : hub) : result hub :=
  match k with
  | OnSend =>
      let '(q, m) := WritePump_take c (h_pool h) in
      let h1 := with_pool q h in
      if negb deadline_ok then end_write c h1
      else
        match m with
        | None => end_write c (if sent write_ok c h1 then on_pump c (write_frame CloseFrame) h1 else h1)
        | Some d => if sent write_ok c h1 then Ok (on_pump c (write_frame (Text d)) h1) else end_write c h1
        end
  | OnTick =>
      let h1 := on_pump c ticked h in
      if negb deadline_ok then end_write c h1
      else if sent write_ok c h1 then Ok (on_pump c (λ p, pinged (h_now h) (write_frame Ping p)) h1)
      else end_write c h1
  end.

(** ** The interleaving of the pumps *)

Definition is_closed (c : positive) (h : hub) : bool :=
  match heap (h_pool h) !! c with Some cl => Client.closed cl | None => true end.
Definition pending (c : positive) (h : hub) : bool :=
  match heap (h_pool h) !! c with Some cl => negb (bool_decide (Client.Send cl = [])) | None => false end.
Definition has_room (c : positive) (h : hub) : bool :=
  match heap (h_pool h) !! c with
  | Some cl => bool_decide (length (Client.Send cl) < send_capacity)%nat
  | None => false
  end.
(** An event that a socket in this state can give: none but an error once it is
    closed; a message or a pong before the deadline. *)
Definition event_ok (ev : read_event) (now : Z) (p : pump) : bool :=
  match ev with EvError => true | _ => p_net p && (now <? p_deadline p) end.

(** [lag]: how late the write goroutine comes to a tick; [prompt]: the
    connections whose peer answers a ping within [rtt]. *)
Variables (lag rtt : Z) (prompt : positive → Prop).

(** Time passes only while no goroutine can run: a read waits for its deadline
    at most, a goroutine that was started runs at once. *)
Definition may_wait (t : Z) (h : hub) : Prop :=
  ∀ c p, h_pumps h !! c = Some p → is_closed c h = false →
    p_read p ≠ ReadStart ∧ (p_read p = ReadLoop → t ≤ p_deadline p) ∧
    (p_writing p = true → t ≤ p_tick p + lag) ∧
    (prompt c → ∀ s, p_ping p = Some s → t ≤ s + rtt).

Inductive hub_step (h : hub) : hub → Prop :=
  | hs_add u md : hub_step h (hub_Add u md h)
  | hs_send d c q : has_room c h = true → send d c (h_pool h) = Ok q →
      hub_step h (on_pump c (accept d) (with_pool q h))
  | hs_close c h' : hub_Close c h = Ok h' → hub_step h h'
  | hs_hang_up c : is_closed c h = true → hub_step h (on_pump c hang_up h)
  | hs_read_start c p ok h' : h_pumps h !! c = Some p → p_read p = ReadStart →
      ReadPump_start ok c h = Ok h' → hub_step h h'
  | hs_read c p ev h' : h_pumps h !! c = Some p → p_read p = ReadLoop → event_ok ev (h_now h) p = true →
      ReadPump_turn ev c h = Ok h' → hub_step h h'
  | hs_write c p dl w h' : h_pumps h !! c = Some p → p_writing p = true →
      (pending c h = true ∨ is_closed c h = true) → WritePump_turn OnSend dl w c h = Ok h' → hub_step h h'
  | hs_tick c p dl w h' : h_pumps h !! c = Some p → p_writing p = true → p_tick p ≤ h_now h →
      WritePump_turn OnTick dl w c h = Ok h' → hub_step h h'
  | hs_wait t : h_now h ≤ t → may_wait t h → hub_step h (mkHub t (h_pool h) (h_pumps h)).
End Pumps.
Arguments pump : clear implicits.
Arguments hub : clear implicits.

(** * Properties *)

Section HubInv.
Context {msg : Type}.
Variables (lag rtt : Z) (prompt : positive → Prop).
Hypotheses (lag_pos : 0 ≤ lag) (rtt_pos : 0 ≤ rtt) (in_time : lag + rtt < PongWait - PingPeriod).
Implicit Types (h : hub msg) (p : pump msg) (cl : Client msg).

(** The messages among the frames. *)
Definition texts (l : list (frame msg)) : list msg :=
  omap (λ f, match f with Text d => Some d | _ => None end) l.

(** What was accepted is on the wire or still in the buffer, in order, as long
    as the write goroutine runs. *)
Definition wire_ok cl p : Prop :=
  ∃ rest, p_accepted p = texts (p_wire p) ++ rest ∧ (p_writing p = true → rest = Client.Send cl).

(** The read goroutine and its deadline. *)
Definition clock_ok (now : Z) p : Prop :=
  p_heard p ≤ now ∧
  match p_read p with
  | ReadStart => now = p_heard p ∧ p_tick p = now + PingPeriod ∧ p_ping p = None
  | ReadLoop => p_deadline p = p_heard p + PongWait ∧ now ≤ p_deadline p
  | ReadEnd => False
  end.

(** Pings come and are answered early enough. *)
Definition paced (now : Z) p : Prop :=
  now ≤ p_tick p + lag ∧
  match p_ping p with
  | None => p_tick p + lag + rtt < p_deadline p
  | Some s => s ≤ now ≤ s + rtt ∧ s + rtt < p_deadline p ∧ s - lag + PingPeriod ≤ p_tick p ≤ s + PingPeriod
  end.

Definition pump_ok (now : Z) (c : positive) cl p : Prop :=
  wire_ok cl p ∧
  (Client.closed cl = false →
     p_writing p = true ∧ p_net p = true ∧ clock_ok now p ∧
     (prompt c → p_read p = ReadLoop → paced now p)).

Definition hub_ok h : Prop :=
  ∀ c, match heap (h_pool h) !! c, h_pumps h !! c with
       | Some cl, Some p => pump_ok (h_now h) c cl p
       | None, None => True
       | _, _ => False
       end.

Lemma alter_same {A} (c : positive) (m : gmap positive A) : m = alter id c m.
Proof. symmetry. by apply alter_id. Qed.
Lemma alter_twice {A} (f g : A → A) (c : positive) (m : gmap positive A) :
  alter f c (alter g c m) = alter (f ∘ g) c m.
Proof.
  apply map_eq. intros k. destruct (decide (k = c)) as [->|?].
  - rewrite !lookup_alter_eq. by destruct (m !! c).
  - by rewrite !lookup_alter_ne.
Qed.

(** ** What the operations of the pool do to its clients *)

Definition closed_of cl : Client msg := Client.mkClient (Client.Metadata cl) (Client.Send cl) true.

Lemma Close_heap c (q q' : ConnectionPool msg) :
  Close c q = Ok q' → heap q' = alter closed_of c (heap q).
Proof.
  unfold Close. destruct (heap q !! c) as [cl|] eqn:Hc.
  2:{ intros [= <-]. by rewrite alter_id'. }
  destruct (Client.closed cl) eqn:Ho.
  - intros [= <-]. apply map_eq. intros k. destruct (decide (k = c)) as [->|?].
    + rewrite lookup_alter_eq, Hc. cbn. destruct cl; cbn in *; by subst.
    + by rewrite lookup_alter_ne.
  - destruct (close_tables c (Client.Metadata cl) q) as [q1|] eqn:Ht; [|done]. intros [= <-].
    assert (heap q1 = heap q) as -> by (unfold close_tables in Ht; repeat case_match; by simplify_eq).
    cbn. apply map_eq. intros k. destruct (decide (k = c)) as [->|?].
    + by rewrite lookup_insert_eq, lookup_alter_eq, Hc.
    + by rewrite lookup_insert_ne, lookup_alter_ne.
Qed.

(** A step at one client leaves the others alone. *)
Lemma hub_ok_at c h h' :
  hub_ok h → h_now h' = h_now h →
  (∀ k, k ≠ c → heap (h_pool h') !! k = heap (h_pool h) !! k ∧ h_pumps h' !! k = h_pumps h !! k) →
  match heap (h_pool h') !! c, h_pumps h' !! c with
  | Some cl, Some p => pump_ok (h_now h) c cl p
  | None, None => True
  | _, _ => False
  end → hub_ok h'.
Proof.
  intros Hok Hn Hk Hc k. rewrite Hn. destruct (decide (k = c)) as [->|Hne]; [done|].
  destruct (Hk k Hne) as [-> ->]. apply Hok.
Qed.

(** Changing the pump and the client of [c]. *)
Lemma hub_ok_upd c f (g : Client msg → Client msg) h h' :
  hub_ok h → h_now h' = h_now h → heap (h_pool h') = alter g c (heap (h_pool h)) →
  h_pumps h' = alter f c (h_pumps h) →
  (∀ cl p, heap (h_pool h) !! c = Some cl → h_pumps h !! c = Some p →
     pump_ok (h_now h) c cl p → pump_ok (h_now h) c (g cl) (f p)) → hub_ok h'.
Proof.
  intros Hok Hn Hh Hp Hc. eapply (hub_ok_at c h); [done|done| |].
  - intros k Hk. by rewrite Hh, Hp, !lookup_alter_ne by done.
  - rewrite Hh, Hp, !lookup_alter_eq. specialize (Hok c). specialize (Hc).
    destruct (heap (h_pool h) !! c) as [cl|], (h_pumps h !! c) as [p|]; cbn; try done. by apply Hc.
Qed.

(** A closed client only has its order of frames to keep. *)
Lemma pump_ok_closed now c cl p : Client.closed cl = true → pump_ok now c cl p ↔ wire_ok cl p.
Proof. intros Ho. unfold pump_ok. rewrite Ho. naive_solver. Qed.

Lemma hub_Close_ok c f (g : Client msg → Client msg) h h1 h' :
  hub_ok h → hub_Close c h1 = Ok h' → h_now h1 = h_now h →
  heap (h_pool h1) = alter g c (heap (h_pool h)) → h_pumps h1 = alter f c (h_pumps h) →
  (∀ cl p, heap (h_pool h) !! c = Some cl → h_pumps h !! c = Some p → wire_ok cl p →
     wire_ok (closed_of (g cl)) (f p)) →
  hub_ok h'.
Proof.
  intros Hok H Hn Hg Hf Hw. unfold hub_Close in H. destruct (Close c _) as [q|] eqn:E; [|done].
  injection H as <-. apply Close_heap in E. cbn in E.
  eapply (hub_ok_upd c f (closed_of ∘ g) h); [done|done| |done|].
  - cbn. rewrite E, Hg. by rewrite alter_twice.
  - intros cl p Hcl Hp [H1 _]. apply pump_ok_closed; [done|]. by apply Hw.
Qed.

Lemma end_read_ok c f h h1 h' :
  hub_ok h → end_read c h1 = Ok h' → h_now h1 = h_now h → h_pool h1 = h_pool h →
  h_pumps h1 = alter f c (h_pumps h) →
  (∀ p, p_accepted (f p) = p_accepted p ∧ p_wire (f p) = p_wire p ∧ p_writing (f p) = p_writing p) →
  hub_ok h'.
Proof.
  intros Hok H Hn Hq Hf Hp. eapply (hub_Close_ok c (set_read ReadEnd ∘ f) id h); [done|exact H|done| | |].
  - cbn. rewrite Hq. apply alter_same.
  - cbn. rewrite Hf. by rewrite alter_twice.
  - intros cl p _ _ (rest & Ha & Hr). destruct (Hp p) as (E1 & E2 & E3). exists rest. cbn. by rewrite E1, E2, E3.
Qed.

(** The write goroutine returns: what it had taken from the buffer is gone. *)
Lemma end_write_ok c f (g : Client msg → Client msg) h h1 h' :
  hub_ok h → end_write c h1 = Ok h' → h_now h1 = h_now h →
  heap (h_pool h1) = alter g c (heap (h_pool h)) → h_pumps h1 = alter f c (h_pumps h) →
  (∀ p, p_accepted (f p) = p_accepted p ∧ texts (p_wire (f p)) = texts (p_wire p)) →
  hub_ok h'.
Proof.
  intros Hok H Hn Hq Hf Hp. eapply (hub_Close_ok c (stop_writing ∘ f) g h); [done|exact H|done|done| |].
  - cbn. rewrite Hf. by rewrite alter_twice.
  - intros cl p _ _ (rest & Ha & Hr). destruct (Hp p) as (E1 & E2). exists rest. cbn -[texts]. by rewrite E1, E2.
Qed.

Lemma texts_app l l' : texts (l ++ l') = texts l ++ texts l'.
Proof. unfold texts. by rewrite omap_app. Qed.

Lemma PingPeriod_eq : PingPeriod = 54 * ws_second.
Proof. reflexivity. Qed.
Ltac times := rewrite ?PingPeriod_eq in *; unfold PongWait in *; lia.

(** ** The turns *)

Lemma read_start_ok c p ok h h' :
  hub_ok h → h_pumps h !! c = Some p → p_read p = ReadStart → ReadPump_start ok c h = Ok h' → hub_ok h'.
Proof.
  intros Hok Hp Hr H. unfold ReadPump_start in H. destruct ok; cbn in H.
  2:{ eapply (end_read_ok c id h h); [done|done|done|done|apply alter_same|done]. }
  injection H as <-.
  eapply (hub_ok_upd c (λ p, set_read ReadLoop (refresh (h_now h) p)) id h); [done|done|apply alter_same|done|].
  intros cl p' _ Hp' [Hw Ho]. rewrite Hp in Hp'. injection Hp' as <-. split; [exact Hw|]. intros Hc.
  destruct (Ho Hc) as (H1 & H2 & [H3 H4] & _). rewrite Hr in H4. destruct H4 as (H5 & H6 & H7).
  split_and!; [done|done|split; cbn; times|]. intros _ _. unfold paced. cbn. rewrite H6, H7. times.
Qed.

Lemma refresh_ok c p f h :
  hub_ok h → h_pumps h !! c = Some p → p_read p = ReadLoop →
  (f = refresh (h_now h) ∨ f = λ p, answered (refresh (h_now h) p)) → hub_ok (on_pump c f h).
Proof.
  intros Hok Hp Hr Hf. eapply (hub_ok_upd c f id h); [done|done|apply alter_same|done|].
  intros cl p' _ Hp' [Hw Ho]. rewrite Hp in Hp'. injection Hp' as <-.
  split; [destruct Hf as [-> | ->]; exact Hw|]. intros Hc.
  destruct (Ho Hc) as (H1 & H2 & [H3 H4] & Hpace). rewrite Hr in H4. destruct H4 as [H5 H6].
  split_and!; [by destruct Hf as [-> | ->]..| |].
  - destruct Hf as [-> | ->]; split; cbn; rewrite ?Hr; times.
  - intros Hpr _. destruct (Hpace Hpr Hr) as [H7 H8].
    destruct Hf as [-> | ->]; unfold paced; cbn; destruct (p_ping p); times.
Qed.

Lemma read_turn_ok c p ev h h' :
  hub_ok h → h_pumps h !! c = Some p → p_read p = ReadLoop → ReadPump_turn ev c h = Ok h' → hub_ok h'.
Proof.
  intros Hok Hp Hr H.
  assert (∀ h', end_read c h = Ok h' → hub_ok h') as Hend
    by (intros x Hx; eapply (end_read_ok c id h h); [done|done|done|done|apply alter_same|done]).
  destruct ev as [[]|size [] handled|]; cbn in H; eauto.
  - injection H as <-. eapply refresh_ok; eauto.
  - destruct (read_limit <? size); [eauto|].
    assert (hub_ok (on_pump c (refresh (h_now h)) h)) as Href by (eapply refresh_ok; eauto).
    destruct handled as [[u|e]|]; try (injection H as <-; done).
    eapply (end_read_ok c id _ _ h' Href H); [done|done|apply alter_same|done].
  - destruct (read_limit <? size); eauto.
Qed.

(** Taking the oldest message. *)
Definition taken cl : Client msg := Client.mkClient (Client.Metadata cl) (tail (Client.Send cl)) (Client.closed cl).
Lemma take_heap c (q : ConnectionPool msg) :
  heap (WritePump_take c q).1 = alter taken c (heap q) ∧
  (WritePump_take c q).2 = match heap q !! c with Some cl => head (Client.Send cl) | None => None end.
Proof.
  unfold WritePump_take. destruct (heap q !! c) as [cl|] eqn:Hc.
  2:{ split; [|done]. by rewrite alter_id'. }
  destruct cl as [md [|d ds] b] eqn:E; cbn; (split; [|done]); apply map_eq; intros k;
    (destruct (decide (k = c)) as [->|?]; [rewrite ?lookup_insert_eq, lookup_alter_eq, Hc|
      rewrite ?lookup_insert_ne, lookup_alter_ne by done]); done.
Qed.

Lemma sent_net w c h p : h_pumps h !! c = Some p → sent w c h = true → w = true ∧ p_net p = true.
Proof. unfold sent. intros ->. by intros ?%andb_true_iff. Qed.

(** A text frame, a close frame and a return of the write goroutine. *)
Lemma write_send_ok c p dl w h h' :
  hub_ok h → h_pumps h !! c = Some p → p_writing p = true →
  WritePump_turn OnSend dl w c h = Ok h' → hub_ok h'.
Proof.
  intros Hok Hp Hw H. unfold WritePump_turn in H. destruct (take_heap c (h_pool h)) as [Hq Hm].
  destruct (WritePump_take c (h_pool h)) as [q m]. cbn in Hq, Hm.
  assert (∀ h', end_write c (with_pool q h) = Ok h' → hub_ok h') as Hend
    by (intros x Hx; eapply (end_write_ok c id taken h); [done|exact Hx|done|done|apply alter_same|done]).
  destruct dl; cbn [negb] in H; [|eauto].
  destruct m as [d|].
  - destruct (sent w c (with_pool q h)); [|eauto]. injection H as <-.
    eapply (hub_ok_upd c (write_frame (Text d)) taken h); [done|done|done|done|].
    intros cl p' Hcl Hp' [(rest & Ha & Hr) Ho]. rewrite Hp in Hp'. injection Hp' as <-.
    rewrite Hcl in Hm. specialize (Hr Hw). subst rest. destruct (Client.Send cl) as [|d' ds] eqn:Es; [done|].
    injection Hm as ->. split.
    + exists ds. cbn -[texts]. rewrite texts_app, Ha, <- app_assoc, Es. done.
    + exact Ho.
  - destruct (sent w c (with_pool q h)); [|eauto].
    eapply (end_write_ok c (write_frame CloseFrame) taken h); [done|exact H|done|done|done|].
    intros x. cbn -[texts]. rewrite texts_app. cbn. by rewrite app_nil_r.
Qed.

Lemma write_tick_ok c p dl w h h' :
  hub_ok h → h_pumps h !! c = Some p → p_writing p = true → p_tick p ≤ h_now h →
  WritePump_turn OnTick dl w c h = Ok h' → hub_ok h'.
Proof.
  intros Hok Hp Hw Ht H. unfold WritePump_turn in H.
  assert (∀ h', end_write c (on_pump c ticked h) = Ok h' → hub_ok h') as Hend
    by (intros x Hx; eapply (end_write_ok c ticked id h); [done|exact Hx|done|apply alter_same|done|done]).
  destruct dl; cbn [negb] in H; [|eauto]. destruct (sent w c _); [|eauto]. injection H as <-.
  eapply (hub_ok_upd c (λ p, pinged (h_now h) (write_frame Ping (ticked p))) id h);
    [done|done|apply alter_same|cbn; by rewrite alter_twice|].
  intros cl p' Hcl Hp' [Hwire Ho]. rewrite Hp in Hp'. injection Hp' as <-. split.
  - destruct Hwire as (rest & Ha & Hr). exists rest. cbn -[texts]. rewrite texts_app. cbn. by rewrite app_nil_r.
  - intros Hc. destruct (Ho Hc) as (H1 & H2 & [H3 H4] & Hpace). split_and!; [done|done| |].
    + split; [done|]. cbn. destruct (p_read p); [times|done|done].
    + intros Hpr Hr. cbn in Hr. destruct (Hpace Hpr Hr) as [H5 H6]. unfold paced. cbn.
      destruct (p_ping p); times.
Qed.

Lemma send_heap d c (q q' : ConnectionPool msg) :
  send d c q = Ok q' → (∀ cl, heap q !! c = Some cl → (length (Client.Send cl) < send_capacity)%nat) →
  heap q' = alter (λ cl, Client.mkClient (Client.Metadata cl) (Client.Send cl ++ [d]) (Client.closed cl)) c (heap q).
Proof.
  unfold send. destruct (heap q !! c) as [cl|] eqn:Hc.
  2:{ intros [= <-] _. by rewrite alter_id'. }
  destruct (Client.closed cl) eqn:Ho; [done|]. intros H Hl. specialize (Hl cl eq_refl).
  rewrite decide_True in H by done. injection H as <-. cbn. apply map_eq. intros k.
  destruct (decide (k = c)) as [->|?].
  - by rewrite lookup_insert_eq, lookup_alter_eq, Hc, <- Ho.
  - by rewrite lookup_insert_ne, lookup_alter_ne.
Qed.

Lemma hub_Add_ok u md h : hub_ok h → hub_ok (hub_Add u md h).
Proof.
  intros Hok. unfold hub_Add. pose proof (fresh_heap (h_pool h)) as Hf.
  assert (heap (Add u (Some md) (h_pool h)).1 =
    <[fresh (dom (heap (h_pool h))) := Client.mkClient (Some md) [] false]> (heap (h_pool h)) ∧
    (Add u (Some md) (h_pool h)).2 = fresh (dom (heap (h_pool h)))) as [Hh Hc].
  { unfold Add. by destruct (has_role _ _). }
  destruct (Add u (Some md) (h_pool h)) as [q c]. cbn in Hh, Hc. subst c.
  set (c := fresh (dom (heap (h_pool h)))) in *.
  eapply (hub_ok_at c h); [done|done| |].
  - intros k Hk. cbn. by rewrite Hh, !lookup_insert_ne by done.
  - cbn. rewrite Hh, !lookup_insert_eq. split; [by exists []|]. intros _.
    split_and!; [done|done|split; cbn; [lia|done]|done].
Qed.

Lemma hub_wait_ok t h :
  hub_ok h → h_now h ≤ t → may_wait lag rtt prompt t h → hub_ok (mkHub t (h_pool h) (h_pumps h)).
Proof.
  intros Hok Ht Hw c. specialize (Hok c). cbn. destruct (heap (h_pool h) !! c) as [cl|] eqn:Hcl; [|done].
  destruct (h_pumps h !! c) as [p|] eqn:Hp; [|done]. destruct Hok as [H1 Ho]. split; [done|].
  intros Hc. destruct (Ho Hc) as (H2 & H3 & [H4 H5] & Hpace).
  destruct (Hw c p Hp) as (W1 & W2 & W3 & W4); [unfold is_closed; by rewrite Hcl|].
  split_and!; [done|done| |].
  - split; [lia|]. destruct (p_read p); [done| |done]. destruct H5. split; [done|auto].
  - intros Hpr Hr. destruct (Hpace Hpr Hr) as [H6 H7]. split; [auto|].
    destruct (p_ping p) as [s|]; [|done]. specialize (W4 Hpr s eq_refl). lia.
Qed.

Lemma hub_step_ok h h' : hub_step lag rtt prompt h h' → hub_ok h → hub_ok h'.
Proof.
  intros Hs Hok. destruct Hs as [u md|d c q Hroom Hq|c h' H|c Hc|c p ok h' Hp Hr H|c p ev h' Hp Hr _ H
    |c p dl w h' Hp Hw _ H|c p dl w h' Hp Hw Ht H|t Ht Hw].
  - by apply hub_Add_ok.
  - apply send_heap in Hq.
    2:{ intros cl Hcl. unfold has_room in Hroom. rewrite Hcl in Hroom. by apply bool_decide_eq_true in Hroom. }
    eapply (hub_ok_upd c (accept d) _ h); [done|done|exact Hq|done|].
    intros cl p _ _ [(rest & Ha & Hr) Ho]. split; [|exact Ho].
    exists (rest ++ [d]). cbn -[texts]. split; [by rewrite Ha, <- app_assoc|]. intros Hw. by rewrite (Hr Hw).
  - eapply (hub_Close_ok c id id h h); [done|done|done|apply alter_same|apply alter_same|done].
  - eapply (hub_ok_upd c hang_up id h); [done|done|apply alter_same|done|].
    intros cl p Hcl _ [Hw Ho]. unfold is_closed in Hc. rewrite Hcl in Hc.
    by apply pump_ok_closed; [exact Hc|].
  - by eapply read_start_ok.
  - by eapply read_turn_ok.
  - by eapply write_send_ok.
  - by eapply write_tick_ok.
  - by apply hub_wait_ok.
Qed.

Lemma hub_reachable_ok h : rtc (hub_step lag rtt prompt) empty_hub h → hub_ok h.
Proof.
  intros H. assert (hub_ok (empty_hub (msg := msg))) as H0 by (intros c; cbn; by rewrite !lookup_empty).
  revert H H0. generalize (empty_hub (msg := msg)). intros h0. induction 1; eauto using hub_step_ok.
Qed.

(** The pool of a hub is one of [WsPool]. *)
Lemma hub_Close_pool c h h' : hub_Close c h = Ok h' → pool_step (h_pool h) (h_pool h').
Proof. unfold hub_Close. destruct (Close c (h_pool h)) eqn:E; [|done]. intros [= <-]. by eapply ps_close. Qed.
Lemma take_pool c (q : ConnectionPool msg) : pool_step q (WritePump_take c q).1.
Proof. apply ps_write. Qed.

Lemma write_turn_pool k dl w c h h' :
  WritePump_turn k dl w c h = Ok h' → rtc pool_step (h_pool h) (h_pool h').
Proof.
  unfold WritePump_turn. destruct k.
  - pose proof (take_pool c (h_pool h)) as Ht. destruct (WritePump_take c (h_pool h)) as [q m]. intros H.
    eapply rtc_l; [exact Ht|]. clear Ht. destruct dl; cbn [negb] in H.
    2:{ apply rtc_once. by apply (hub_Close_pool c) in H. }
    destruct m; destruct (sent _ _ _); try (apply rtc_once; by apply (hub_Close_pool c) in H).
    by injection H as <-.
  - intros H. destruct dl; cbn [negb] in H; [destruct (sent _ _ _)|]; [by injection H as <-|..];
      apply rtc_once; by apply (hub_Close_pool c) in H.
Qed.

Lemma read_turn_pool ev c h h' : ReadPump_turn ev c h = Ok h' → rtc pool_step (h_pool h) (h_pool h').
Proof.
  assert (∀ h1, end_read c h1 = Ok h' → rtc pool_step (h_pool h1) (h_pool h')) as Hend
    by (intros h1 H; apply rtc_once; by apply (hub_Close_pool c) in H).
  intros H. destruct ev as [[]|size [] handled|]; cbn in H.
  - by injection H as <-.
  - by apply Hend in H.
  - destruct (read_limit <? size); [by apply Hend in H|]. destruct handled as [[|]|]; [by injection H as <-| |by injection H as <-].
    by apply Hend in H.
  - destruct (read_limit <? size); by apply Hend in H.
  - by apply Hend in H.
Qed.

Lemma hub_step_pool h h' : hub_step lag rtt prompt h h' → rtc pool_step (h_pool h) (h_pool h').
Proof.
  intros [u md|d c q _ Hq|c h1 H|c _|c p ok h1 _ _ H|c p ev h1 _ _ _ H|c p dl w h1 _ _ _ H|c p dl w h1 _ _ _ H|t _ _].
  - unfold hub_Add. pose proof (ps_add u (Some md) (h_pool h)) as Ha. destruct (Add _ _ _) as [q c]. by apply rtc_once.
  - apply rtc_once. by eapply ps_send.
  - apply rtc_once. by eapply hub_Close_pool.
  - done.
  - unfold ReadPump_start in H. destruct ok; cbn in H; [by injection H as <-|].
    apply rtc_once. by apply (hub_Close_pool c) in H.
  - by eapply read_turn_pool.
  - by eapply write_turn_pool.
  - by eapply write_turn_pool.
  - done.
Qed.

Lemma hub_reachable_pool h :
  rtc (hub_step lag rtt prompt) empty_hub h → rtc pool_step NewConnectionPool (h_pool h).
Proof.
  intros H. change NewConnectionPool with (h_pool (empty_hub (msg := msg))).
  induction H as [|h1 h2 h3 Hs _ IH]; [done|]. etrans; [by eapply hub_step_pool|done].
Qed.

(** C30: the keep-alive.  In every interleaving of the pumps of all connections
    with sends, closes and the passing of time: a connection that is open in the
    pool has both its goroutines and was heard of within the last minute, so the
    pool pushes system information only for such connections; and one whose
    peer answers pings does not run into its deadline, as long as the delay of a
    ping and the way to the peer and back take less than six seconds. *)
Theorem pumps_keep_alive h :
  rtc (hub_step lag rtt prompt) empty_hub h →
  (∀ c cl, heap (h_pool h) !! c = Some cl → Client.closed cl = false →
     ∃ p, h_pumps h !! c = Some p ∧ p_read p ≠ ReadEnd ∧ p_writing p = true ∧ p_net p = true ∧
       h_now h - p_heard p ≤ PongWait ∧
       (prompt c → p_read p = ReadLoop → h_now h < p_deadline p)) ∧
  (IsHavingSystemInfoConnection (h_pool h) = true →
     ∃ c p, open_with is_system_info c (h_pool h) ∧ h_pumps h !! c = Some p ∧ h_now h - p_heard p ≤ PongWait).
Proof.
  intros Hr. assert (∀ c cl, heap (h_pool h) !! c = Some cl → Client.closed cl = false →
     ∃ p, h_pumps h !! c = Some p ∧ p_read p ≠ ReadEnd ∧ p_writing p = true ∧ p_net p = true ∧
       h_now h - p_heard p ≤ PongWait ∧ (prompt c → p_read p = ReadLoop → h_now h < p_deadline p)) as Hall.
  { intros c cl Hcl Hc. pose proof (hub_reachable_ok h Hr c) as Hok. rewrite Hcl in Hok.
    destruct (h_pumps h !! c) as [p|]; [|done]. exists p. destruct Hok as [_ Ho].
    destruct (Ho Hc) as (H1 & H2 & [H3 H4] & Hpace). split; [done|].
    split; [by destruct (p_read p)|]. split; [done|]. split; [done|]. split.
    - destruct (p_read p); [times|times|done].
    - intros Hpr Hrd. destruct (Hpace Hpr Hrd) as [H5 H6]. destruct (p_ping p); lia. }
  split; [exact Hall|]. intros Hi. destruct (pool_reachable_inv _ (hub_reachable_pool h Hr)) as (Ha & Hc & _).
  unfold IsHavingSystemInfoConnection in Hi. apply Z.ltb_lt in Hi. rewrite Hc in Hi.
  assert (system_info_clients (h_pool h) ≠ ∅) as Hne by (intros He; rewrite He, size_empty in Hi; done).
  apply set_choose_L in Hne as [c Hin]. apply system_info_elem in Hin; [|done].
  destruct Hin as (cl & Hcl & Ho & Hs). destruct (Hall c cl Hcl Ho) as (p & Hp & _ & _ & _ & Hh & _).
  exists c, p. split; [by exists cl|done].
Qed.

(** the frames of a connection carry the messages its buffer accepted, in
    their order, each at most once; while the write goroutine runs what is not
    yet on the wire is the buffer. *)
Theorem frames_in_order h c p :
  rtc (hub_step lag rtt prompt) empty_hub h → h_pumps h !! c = Some p →
  (∃ rest, p_accepted p = texts (p_wire p) ++ rest) ∧
  (p_writing p = true → ∃ cl, heap (h_pool h) !! c = Some cl ∧ p_accepted p = texts (p_wire p) ++ Client.Send cl).
Proof.
  intros Hr Hp. pose proof (hub_reachable_ok h Hr c) as Hok. rewrite Hp in Hok.
  destruct (heap (h_pool h) !! c) as [cl|]; [|done]. destruct Hok as [(rest & Ha & Hw) _].
  split; [by exists rest|]. intros Hwr. exists cl. by rewrite Ha, (Hw Hwr).
Qed.

(** once a connection is closed and hung up each of its goroutines returns at
    its next turn. *)
Theorem pumps_end c p h h' :
  h_pumps h !! c = Some p → p_net p = false →
  (∀ k dl w, WritePump_turn k dl w c h = Ok h' → p_writing <$> h_pumps h' !! c = Some false) ∧
  (∀ ev, event_ok ev (h_now h) p = true → ReadPump_turn ev c h = Ok h' → p_read <$> h_pumps h' !! c = Some ReadEnd).
Proof.
  intros Hp Hn.
  assert (∀ h1, p_writing ∘ stop_writing <$> h_pumps h1 !! c = Some false → end_write c h1 = Ok h' →
    p_writing <$> h_pumps h' !! c = Some false) as Hend.
  { intros h1 Hw H. unfold end_write, hub_Close in H. destruct (Close c _); [|done]. injection H as <-. cbn.
    rewrite lookup_alter_eq. by destruct (h_pumps h1 !! c). }
  split.
  - intros k dl w H. unfold WritePump_turn in H.
    destruct k; [destruct (WritePump_take c (h_pool h)) as [q m]|].
    + assert (sent w c (with_pool q h) = false) as Hs by (unfold sent; cbn; by rewrite Hp, Hn, andb_false_r).
      rewrite Hs in H. destruct dl; cbn [negb] in H; [destruct m|]; (eapply Hend; [|exact H]); cbn; by rewrite Hp.
    + assert (sent w c (on_pump c ticked h) = false) as Hs
        by (unfold sent; cbn; rewrite lookup_alter_eq, Hp; cbn; by rewrite Hn, andb_false_r).
      rewrite Hs in H. destruct dl; cbn [negb] in H; (eapply Hend; [|exact H]); cbn; by rewrite lookup_alter_eq, Hp.
  - intros ev He H. destruct ev; cbn in He; [by rewrite Hn in He..|]. cbn in H. unfold end_read, hub_Close in H.
    destruct (Close c _); [|done]. injection H as <-. cbn. by rewrite lookup_alter_eq, Hp.
Qed.
End HubInv.

(** ** Concrete runs *)

Definition run_hub (r : result (hub string)) (h : hub string) : hub string :=
  match r with Ok h' => h' | Err _ => h end.
Definition wait_until (t : Z) (h : hub string) : hub string := mkHub t (h_pool h) (h_pumps h).

(** An administrator connects, gets a ping after 54 seconds, answers it a second
    later, and receives a message. *)
Definition hub1 : hub string := hub_Add 1 md_admin empty_hub.
Definition hub2 : hub string := run_hub (ReadPump_start true 1 hub1) hub1.
Definition hub3 : hub string := wait_until (54 * ws_second) hub2.
Definition hub4 : hub string := run_hub (WritePump_turn OnTick true true 1 hub3) hub3.
Definition hub5 : hub string := wait_until (55 * ws_second) hub4.
Definition hub6 : hub string := run_hub (ReadPump_turn (EvPong true) 1 hub5) hub5.

Definition demo_step : hub string → hub string → Prop := hub_step ws_second (4 * ws_second) (λ _, True).

Lemma single_wait t p (h : hub string) :
  h_pumps h = {[1%positive := p]} → p_read p = ReadLoop → t ≤ p_deadline p → t ≤ p_tick p + ws_second →
  (∀ s, p_ping p = Some s → t ≤ s + 4 * ws_second) →
  may_wait ws_second (4 * ws_second) (λ _, True) t h.
Proof.
  intros Hh Hr H1 H2 H3 c q Hq _. rewrite Hh in Hq. apply lookup_singleton_Some in Hq as [_ <-].
  rewrite Hr. split_and!; auto.
Qed.

Lemma hub_run : rtc demo_step empty_hub hub6.
Proof.
  eapply rtc_l; [exact (hs_add _ _ _ empty_hub 1 md_admin)|]. fold hub1.
  eapply rtc_l; [eapply (hs_read_start _ _ _ hub1 1 _ true hub2); vm_compute; reflexivity|].
  eapply rtc_l; [eapply (hs_wait _ _ _ hub2 (54 * ws_second)); [vm_compute; discriminate|]|].
  { eapply single_wait; [vm_compute; reflexivity|reflexivity|vm_compute; discriminate..|]. intros s Hs. discriminate Hs. }
  fold (wait_until (54 * ws_second) hub2). fold hub3.
  eapply rtc_l; [eapply (hs_tick _ _ _ hub3 1 _ true true hub4);
    [vm_compute; reflexivity|reflexivity|vm_compute; discriminate|vm_compute; reflexivity]|].
  eapply rtc_l; [eapply (hs_wait _ _ _ hub4 (55 * ws_second)); [vm_compute; discriminate|]|].
  { eapply single_wait; [vm_compute; reflexivity|reflexivity|vm_compute; discriminate..|].
    intros s [= <-]. vm_compute. discriminate. }
  fold (wait_until (55 * ws_second) hub4). fold hub5.
  apply rtc_once. eapply (hs_read _ _ _ hub5 1 _ (EvPong true) hub6); vm_compute; reflexivity.
Qed.

Lemma pumps_keep_alive_witness :
  IsHavingSystemInfoConnection (h_pool hub6) = true ∧
  ∃ c p, open_with is_system_info c (h_pool hub6) ∧ h_pumps hub6 !! c = Some p ∧ h_now hub6 - p_heard p ≤ PongWait.
Proof.
  assert (IsHavingSystemInfoConnection (h_pool hub6) = true) as H by (vm_compute; reflexivity).
  split; [exact H|].
  assert (0 ≤ ws_second) as H1 by (vm_compute; discriminate).
  assert (0 ≤ 4 * ws_second) as H2 by (vm_compute; discriminate).
  assert (ws_second + 4 * ws_second < PongWait - PingPeriod) as H3 by (vm_compute; reflexivity).
  exact (proj2 (pumps_keep_alive ws_second (4 * ws_second) (λ _, True) H1 H2 H3 hub6 hub_run) H).
Defined.

(** A write that blocks for nearly [WriteWait] delays the ping beyond the
    deadline: [PingPeriod] is below [PongWait], but not by [WriteWait], and a
    peer that answers at once is cut off. *)
Example slow_write_cuts_off :
  PingPeriod < PongWait ∧ PongWait < PingPeriod + WriteWait.
Proof. vm_compute. split; reflexivity. Qed.

(** A message above the read limit ends the connection: 1100 bytes pasted into a
    terminal close it. *)
Example long_input_closes :
  is_closed 1 (run_hub (ReadPump_turn (EvMessage 1100 true (Some (Ok tt))) 1 hub6) hub6) = true.
Proof. vm_compute. reflexivity. Qed.

(** [Close] closes the channel and then the socket, so that the close frame the
    write goroutine sends when it sees the closed channel does not reach the
    peer; it does only if the goroutine runs between the two statements. *)
Definition closed_hub : hub string := run_hub (hub_Close 1 hub6) hub6.
Example close_frame_lost :
  p_wire <$> h_pumps (run_hub (WritePump_turn OnSend true true 1 (on_pump 1 hang_up closed_hub)) closed_hub) !! 1%positive
    = Some [Ping] ∧
  p_wire <$> h_pumps (run_hub (WritePump_turn OnSend true true 1 closed_hub) closed_hub) !! 1%positive
    = Some [Ping; CloseFrame].
Proof. vm_compute. split; reflexivity. Qed.
