(* ===== verification/SshSessions.v ===== *)
(** * SSH sessions (pkg/ssh/session_manager.go)

    Sessions are shared pointers: the manager maps a key "userID:isRoot" to a
    reference into a heap of sessions, and callers keep references they were
    given.  Dialling a host ([server.NewClient]), closing a client and running
    a probe command are not under the repository's control: they are given as
    the outcome of the call. *)

From S2P Require Import Prelude GoStrings Float64 Entity External.

Open Scope Z_scope.

Module Config.
Record Config : Type := mkConfig {
  ServerHost : string; RootUsername : string; RootPassword : string;
  PrivateKeyPath : string; PrivateKeyPassphrase : string;
  Timeout : Z; SessionTimeout : Z
}.
End Config.
Notation Config := Config.Config.

(** [server.Config]: what is dialled. *)
Module DialConfig.
Record DialConfig : Type := mkDialConfig {
  Host : string; Username : string; Password : string; Timeout : Z;
  PrivateKeyPath : string; PrivateKeyPassphrase : string
}.
End DialConfig.
Notation DialConfig := DialConfig.DialConfig.

Module UserSession.
(** [Client]: [None] is the nil pointer; [closed]: [Close] was called on it. *)
Record UserSession : Type := mkUserSession {
  Client : option positive; UserID : Z; Username : string; Password : string;
  CreatedAt : Z; LastUsedAt : Z; IsRootUser : bool; closed : bool
}.
Definition touch (now : Z) (s : UserSession) : UserSession :=
  mkUserSession (Client s) (UserID s) (Username s) (Password s) (CreatedAt s) now (IsRootUser s)
    (closed s).
(** [Close]: the client, if any, is closed. *)
Definition close (s : UserSession) : UserSession :=
  mkUserSession (Client s) (UserID s) (Username s) (Password s) (CreatedAt s) (LastUsedAt s)
    (IsRootUser s) true.
End UserSession.
Notation UserSession := UserSession.UserSession.

(** [stopped]: [stopChan] is closed. *)
Record SessionManager : Type := mkManager {
  Cfg : Config;
  sessions : gmap string positive;
  store : gmap positive UserSession;
  stopped : bool
}.

Definition set_sessions (m : gmap string positive) (sm : SessionManager) : SessionManager :=
  mkManager (Cfg sm) m (store sm) (stopped sm).
Definition update (r : positive) (f : UserSession → UserSession) (sm : SessionManager) : SessionManager :=
  mkManager (Cfg sm) (sessions sm) (alter f r (store sm)) (stopped sm).

(** [fmt.Sprintf("%d:%v", userID, isRoot)]. *)
Definition getSessionKey (userID : Z) (isRoot : bool) : string :=
  Itoa userID +:+ String colon (if isRoot then "true" else "false").

Definition GetRootUsername (c : Config) : string :=
  if String.eqb (Config.RootUsername c) "" then "root" else Config.RootUsername c.
Definition GetRootPassword (c : Config) : string := Config.RootPassword c.
Definition SetTimeout (t : Z) (c : Config) : Config :=
  Config.mkConfig (Config.ServerHost c) (Config.RootUsername c) (Config.RootPassword c)
    (Config.PrivateKeyPath c) (Config.PrivateKeyPassphrase c) t (Config.SessionTimeout c).
Definition GetTimeout (c : Config) : Z :=
  if 0 <? Config.Timeout c then Config.Timeout c else 30 * 1000000000.

Definition NewSessionManager (c : Config) : SessionManager :=
  mkManager (if Config.Timeout c =? 0 then SetTimeout (30 * 1000000000) c else c) ∅ ∅ false.

(** The configuration [CreateSession] dials with. *)
Definition dial_config (c : Config) (username password : string) (isRoot : bool) : DialConfig :=
  DialConfig.mkDialConfig (Config.ServerHost c)
    (if isRoot then GetRootUsername c else username)
    (if isRoot && negb (String.eqb (Config.RootPassword c) "") then Config.RootPassword c else password)
    (GetTimeout c)
    (if isRoot then Config.PrivateKeyPath c else "")
    (if isRoot then Config.PrivateKeyPassphrase c else "").

(** Store a session under its key; the one it replaces is closed. *)
Definition put_session (key : string) (s : UserSession) (sm : SessionManager)
  : SessionManager * positive :=
  let sm := match sessions sm !! key with
            | Some old => update old UserSession.close sm
            | None => sm
            end in
  let r := fresh (dom (store sm)) in
  (mkManager (Cfg sm) (<[key := r]> (sessions sm)) (<[r := s]> (store sm)) (stopped sm), r).

(** [CreateSession]; [dialled] is the answer of [server.NewClient] to
    [dial_config]. *)
Definition CreateSession (now userID : Z) (username password : string) (isRoot : bool)
  (dialled : result positive) (sm : SessionManager) : SessionManager * result positive :=
  match dialled with
  | Err e => (sm, Err (ErrWrap "SSH连接失败" e))
  | Ok client =>
      let s := UserSession.mkUserSession (Some client) userID
                 (if isRoot then GetRootUsername (Cfg sm) else username) password now now isRoot false in
      let '(sm', r) := put_session (getSessionKey userID isRoot) s sm in
      (sm', Ok r)
  end.

(** [AddSession] of a session object the caller built. *)
Definition AddSession (userID : Z) (s : UserSession) (sm : SessionManager) : SessionManager :=
  fst (put_session (getSessionKey userID (UserSession.IsRootUser s)) s sm).

Definition GetSession (now userID : Z) (isRoot : bool) (sm : SessionManager)
  : SessionManager * result positive :=
  match sessions sm !! getSessionKey userID isRoot with
  | None => (sm, Err (ErrMsg "SSH会话不存在"))
  | Some r => (update r (UserSession.touch now) sm, Ok r)
  end.

Definition DeleteSession (userID : Z) (isRoot : bool) (sm : SessionManager) : SessionManager :=
  match sessions sm !! getSessionKey userID isRoot with
  | None => sm
  | Some r =>
      update r UserSession.close
        (set_sessions (delete (getSessionKey userID isRoot) (sessions sm)) sm)
  end.

(** [isSessionValid]: a nil client is invalid, else the probe decides. *)
Definition isSessionValid (probe : bool) (r : positive) (sm : SessionManager) : bool :=
  match store sm !! r with
  | Some s => match UserSession.Client s with None => false | Some _ => probe end
  | None => false
  end.

Definition GetOrCreateSession (now userID : Z) (username password : string) (isRoot : bool)
  (probe : bool) (dialled : result positive) (sm : SessionManager)
  : SessionManager * result positive :=
  let '(sm1, g) := GetSession now userID isRoot sm in
  match g with
  | Ok r =>
      if isSessionValid probe r sm1 then (sm1, Ok r)
      else CreateSession now userID username password isRoot dialled (DeleteSession userID isRoot sm1)
  | Err _ => CreateSession now userID username password isRoot dialled sm1
  end.

Definition GetSessionWithFallback (now userID : Z) (preferRoot : bool) (sm : SessionManager)
  : SessionManager * result positive :=
  let '(sm1, g) := GetSession now userID preferRoot sm in
  match g with
  | Ok r => (sm1, Ok r)
  | Err _ =>
      let '(sm2, g2) := GetSession now userID (negb preferRoot) sm1 in
      match g2 with
      | Ok r => (sm2, Ok r)
      | Err _ => (sm2, Err (ErrMsg "未找到任何有效会话"))
      end
  end.

(** A test on the session a reference points to. *)
Definition ref_is (P : UserSession → bool) (sm : SessionManager) (r : positive) : bool :=
  match store sm !! r with
  | Some s => P s
  | None => false
  end.

(** Close the sessions that satisfy a test and drop their keys. *)
Definition drop_sessions (P : UserSession → bool) (sm : SessionManager) : SessionManager :=
  let gone := (map_to_list (filter (λ x, ref_is P sm x.2 = true) (sessions sm))).*2 in
  foldr (λ r, update r UserSession.close)
    (set_sessions (filter (λ x, ref_is P sm x.2 = false) (sessions sm)) sm) gone.

Definition CloseAllSessionsForUser (userID : Z) (sm : SessionManager) : SessionManager :=
  drop_sessions (λ s, UserSession.UserID s =? userID) sm.

(** [now.Sub(lastUsed) > SessionTimeout]. *)
Definition expired (now timeout : Z) (s : UserSession) : bool :=
  timeout <? dur_sub now (UserSession.LastUsedAt s).
Definition cleanupExpiredSessions (now : Z) (sm : SessionManager) : SessionManager :=
  drop_sessions (expired now (Config.SessionTimeout (Cfg sm))) sm.

(** One tick of [StartCleanupTimer]; no timer runs without a timeout. *)
Definition cleanup_tick (now : Z) (sm : SessionManager) : SessionManager :=
  if (Config.SessionTimeout (Cfg sm) <=? 0) || stopped sm then sm
  else cleanupExpiredSessions now sm.

Definition HasSession (userID : Z) (isRoot : bool) (sm : SessionManager) : bool :=
  bool_decide (is_Some (sessions sm !! getSessionKey userID isRoot)).
Definition GetActiveSessionCount (sm : SessionManager) : Z := Z.of_nat (size (sessions sm)).

(** [CloseAll]: closing [stopChan] twice panics. *)
Definition CloseAll (sm : SessionManager) : result SessionManager :=
  if stopped sm then Err (ErrPanic "close of closed channel")
  else
    let sm' := drop_sessions (λ _, true) sm in
    Ok (mkManager (Cfg sm') ∅ (store sm') true).

(** ** Keys *)

Lemma Itoa_no_colon z : all_chars (λ x, negb (Ascii.eqb x colon)) (Itoa z) = true.
Proof.
  eapply all_chars_impl; [|apply Itoa_chars].
  intros c Hc. apply negb_true_iff. by destruct (Ascii.eqb_spec c colon) as [->|].
Qed.

(** The key tells users and roles apart. *)
Lemma getSessionKey_inj u r u' r' : getSessionKey u r = getSessionKey u' r' → u = u' ∧ r = r'.
Proof.
  intros H. apply (f_equal (Split colon)) in H. unfold getSessionKey in H.
  rewrite !Split_app in H by apply Itoa_no_colon. injection H as H1 H2.
  split; [by apply (inj Itoa)|]. by destruct r, r'.
Qed.

(** ** The manager's invariant *)

Definition key_of (s : UserSession) : string :=
  getSessionKey (UserSession.UserID s) (UserSession.IsRootUser s).

(** Every key maps to an open session of the user and role of the key. *)
Definition sm_inv (sm : SessionManager) : Prop :=
  ∀ key r, sessions sm !! key = Some r →
    ∃ s, store sm !! r = Some s ∧ key = key_of s ∧ UserSession.closed s = false.

(** Distinct keys have distinct references. *)
Lemma sm_inv_inj sm k k' r : sm_inv sm → sessions sm !! k = Some r → sessions sm !! k' = Some r → k = k'.
Proof. intros Hi H1 H2. destruct (Hi _ _ H1) as (s & ? & ? & _), (Hi _ _ H2) as (s' & ? & ? & _). congruence. Qed.

(** Changing a session that is not in the table, or in a way that keeps its
    identity. *)
Lemma update_inv r f sm :
  sm_inv sm →
  (∀ s, key_of (f s) = key_of s) →
  (∀ key, sessions sm !! key = Some r → ∀ s, UserSession.closed (f s) = UserSession.closed s) →
  sm_inv (update r f sm).
Proof.
  intros Hi Hk Hc key r' Hl. cbn in *. destruct (Hi _ _ Hl) as (s & Hs & -> & Ho).
  destruct (decide (r = r')) as [->|Hne].
  - exists (f s). rewrite lookup_alter_eq, Hs. split; [done|]. rewrite Hk. split; [done|].
    by rewrite (Hc _ Hl).
  - exists s. by rewrite lookup_alter_ne.
Qed.

Lemma touch_inv now r sm : sm_inv sm → sm_inv (update r (UserSession.touch now) sm).
Proof. intros. by apply update_inv. Qed.

Lemma close_gone_inv r sm :
  sm_inv sm → (∀ key, sessions sm !! key ≠ Some r) → sm_inv (update r UserSession.close sm).
Proof. intros Hi Hn. apply update_inv; [done|done|]. intros key Hl. by apply Hn in Hl. Qed.

Lemma put_session_inv key s sm :
  sm_inv sm → key = key_of s → UserSession.closed s = false → sm_inv (fst (put_session key s sm)).
Proof.
  intros Hi -> Ho. unfold put_session.
  set (sm1 := match sessions sm !! key_of s with Some old => _ | None => _ end).
  assert (sessions sm1 = sessions sm) as Hs1 by (unfold sm1; by case_match).
  assert (∀ key r, sessions sm !! key = Some r → key ≠ key_of s →
    ∃ s0, store sm1 !! r = Some s0 ∧ key = key_of s0 ∧ UserSession.closed s0 = false) as Hother.
  { intros key r Hl Hne. destruct (Hi _ _ Hl) as (s0 & Hs0 & Hk & Hc). exists s0. split; [|done].
    unfold sm1. destruct (sessions sm !! key_of s) as [old|] eqn:Hold; [|done]. cbn.
    rewrite lookup_alter_ne; [done|]. intros ->. apply Hne. by eapply sm_inv_inj. }
  intros key r. cbn. rewrite Hs1. intros [[<- <-]|[Hne Hl]]%lookup_insert_Some.
  - exists s. by rewrite lookup_insert_eq.
  - destruct (Hother _ _ Hl ltac:(done)) as (s0 & Hs0 & ? & ?). exists s0. split; [|done].
    rewrite lookup_insert_ne; [done|]. intros <-.
    pose proof (is_fresh (dom (store sm1))) as Hf. apply not_elem_of_dom in Hf. congruence.
Qed.

(** Closing references outside the table. *)
Lemma close_list_inv l sm :
  sm_inv sm → (∀ r key, r ∈ l → sessions sm !! key ≠ Some r) →
  sm_inv (foldr (λ r, update r UserSession.close) sm l) ∧
  sessions (foldr (λ r, update r UserSession.close) sm l) = sessions sm.
Proof.
  intros Hi. induction l as [|r l IH]; intros Hl; [done|]. cbn.
  destruct IH as [IH1 IH2]; [intros; apply Hl; by right|]. split; [|by rewrite IH2].
  apply close_gone_inv; [done|]. intros key. cbn. rewrite IH2. apply Hl. by left.
Qed.

Lemma drop_sessions_spec P sm :
  sm_inv sm →
  sm_inv (drop_sessions P sm) ∧
  sessions (drop_sessions P sm) = filter (λ x, ref_is P sm x.2 = false) (sessions sm).
Proof.
  intros Hi. unfold drop_sessions. apply close_list_inv.
  - intros key r. cbn. rewrite map_lookup_filter_Some. intros [Hl _]. by apply Hi.
  - intros r key Hr. cbn. rewrite map_lookup_filter_Some. intros [Hl Hf]. cbn in Hf.
    apply list_elem_of_fmap in Hr as ([k r'] & -> & Hin). apply elem_of_map_to_list in Hin.
    apply map_lookup_filter_Some in Hin as [Hl' Ht]. cbn in *. congruence.
Qed.

(** ** The operations as steps *)

(** [AddSession] is called with a fresh open session of the user. *)
Inductive sm_step : SessionManager → SessionManager → Prop :=
  | ss_create now u n p b d sm : sm_step sm (fst (CreateSession now u n p b d sm))
  | ss_add u s sm : UserSession.UserID s = u → UserSession.closed s = false →
      sm_step sm (AddSession u s sm)
  | ss_get now u b sm : sm_step sm (fst (GetSession now u b sm))
  | ss_get_or_create now u n p b ok d sm : sm_step sm (fst (GetOrCreateSession now u n p b ok d sm))
  | ss_fallback now u b sm : sm_step sm (fst (GetSessionWithFallback now u b sm))
  | ss_delete u b sm : sm_step sm (DeleteSession u b sm)
  | ss_close_user u sm : sm_step sm (CloseAllSessionsForUser u sm)
  | ss_cleanup now sm : sm_step sm (cleanup_tick now sm)
  | ss_close_all sm sm' : CloseAll sm = Ok sm' → sm_step sm sm'.

Lemma CreateSession_inv now u n p b d sm : sm_inv sm → sm_inv (fst (CreateSession now u n p b d sm)).
Proof.
  intros Hi. unfold CreateSession. destruct d as [c|]; [|done].
  set (s := UserSession.mkUserSession _ _ _ _ _ _ _ _).
  pose proof (put_session_inv (getSessionKey u b) s sm Hi eq_refl eq_refl) as H.
  by destruct (put_session _ s sm).
Qed.

Lemma GetSession_inv now u b sm : sm_inv sm → sm_inv (fst (GetSession now u b sm)).
Proof. intros Hi. unfold GetSession. destruct (sessions sm !! _); [by apply touch_inv|done]. Qed.

Lemma DeleteSession_inv u b sm : sm_inv sm → sm_inv (DeleteSession u b sm).
Proof.
  intros Hi. unfold DeleteSession. destruct (sessions sm !! _) as [r|] eqn:Hl; [|done].
  apply close_gone_inv.
  - intros key r'. cbn. intros [_ Hl']%lookup_delete_Some. by apply Hi.
  - intros key. cbn. intros [Hne Hl']%lookup_delete_Some. apply Hne. by eapply sm_inv_inj.
Qed.

Lemma sm_step_inv sm sm' : sm_step sm sm' → sm_inv sm → sm_inv sm'.
Proof.
  intros Hst Hi. destruct Hst as [| u s sm <- Ho| | now u n p b ok d sm| now u b sm | |u sm |now sm |sm sm' H].
  - by apply CreateSession_inv.
  - by apply put_session_inv.
  - by apply GetSession_inv.
  - unfold GetOrCreateSession. pose proof (GetSession_inv now u b sm Hi) as H1.
    destruct (GetSession now u b sm) as [sm1 [r|]]; [|by apply CreateSession_inv].
    destruct (isSessionValid ok r sm1); [done|]. by apply CreateSession_inv, DeleteSession_inv.
  - unfold GetSessionWithFallback. pose proof (GetSession_inv now u b sm Hi) as H1.
    destruct (GetSession now u b sm) as [sm1 [r|]]; [done|].
    pose proof (GetSession_inv now u (negb b) sm1 H1) as H2.
    by destruct (GetSession now u (negb b) sm1) as [sm2 [r|]].
  - by apply DeleteSession_inv.
  - by apply drop_sessions_spec.
  - unfold cleanup_tick. destruct (_ || _); [done|]. by apply drop_sessions_spec.
  - unfold CloseAll in H. destruct (stopped sm); [done|]. injection H as <-. by intros key r.
Qed.

Lemma sm_reachable_inv c sm : rtc sm_step (NewSessionManager c) sm → sm_inv sm.
Proof.
  assert (sm_inv (NewSessionManager c)) as H0 by (by intros key r).
  intros H. revert H0. generalize (NewSessionManager c), H. clear H.
  induction 1; eauto using sm_step_inv.
Qed.

(** C27: sessions are not mixed up.  In every reachable state [GetSession]
    returns a session of exactly the user and the privilege asked for, which
    has not been closed; [GetSessionWithFallback] one of the user asked for. *)
Theorem session_isolation c sm now u b sm' r :
  rtc sm_step (NewSessionManager c) sm →
  (GetSession now u b sm = (sm', Ok r) →
   ∃ s, store sm' !! r = Some s ∧ UserSession.UserID s = u ∧ UserSession.IsRootUser s = b ∧
     UserSession.closed s = false ∧ UserSession.LastUsedAt s = now) ∧
  (GetSessionWithFallback now u b sm = (sm', Ok r) →
   ∃ s, store sm' !! r = Some s ∧ UserSession.UserID s = u ∧ UserSession.closed s = false).
Proof.
  intros Hi%sm_reachable_inv.
  assert (∀ v b v' r, sm_inv v → GetSession now u b v = (v', Ok r) →
    ∃ s, store v' !! r = Some s ∧ UserSession.UserID s = u ∧ UserSession.IsRootUser s = b ∧
     UserSession.closed s = false ∧ UserSession.LastUsedAt s = now) as Hget.
  { intros v b' v' r' Hv H. unfold GetSession in H.
    destruct (sessions v !! getSessionKey u b') as [r0|] eqn:Hl; [|done]. injection H as <- <-.
    destruct (Hv _ _ Hl) as (s & Hs & Hk & Ho). exists (UserSession.touch now s). cbn.
    rewrite lookup_alter_eq, Hs. apply getSessionKey_inj in Hk as [-> ->]. by split_and!. }
  split; [by apply Hget|]. unfold GetSessionWithFallback.
  pose proof (GetSession_inv now u b sm Hi) as H1.
  destruct (GetSession now u b sm) as [sm1 [r1|]] eqn:E1.
  - intros [= <- <-]. destruct (Hget _ _ _ _ Hi E1) as (s & ? & ? & ? & ? & _). eauto.
  - destruct (GetSession now u (negb b) sm1) as [sm2 [r2|]] eqn:E2; [|done].
    intros [= <- <-]. destruct (Hget _ _ _ _ H1 E2) as (s & ? & ? & ? & ? & _). eauto.
Qed.

(** in every reachable state cleaning up removes exactly the sessions that
    were idle for longer than the timeout, and [CloseAllSessionsForUser] exactly
    those of the user; every other key keeps its session. *)
Theorem cleanup_exact c sm now u key :
  rtc sm_step (NewSessionManager c) sm →
  (sessions (cleanupExpiredSessions now sm) !! key =
     r ← sessions sm !! key;
     if ref_is (expired now (Config.SessionTimeout (Cfg sm))) sm r then None else Some r) ∧
  (sessions (CloseAllSessionsForUser u sm) !! key =
     if bool_decide (key = getSessionKey u true ∨ key = getSessionKey u false) then None
     else sessions sm !! key).
Proof.
  intros Hi%sm_reachable_inv. split.
  - unfold cleanupExpiredSessions. rewrite (proj2 (drop_sessions_spec _ _ Hi)).
    rewrite map_lookup_filter. destruct (sessions sm !! key) as [r|]; cbn; [|done].
    destruct (ref_is _ sm r); [by rewrite option_guard_False|by rewrite option_guard_True].
  - unfold CloseAllSessionsForUser. rewrite (proj2 (drop_sessions_spec _ _ Hi)).
    rewrite map_lookup_filter. destruct (sessions sm !! key) as [r|] eqn:Hl; cbn; [|by case_bool_decide].
    destruct (Hi _ _ Hl) as (s & Hs & -> & _). unfold ref_is. rewrite Hs.
    case_bool_decide as Hk.
    + rewrite option_guard_False; [done|]. apply not_false_iff_true, Z.eqb_eq.
      destruct Hk as [[? _]%getSessionKey_inj|[? _]%getSessionKey_inj]; done.
    + assert ((UserSession.UserID s =? u) = false) as Hu'; [|by rewrite Hu', option_guard_True].
      apply Z.eqb_neq. intros Hu. apply Hk. unfold key_of. rewrite Hu.
      destruct (UserSession.IsRootUser s); auto.
Qed.

(** ** Concrete sessions *)

Definition demo_cfg : Config := Config.mkConfig "10.0.0.1" "" "rootpw" "/k" "" 0 60.
Definition sm1 : SessionManager := fst (CreateSession 0 7 "ann" "pw" false (Ok 1%positive) (NewSessionManager demo_cfg)).
Definition sm2 : SessionManager := fst (CreateSession 5 7 "ann" "pw" true (Ok 2%positive) sm1).

Lemma sm2_reachable : rtc sm_step (NewSessionManager demo_cfg) sm2.
Proof.
  eapply rtc_l; [exact (ss_create 0 7 "ann" "pw" false (Ok 1%positive) (NewSessionManager demo_cfg))|].
  apply rtc_once. exact (ss_create 5 7 "ann" "pw" true (Ok 2%positive) sm1).
Qed.

Lemma session_isolation_witness :
  ∃ s, store (fst (GetSession 9 7 true sm2)) !! 2%positive = Some s ∧ UserSession.IsRootUser s = true.
Proof.
  assert (GetSession 9 7 true sm2 = (fst (GetSession 9 7 true sm2), Ok 2%positive)) as E
    by (apply run_eq; vm_compute; reflexivity).
  destruct (proj1 (session_isolation demo_cfg sm2 9 7 true _ 2%positive sm2_reachable) E)
    as (s & H1 & _ & H2 & _).
  exists s. exact (conj H1 H2).
Defined.

(** At time 62 only the session used at 5 is within the timeout of 60. *)
Lemma cleanup_exact_witness :
  sessions (cleanupExpiredSessions 62 sm2) !! getSessionKey 7 false = None ∧
  sessions (cleanupExpiredSessions 62 sm2) !! getSessionKey 7 true = Some 2%positive.
Proof.
  rewrite (proj1 (cleanup_exact demo_cfg sm2 62 7 (getSessionKey 7 false) sm2_reachable)).
  rewrite (proj1 (cleanup_exact demo_cfg sm2 62 7 (getSessionKey 7 true) sm2_reachable)).
  vm_compute. split; reflexivity.
Defined.

(** A request for the plain session of a user who only has a root session is
    answered with the root session. *)
Theorem fallback_raises_privilege :
  let sm := fst (CreateSession 0 7 "ann" "pw" true (Ok 1%positive) (NewSessionManager demo_cfg)) in
  let '(sm', r) := GetSessionWithFallback 3 7 false sm in
  r = Ok 1%positive ∧ UserSession.IsRootUser <$> store sm' !! 1%positive = Some true.
Proof. vm_compute. split; reflexivity. Qed.
