(* ===== verification/Exec.v ===== *)
(** * Remote execution (internal/service/exec_service.go)

    The SSH session manager, the authentication service and the remote host
    are reached through an interface; what the service decides, the command
    lines it builds and the outputs it parses are here.  Goroutines that only
    wait for the end of an SSH session, pauses and log lines are left out. *)

From S2P Require Import Prelude GoStrings Errors Entity External.

Open Scope Z_scope.

(** ** Characters *)

Definition dquote : string := String (Ascii.ascii_of_nat 34) EmptyString.
Definition nl : string := String newline EmptyString.
Fixpoint tabs (n : nat) : string :=
  match n with O => EmptyString | S k => String (Ascii.ascii_of_nat 9) (tabs k) end.
Definition concat_strings (l : list string) : string := foldr String.append EmptyString l.

(** [strings.Fields]: the maximal runs without white space. *)
Fixpoint fields_loop (fuel : nat) (cur l : list Ascii.ascii) : list string :=
  let flush := match cur with [] => [] | _ => [String.string_of_list_ascii (reverse cur)] end in
  match fuel with
  | O => flush
  | S n =>
      match l with
      | [] => flush
      | c :: l' =>
          match first_some (λ e, strip_prefix e l) space_encodings with
          | Some rest => flush ++ fields_loop n [] rest
          | None => fields_loop n (c :: cur) l'
          end
      end
  end.
Definition Fields (s : string) : list string :=
  let l := String.list_ascii_of_string s in fields_loop (S (length l)) [] l.

Example fields_ex : Fields "base   *  /opt/conda" = ["base"; "*"; "/opt/conda"]%string.
Proof. vm_compute. reflexivity. Qed.

(** ** The interface *)

(** [C] are SSH clients.  [rm_GetSession]: the client of the session, [None]
    when it is nil.  [rm_ScanPid]: the pid read from the output of the command
    that was started, [None] when the 15 seconds are over first. *)
Class Remote (S C : Type) := {
  rm_HasSystemAccess : Z → M S (result bool);
  rm_GetSession : Z → bool → M S (result (option C));
  rm_EnsureSSHSessionByType : Z → bool → M S (result unit);
  rm_ExecuteCommand : C → string → M S (result string);
  rm_ExecuteCommandWithStatus : C → string → M S (string * Z * option error);
  rm_NewSession : C → M S (result unit);
  rm_StdoutPipe : M S (result unit);
  rm_SessionStart : string → M S (result unit);
  rm_ScanPid : M S (option (result Z))
}.

Section Exec.
Context {S C : Type} `{Remote S C}.

Definition getSSHClient (userID : Z) (isRoot : bool) : M S (result C) :=
  g ← rm_GetSession userID isRoot;
  match g with
  | Ok (Some c) => mret (Ok c)
  | _ =>
      e ← rm_EnsureSSHSessionByType userID isRoot;
      match e with
      | Err e => mret (Err (ErrWrap "恢复 SSH 会话失败" e))
      | Ok _ =>
          g2 ← rm_GetSession userID isRoot;
          match g2 with
          | Ok (Some c) => mret (Ok c)
          | _ => mret (Err (ErrMsg "获取 SSH 客户端失败"))
          end
      end
  end.

(** ** Conda environments *)

Definition conda_cmd : string :=
  "source ~/.bashrc 2>/dev/null; conda env list || /opt/conda/bin/conda env list || ~/miniconda3/bin/conda env list || ~/anaconda3/bin/conda env list".

(** One line of the output: the first field, unless it is blank or a comment. *)
Definition conda_line (line : string) : option string :=
  let line := TrimSpace line in
  if String.eqb line "" || HasPrefix line "#" then None
  else match Fields line with
       | p :: _ => Some p
       | [] => None
       end.
Definition parse_envs (output : string) : list string := omap conda_line (Split newline output).

Definition ListCondaEnvs (userID : Z) : M S (result (list string)) :=
  a ← rm_HasSystemAccess userID;
  let isRoot := match a with Ok b => b | Err _ => false end in
  c ← getSSHClient userID isRoot;
  match c with
  | Err e => mret (Err e)
  | Ok client =>
      o ← rm_ExecuteCommand client conda_cmd;
      match o with
      | Err _ => mret (Err (ErrMsg "conda命令不存在"))
      | Ok output =>
          match parse_envs output with
          | [] => mret (Err (ErrMsg "conda命令不存在"))
          | envs => mret (Ok envs)
          end
      end
  end.

(** ** Starting a command *)

Definition logDir : string := "$HOME/cloudque_logs".
Definition logFile (jobID : string) : string := logDir +:+ "/job_" +:+ jobID +:+ ".log".
Definition exitFile (jobID : string) : string := logDir +:+ "/job_" +:+ jobID +:+ ".exitcode".

(** [envVars[k]]: the zero value when the key is absent. *)
Definition env_get (k : string) (envVars : list (string * string)) : string :=
  match List.find (λ p, String.eqb p.1 k) envVars with Some p => p.2 | None => "" end.
(** The map in the order the range statement visits it. *)
Definition envPrefix (envVars : list (string * string)) : string :=
  concat_strings ((λ p, "export " +:+ p.1 +:+ "=" +:+ p.2 +:+ " && ") <$> envVars).
Definition runCmd (condaEnv cmdStr : string) : string :=
  if String.eqb condaEnv "" then cmdStr
  else "conda run --no-capture-output -n " +:+ condaEnv +:+ " " +:+ cmdStr.
Definition fullCmd (condaEnv cmdStr : string) (envVars : list (string * string)) : string :=
  let jobID := env_get "JOB_ID" envVars in
  concat_strings
    ["mkdir -p "; logDir; " && bash -l -c 'echo $$ ; "; envPrefix envVars; " exec nohup bash -c ";
     dquote; runCmd condaEnv cmdStr; "; echo \$? > "; exitFile jobID; dquote; " > "; logFile jobID;
     " 2>&1'"].

(** The script of [findWorkerPID]. *)
Definition worker_script (parentPID : Z) : string := concat_strings (
  [nl;
   tabs 2; "find_worker() {"; nl;
   tabs 3; "local pid=$1"; nl;
   tabs 3; "# 查找所有子进程"; nl;
   tabs 3; "local children=$(pgrep -P $pid 2>/dev/null)"; nl;
   tabs 3; "if [ -z "; dquote; "$children"; dquote; " ]; then"; nl;
   tabs 4; "echo $pid"; nl;
   tabs 4; "return"; nl;
   tabs 3; "fi"; nl;
   tabs 3; "# 如果有子进程，递归查找。如果有多个，优先找包含 python 的进程名"; nl;
   tabs 3; "for child in $children; do"; nl;
   tabs 4; "if ps -p $child -o comm= 2>/dev/null | grep -qi python; then"; nl;
   tabs 5; "find_worker $child"; nl;
   tabs 5; "return"; nl;
   tabs 4; "fi"; nl;
   tabs 3; "done"; nl;
   tabs 3; "# 如果没找到 python，就找最后一个子进程（通常是最后启动的）"; nl;
   tabs 3; "last_child=$(echo $children | awk '{print $NF}')"; nl;
   tabs 3; "find_worker $last_child"; nl;
   tabs 2; "}"; nl;
   tabs 2; "find_worker ";
   Itoa parentPID; nl; tabs 1]).

(** Failures fall back to the pid of the shell. *)
Definition findWorkerPID (userID parentPID : Z) (isRoot : bool) : M S (result Z) :=
  c ← getSSHClient userID isRoot;
  match c with
  | Err e => mret (Err e)
  | Ok client =>
      x ← rm_ExecuteCommandWithStatus client (worker_script parentPID);
      let '(output, exitCode, err) := x in
      match err with
      | Some e => if negb (exitCode =? 0) then mret (Ok parentPID) else mret (Err e)
      | None =>
          let s := TrimSpace output in
          if String.eqb s "" then mret (Ok parentPID)
          else match Atoi s with
               | Err _ => mret (Ok parentPID)
               | Ok childPID => mret (Ok childPID)
               end
      end
  end.

Definition ExecuteCommandRemote (userID : Z) (condaEnv cmdStr : string)
  (envVars : list (string * string)) (isRoot : bool) : M S (result Z) :=
  c ← getSSHClient userID isRoot;
  match c with
  | Err e => mret (Err e)
  | Ok client =>
      n ← rm_NewSession client;
      match n with
      | Err e => mret (Err (ErrWrap "创建 SSH 会话失败" e))
      | Ok _ =>
          p ← rm_StdoutPipe;
          match p with
          | Err e => mret (Err (ErrWrap "获取 StdoutPipe 失败" e))
          | Ok _ =>
              st ← rm_SessionStart (fullCmd condaEnv cmdStr envVars);
              match st with
              | Err e => mret (Err (ErrWrap "启动远程命令失败" e))
              | Ok _ =>
                  r ← rm_ScanPid;
                  match r with
                  | None => mret (Err (ErrMsg "获取远程 PID 超时"))
                  | Some (Err e) => mret (Err (ErrWrap "读取 PID 失败" e))
                  | Some (Ok pid) =>
                      w ← findWorkerPID userID pid isRoot;
                      match w with
                      | Err _ => mret (Ok pid)
                      | Ok workerPID => mret (Ok workerPID)
                      end
                  end
              end
          end
      end
  end.

(** ** Files and exit codes *)

Definition FileExistsRemote (userID : Z) (filePath : string) (isRoot : bool) : M S (result bool) :=
  c ← getSSHClient userID isRoot;
  match c with
  | Err e => mret (Err e)
  | Ok client =>
      x ← rm_ExecuteCommandWithStatus client ("test -f " +:+ filePath);
      let '(_, exitCode, err) := x in
      match err with
      | None => mret (Ok true)
      | Some e => if exitCode =? 1 then mret (Ok false) else mret (Err e)
      end
  end.

Definition maxRetries : nat := 5.

(** The retry loop: the first success, or the last error. *)
Fixpoint retry (n : nat) (client : C) (cmd : string) : M S (result string) :=
  match n with
  | O => mret (Ok EmptyString)
  | Datatypes.S k =>
      r ← rm_ExecuteCommand client cmd;
      match r with
      | Ok output => mret (Ok output)
      | Err e => match k with O => mret (Err e) | _ => retry k client cmd end
      end
  end.

Definition GetJobExitCode (userID jobID : Z) (isRoot : bool) : M S (result Z) :=
  c ← getSSHClient userID isRoot;
  match c with
  | Err e => mret (Err e)
  | Ok client =>
      o ← retry maxRetries client ("cat " +:+ exitFile (Itoa jobID));
      match o with
      | Err e => mret (Err (ErrWrap "读取退出码文件失败" e))
      | Ok output =>
          match Atoi (TrimSpace output) with
          | Err e => mret (Err (ErrWrap "解析退出码失败" e))
          | Ok exitCode => mret (Ok exitCode)
          end
      end
  end.
End Exec.

(** ** The scheduler's view *)

(** The operations of [ExecService] that the scheduler and the job service
    use, as part of their environment. *)
Definition exec_Env {S C : Type} `{Remote S C} (base : Env S) : Env S := {|
  env_now := env_now;
  env_PidExists := env_PidExists;
  env_HasSystemAccess := rm_HasSystemAccess;
  env_ExecuteCommandRemote := ExecuteCommandRemote;
  env_FileExistsRemote := FileExistsRemote;
  env_GetJobExitCode := GetJobExitCode;
  env_Getpid := env_Getpid;
  env_SetNX := env_SetNX;
  env_EvalRelease := env_EvalRelease
|}.

Section ExecLaws.
Context {S C : Type} `{Remote S C}.

(** The host after [k] attempts, and what attempt [k] answers. *)
Fixpoint after (k : nat) (c : C) (cmd : string) (s : S) : S :=
  match k with
  | O => s
  | Datatypes.S j => after j c cmd (fst (rm_ExecuteCommand c cmd s))
  end.
Definition attempt (k : nat) (c : C) (cmd : string) (s : S) : result string :=
  snd (rm_ExecuteCommand c cmd (after k c cmd s)).

Lemma retry_success c cmd k n s o :
  (k < n)%nat → (∀ i, (i < k)%nat → is_ok (attempt i c cmd s) = false) →
  attempt k c cmd s = Ok o → snd (retry n c cmd s) = Ok o.
Proof.
  revert n s. induction k as [|k IH]; intros n s Hk Hf Ho; (destruct n as [|n]; [lia|]);
    cbn; unfold mbind, M_bind.
  - unfold attempt in Ho. cbn in Ho. by destruct (rm_ExecuteCommand c cmd s) as [s1 [o'|e]]; simplify_eq/=.
  - pose proof (Hf O ltac:(lia)) as H0. unfold attempt in H0. cbn in H0.
    destruct (rm_ExecuteCommand c cmd s) as [s1 [o'|e]] eqn:E; [done|].
    destruct n as [|n]; [lia|]. apply IH; [lia| |].
    + intros i Hi. specialize (Hf (Datatypes.S i) ltac:(lia)). unfold attempt in *. cbn in Hf. by rewrite E in Hf.
    + unfold attempt in *. cbn in Ho. by rewrite E in Ho.
Qed.

Lemma retry_failure c cmd n s :
  (∀ i, (i < Datatypes.S n)%nat → is_ok (attempt i c cmd s) = false) →
  is_ok (snd (retry (Datatypes.S n) c cmd s)) = false.
Proof.
  revert s. induction n as [|n IH]; intros s Hf; pose proof (Hf O ltac:(lia)) as H0;
    unfold attempt in H0; cbn in H0; cbn; unfold mbind, M_bind;
    destruct (rm_ExecuteCommand c cmd s) as [s1 [o'|e]] eqn:E; try done.
  apply IH. intros i Hi. specialize (Hf (Datatypes.S i) ltac:(lia)). unfold attempt in *.
  cbn in Hf. by rewrite E in Hf.
Qed.

(** The command that reads the exit code of a job. *)
Definition exit_cmd (jobID : Z) : string := "cat " +:+ exitFile (Itoa jobID).

(** the exit code a job leaves behind is the one that is reported: when the
    file can be read in one of five attempts and holds what the shell printed,
    [GetJobExitCode] returns that number; when all five attempts fail it
    returns an error. *)
Theorem GetJobExitCode_spec userID jobID isRoot s s1 c :
  getSSHClient userID isRoot s = (s1, Ok c) →
  (∀ k code, (k < maxRetries)%nat → in_int64 code = true →
     (∀ i, (i < k)%nat → is_ok (attempt i c (exit_cmd jobID) s1) = false) →
     attempt k c (exit_cmd jobID) s1 = Ok (Itoa code +:+ nl) →
     snd (GetJobExitCode userID jobID isRoot s) = Ok code) ∧
  ((∀ i, (i < maxRetries)%nat → is_ok (attempt i c (exit_cmd jobID) s1) = false) →
   is_ok (snd (GetJobExitCode userID jobID isRoot s)) = false).
Proof.
  intros Hc. unfold GetJobExitCode. unfold mbind at 1 2, M_bind at 1 2. rewrite Hc.
  fold (exit_cmd jobID). split.
  - intros k code Hk Hin Hf Ho. pose proof (retry_success c _ k maxRetries s1 _ Hk Hf Ho) as Hr.
    unfold mbind, M_bind. destruct (retry _ c _ s1) as [s2 r]. cbn in Hr. subst r.
    unfold nl. rewrite TrimSpace_num_newline by (apply Itoa_chars || apply Itoa_nonempty).
    by rewrite Atoi_Itoa.
  - intros Hf. pose proof (retry_failure c (exit_cmd jobID) 4 s1 Hf) as Hr.
    unfold mbind, M_bind, maxRetries. rewrite ?Hc. destruct (retry 5 c (exit_cmd jobID) s1) as [s2 [o|e]]; [|done].
    discriminate Hr.
Qed.
End ExecLaws.

(** ** A concrete host *)

(** The host answers commands from a list. *)
Definition demo_remote : Remote (list (result string)) unit := {|
  rm_HasSystemAccess _ s := (s, Ok false);
  rm_GetSession _ _ s := (s, Ok (Some tt));
  rm_EnsureSSHSessionByType _ _ s := (s, Ok tt);
  rm_ExecuteCommand _ _ s := match s with
                             | [] => ([], Err (ErrExt 1))
                             | r :: s' => (s', r)
                             end;
  rm_ExecuteCommandWithStatus _ _ s := (s, (EmptyString, 1, Some (ErrExt 2)));
  rm_NewSession _ s := (s, Ok tt);
  rm_StdoutPipe s := (s, Ok tt);
  rm_SessionStart _ s := (s, Ok tt);
  rm_ScanPid s := (s, Some (Ok 4321))
|}.

(** Two failures, then the exit code 137. *)
Definition demo_host : list (result string) :=
  [Err (ErrExt 1); Err (ErrExt 1); Ok ("137" +:+ nl)].

Lemma GetJobExitCode_spec_witness :
  snd (GetJobExitCode (H := demo_remote) 1 7 false demo_host) = Ok 137.
Proof.
  assert (getSSHClient (H := demo_remote) 1 false demo_host = (demo_host, Ok tt)) as E by reflexivity.
  refine (proj1 (GetJobExitCode_spec (H := demo_remote) 1 7 false demo_host demo_host tt E) 2%nat 137 _ _ _ _).
  - unfold maxRetries. lia.
  - vm_compute. reflexivity.
  - intros [|[|i]] Hi; [reflexivity|reflexivity|lia].
  - reflexivity.
Defined.

Example conda_parse :
  parse_envs ("# conda environments:" +:+ nl +:+ "#" +:+ nl +:+ "base    *  /opt/conda" +:+ nl
              +:+ "py310      /opt/conda/envs/py310" +:+ nl +:+ nl) = ["base"; "py310"]%string.
Proof. vm_compute. reflexivity. Qed.
