(* ===== verification/MenuService.v ===== *)
(** * Menus (internal/service/menu_service.go, internal/repository/menu_repository.go)

    The menu table behind the permission pages: paged two-level lists,
    creation, update and deletion, and [BuildMenuTree], which links rows into
    trees through pointers.  The admin_menu table is a [Table] of [Menu]
    rows; the collation of its text columns and the test for a duplicate-key
    text in a driver's error are parameters. *)

From S2P Require Import Prelude GoStrings Float64 Errors Entity External MemBackend Gpu.

Open Scope Z_scope.

(** ** Requests and responses *)

Module MenuPageQueryRequest.
Record MenuPageQueryRequest : Type := mkMenuPageQueryRequest {
  Page : Z; PageSize : Z; Title : string; Status : option Z
}.
End MenuPageQueryRequest.
Notation MenuPageQueryRequest := MenuPageQueryRequest.MenuPageQueryRequest.

Module CreateMenuRequest.
Record CreateMenuRequest : Type := mkCreateMenuRequest {
  ParentID : option Z; Title : string; Type_ : string; Status : option Z; Icon : string;
  URI : string; Sort : Z
}.
End CreateMenuRequest.
Notation CreateMenuRequest := CreateMenuRequest.CreateMenuRequest.

Module UpdateMenuRequest.
Record UpdateMenuRequest : Type := mkUpdateMenuRequest {
  ID : Z; Title : string; Type_ : string; Status : option Z; Icon : string; URI : string;
  Sort : option Z; ParentID : Z
}.
End UpdateMenuRequest.
Notation UpdateMenuRequest := UpdateMenuRequest.UpdateMenuRequest.

(** The fields of [dto.MenuTreeNode] other than its children, and the tree. *)
Module MenuTreeNode.
Record fields : Type := mkFields {
  ID : Z; ParentID : Z; Title : string; Type_ : string; Status : Z; Icon : string;
  URI : string; Sort : Z
}.
Inductive MenuTreeNode : Type :=
  | mkMenuTreeNode (data : fields) (Children : list MenuTreeNode).
Definition data (t : MenuTreeNode) : fields := let 'mkMenuTreeNode d _ := t in d.
Definition Children (t : MenuTreeNode) : list MenuTreeNode := let 'mkMenuTreeNode _ c := t in c.
End MenuTreeNode.
Notation MenuTreeNode := MenuTreeNode.MenuTreeNode.

(** [convertToNode]: a node without children yet. *)
Definition convertToNode (m : Menu) : MenuTreeNode.fields :=
  MenuTreeNode.mkFields (Menu.ID m) (Menu.ParentID m) (Menu.Title m) (Menu.Type_ m)
    (Menu.Status m) (Menu.Icon m) (Menu.URI m) (Menu.Sort m).

(** One entry of the [updates] map: a column and its new value. *)
Inductive menu_col : Type :=
  | ColTitle (v : string)
  | ColURI (v : string)
  | ColType (v : string)
  | ColStatus (v : Z)
  | ColIcon (v : string)
  | ColSort (v : Z)
  | ColParentID (v : Z)
  | ColUpdatedAt (t : Z).

Definition set_col (c : menu_col) (m : Menu) : Menu :=
  let '(Menu.mkMenu i ca ua p ti ty so st ic ur) := m in
  match c with
  | ColTitle v => Menu.mkMenu i ca ua p v ty so st ic ur
  | ColURI v => Menu.mkMenu i ca ua p ti ty so st ic v
  | ColType v => Menu.mkMenu i ca ua p ti v so st ic ur
  | ColStatus v => Menu.mkMenu i ca ua p ti ty so v ic ur
  | ColIcon v => Menu.mkMenu i ca ua p ti ty so st v ur
  | ColSort v => Menu.mkMenu i ca ua p ti ty v st ic ur
  | ColParentID v => Menu.mkMenu i ca ua v ti ty so st ic ur
  | ColUpdatedAt t => Menu.mkMenu i ca t p ti ty so st ic ur
  end.
Definition set_cols (l : list menu_col) (m : Menu) : Menu := foldl (λ m c, set_col c m) m l.

Definition sort_asc (a b : Menu) : bool := Menu.Sort a <=? Menu.Sort b.

Section Menus.
Context {S : Type} {T : Table S Menu}.
(** [column = value] and [column LIKE pattern] under the collation of the
    database; the two [strings.Contains] tests on the text of a driver error. *)
Variable col_eq : string → string → bool.
Variable col_like : string → string → bool.
Variable is_duplicate : error → bool.

(** ** Repository *)

Definition GetMenuByID (id : Z) : M S (result (option Menu)) :=
  r ← tbl_first (λ m, Menu.ID m =? id);
  match r with
  | Ok m => mret (Ok (Some m))
  | Err ErrRecordNotFound => mret (Ok None)
  | Err e => mret (Err e)
  end.

Definition top_level (title : string) (status : option Z) (m : Menu) : bool :=
  (Menu.ParentID m =? 0) &&
  (if String.eqb title "" then true else col_like (Menu.Title m) ("%" +:+ title +:+ "%")) &&
  (match status with Some st => Menu.Status m =? st | None => true end).

Definition repo_PageList (offset limit : Z) (title : string) (status : option Z)
  : M S (result (list Menu * list Menu * Z)) :=
  c ← tbl_count (top_level title status);
  match c with
  | Err e => mret (Err e)
  | Ok total =>
      r ← tbl_page (top_level title status) sort_asc limit offset;
      match r with
      | Err e => mret (Err e)
      | Ok [] => mret (Ok ([], [], total))
      | Ok parents =>
          k ← tbl_page (λ m, id_in (Menu.ID <$> parents) (Menu.ParentID m)) sort_asc (-1) 0;
          match k with
          | Err e => mret (Err e)
          | Ok children => mret (Ok (parents, children, total))
          end
      end
  end.

Definition repo_Create (m : Menu) : M S (result unit) :=
  r ← tbl_create m;
  mret (match r with Ok _ => Ok tt | Err e => Err e end).

Definition repo_Update (id : Z) (updates : list menu_col) : M S (result unit) :=
  tbl_update (λ m, Menu.ID m =? id) (set_cols updates).

(** [RowsAffected == 0] is reported as [gorm.ErrRecordNotFound]. *)
Definition rows_affected (r : result Z) : result unit :=
  match r with
  | Err e => Err e
  | Ok n => if n =? 0 then Err ErrRecordNotFound else Ok tt
  end.
Definition repo_Delete (id : Z) : M S (result unit) :=
  r ← tbl_delete (λ m, Menu.ID m =? id); mret (rows_affected r).
Definition repo_BatchDelete (ids : list Z) : M S (result unit) :=
  r ← tbl_delete (λ m, id_in ids (Menu.ID m)); mret (rows_affected r).

Definition count_positive (r : result Z) : result bool :=
  match r with Ok n => Ok (0 <? n) | Err e => Err e end.
Definition ExistsByTitle (title : string) : M S (result bool) :=
  r ← tbl_count (λ m, col_eq (Menu.Title m) title); mret (count_positive r).
Definition ExistsByURI (uri : string) : M S (result bool) :=
  r ← tbl_count (λ m, col_eq (Menu.URI m) uri); mret (count_positive r).
Definition ExistsByTitleExcludingID (title : string) (excludeID : Z) : M S (result bool) :=
  r ← tbl_count (λ m, col_eq (Menu.Title m) title && negb (Menu.ID m =? excludeID));
  mret (count_positive r).
Definition ExistsByURIExcludingID (uri : string) (excludeID : Z) : M S (result bool) :=
  r ← tbl_count (λ m, col_eq (Menu.URI m) uri && negb (Menu.ID m =? excludeID));
  mret (count_positive r).

(** ** Service *)

(** The page and page size the service writes back into the request. *)
Definition clamp_menu_page (req : MenuPageQueryRequest) : Z * Z :=
  let page := MenuPageQueryRequest.Page req in
  let size := MenuPageQueryRequest.PageSize req in
  (if page <=? 0 then 1 else page, if (size <=? 0) || (100 <? size) then 10 else size).

(** [childMap]: the nodes of the children by the id of their parent. *)
Definition add_child (childMap : gmap Z (list MenuTreeNode)) (c : Menu)
  : gmap Z (list MenuTreeNode) :=
  if Menu.ParentID c =? 0 then childMap
  else <[Menu.ParentID c :=
         default [] (childMap !! Menu.ParentID c) ++
         [MenuTreeNode.mkMenuTreeNode (convertToNode c) []]]> childMap.
Definition page_node (childMap : gmap Z (list MenuTreeNode)) (p : Menu) : MenuTreeNode :=
  MenuTreeNode.mkMenuTreeNode (convertToNode p) (default [] (childMap !! Menu.ID p)).

Definition PageList (req : MenuPageQueryRequest) : M S (result (list MenuTreeNode * Z)) :=
  let '(page, pageSize) := clamp_menu_page req in
  let offset := wrap64 (wrap64 (page - 1) * pageSize) in
  r ← repo_PageList offset pageSize (MenuPageQueryRequest.Title req)
        (MenuPageQueryRequest.Status req);
  match r with
  | Err e => mret (Err e)
  | Ok (parents, children, total) =>
      mret (Ok (page_node (foldl add_child ∅ children) <$> parents, total))
  end.

(** The part of [Create] that builds the row: both pointers are read. *)
Definition new_menu (req : CreateMenuRequest) : result Menu :=
  let parentID := match CreateMenuRequest.ParentID req with Some p => p | None => 0 end in
  let parentID := if String.eqb (CreateMenuRequest.Type_ req) "catalogue" then 0 else parentID in
  let type := if negb (parentID =? 0) then "menu" else CreateMenuRequest.Type_ req in
  match CreateMenuRequest.Status req, CreateMenuRequest.ParentID req with
  | Some st, Some p =>
      Ok (Menu.mkMenu 0 0 0 p (CreateMenuRequest.Title req) type (CreateMenuRequest.Sort req) st
            (CreateMenuRequest.Icon req) (CreateMenuRequest.URI req))
  | _, _ => Err (ErrPanic "nil pointer dereference")
  end.

Definition Create (req : CreateMenuRequest) : M S (result unit) :=
  if String.eqb (CreateMenuRequest.Title req) "" then
    mret (Err (New CodeMissingParam "菜单名称不能为空"))
  else if String.eqb (CreateMenuRequest.URI req) "" then
    mret (Err (New CodeMissingParam "菜单URI不能为空"))
  else if String.eqb (CreateMenuRequest.Type_ req) "" then
    mret (Err (New CodeMissingParam "菜单类型不能为空"))
  else
    t ← ExistsByTitle (CreateMenuRequest.Title req);
    match t with
    | Err e => mret (Err (NewWithErr CodeInternalError "检查菜单标题是否重复失败" e))
    | Ok true => mret (Err (New CodeResourceAlreadyExists "菜单标题已存在"))
    | Ok false =>
        u ← ExistsByURI (CreateMenuRequest.URI req);
        match u with
        | Err e => mret (Err (NewWithErr CodeInternalError "检查菜单路由是否重复失败" e))
        | Ok true => mret (Err (New CodeResourceAlreadyExists "菜单路由已存在"))
        | Ok false =>
            match new_menu req with
            | Err e => mret (Err e)
            | Ok menu =>
                r ← repo_Create menu;
                match r with
                | Ok _ => mret (Ok tt)
                | Err e =>
                    if is_duplicate e then mret (Err (NewDefault CodeResourceAlreadyExists))
                    else mret (Err (NewWithErr CodeInternalError "创建菜单失败!" e))
                end
            end
        end
    end.

(** The title column of [updates]: checked and set when it changes. *)
Definition title_update (req : UpdateMenuRequest) (existing : Menu)
  : M S (result (list menu_col)) :=
  let title := UpdateMenuRequest.Title req in
  if negb (String.eqb title "") && negb (String.eqb title (Menu.Title existing)) then
    r ← ExistsByTitleExcludingID title (UpdateMenuRequest.ID req);
    match r with
    | Err e => mret (Err (NewWithErr CodeInternalError "校验菜单标题失败" e))
    | Ok true => mret (Err (New CodeResourceAlreadyExists "菜单标题已存在"))
    | Ok false => mret (Ok [ColTitle title])
    end
  else mret (Ok []).
Definition uri_update (req : UpdateMenuRequest) (existing : Menu)
  : M S (result (list menu_col)) :=
  let uri := UpdateMenuRequest.URI req in
  if negb (String.eqb uri "") && negb (String.eqb uri (Menu.URI existing)) then
    r ← ExistsByURIExcludingID uri (UpdateMenuRequest.ID req);
    match r with
    | Err e => mret (Err (NewWithErr CodeInternalError "校验菜单 URI 失败" e))
    | Ok true => mret (Err (New CodeResourceAlreadyExists "菜单 URI 已存在"))
    | Ok false => mret (Ok [ColURI uri])
    end
  else mret (Ok []).

(** The columns that need no check. *)
Definition plain_updates (req : UpdateMenuRequest) : list menu_col :=
  (if String.eqb (UpdateMenuRequest.Type_ req) "" then []
   else [ColType (UpdateMenuRequest.Type_ req)]) ++
  (match UpdateMenuRequest.Status req with Some v => [ColStatus v] | None => [] end) ++
  (if String.eqb (UpdateMenuRequest.Icon req) "" then []
   else [ColIcon (UpdateMenuRequest.Icon req)]) ++
  (match UpdateMenuRequest.Sort req with Some v => [ColSort v] | None => [] end) ++
  (if UpdateMenuRequest.ParentID req =? 0 then []
   else [ColParentID (UpdateMenuRequest.ParentID req)]).

(** [now] is what [time.Now] returns. *)
Definition Update (now : Z) (req : UpdateMenuRequest) : M S (result unit) :=
  r ← GetMenuByID (UpdateMenuRequest.ID req);
  match r with
  | Err e => mret (Err (NewWithErr CodeInternalError "查询菜单信息失败" e))
  | Ok None => mret (Err (New CodeResourceNotFound "菜单不存在"))
  | Ok (Some existingMenu) =>
      t ← title_update req existingMenu;
      match t with
      | Err e => mret (Err e)
      | Ok tc =>
          u ← uri_update req existingMenu;
          match u with
          | Err e => mret (Err e)
          | Ok uc =>
              match tc ++ uc ++ plain_updates req with
              | [] => mret (Ok tt)
              | updates =>
                  x ← repo_Update (UpdateMenuRequest.ID req) (updates ++ [ColUpdatedAt now]);
                  match x with
                  | Err e => mret (Err (NewWithErr CodeInternalError "更新菜单失败" e))
                  | Ok _ => mret (Ok tt)
                  end
              end
          end
      end
  end.

(** The check that a menu exists, as [Delete] and [BatchDelete] make it. *)
Definition check_exists (id : Z) : M S (option error) :=
  r ← GetMenuByID id;
  match r with
  | Err e => mret (Some (NewWithErr CodeInternalError "查询菜单信息失败" e))
  | Ok None => mret (Some (New CodeResourceNotFound "菜单不存在"))
  | Ok (Some _) => mret None
  end.

Definition Delete (id : Z) : M S (result unit) :=
  r ← check_exists id;
  match r with
  | Some e => mret (Err e)
  | None => repo_Delete id
  end.

Definition BatchDelete (ids : list Z) : M S (result unit) :=
  match ids with
  | [] => mret (Err (NewDefault CodeMissingParam))
  | _ =>
      r ← for_ret ids check_exists;
      match r with
      | Some e => mret (Err e)
      | None => repo_BatchDelete ids
      end
  end.
End Menus.

(** ** BuildMenuTree *)

(** The objects [menuMap] points to: a node is reached only through its key,
    so the key is its address.  [hnode] is a node whose children are
    addresses. *)
Record hnode : Type := mkHnode { h_data : MenuTreeNode.fields; h_children : list Z }.
Notation heap := (gmap Z hnode).

(** The literal of [BuildMenuTree]: it leaves [ParentID] out. *)
Definition new_node (m : Menu) : hnode :=
  mkHnode (MenuTreeNode.mkFields (Menu.ID m) 0 (Menu.Title m) (Menu.Type_ m) (Menu.Status m)
             (Menu.Icon m) (Menu.URI m) (Menu.Sort m)) [].

Definition menuMap (menus : list Menu) : heap :=
  foldl (λ h m, <[Menu.ID m := new_node m]> h) ∅ menus.

(** One turn of the second loop: a root is appended to [roots], a child to
    the children of its parent when there is one. *)
Definition link (st : heap * list Z) (m : Menu) : heap * list Z :=
  let '(h, roots) := st in
  if Menu.ParentID m =? 0 then (h, roots ++ [Menu.ID m])
  else match h !! Menu.ParentID m with
       | Some p => (<[Menu.ParentID m := mkHnode (h_data p) (h_children p ++ [Menu.ID m])]> h, roots)
       | None => (h, roots)
       end.

Definition BuildMenuTree (menus : list Menu) : heap * list Z :=
  foldl link (menuMap menus, []) menus.

(** The tree an address stands for, as the JSON encoder walks it; [None]
    when the fuel runs out or the address is not allocated. *)
Fixpoint unfold_tree (fuel : nat) (h : heap) (k : Z) : option MenuTreeNode :=
  match fuel with
  | O => None
  | Datatypes.S fuel' =>
      n ← h !! k;
      ch ← mapM (unfold_tree fuel' h) (h_children n);
      Some (MenuTreeNode.mkMenuTreeNode (h_data n) ch)
  end.

Definition BuildMenuTree_trees (menus : list Menu) : option (list MenuTreeNode) :=
  let '(h, roots) := BuildMenuTree menus in mapM (unfold_tree (length menus) h) roots.

Fixpoint flatten (t : MenuTreeNode) : list MenuTreeNode.fields :=
  let 'MenuTreeNode.mkMenuTreeNode d ch := t in d :: concat (map flatten ch).

(** * Properties *)

(** ** The tree *)

(** The position of a menu among [menus]: a menu with parent 0 has depth 1,
    a child is one below a menu whose id is its parent. *)
Section Tree.
Variable menus : list Menu.

Inductive depth : Menu → nat → Prop :=
  | depth_root m : m ∈ menus → Menu.ParentID m = 0 → depth m 1
  | depth_child m p n :
      m ∈ menus → Menu.ParentID m ≠ 0 → Menu.ID p = Menu.ParentID m → depth p n →
      depth m (Datatypes.S n).

(** A menu is shown when following parents leads to a root. *)
Definition rooted (m : Menu) : Prop := ∃ n, depth m n.

Definition children_of (k : Z) : list Menu :=
  List.filter (λ m, negb (Menu.ParentID m =? 0) && (Menu.ParentID m =? k)) menus.
Definition roots_of : list Menu := List.filter (λ m, Menu.ParentID m =? 0) menus.

Lemma elem_of_children k m :
  m ∈ children_of k ↔ m ∈ menus ∧ Menu.ParentID m ≠ 0 ∧ Menu.ParentID m = k.
Proof.
  unfold children_of. rewrite !list_elem_of_In, List.filter_In, andb_true_iff, negb_true_iff,
    Z.eqb_neq, Z.eqb_eq. tauto.
Qed.

Lemma elem_of_roots m : m ∈ roots_of ↔ m ∈ menus ∧ Menu.ParentID m = 0.
Proof. unfold roots_of. by rewrite !list_elem_of_In, List.filter_In, Z.eqb_eq. Qed.

Lemma depth_elem m n : depth m n → m ∈ menus.
Proof. by destruct 1. Qed.

Lemma depth_pos m n : depth m n → (1 ≤ n)%nat.
Proof. destruct 1; lia. Qed.

Context (Hids : NoDup (Menu.ID <$> menus)).

Lemma same_id m m' : m ∈ menus → m' ∈ menus → Menu.ID m = Menu.ID m' → m = m'.
Proof.
  intros (i & Hi)%list_elem_of_lookup (j & Hj)%list_elem_of_lookup E.
  assert (i = j) as ->; [|congruence].
  eapply (NoDup_lookup (Menu.ID <$> menus)); [done| |]; rewrite list_lookup_fmap.
  - by rewrite Hi. - rewrite Hj. cbn. by f_equal.
Qed.

Lemma depth_fun m n n' : depth m n → depth m n' → n = n'.
Proof.
  intros Hn. revert n'. induction Hn as [m Hm H0|m p n Hm H0 Hp Hd IH]; intros n' Hn'.
  - inversion Hn'; congruence.
  - inversion Hn' as [|? p' n0 _ _ Hp' Hd']; subst; [done|].
    assert (p' = p) as -> by (eapply same_id; eauto using depth_elem; congruence).
    f_equal. by apply IH.
Qed.

(** The ancestors of a menu are different menus, so it is not deeper than
    there are menus. *)
Lemma depth_path m n :
  depth m n → ∃ l, length l = n ∧ NoDup l ∧ l ⊆ menus ∧
                   ∀ x, x ∈ l → ∃ k, depth x k ∧ (k ≤ n)%nat.
Proof.
  induction 1 as [m Hm H0|m p n Hm H0 Hp Hd (l & Hl & Hnd & Hsub & Hlt)].
  - exists [m]. split_and!; [done|apply NoDup_singleton|set_solver|].
    intros x ->%list_elem_of_singleton. exists 1%nat. split; [by constructor|lia].
  - exists (m :: l). split_and!; [cbn; lia| |set_solver|].
    + constructor; [|done]. intros (k & Hk & ?)%Hlt.
      assert (k = Datatypes.S n) by (eapply depth_fun; [done|by econstructor]). lia.
    + intros x [->|Hx]%elem_of_cons.
      * exists (Datatypes.S n). split; [by econstructor|lia].
      * destruct (Hlt x Hx) as (k & ? & ?). exists k. split; [done|lia].
Qed.

Lemma depth_bound m n : depth m n → (n ≤ length menus)%nat.
Proof.
  intros (l & <- & Hnd & Hsub & _)%depth_path.
  by apply submseteq_length, NoDup_submseteq.
Qed.

(** [below c m]: [m] is [c] or a descendant of it. *)
Inductive below (c : Menu) : Menu → Prop :=
  | below_refl : c ∈ menus → below c c
  | below_child p m :
      below c p → m ∈ menus → Menu.ParentID m ≠ 0 → Menu.ID p = Menu.ParentID m → below c m.

Lemma below_elem c m : below c m → c ∈ menus ∧ m ∈ menus.
Proof. induction 1; naive_solver. Qed.

Lemma below_depth c m n :
  below c m → depth c n → m = c ∨ ∃ k, (n < k)%nat ∧ depth m k.
Proof.
  intros Hb Hc. induction Hb as [|p m Hb IH Hm H0 Hp]; [by left|right].
  destruct IH as [->|(k & ? & Hk)].
  - exists (Datatypes.S n). split; [lia|]. by econstructor.
  - exists (Datatypes.S k). split; [lia|]. by econstructor.
Qed.

(** A menu has one ancestor at each depth. *)
Lemma below_unique c c' m n : below c m → below c' m → depth c n → depth c' n → c = c'.
Proof.
  intros Hb. revert c'. induction Hb as [Hc|p m Hb IH Hm H0 Hp]; intros c' Hb' Hd Hd'.
  - destruct (below_depth _ _ _ Hb' Hd') as [->|(k & ? & Hk)]; [done|].
    pose proof (depth_fun _ _ _ Hd Hk). lia.
  - inversion Hb' as [|p' ? Hb2 _ _ Hp']; subst.
    + destruct (below_depth c m n) as [->|(k & ? & Hk)]; [by econstructor|done|done|].
      pose proof (depth_fun _ _ _ Hd' Hk). lia.
    + assert (p' = p) as ->.
      { apply below_elem in Hb as [_ ?], Hb2 as [_ ?]. eapply same_id; eauto. congruence. }
      by apply IH.
Qed.

(** Descendants, one level at a time. *)
Lemma below_step c m :
  c ∈ menus → below c m ↔ m = c ∨ ∃ c', c' ∈ children_of (Menu.ID c) ∧ below c' m.
Proof.
  intros Hc. split.
  - induction 1 as [|p m Hb IH Hm H0 Hp]; [by left|right].
    destruct IH as [->|(c' & Hc' & Hb')].
    + exists m. rewrite elem_of_children. split; [naive_solver|by constructor].
    + exists c'. split; [done|by econstructor].
  - intros [->|(c' & Hc' & Hb)]; [by constructor|].
    apply elem_of_children in Hc' as (? & ? & ?).
    induction Hb as [|p m Hb IH]; econstructor; eauto. by constructor.
Qed.

Lemma rooted_below m : rooted m ↔ ∃ r, r ∈ roots_of ∧ below r m.
Proof.
  split.
  - intros [n Hd]. induction Hd as [m Hm H0|m p n Hm H0 Hp Hd (r & Hr & Hb)].
    + exists m. rewrite elem_of_roots. split; [done|by constructor].
    + exists r. split; [done|by econstructor].
  - intros (r & [Hr H0]%elem_of_roots & Hb).
    assert (depth r 1) as Hd by by constructor.
    destruct (below_depth _ _ _ Hb Hd) as [->|(k & _ & ?)]; by eexists.
Qed.
End Tree.

(** ** The heap of linked nodes *)

Lemma menuMap_app l m : menuMap (l ++ [m]) = <[Menu.ID m := new_node m]> (menuMap l).
Proof. unfold menuMap. by rewrite foldl_app. Qed.

Lemma menuMap_lookup l m :
  NoDup (Menu.ID <$> l) → m ∈ l → menuMap l !! Menu.ID m = Some (new_node m).
Proof.
  induction l as [|x l IH] using rev_ind; intros Hnd Hin; [by inversion Hin|].
  rewrite menuMap_app. rewrite fmap_app in Hnd. apply NoDup_app in Hnd as (Hnd & Hx & _).
  apply elem_of_app in Hin as [Hin| ->%list_elem_of_singleton]; [|by rewrite lookup_insert_eq].
  rewrite lookup_insert_ne; [by apply IH|].
  intros E. apply (Hx (Menu.ID m)); [by apply list_elem_of_fmap_2|]. rewrite <- E. cbn. set_solver.
Qed.

Lemma menuMap_absent l k : k ∉ Menu.ID <$> l → menuMap l !! k = None.
Proof.
  induction l as [|x l IH] using rev_ind; intros Hk; [apply lookup_empty|].
  rewrite menuMap_app. rewrite fmap_app in Hk. rewrite lookup_insert_ne by set_solver.
  apply IH. set_solver.
Qed.

(** The heap and the roots once the menus [pre] have been linked. *)
Record linked (menus pre : list Menu) (st : heap * list Z) : Prop := {
  lk_node m : m ∈ menus →
    st.1 !! Menu.ID m =
      Some (mkHnode (h_data (new_node m)) (Menu.ID <$> children_of pre (Menu.ID m)));
  lk_absent k : k ∉ Menu.ID <$> menus → st.1 !! k = None;
  lk_roots : st.2 = Menu.ID <$> roots_of pre
}.

Lemma children_of_app l x k :
  children_of (l ++ [x]) k =
  children_of l k ++ (if negb (Menu.ParentID x =? 0) && (Menu.ParentID x =? k) then [x] else []).
Proof. unfold children_of. by rewrite List.filter_app. Qed.

Lemma roots_of_app l x :
  roots_of (l ++ [x]) = roots_of l ++ (if Menu.ParentID x =? 0 then [x] else []).
Proof. unfold roots_of. by rewrite List.filter_app. Qed.

Lemma link_linked menus pre m st :
  NoDup (Menu.ID <$> menus) → linked menus pre st → linked menus (pre ++ [m]) (link st m).
Proof.
  intros Hids [Hn Ha Hr]. destruct st as [h rs]. cbn in *. subst rs. unfold link.
  destruct (Menu.ParentID m =? 0) eqn:E0.
  { split; cbn; [|done|by rewrite roots_of_app, E0, fmap_app].
    intros x Hx. by rewrite children_of_app, E0, app_nil_r, Hn. }
  assert (Menu.ID <$> roots_of pre = Menu.ID <$> roots_of (pre ++ [m])) as Hroots.
  { by rewrite roots_of_app, E0, app_nil_r. }
  destruct (decide (Menu.ParentID m ∈ Menu.ID <$> menus)) as [Hp|Hp].
  - apply list_elem_of_fmap in Hp as (p & Ep & Hp). rewrite Ep, (Hn p Hp). split; cbn; [| |done].
    + intros x Hx. rewrite children_of_app, E0, fmap_app. cbn.
      destruct (Menu.ParentID m =? Menu.ID x) eqn:Ex.
      * apply Z.eqb_eq in Ex. assert (x = p) as -> by (eapply same_id; eauto; congruence).
        by rewrite lookup_insert_eq.
      * apply Z.eqb_neq in Ex. rewrite app_nil_r, lookup_insert_ne by congruence. by apply Hn.
    + intros k Hk. rewrite lookup_insert_ne; [by apply Ha|]. intros <-. apply Hk.
      by apply list_elem_of_fmap_2.
  - rewrite (Ha _ Hp). split; cbn; [|done|done].
    intros x Hx. rewrite (Hn x Hx), children_of_app, E0. cbn.
    destruct (Menu.ParentID m =? Menu.ID x) eqn:Ex; [|by rewrite app_nil_r].
    apply Z.eqb_eq in Ex. rewrite Ex in Hp. by destruct Hp; apply list_elem_of_fmap_2.
Qed.

Lemma BuildMenuTree_linked menus :
  NoDup (Menu.ID <$> menus) → linked menus menus (BuildMenuTree menus).
Proof.
  intros Hids. unfold BuildMenuTree.
  enough (∀ l pre st, linked menus pre st → linked menus (pre ++ l) (foldl link st l)) as HH.
  { apply (HH menus []). split; cbn; [|by apply menuMap_absent|done].
    intros m Hm. by rewrite menuMap_lookup. }
  induction l as [|m l IH]; intros pre st Hst; cbn; [by rewrite app_nil_r|].
  rewrite cons_middle, app_assoc. apply IH. by apply link_linked.
Qed.

Section Unfold.
Variable menus : list Menu.
Context (Hids : NoDup (Menu.ID <$> menus)) (h : heap) (rs : list Z).
Context (Hlk : linked menus menus (h, rs)).

Lemma heap_node m :
  m ∈ menus →
  h !! Menu.ID m =
    Some (mkHnode (h_data (new_node m)) (Menu.ID <$> children_of menus (Menu.ID m))).
Proof. exact (lk_node _ _ _ Hlk m). Qed.

Lemma unfold_tree_total fuel m n :
  depth menus m n → (length menus < n + fuel)%nat → is_Some (unfold_tree fuel h (Menu.ID m)).
Proof.
  revert m n. induction fuel as [|fuel IH]; intros m n Hd Hf.
  { pose proof (depth_bound _ Hids _ _ Hd). lia. }
  cbn [unfold_tree]. rewrite heap_node by eauto using depth_elem.
  cbn [mbind option_bind h_children h_data].
  destruct (mapM _ _) as [ch|] eqn:E; [by eexists|].
  exfalso. apply eq_None_not_Some in E. apply E. apply mapM_is_Some, Forall_forall.
  intros k (c & -> & Hc)%list_elem_of_fmap. apply elem_of_children in Hc as (? & ? & ?).
  eapply (IH c (Datatypes.S n)); [by econstructor|lia].
Qed.

(** The nodes of a list of trees, tree by tree. *)
Lemma forest_elem fuel cs ts x :
  Forall2 (λ c t, unfold_tree fuel h (Menu.ID c) = Some t) cs ts →
  x ∈ concat (map flatten ts) ↔
  ∃ c t, c ∈ cs ∧ t ∈ ts ∧ unfold_tree fuel h (Menu.ID c) = Some t ∧ x ∈ flatten t.
Proof.
  intros HF. induction HF as [|c t cs ts Hu HF IH]; cbn [map concat].
  - split; [by inversion 1|]. intros (c & t & Hc & _). by inversion Hc.
  - rewrite elem_of_app, IH. setoid_rewrite elem_of_cons. naive_solver.
Qed.

(** The nodes of an unfolded tree are those of the menu and its descendants. *)
Lemma unfold_tree_nodes fuel m t x :
  m ∈ menus → unfold_tree fuel h (Menu.ID m) = Some t →
  x ∈ flatten t ↔ ∃ m', below menus m m' ∧ x = h_data (new_node m').
Proof.
  revert m t. induction fuel as [|fuel IH]; intros m t Hm; [done|].
  cbn [unfold_tree]. rewrite heap_node by done.
  cbn [mbind option_bind h_children h_data]. destruct (mapM _ _) as [ch|] eqn:E; [|done].
  intros [= <-]. cbn [flatten]. apply mapM_Some in E. rewrite Forall2_fmap_l in E.
  rewrite elem_of_cons, (forest_elem _ _ _ _ E). setoid_rewrite (below_step _ _ _ Hm). split.
  - intros [->|(c & t & Hc & _ & Hu & Hx)]; [exists m; split; [by left|done]|].
    pose proof Hc as (Hc1 & _)%elem_of_children.
    destruct (proj1 (IH c t Hc1 Hu) Hx) as (m' & Hb & Ex). exists m'. naive_solver.
  - intros (m' & [->|(c & Hc & Hb)] & ->); [by left|right].
    pose proof Hc as (Hc1 & _)%elem_of_children.
    apply list_elem_of_lookup in Hc as [i Hi].
    destruct (Forall2_lookup_l _ _ _ _ _ E Hi) as (t & Ht & Hu).
    exists c, t. split_and!; [by eapply list_elem_of_lookup_2..|done|].
    apply (IH c t Hc1 Hu). by exists m'.
Qed.

Definition ids (l : list MenuTreeNode.fields) : list Z := MenuTreeNode.ID <$> l.

(** A node of a list of trees comes from a descendant of one of their roots. *)
Lemma forest_ids fuel cs ts k :
  cs ⊆ menus → Forall2 (λ c t, unfold_tree fuel h (Menu.ID c) = Some t) cs ts →
  k ∈ ids (concat (map flatten ts)) → ∃ c m, c ∈ cs ∧ below menus c m ∧ k = Menu.ID m.
Proof.
  intros Hcs HF (x & -> & Hx)%list_elem_of_fmap.
  apply (forest_elem _ _ _ _ HF) in Hx as (c & t & Hc & _ & Hu & Hx).
  destruct (proj1 (unfold_tree_nodes fuel c t x (Hcs c Hc) Hu) Hx) as (m & Hm & ->).
  by exists c, m.
Qed.

(** No menu is shown twice in a list of trees whose roots have one depth. *)
Lemma forest_NoDup fuel cs ts n :
  NoDup cs → Forall (λ c, depth menus c n) cs →
  Forall2 (λ c t, unfold_tree fuel h (Menu.ID c) = Some t) cs ts →
  Forall (λ t, NoDup (ids (flatten t))) ts → NoDup (ids (concat (map flatten ts))).
Proof.
  intros Hnd Hd HF HN. induction HF as [|c t cs ts Hu HF IH]; [apply NoDup_nil_2|].
  apply NoDup_cons in Hnd as [Hc Hnd]. apply Forall_cons in Hd as [Hdc Hdcs], HN as [Ht Hts].
  cbn [map concat]. unfold ids. rewrite fmap_app. apply NoDup_app.
  split_and!; [done| |by apply IH].
  intros k Hk Hk'. rewrite Forall_forall in Hdcs.
  destruct (forest_ids fuel [c] [t] k) as (c1 & m & Hc1 & Hm & ->).
  { intros ? ->%list_elem_of_singleton. by eapply depth_elem. }
  { by repeat constructor. }
  { cbn [map concat]. by rewrite app_nil_r. }
  apply list_elem_of_singleton in Hc1 as ->.
  destruct (forest_ids fuel cs ts (Menu.ID m)) as (c' & m' & Hc' & Hm' & E); [|done|done|].
  { intros c' Hc'. eapply depth_elem. by apply Hdcs. }
  assert (m = m') as <-.
  { apply (same_id menus Hids); [by eapply below_elem|by eapply below_elem|done]. }
  assert (c = c') as <- by (eapply below_unique; eauto). done.
Qed.

Lemma children_NoDup k : NoDup (children_of menus k).
Proof. apply NoDup_ListNoDup, List.NoDup_filter, NoDup_ListNoDup. by eapply NoDup_fmap_1. Qed.
Lemma roots_NoDup : NoDup (roots_of menus).
Proof. apply NoDup_ListNoDup, List.NoDup_filter, NoDup_ListNoDup. by eapply NoDup_fmap_1. Qed.

Lemma unfold_forest_NoDup fuel cs ts n :
  (∀ m n t, depth menus m n → unfold_tree fuel h (Menu.ID m) = Some t → NoDup (ids (flatten t))) →
  NoDup cs → Forall (λ c, depth menus c n) cs →
  Forall2 (λ c t, unfold_tree fuel h (Menu.ID c) = Some t) cs ts →
  NoDup (ids (concat (map flatten ts))).
Proof.
  intros IH Hnd Hd HF. eapply forest_NoDup; eauto.
  rewrite Forall_forall in Hd. apply Forall_forall. intros t [i Hi]%list_elem_of_lookup.
  destruct (Forall2_lookup_r _ _ _ _ _ HF Hi) as (c & Hc & Hu).
  eapply IH; [|done]. apply Hd. by eapply list_elem_of_lookup_2.
Qed.

Lemma unfold_tree_NoDup fuel m n t :
  depth menus m n → unfold_tree fuel h (Menu.ID m) = Some t → NoDup (ids (flatten t)).
Proof.
  revert m n t. induction fuel as [|fuel IH]; intros m n t Hd; [done|].
  cbn [unfold_tree]. rewrite heap_node by eauto using depth_elem.
  cbn [mbind option_bind h_children h_data]. destruct (mapM _ _) as [ch|] eqn:E; [|done].
  intros [= <-]. apply mapM_Some in E. rewrite Forall2_fmap_l in E.
  assert (Forall (λ c, depth menus c (Datatypes.S n)) (children_of menus (Menu.ID m))) as Hch.
  { apply Forall_forall. intros c (? & ? & ?)%elem_of_children. by econstructor. }
  constructor; [|by eapply unfold_forest_NoDup; eauto using children_NoDup].
  intros Hk. rewrite Forall_forall in Hch.
  apply (forest_ids fuel (children_of menus (Menu.ID m)) ch) in Hk as (c & m' & Hc & Hm' & Ek);
    [|by intros ? []%elem_of_children|done].
  assert (m' = m) as ->.
  { apply (same_id menus Hids); [by eapply below_elem|by eapply depth_elem|done]. }
  destruct (below_depth _ _ _ _ Hm' (Hch c Hc)) as [->|(k & ? & Hk)].
  - pose proof (depth_fun _ Hids _ _ _ Hd (Hch _ Hc)). lia.
  - pose proof (depth_fun _ Hids _ _ _ Hd Hk). lia.
Qed.
End Unfold.

Lemma BuildMenuTree_forest menus :
  NoDup (Menu.ID <$> menus) →
  ∃ ts, BuildMenuTree_trees menus = Some ts ∧
        Forall2 (λ c t, unfold_tree (length menus) (BuildMenuTree menus).1 (Menu.ID c) = Some t)
          (roots_of menus) ts.
Proof.
  intros Hids. pose proof (BuildMenuTree_linked menus Hids) as Hlk.
  unfold BuildMenuTree_trees. destruct (BuildMenuTree menus) as [h rs].
  pose proof (lk_roots _ _ _ Hlk) as Hrs. cbn in Hrs. subst rs. cbn [fst].
  assert (is_Some (mapM (unfold_tree (length menus) h) (Menu.ID <$> roots_of menus))) as [ts Hts].
  { apply mapM_is_Some, Forall_forall. intros k (r & -> & [Hr H0]%elem_of_roots)%list_elem_of_fmap.
    eapply unfold_tree_total; [done|done|by constructor|lia]. }
  exists ts. split; [done|]. apply mapM_Some in Hts. by rewrite Forall2_fmap_l in Hts.
Qed.

Lemma unfold_tree_data menus fuel h rs m t :
  linked menus menus (h, rs) → m ∈ menus → unfold_tree fuel h (Menu.ID m) = Some t →
  MenuTreeNode.data t = h_data (new_node m).
Proof.
  intros Hlk Hm. destruct fuel as [|fuel]; [done|]. cbn [unfold_tree].
  rewrite (heap_node menus h rs Hlk) by done. cbn [mbind option_bind h_children].
  destruct (mapM _ _); [|done]. by intros [= <-].
Qed.

(** C37: for rows with different ids, [BuildMenuTree] returns trees that end
    (as many levels as there are rows are enough to walk them), whose roots
    are the rows with parent 0 in the order of the input; a row is in the
    trees exactly when its chain of parents reaches a root, and then once;
    the children of a node are the rows that name it, in the order of the
    input.  Rows on a cycle of parents and rows whose parent is missing are
    left out. *)
Theorem BuildMenuTree_members menus (Hids : NoDup (Menu.ID <$> menus)) :
  ∃ ts, BuildMenuTree_trees menus = Some ts ∧
    MenuTreeNode.data <$> ts = (h_data ∘ new_node) <$> roots_of menus ∧
    NoDup (ids (concat (map flatten ts))) ∧
    (∀ x, x ∈ concat (map flatten ts) ↔ ∃ m, rooted menus m ∧ x = h_data (new_node m)) ∧
    (∀ m, m ∈ menus →
       h_children <$> (BuildMenuTree menus).1 !! Menu.ID m =
       Some (Menu.ID <$> children_of menus (Menu.ID m))).
Proof.
  destruct (BuildMenuTree_forest menus Hids) as (ts & Hts & HF). exists ts.
  pose proof (BuildMenuTree_linked menus Hids) as Hlk.
  destruct (BuildMenuTree menus) as [h rs]. cbn [fst] in *.
  assert (roots_of menus ⊆ menus) as Hsub by by intros ? []%elem_of_roots.
  split_and!; [done| | | |].
  - clear Hts. induction HF as [|c t cs ts Hu HF IH]; [done|]. rewrite !fmap_cons. f_equal.
    + eapply unfold_tree_data; eauto. apply Hsub. set_solver.
    + apply IH. set_solver.
  - eapply (unfold_forest_NoDup menus Hids h rs Hlk _ _ _ 1); eauto using roots_NoDup.
    + intros. by eapply unfold_tree_NoDup.
    + apply Forall_forall. intros r []%elem_of_roots. by constructor.
  - intros x. rewrite (forest_elem _ _ _ _ _ HF). split.
    + intros (c & t & Hc & _ & Hu & Hx).
      destruct (proj1 (unfold_tree_nodes menus h rs Hlk _ c t x (Hsub c Hc) Hu) Hx) as (m & Hb & ->).
      exists m. split; [|done]. apply rooted_below. by exists c.
    + intros (m & (c & Hc & Hb)%rooted_below & ->).
      pose proof Hc as [i Hi]%list_elem_of_lookup.
      destruct (Forall2_lookup_l _ _ _ _ _ HF Hi) as (t & Ht & Hu).
      exists c, t. split_and!; [done|by eapply list_elem_of_lookup_2|done|].
      eapply unfold_tree_nodes; eauto.
  - intros m Hm. by rewrite (heap_node menus h rs Hlk).
Qed.

(** Five rows: a root with two children, one of them with a child, and a row
    whose parent is missing. *)
Definition demo_menu (i p : Z) : Menu := Menu.mkMenu i 0 0 p "" "menu" 0 1 "" "".
Definition demo_menus : list Menu :=
  [demo_menu 4 2; demo_menu 1 0; demo_menu 2 1; demo_menu 3 1; demo_menu 5 9].

Lemma BuildMenuTree_members_witness :
  (∃ ts, BuildMenuTree_trees demo_menus = Some ts ∧ NoDup (ids (concat (map flatten ts)))) ∧
  (λ ts, ids (concat (map flatten ts))) <$> BuildMenuTree_trees demo_menus = Some [1; 2; 4; 3].
Proof.
  split; [|vm_compute; reflexivity].
  destruct (BuildMenuTree_members demo_menus) as (ts & Hts & _ & Hnd & _).
  - apply (bool_decide_unpack _). vm_compute. exact I.
  - exists ts. exact (conj Hts Hnd).
Defined.

(** ** The table *)

Section Ops.
Context {S : Type} {T : Table S Menu} {TL : TableLaws S Menu}.
Variable col_eq : string → string → bool.
Variable is_duplicate : error → bool.

(** Equality of text columns is symmetric under every collation. *)
Hypothesis col_eq_sym : ∀ a b, col_eq a b = col_eq b a.

Lemma count_none (p : Menu → bool) s s' r :
  tbl_count p s = (s', r) →
  tbl_rows s' = tbl_rows s ∧
  (count_positive r = Ok false → ∀ m, m ∈ tbl_rows s → p m = false).
Proof.
  intros E. split; [by eapply tbl_count_view|]. destruct r as [n|]; [|done].
  apply tbl_count_ok in E. cbn. intros [= Hn] m Hm. destruct (p m) eqn:Ep; [|done].
  assert (In m (List.filter p (tbl_rows s))) as Hin
    by (apply List.filter_In; by rewrite <- list_elem_of_In).
  apply Z.ltb_ge in Hn. destruct (List.filter p (tbl_rows s)); [done|cbn in E; lia].
Qed.

(** The four existence queries: they read the table, and [false] means that
    no row matches. *)
Lemma exists_post (p : Menu → bool) s s' (r : result bool) :
  (c ← tbl_count p; mret (count_positive c)) s = (s', r) →
  tbl_rows s' = tbl_rows s ∧ (r = Ok false → ∀ m, m ∈ tbl_rows s → p m = false).
Proof.
  unfold mbind, M_bind, mret, M_ret. intros E. open_call E w c Ec.
  apply count_none in Ec. by simplify_eq.
Qed.

Lemma GetMenuByID_post id s s' r :
  GetMenuByID id s = (s', r) →
  tbl_rows s' = tbl_rows s ∧
  match r with
  | Ok (Some m) => m ∈ tbl_rows s ∧ Menu.ID m = id
  | Ok None => id ∉ Menu.ID <$> tbl_rows s
  | Err _ => True
  end.
Proof.
  unfold GetMenuByID, mbind, M_bind, mret, M_ret. intros E. open_call E w a Ef.
  assert (tbl_rows w = tbl_rows s) as Hv by by eapply tbl_first_view.
  destruct a as [m|e]; simplify_eq.
  - split; [done|]. apply tbl_first_ok in Ef as [? ?%Z.eqb_eq]. done.
  - destruct e; simplify_eq; try done. split; [done|]. apply tbl_first_none in Ef.
    intros (m & -> & Hm)%list_elem_of_fmap. apply list_elem_of_In in Hm.
    assert (In m []) as []. rewrite <- Ef. apply List.filter_In. split; [done|apply Z.eqb_refl].
Qed.

Lemma check_exists_post id s s' r :
  check_exists id s = (s', r) →
  tbl_rows s' = tbl_rows s ∧ (r = None → id ∈ Menu.ID <$> tbl_rows s).
Proof.
  unfold check_exists, mbind, M_bind, mret, M_ret. intros E. open_call E w a Ef.
  apply GetMenuByID_post in Ef as [Hv Hr].
  destruct a as [[m|]|]; simplify_eq; try done. split; [done|]. intros _.
  destruct Hr as [? <-]. by apply list_elem_of_fmap_2.
Qed.

Lemma set_cols_id l m : Menu.ID (set_cols l m) = Menu.ID m.
Proof.
  unfold set_cols. revert m. induction l as [|c l IH]; intros m; [done|].
  cbn. rewrite IH. by destruct c, m.
Qed.

(** ** Creation *)

Lemma repo_Create_post m s s' r :
  Menu.ID m = 0 → repo_Create m s = (s', r) →
  match r with
  | Ok _ => ∃ k t, 0 < k ∧ tbl_rows s' = tbl_rows s ++ [Menu.set_stamp t (Menu.set_id k m)]
  | Err _ => tbl_rows s' = tbl_rows s
  end.
Proof.
  unfold repo_Create, mbind, M_bind, mret, M_ret. intros H0 E. open_call E w a Ec.
  destruct a as [k|]; simplify_eq.
  - apply tbl_create_ok in Ec as (? & t & ?); [|done]. by exists k, t.
  - by apply tbl_create_err in Ec.
Qed.

Lemma new_menu_fields req m :
  new_menu req = Ok m →
  Menu.ID m = 0 ∧ Menu.Title m = CreateMenuRequest.Title req ∧
  Menu.URI m = CreateMenuRequest.URI req.
Proof. unfold new_menu. intros. by repeat case_match; simplify_eq. Qed.

(** What a successful [Create] needs and adds. *)
Lemma Create_post req s s' r :
  Create col_eq is_duplicate req s = (s', r) →
  match r with
  | Ok _ =>
      ∃ menu k t, new_menu req = Ok menu ∧
        tbl_rows s' = tbl_rows s ++ [Menu.set_stamp t (Menu.set_id k menu)] ∧
        (∀ m, m ∈ tbl_rows s → col_eq (Menu.Title m) (Menu.Title menu) = false) ∧
        (∀ m, m ∈ tbl_rows s → col_eq (Menu.URI m) (Menu.URI menu) = false)
  | Err _ => tbl_rows s' = tbl_rows s
  end.
Proof.
  unfold Create. do 3 (case_match; [by intros [= <- <-]|]).
  unfold mbind at 1, M_bind at 1. intros E. open_call E w1 a1 E1.
  apply exists_post in E1 as [Hv1 Hn1]. destruct a1 as [[]|]; [by run_inv| |by run_inv].
  unfold mbind at 1, M_bind at 1 in E. open_call E w2 a2 E2.
  apply exists_post in E2 as [Hv2 Hn2].
  destruct a2 as [[]|]; [run_inv; congruence| |run_inv; congruence].
  destruct (new_menu req) as [menu|] eqn:Em; [|run_inv; congruence].
  destruct (new_menu_fields _ _ Em) as (Hid & HT & HU).
  unfold mbind at 1, M_bind at 1 in E. open_call E w3 a3 E3.
  apply repo_Create_post in E3; [|done]. destruct a3 as [[]|].
  - run_inv. destruct E3 as (k & t & _ & ->). exists menu, k, t.
    rewrite HT, HU, Hv2, Hv1. rewrite Hv1 in Hn2. naive_solver.
  - case_match; run_inv; congruence.
Qed.

(** ** Update *)

Lemma repo_Update_post id l s s' r :
  repo_Update id l s = (s', r) →
  tbl_rows s' = if is_ok r
    then (λ m, if Menu.ID m =? id then set_cols l m else m) <$> tbl_rows s else tbl_rows s.
Proof. unfold repo_Update. apply tbl_update_spec. intros m. apply set_cols_id. Qed.

(** The title a list of column updates leaves. *)
Definition col_title (c : menu_col) : option string :=
  match c with ColTitle v => Some v | _ => None end.
Definition col_uri (c : menu_col) : option string :=
  match c with ColURI v => Some v | _ => None end.

Lemma set_cols_title l m :
  Menu.Title (set_cols l m) = Menu.Title m ∨ ∃ v, ColTitle v ∈ l ∧ Menu.Title (set_cols l m) = v.
Proof.
  unfold set_cols. revert m. induction l as [|c l IH]; intros m; [by left|]. cbn [foldl].
  destruct (IH (set_col c m)) as [->|(v & ? & ->)]; [|right; exists v; set_solver].
  destruct c, m; try by left. right. cbn. eexists. split; [|done]. set_solver.
Qed.
Lemma set_cols_uri l m :
  Menu.URI (set_cols l m) = Menu.URI m ∨ ∃ v, ColURI v ∈ l ∧ Menu.URI (set_cols l m) = v.
Proof.
  unfold set_cols. revert m. induction l as [|c l IH]; intros m; [by left|]. cbn [foldl].
  destruct (IH (set_col c m)) as [->|(v & ? & ->)]; [|right; exists v; set_solver].
  destruct c, m; try by left. right. cbn. eexists. split; [|done]. set_solver.
Qed.

Lemma title_update_post req ex s s' r :
  title_update col_eq req ex s = (s', r) →
  tbl_rows s' = tbl_rows s ∧
  match r with
  | Ok l => l = [] ∨ ∃ v, l = [ColTitle v] ∧
      ∀ m, m ∈ tbl_rows s → Menu.ID m ≠ UpdateMenuRequest.ID req → col_eq (Menu.Title m) v = false
  | Err _ => True
  end.
Proof.
  unfold title_update. case_match; [|intros; run_inv; by auto].
  unfold mbind at 1, M_bind at 1. intros E. open_call E w a E1.
  apply exists_post in E1 as [Hv Hn]. destruct a as [[]|]; [by run_inv| |by run_inv].
  run_inv. split; [done|]. right. eexists. split; [done|]. intros m Hm Hid.
  specialize (Hn eq_refl m Hm). apply Z.eqb_neq in Hid. rewrite Hid, andb_true_r in Hn. done.
Qed.
Lemma uri_update_post req ex s s' r :
  uri_update col_eq req ex s = (s', r) →
  tbl_rows s' = tbl_rows s ∧
  match r with
  | Ok l => l = [] ∨ ∃ v, l = [ColURI v] ∧
      ∀ m, m ∈ tbl_rows s → Menu.ID m ≠ UpdateMenuRequest.ID req → col_eq (Menu.URI m) v = false
  | Err _ => True
  end.
Proof.
  unfold uri_update. case_match; [|intros; run_inv; by auto].
  unfold mbind at 1, M_bind at 1. intros E. open_call E w a E1.
  apply exists_post in E1 as [Hv Hn]. destruct a as [[]|]; [by run_inv| |by run_inv].
  run_inv. split; [done|]. right. eexists. split; [done|]. intros m Hm Hid.
  specialize (Hn eq_refl m Hm). apply Z.eqb_neq in Hid. rewrite Hid, andb_true_r in Hn. done.
Qed.

Lemma plain_updates_cols req c :
  c ∈ plain_updates req → col_title c = None ∧ col_uri c = None.
Proof. unfold plain_updates. repeat case_match; cbn; set_solver. Qed.

(** [Update] changes at most the named row, and only by columns whose title
    and URI were checked against the other rows. *)
Lemma Update_post now req s s' r :
  Update col_eq now req s = (s', r) →
  tbl_rows s' = tbl_rows s ∨
  is_ok r = true ∧ ∃ l,
    tbl_rows s' =
      (λ m, if Menu.ID m =? UpdateMenuRequest.ID req then set_cols l m else m) <$> tbl_rows s ∧
    (∀ v m, ColTitle v ∈ l → m ∈ tbl_rows s → Menu.ID m ≠ UpdateMenuRequest.ID req →
            col_eq (Menu.Title m) v = false) ∧
    (∀ v m, ColURI v ∈ l → m ∈ tbl_rows s → Menu.ID m ≠ UpdateMenuRequest.ID req →
            col_eq (Menu.URI m) v = false).
Proof.
  unfold Update. unfold mbind at 1, M_bind at 1. intros E. open_call E w1 a1 E1.
  apply GetMenuByID_post in E1 as [Hv1 _]. destruct a1 as [[ex|]|]; [|run_inv; by left..].
  unfold mbind at 1, M_bind at 1 in E. open_call E w2 a2 E2.
  apply title_update_post in E2 as [Hv2 Ht]. destruct a2 as [tc|]; [|run_inv; left; congruence].
  unfold mbind at 1, M_bind at 1 in E. open_call E w3 a3 E3.
  apply uri_update_post in E3 as [Hv3 Hu]. destruct a3 as [uc|]; [|run_inv; left; congruence].
  rewrite Hv1 in Ht. rewrite Hv2, Hv1 in Hu.
  destruct (tc ++ uc ++ plain_updates req) as [|c cs] eqn:El; [run_inv; left; congruence|].
  unfold mbind at 1, M_bind at 1 in E. open_call E w4 a4 E4.
  apply repo_Update_post in E4. destruct a4 as [[]|]; run_inv; [right|left; congruence].
  rewrite Hv3, Hv2, Hv1 in E4.
  split; [done|]. exists ((c :: cs) ++ [ColUpdatedAt now]). split; [exact E4|].
  assert (∀ x, x ∈ (c :: cs) ++ [ColUpdatedAt now] →
               x ∈ tc ∨ x ∈ uc ∨ col_title x = None ∧ col_uri x = None) as Hall.
  { rewrite <- El. intros x. rewrite !elem_of_app, list_elem_of_singleton.
    intros [[?|[?|?%plain_updates_cols]]| ->]; auto. }
  split; intros v m Hin Hm Hid; apply Hall in Hin as [Hin|[Hin|[? ?]]]; try done.
  all: destruct Ht as [->|(v1 & -> & Ht)], Hu as [->|(v2 & -> & Hu)];
    try apply list_elem_of_singleton in Hin; try by inversion Hin.
  all: injection Hin as ->; by auto.
Qed.

(** ** Deletion *)

Lemma delete_post (p : Menu → bool) s s' r :
  (c ← tbl_delete p; mret (rows_affected c)) s = (s', r) →
  (tbl_rows s' = tbl_rows s ∨ tbl_rows s' = List.filter (λ m, negb (p m)) (tbl_rows s)) ∧
  (r = Ok tt →
     tbl_rows s' = List.filter (λ m, negb (p m)) (tbl_rows s) ∧ ∃ m, m ∈ tbl_rows s ∧ p m = true).
Proof.
  unfold mbind, M_bind, mret, M_ret. intros E. open_call E w c Ec.
  pose proof (tbl_delete_spec _ _ _ _ Ec) as Hs. destruct c as [n|]; simplify_eq; cbn in *; [|naive_solver].
  split; [by right|]. case_match; [done|]. intros _. split; [done|].
  apply tbl_delete_count in Ec. destruct (List.filter p (tbl_rows s)) as [|m l] eqn:Ef.
  { cbn in Ec. by subst. }
  assert (In m (List.filter p (tbl_rows s))) as [Hm Hp]%List.filter_In by (rewrite Ef; by left).
  exists m. by rewrite list_elem_of_In.
Qed.

Lemma check_all_post l s s' r :
  for_ret l check_exists s = (s', r) →
  tbl_rows s' = tbl_rows s ∧ (r = None → ∀ i, i ∈ l → i ∈ Menu.ID <$> tbl_rows s).
Proof.
  revert s. induction l as [|i l IH]; intros s; cbn [for_ret].
  { intros [= <- <-]. split; [done|]. intros _ i Hi. by inversion Hi. }
  unfold mbind, M_bind. intros E. open_call E w a E1.
  apply check_exists_post in E1 as [Hv1 Hi]. destruct a as [e|]; [by run_inv|].
  apply IH in E as [Hv Hl]. rewrite Hv1 in Hv, Hl. split; [done|].
  intros Hr k [->|Hk]%elem_of_cons; auto.
Qed.

Lemma BatchDelete_post l s s' r :
  BatchDelete l s = (s', r) →
  (tbl_rows s' = tbl_rows s ∨
   tbl_rows s' = List.filter (λ m, negb (id_in l (Menu.ID m))) (tbl_rows s)) ∧
  (r = Ok tt →
     l ≠ [] ∧ (∀ i, i ∈ l → i ∈ Menu.ID <$> tbl_rows s) ∧
     tbl_rows s' = List.filter (λ m, negb (id_in l (Menu.ID m))) (tbl_rows s)).
Proof.
  unfold BatchDelete. destruct l as [|i l]; [intros; run_inv; naive_solver|].
  assert (i :: l ≠ []) as Hl by done. revert Hl. generalize (i :: l). clear i l. intros l Hl.
  unfold mbind at 1, M_bind at 1. intros E. open_call E w a E1.
  apply check_all_post in E1 as [Hv Hi]. destruct a as [e|]; [run_inv; naive_solver|].
  apply delete_post in E as [H1 H2]. rewrite Hv in H1, H2. naive_solver.
Qed.

Lemma Delete_post id s s' r :
  Delete id s = (s', r) →
  tbl_rows s' = tbl_rows s ∨
  tbl_rows s' = List.filter (λ m, negb (Menu.ID m =? id)) (tbl_rows s).
Proof.
  unfold Delete. unfold mbind at 1, M_bind at 1. intros E. open_call E w a E1.
  apply check_exists_post in E1 as [Hv _]. destruct a as [e|]; [run_inv; naive_solver|].
  apply delete_post in E as [H1 _]. by rewrite Hv in H1.
Qed.

(** ** Unique titles and routes *)

(** Two rows that the database takes for the same title, or the same route,
    are one row. *)
Definition menu_unique (rows : list Menu) : Prop :=
  ∀ a b, a ∈ rows → b ∈ rows →
    col_eq (Menu.Title a) (Menu.Title b) = true ∨ col_eq (Menu.URI a) (Menu.URI b) = true →
    Menu.ID a = Menu.ID b.

(** The requests that change the table, one after the other. *)
Inductive menu_op : Type :=
  | OpCreate (req : CreateMenuRequest)
  | OpUpdate (now : Z) (req : UpdateMenuRequest)
  | OpDelete (id : Z)
  | OpBatchDelete (l : list Z).
Definition run_op (o : menu_op) : M S (result unit) :=
  match o with
  | OpCreate req => Create col_eq is_duplicate req
  | OpUpdate now req => Update col_eq now req
  | OpDelete id => Delete id
  | OpBatchDelete l => BatchDelete l
  end.

Lemma menu_unique_filter (p : Menu → bool) rows :
  menu_unique rows → menu_unique (List.filter p rows).
Proof.
  intros Hu a b. rewrite !list_elem_of_In, !List.filter_In, <- !list_elem_of_In.
  intros [? _] [? _]. by apply Hu.
Qed.

Lemma menu_unique_add rows m :
  (∀ x, x ∈ rows → col_eq (Menu.Title x) (Menu.Title m) = false) →
  (∀ x, x ∈ rows → col_eq (Menu.URI x) (Menu.URI m) = false) →
  menu_unique rows → menu_unique (rows ++ [m]).
Proof.
  intros HT HU Hu a b. rewrite !elem_of_app, !list_elem_of_singleton.
  intros [Ha| ->] [Hb| ->] Heq; [by apply Hu| | |done].
  - rewrite HT, HU in Heq by done. naive_solver.
  - rewrite (col_eq_sym (Menu.Title m)), (col_eq_sym (Menu.URI m)) in Heq.
    rewrite HT, HU in Heq by done. naive_solver.
Qed.

(** A column that was equal is equal to the old value or to the checked one. *)
Lemma menu_unique_update rows id l :
  (∀ v m, ColTitle v ∈ l → m ∈ rows → Menu.ID m ≠ id → col_eq (Menu.Title m) v = false) →
  (∀ v m, ColURI v ∈ l → m ∈ rows → Menu.ID m ≠ id → col_eq (Menu.URI m) v = false) →
  menu_unique rows →
  menu_unique ((λ m, if Menu.ID m =? id then set_cols l m else m) <$> rows).
Proof.
  intros HT HU Hu.
  assert (∀ a b, a ∈ rows → b ∈ rows → Menu.ID a = id → Menu.ID b ≠ id →
            col_eq (Menu.Title b) (Menu.Title (set_cols l a)) = true ∨
            col_eq (Menu.URI b) (Menu.URI (set_cols l a)) = true → False) as Hx.
  { intros a b Ha Hb Ea Eb [E|E].
    - destruct (set_cols_title l a) as [Et|(v & Hv & Et)]; rewrite Et in E.
      + apply Eb. rewrite <- Ea. by apply Hu; auto.
      + by rewrite HT in E.
    - destruct (set_cols_uri l a) as [Et|(v & Hv & Et)]; rewrite Et in E.
      + apply Eb. rewrite <- Ea. by apply Hu; auto.
      + by rewrite HU in E. }
  intros ? ? (a & -> & Ha)%list_elem_of_fmap (b & -> & Hb)%list_elem_of_fmap.
  destruct (Z.eqb_spec (Menu.ID a) id) as [Ea|Ea], (Z.eqb_spec (Menu.ID b) id) as [Eb|Eb];
    rewrite ?set_cols_id; [congruence| | |by apply Hu].
  - rewrite (col_eq_sym (Menu.Title _)), (col_eq_sym (Menu.URI _)). intros E. by destruct (Hx a b).
  - intros E. by destruct (Hx b a).
Qed.

Lemma run_op_unique o s s' r :
  run_op o s = (s', r) → menu_unique (tbl_rows s) → menu_unique (tbl_rows s').
Proof.
  destruct o as [req|now req|id|l]; cbn; intros E Hu.
  - apply Create_post in E. destruct r as [[]|]; [|by rewrite E].
    destruct E as (m & k & t & _ & -> & HT & HU). apply menu_unique_add; [done|done|done].
  - apply Update_post in E as [->|(_ & l & -> & HT & HU)]; [done|].
    by apply menu_unique_update.
  - apply Delete_post in E as [->| ->]; [done|by apply menu_unique_filter].
  - apply BatchDelete_post in E as [[->| ->] _]; [done|by apply menu_unique_filter].
Qed.

(** whatever requests are served one after the other, with any failures
    of the database in between, no two menus come to share a title or a
    route under the collation of the database. *)
Theorem menus_stay_unique (ops : list menu_op) s
  (Hu : menu_unique (tbl_rows s)) :
  menu_unique (tbl_rows (for_collect ops run_op s).1).
Proof.
  revert s Hu. induction ops as [|o ops IH]; intros s Hu; [done|].
  cbn [for_collect]. unfold mbind, M_bind, mret, M_ret.
  destruct (run_op o s) as [w r] eqn:E. apply run_op_unique in E; [|done].
  specialize (IH w E). by destruct (for_collect ops run_op w).
Qed.

(** ** The paged list *)

Variable col_like : string → string → bool.

(** [childMap] holds, for every parent, its children in the order read. *)
Lemma childMap_lookup l k :
  default [] (foldl add_child ∅ l !! k) =
  (λ m, MenuTreeNode.mkMenuTreeNode (convertToNode m) []) <$> children_of l k.
Proof.
  induction l as [|m l IH] using rev_ind; [cbn [foldl]; by rewrite lookup_empty|].
  rewrite foldl_app, children_of_app, fmap_app, <- IH. cbn [foldl]. unfold add_child at 1.
  destruct (Menu.ParentID m =? 0); cbn [negb andb]; [by rewrite app_nil_r|].
  destruct (Z.eqb_spec (Menu.ParentID m) k) as [->|Hne].
  - by rewrite lookup_insert_eq.
  - by rewrite lookup_insert_ne, app_nil_r.
Qed.

#[local] Instance sort_asc_trans : Transitive (brel sort_asc).
Proof. intros a b c. unfold brel, sort_asc. rewrite !Z.leb_le. lia. Qed.

Lemma Sorted_children l k :
  Sorted (brel sort_asc) l → Sorted (brel sort_asc) (children_of l k).
Proof.
  intros Hs%Sorted_StronglySorted; [|apply _]. apply StronglySorted_Sorted.
  unfold children_of. induction Hs as [|m l Hs IH Hm]; cbn; [constructor|].
  case_match; [|done]. constructor; [done|]. rewrite Forall_forall in *.
  intros x Hx. apply Hm. apply list_elem_of_In in Hx. apply List.filter_In in Hx as [Hx _].
  by apply list_elem_of_In.
Qed.

(** The children read for the parents of a page are all the children of
    each of them. *)
Lemma children_of_read rows parents children p :
  children ≡ₚ List.filter (λ m, id_in (Menu.ID <$> parents) (Menu.ParentID m)) rows →
  p ∈ parents → children_of children (Menu.ID p) ≡ₚ children_of rows (Menu.ID p).
Proof.
  intros Hperm Hp. unfold children_of.
  transitivity (List.filter (λ m, negb (Menu.ParentID m =? 0) && (Menu.ParentID m =? Menu.ID p))
    (List.filter (λ m, id_in (Menu.ID <$> parents) (Menu.ParentID m)) rows)).
  { clear -Hperm. induction Hperm; cbn; repeat case_match; eauto using perm_skip, perm_swap, perm_trans. }
  clear Hperm children. induction rows as [|m rows IH]; [done|]. cbn.
  destruct (id_in _ (Menu.ParentID m)) eqn:Ei; cbn; [by case_match; [f_equiv|]|].
  destruct (Z.eqb_spec (Menu.ParentID m) (Menu.ID p)) as [E|E]; [|by rewrite andb_false_r].
  exfalso. apply not_true_iff_false in Ei. apply Ei. unfold id_in. apply existsb_exists.
  exists (Menu.ID p). rewrite E, Z.eqb_refl. split; [|done].
  apply list_elem_of_In. by apply list_elem_of_fmap_2.
Qed.

Lemma clamp_menu_page_bounds req :
  1 ≤ (clamp_menu_page req).1 ∧ 1 ≤ (clamp_menu_page req).2 ≤ 100.
Proof.
  unfold clamp_menu_page. cbn. split; case_match; lia.
Qed.

Lemma repo_PageList_post off lim title st s s' parents children total :
  repo_PageList col_like off lim title st s = (s', Ok (parents, children, total)) →
  tbl_rows s' = tbl_rows s ∧
  total = Z.of_nat (length (List.filter (top_level col_like title st) (tbl_rows s))) ∧
  (∃ l0, l0 ≡ₚ List.filter (top_level col_like title st) (tbl_rows s) ∧
     Sorted (brel sort_asc) l0 ∧ parents = limit_offset lim off l0) ∧
  Sorted (brel sort_asc) children ∧
  children ≡ₚ List.filter (λ m, id_in (Menu.ID <$> parents) (Menu.ParentID m)) (tbl_rows s).
Proof.
  unfold repo_PageList. unfold mbind at 1, M_bind at 1. intros E. open_call E w1 a1 E1.
  pose proof (tbl_count_view _ _ _ _ E1) as Hv1. destruct a1 as [n|]; [|by run_inv].
  apply tbl_count_ok in E1. unfold mbind at 1, M_bind at 1 in E. open_call E w2 a2 E2.
  pose proof (tbl_page_view _ _ _ _ _ _ _ E2) as Hv2. destruct a2 as [ps|]; [|by run_inv].
  apply tbl_page_ok in E2. rewrite Hv1 in *. destruct ps as [|p ps].
  { run_inv. split_and!; [done..|constructor|]. clear.
    induction (tbl_rows s) as [|m l IH]; [done|]. by cbn. }
  unfold mbind at 1, M_bind at 1 in E. open_call E w3 a3 E3.
  pose proof (tbl_page_view _ _ _ _ _ _ _ E3) as Hv3. destruct a3 as [cs|]; [|by run_inv].
  apply tbl_page_ok in E3 as (l1 & Hl1 & Hs1 & Hc). rewrite Hv2 in *. injection E as <- <- <- <-.
  unfold limit_offset in Hc. cbn in Hc. subst l1. split_and!; done.
Qed.

(** a page of the menu list has at most 100 top-level menus, taken in
    the order of their sort value from those that match the title and status
    filters, and the total counts all that match; each carries all menus that
    name it as parent, ordered by sort value, and nothing below them. *)
Theorem PageList_spec req s s' nodes total
  (H : PageList col_like req s = (s', Ok (nodes, total))) :
  let p := top_level col_like (MenuPageQueryRequest.Title req) (MenuPageQueryRequest.Status req) in
  let '(page, size) := clamp_menu_page req in
  tbl_rows s' = tbl_rows s ∧ 1 ≤ page ∧ 1 ≤ size ≤ 100 ∧
  Z.of_nat (length nodes) ≤ size ∧
  total = Z.of_nat (length (List.filter p (tbl_rows s))) ∧
  ∃ l0 parents,
    l0 ≡ₚ List.filter p (tbl_rows s) ∧ Sorted (brel sort_asc) l0 ∧
    parents = limit_offset size (wrap64 (wrap64 (page - 1) * size)) l0 ∧
    Forall2 (λ m t, MenuTreeNode.data t = convertToNode m ∧
      ∃ ch, ch ≡ₚ children_of (tbl_rows s) (Menu.ID m) ∧ Sorted (brel sort_asc) ch ∧
            MenuTreeNode.Children t =
              (λ c, MenuTreeNode.mkMenuTreeNode (convertToNode c) []) <$> ch)
      parents nodes.
Proof.
  cbn zeta. unfold PageList in H. pose proof (clamp_menu_page_bounds req) as [Hb1 Hb2].
  destruct (clamp_menu_page req) as [page size]. cbn in Hb1, Hb2.
  unfold mbind at 1, M_bind at 1 in H. open_call H w a E.
  destruct a as [[[parents children] n]|]; [|by run_inv].
  apply repo_PageList_post in E as (Hv & -> & (l0 & Hl0 & Hs0 & Hp) & Hsc & Hc).
  injection H as <- <- <-. split_and!; [done|lia|lia|lia| |done|].
  - rewrite length_fmap, Hp. unfold limit_offset.
    destruct (size <? 0) eqn:Es; [apply Z.ltb_lt in Es; lia|]. rewrite length_take. lia.
  - exists l0, parents. split_and!; [done..|]. apply Forall2_fmap_r, Forall_Forall2_diag, Forall_forall.
    intros m Hm. split; [done|]. exists (children_of children (Menu.ID m)).
    split_and!; [by eapply children_of_read|by apply Sorted_children|]. apply childMap_lookup.
Qed.
End Ops.

(** ** On concrete tables *)

Definition demo_table : Table (mem (rows (R := Menu))) Menu := mem_table (λ _ _, false).
#[local] Existing Instance demo_table.
#[local] Instance demo_laws : TableLaws (mem (rows (R := Menu))) Menu := mem_table_laws _.

Definition demo_row (i p : Z) (title uri : string) (sort : Z) : Menu :=
  Menu.mkMenu i 0 0 p title "menu" sort 1 "" uri.
Definition demo_rows : mem (rows (R := Menu)) :=
  mem_rows [demo_row 1 0 "jobs" "/jobs" 2; demo_row 2 1 "queue" "/queue" 3;
            demo_row 3 1 "history" "/history" 1; demo_row 4 0 "admin" "/admin" 1]
    (eq_refl true) [].
Definition demo_create (parent : option Z) (type title : string) : CreateMenuRequest :=
  CreateMenuRequest.mkCreateMenuRequest parent title type (Some 1) "" ("/" +:+ title) 1.

Lemma menus_stay_unique_witness :
  (∀ a b, String.eqb a b = String.eqb b a) ∧ menu_unique String.eqb (tbl_rows demo_rows) ∧
  menu_unique String.eqb (tbl_rows (for_collect
    [OpCreate (demo_create (Some 0) "menu" "files"); OpCreate (demo_create (Some 0) "menu" "jobs");
     OpDelete 2] (run_op String.eqb (λ _, false)) demo_rows).1).
Proof.
  assert (menu_unique String.eqb (tbl_rows demo_rows)) as Hu.
  { intros a b Ha Hb. cbn in Ha, Hb.
    repeat (apply elem_of_cons in Ha as [->|Ha]; [|]); try by inversion Ha.
    all: repeat (apply elem_of_cons in Hb as [->|Hb]; [|]); try by inversion Hb.
    all: cbn; by intros []. }
  split; [exact String.eqb_sym|]. split; [exact Hu|].
  apply (menus_stay_unique String.eqb (λ _, false) String.eqb_sym). exact Hu.
Defined.

Definition demo_query : MenuPageQueryRequest :=
  MenuPageQueryRequest.mkMenuPageQueryRequest 0 500 "" (Some 1).
Definition demo_page := PageList (λ _ _, true) demo_query demo_rows.

Lemma PageList_spec_witness :
  ∃ s' nodes,
    PageList (λ _ _, true) demo_query demo_rows = (s', Ok (nodes, 2)) ∧
    ids (concat (map flatten nodes)) = [4; 1; 3; 2] ∧ Z.of_nat (length nodes) ≤ 10.
Proof.
  assert (demo_page = (demo_page.1, Ok (match demo_page.2 with Ok x => x.1 | Err _ => [] end, 2)))
    as E by (apply run_eq; vm_compute; reflexivity).
  exists demo_page.1, (match demo_page.2 with Ok x => x.1 | Err _ => [] end).
  split; [exact E|]. split; [vm_compute; reflexivity|].
  pose proof (PageList_spec (λ _ _, true) _ _ _ _ _ E) as (_ & _ & _ & Hlen & _). exact Hlen.
Defined.

(** [Create] with a nil [parent_id] passes every check and then reads the
    nil pointer, although a default of 0 was computed for it. *)
Example Create_nil_parent_panics :
  (Create String.eqb (λ _, false) (demo_create None "menu" "files") demo_rows).2 =
  Err (ErrPanic "nil pointer dereference").
Proof. vm_compute. reflexivity. Qed.

(** A catalogue is meant to have parent 0, but keeps the one of the request. *)
Example Create_catalogue_keeps_parent :
  let s := (Create String.eqb (λ _, false) (demo_create (Some 1) "catalogue" "files") demo_rows).1 in
  Menu.ParentID <$> last (tbl_rows s) = Some 1.
Proof. vm_compute. reflexivity. Qed.
