(* ===== verification/Access.v ===== *)
(** * Users, roles and permissions

    The reads of internal/repository/user_repository.go and
    role_repository.go that decide who may do what, the updates of the
    associations between users, roles, menus and permissions, the permission
    checks of internal/service/auth_service.go and the two guards of
    internal/middleware/auth.go.  The seven tables behind them are one
    relational view; a query is a function of it. *)

From S2P Require Import Prelude GoStrings Errors Entity External.

Open Scope Z_scope.

(** ** Relational queries through gorm *)

(** [Find], [First], [Count] of a query with joins, a statement that changes
    the view, and [Transaction]. *)
Class Sql (S V : Type) := {
  sql_view : S → V;
  sql_find : ∀ {A}, (V → list A) → M S (result (list A));
  sql_first : ∀ {A}, (V → list A) → M S (result A);
  sql_count : ∀ {A}, (V → list A) → M S (result Z);
  sql_exec : (V → V) → M S (result unit);
  sql_tx : ∀ {A}, M S (result A) → M S (result A)
}.

Class SqlLaws (S V : Type) `{Sql S V} : Prop := {
  sql_find_view {A} (q : V → list A) s s' r : sql_find q s = (s', r) → sql_view s' = sql_view s;
  sql_find_ok {A} (q : V → list A) s s' l : sql_find q s = (s', Ok l) → l ≡ₚ q (sql_view s);
  sql_first_view {A} (q : V → list A) s s' r : sql_first q s = (s', r) → sql_view s' = sql_view s;
  sql_first_ok {A} (q : V → list A) s s' x : sql_first q s = (s', Ok x) → x ∈ q (sql_view s);
  sql_first_none {A} (q : V → list A) s s' :
    sql_first q s = (s', Err ErrRecordNotFound) → q (sql_view s) = [];
  sql_count_view {A} (q : V → list A) s s' r : sql_count q s = (s', r) → sql_view s' = sql_view s;
  sql_count_ok {A} (q : V → list A) s s' n :
    sql_count q s = (s', Ok n) → n = Z.of_nat (length (q (sql_view s)));
  sql_exec_spec f s s' r :
    sql_exec f s = (s', r) → sql_view s' = if is_ok r then f (sql_view s) else sql_view s;
  sql_tx_ok {A} (c : M S (result A)) s s' a :
    sql_tx c s = (s', Ok a) →
    ∃ s0 s1, sql_view s0 = sql_view s ∧ c s0 = (s1, Ok a) ∧ sql_view s' = sql_view s1;
  sql_tx_err {A} (c : M S (result A)) s s' e :
    sql_tx c s = (s', Err e) → sql_view s' = sql_view s
}.

(** A database that answers every query. *)
Definition reliable (S V : Type) `{Sql S V} : Prop :=
  (∀ A (q : V → list A) s, is_ok (sql_find q s).2 = true) ∧
  (∀ A (q : V → list A) s e, (sql_first q s).2 = Err e → e = ErrRecordNotFound) ∧
  (∀ A (q : V → list A) s, is_ok (sql_count q s).2 = true).

(** ** The tables *)

(** Rows of admin_users and admin_roles without their associations, and the
    join tables: (user, role), (role, permission), (role, menu). *)
Record access : Type := mkAccess {
  a_users : list User;
  a_roles : list Role;
  a_perms : list Permission;
  a_menus : list Menu;
  a_user_roles : list (Z * Z);
  a_role_perms : list (Z * Z);
  a_role_menus : list (Z * Z)
}.

Definition joined (t : list (Z * Z)) (a b : Z) : bool :=
  existsb (λ x, (x.1 =? a) && (x.2 =? b)) t.
Definition roles_of (uid : Z) (v : access) : list Role :=
  List.filter (λ r, joined (a_user_roles v) uid (Role.ID r)) (a_roles v).
Definition perms_of (rid : Z) (v : access) : list Permission :=
  List.filter (λ p, joined (a_role_perms v) rid (Permission.ID p)) (a_perms v).
Definition menus_of (rid : Z) (v : access) : list Menu :=
  List.filter (λ m, joined (a_role_menus v) rid (Menu.ID m)) (a_menus v).

(** [Preload] fills the association fields. *)
Definition with_roles (rs : list Role) (u : User) : User :=
  User.mkUser (User.ID u) (User.Username u) (User.Password u) (User.RealName u) (User.Phone u)
    (User.Avatar u) (User.Email u) (User.Status u) (User.Priority u) (User.MultiTraining u)
    (User.CrossServer u) rs.
Definition with_assoc (ps : list Permission) (ms : list Menu) (r : Role) : Role :=
  Role.mkRole (Role.ID r) (Role.Name r) (Role.Status r) (Role.Slug r) ps ms.

Definition set_user_roles (t : list (Z * Z)) (v : access) : access :=
  mkAccess (a_users v) (a_roles v) (a_perms v) (a_menus v) t (a_role_perms v) (a_role_menus v).
Definition set_role_perms (t : list (Z * Z)) (v : access) : access :=
  mkAccess (a_users v) (a_roles v) (a_perms v) (a_menus v) (a_user_roles v) t (a_role_menus v).
Definition set_role_menus (t : list (Z * Z)) (v : access) : access :=
  mkAccess (a_users v) (a_roles v) (a_perms v) (a_menus v) (a_user_roles v) (a_role_perms v) t.

Definition PrefixRootFile : string := "cloud:file:root:".
Definition PrefixRootTerminal : string := "cloud:terminal:root:".
Definition AccessTypeTerminal : string := "terminal".
Definition AccessTypeFile : string := "file".

Section Access.
Context {S : Type} {Q : Sql S access}.
(** Equality of text columns under the collation of the database. *)
Variable col_eq : string → string → bool.

(** ** Repositories *)

(** The two endings of a [First]: a missing row is a nil pointer. *)
Definition nil_if_missing {A} (e : error) : result (option A) :=
  match e with ErrRecordNotFound => Ok None | _ => Err e end.

Definition find_user (p : User → bool) : M S (result (option User)) :=
  r ← sql_first (λ v, List.filter p (a_users v));
  match r with
  | Err e => mret (nil_if_missing e)
  | Ok u =>
      rs ← sql_find (roles_of (User.ID u));
      match rs with
      | Err e => mret (nil_if_missing e)
      | Ok rs => mret (Ok (Some (with_roles rs u)))
      end
  end.
Definition FindByID (id : Z) : M S (result (option User)) :=
  find_user (λ u, User.ID u =? id).
Definition FindByUsername (username : string) : M S (result (option User)) :=
  find_user (λ u, col_eq (User.Username u) username).
Definition FindByEmail (email : string) : M S (result (option User)) :=
  find_user (λ u, col_eq (User.Email u) email).

Definition FindBySlug (slug : string) : M S (result (option Role)) :=
  r ← sql_first (λ v, List.filter (λ r, col_eq (Role.Slug r) slug) (a_roles v));
  match r with
  | Err e => mret (nil_if_missing e)
  | Ok role =>
      ps ← sql_find (perms_of (Role.ID role));
      match ps with
      | Err e => mret (nil_if_missing e)
      | Ok ps =>
          ms ← sql_find (menus_of (Role.ID role));
          match ms with
          | Err e => mret (nil_if_missing e)
          | Ok ms => mret (Ok (Some (with_assoc ps ms role)))
          end
      end
  end.

(** The five-table join of [CheckUserPermission], one element per tuple. *)
Definition permission_join (userID : Z) (method path : string) (v : access) : list unit :=
  concat (map (λ ur, concat (map (λ ro, concat (map (λ rp, concat (map (λ p,
    if joined [ur] userID (Role.ID ro) && joined [rp] (Role.ID ro) (Permission.ID p) &&
       existsb (λ u, User.ID u =? userID) (a_users v) &&
       col_eq (Permission.HttpMethod p) method && col_eq (Permission.HttpPath p) path &&
       (Permission.Status p =? 1)
    then [tt] else []) (a_perms v))) (a_role_perms v))) (a_roles v))) (a_user_roles v)).

Definition repo_CheckUserPermission (userID : Z) (method path : string) : M S (result bool) :=
  r ← sql_count (permission_join userID method path);
  mret (match r with Err e => Err e | Ok count => Ok (0 <? count) end).

(** [Association("Roles").Append]: the join row, unless it is there. *)
Definition AssignRoleByName (userID : Z) (name : string) : M S (result unit) :=
  r ← sql_first (λ v, List.filter (λ r, col_eq (Role.Slug r) name) (a_roles v));
  match r with
  | Err e => mret (Err e)
  | Ok role => sql_exec (λ v,
      if joined (a_user_roles v) userID (Role.ID role) then v
      else set_user_roles (a_user_roles v ++ [(userID, Role.ID role)]) v)
  end.

Definition ClearRoles (userID : Z) : M S (result unit) :=
  sql_exec (λ v, set_user_roles (List.filter (λ x, negb (x.1 =? userID)) (a_user_roles v)) v).

Definition add_rows (k : Z) (l : list Z) (t : list (Z * Z)) : list (Z * Z) :=
  foldl (λ t i, if joined t k i then t else t ++ [(k, i)]) t l.

(** [Association("Roles").Replace]: the new rows are added, then the other
    rows of the user are deleted. *)
Definition ReplaceRolesByNames (userID : Z) (names : list string) : M S (result unit) :=
  match names with
  | [] => ClearRoles userID
  | _ =>
      r ← sql_find (λ v, List.filter (λ r, existsb (col_eq (Role.Slug r)) names) (a_roles v));
      match r with
      | Err e => mret (Err e)
      | Ok roles =>
          let ids := Role.ID <$> roles in
          a ← sql_exec (λ v, set_user_roles (add_rows userID ids (a_user_roles v)) v);
          match a with
          | Err e => mret (Err e)
          | Ok _ => sql_exec (λ v, set_user_roles
              (List.filter (λ x, negb (x.1 =? userID) || existsb (Z.eqb x.2) ids)
                 (a_user_roles v)) v)
          end
      end
  end.

Definition drop_role (roleID : Z) (t : list (Z * Z)) : list (Z * Z) :=
  List.filter (λ x, negb (x.1 =? roleID)) t.

Definition UpdateRolePermission (roleID : Z) (menuIDs permissionIDs : list Z) : M S (result unit) :=
  sql_tx (
    d1 ← sql_exec (λ v, set_role_menus (drop_role roleID (a_role_menus v)) v);
    match d1 with
    | Err e => mret (Err e)
    | Ok _ =>
        d2 ← sql_exec (λ v, set_role_perms (drop_role roleID (a_role_perms v)) v);
        match d2 with
        | Err e => mret (Err e)
        | Ok _ =>
            c1 ← match menuIDs with
                 | [] => mret (Ok tt)
                 | _ => sql_exec (λ v,
                     set_role_menus (a_role_menus v ++ (pair roleID <$> menuIDs)) v)
                 end;
            match c1 with
            | Err e => mret (Err e)
            | Ok _ =>
                match permissionIDs with
                | [] => mret (Ok tt)
                | _ => sql_exec (λ v,
                    set_role_perms (a_role_perms v ++ (pair roleID <$> permissionIDs)) v)
                end
            end
        end
    end).

(** ** Checks of the authentication service *)

(** The loop of [userHasPermission] and [userHasPermissionPrefix]: a role that
    cannot be loaded is skipped. *)
Fixpoint roles_grant (test : Permission → bool) (roles : list Role) : M S bool :=
  match roles with
  | [] => mret false
  | role :: rest =>
      if negb (Role.Status role =? 1) then roles_grant test rest
      else
        r ← FindBySlug (Role.Slug role);
        match r with
        | Err _ | Ok None => roles_grant test rest
        | Ok (Some fullRole) =>
            if existsb (λ p, test p && (Permission.Status p =? 1)) (Role.Permissions fullRole)
            then mret true
            else roles_grant test rest
        end
  end.

Definition userHasPermission (user : User) (permissionSlug : string) : M S bool :=
  roles_grant (λ p, String.eqb (Permission.Slug p) permissionSlug) (User.Roles user).
Definition userHasPermissionPrefix (user : User) (prefix : string) : M S bool :=
  roles_grant (λ p, HasPrefix (Permission.Slug p) prefix) (User.Roles user).

Definition HasSystemAccess (userID : Z) (accessType : string) : M S (result bool) :=
  r ← FindByID userID;
  match r with
  | Err e => mret (Err (NewWithErr CodeInternalError "检查系统访问权限时按ID查找用户失败" e))
  | Ok None => mret (Ok false)
  | Ok (Some user) =>
      if String.eqb accessType AccessTypeTerminal then
        b ← userHasPermissionPrefix user PrefixRootTerminal; mret (Ok b)
      else if String.eqb accessType AccessTypeFile then
        b ← userHasPermissionPrefix user PrefixRootFile; mret (Ok b)
      else mret (Ok false)
  end.

Definition CheckUserPermission (userID : Z) (method path : string) : M S (result bool) :=
  r ← repo_CheckUserPermission userID method path;
  match r with
  | Err e => mret (Err (NewWithErr CodeInternalError "检查用户权限失败" e))
  | Ok b => mret (Ok b)
  end.

Definition GetPermissionsByRole (slug : string) : M S (result (list Permission)) :=
  r ← FindBySlug slug;
  match r with
  | Err e => mret (Err (NewWithErr CodeInternalError "按Slug查找角色失败" e))
  | Ok None => mret (Err (New CodeInvalidParam "角色不存在"))
  | Ok (Some role) => mret (Ok (Role.Permissions role))
  end.
End Access.

(** * Properties *)

Section Props.
Context {S : Type} {Q : Sql S access} {L : SqlLaws S access}.
Variable col_eq : string → string → bool.

(** ** What the tables say *)

(** Two roles with the same slug are one: the unique index of admin_roles. *)
Definition slugs_unique (v : access) : Prop :=
  ∀ a b, a ∈ a_roles v → b ∈ a_roles v → col_eq (Role.Slug a) (Role.Slug b) = true → a = b.

(** An enabled role of the user has an enabled permission that passes. *)
Definition granted (v : access) (roles : list Role) (test : Permission → bool) : Prop :=
  ∃ r p, r ∈ roles ∧ Role.Status r = 1 ∧ p ∈ perms_of (Role.ID r) v ∧
         test p = true ∧ Permission.Status p = 1.

Definition root_prefix (accessType : string) : option string :=
  if String.eqb accessType AccessTypeTerminal then Some PrefixRootTerminal
  else if String.eqb accessType AccessTypeFile then Some PrefixRootFile
  else None.

Definition system_access (v : access) (userID : Z) (accessType : string) : Prop :=
  userID ∈ User.ID <$> a_users v ∧
  ∃ pre, root_prefix accessType = Some pre ∧
         granted v (roles_of userID v) (λ p, HasPrefix (Permission.Slug p) pre).

(** ** Reads *)

Lemma FindBySlug_post slug s s' r :
  FindBySlug col_eq slug s = (s', r) →
  sql_view s' = sql_view s ∧
  (∀ full, r = Ok (Some full) →
     ∃ role, role ∈ a_roles (sql_view s) ∧ col_eq (Role.Slug role) slug = true ∧
       Role.Permissions full ≡ₚ perms_of (Role.ID role) (sql_view s) ∧
       Role.Menus full ≡ₚ menus_of (Role.ID role) (sql_view s)) ∧
  (reliable S access →
     (∃ role, role ∈ a_roles (sql_view s) ∧ col_eq (Role.Slug role) slug = true) →
     ∃ full, r = Ok (Some full)).
Proof.
  unfold FindBySlug. unfold mbind at 1, M_bind at 1. intros E. open_call E w1 a1 E1.
  pose proof (sql_first_view _ _ _ _ E1) as Hv1. destruct a1 as [role|e].
  2:{ injection E as <- <-. split_and!; [done|by destruct e|].
      intros (_ & Hf & _) (role & Hin & Hc). exfalso.
      assert (e = ErrRecordNotFound) as -> by exact (Hf _ _ _ _ (f_equal snd E1)).
      apply sql_first_none in E1. apply list_elem_of_In in Hin.
      assert (In role []) as []. rewrite <- E1. by apply List.filter_In. }
  apply sql_first_ok, list_elem_of_In, List.filter_In in E1 as [Hin%list_elem_of_In Hc].
  unfold mbind at 1, M_bind at 1 in E. open_call E w2 a2 E2.
  pose proof (sql_find_view _ _ _ _ E2) as Hv2. destruct a2 as [ps|e].
  2:{ injection E as <- <-. split_and!; [congruence|by destruct e|].
      intros (Hf & _) _. specialize (Hf _ (perms_of (Role.ID role)) w1). by rewrite E2 in Hf. }
  unfold mbind at 1, M_bind at 1 in E. open_call E w3 a3 E3.
  pose proof (sql_find_view _ _ _ _ E3) as Hv3. destruct a3 as [ms|e].
  2:{ injection E as <- <-. split_and!; [congruence|by destruct e|].
      intros (Hf & _) _. specialize (Hf _ (menus_of (Role.ID role)) w2). by rewrite E3 in Hf. }
  apply sql_find_ok in E2, E3. injection E as <- <-. rewrite Hv2, Hv1 in E3. rewrite Hv1 in E2.
  split_and!; [congruence| |by eexists]. intros full [= <-]. exists role. by cbn.
Qed.

Lemma find_user_post p s s' r :
  find_user p s = (s', r) →
  sql_view s' = sql_view s ∧
  (∀ u, r = Ok (Some u) →
     ∃ u0, u0 ∈ a_users (sql_view s) ∧ p u0 = true ∧ u = with_roles (User.Roles u) u0 ∧
       User.Roles u ≡ₚ roles_of (User.ID u0) (sql_view s)) ∧
  (reliable S access →
     (∃ u, r = Ok (Some u)) ∨ r = Ok None ∧ ∀ u0, u0 ∈ a_users (sql_view s) → p u0 = false).
Proof.
  unfold find_user. unfold mbind at 1, M_bind at 1. intros E. open_call E w1 a1 E1.
  pose proof (sql_first_view _ _ _ _ E1) as Hv1. destruct a1 as [u|e].
  2:{ injection E as <- <-. split_and!; [done|by destruct e|].
      intros (_ & Hf & _). right.
      assert (e = ErrRecordNotFound) as -> by exact (Hf _ _ _ _ (f_equal snd E1)).
      split; [done|]. apply sql_first_none in E1. intros u0 Hin. destruct (p u0) eqn:Ep; [|done].
      assert (In u0 []) as []. rewrite <- E1. apply List.filter_In. by rewrite <- list_elem_of_In. }
  apply sql_first_ok, list_elem_of_In, List.filter_In in E1 as [Hin%list_elem_of_In Hp].
  unfold mbind at 1, M_bind at 1 in E. open_call E w2 a2 E2.
  pose proof (sql_find_view _ _ _ _ E2) as Hv2. destruct a2 as [rs|e].
  2:{ injection E as <- <-. split_and!; [congruence|by destruct e|].
      intros (Hf & _). specialize (Hf _ (roles_of (User.ID u)) w1). by rewrite E2 in Hf. }
  apply sql_find_ok in E2. injection E as <- <-. rewrite Hv1 in E2.
  split_and!; [congruence| |by left; eexists]. intros u' [= <-]. exists u. by cbn.
Qed.

(** ** The loop over the roles *)

Lemma roles_grant_post test roles s s' b :
  roles ⊆ a_roles (sql_view s) → slugs_unique (sql_view s) →
  roles_grant col_eq test roles s = (s', b) →
  sql_view s' = sql_view s ∧
  (b = true → granted (sql_view s) roles test) ∧
  ((∀ x, col_eq x x = true) → reliable S access →
     granted (sql_view s) roles test → b = true).
Proof.
  revert s s' b. induction roles as [|r roles IH]; intros s s' b Hsub Hu; cbn [roles_grant].
  { intros [= <- <-]. split_and!; [done..|]. intros _ _ (r & p & Hr & _). by inversion Hr. }
  assert (roles ⊆ a_roles (sql_view s)) as Hsub' by set_solver.
  destruct (Z.eqb_spec (Role.Status r) 1) as [Hst|Hst]; cbn [negb].
  2:{ intros (Hv & Hs & Hc)%IH; [|done|done]. split_and!; [done| |].
      - intros (r' & p & ? & ?)%Hs. exists r', p. set_solver.
      - intros Hre Hrel (r' & p & [->|Hr']%elem_of_cons & Hrest); [naive_solver|].
        apply Hc; [done|done|]. by exists r', p. }
  unfold mbind, M_bind. intros E. open_call E w a E1.
  apply FindBySlug_post in E1 as (Hv1 & Hs1 & Hc1).
  assert (∀ b' w', roles_grant col_eq test roles w = (w', b') →
            sql_view w' = sql_view s ∧ (b' = true → granted (sql_view s) roles test) ∧
            ((∀ x, col_eq x x = true) → reliable S access →
               granted (sql_view s) roles test → b' = true)) as IH'.
  { intros b' w' E'. apply IH in E'; rewrite Hv1 in *; done. }
  assert (∀ test', granted (sql_view s) roles test' → granted (sql_view s) (r :: roles) test') as Hcons.
  { intros test' (r' & p & ? & ?). exists r', p. set_solver. }
  destruct a as [[full|]|e].
  - destruct (Hs1 full eq_refl) as (role & Hin & Hc & Hps & _).
    assert (role = r) as -> by (apply Hu; [done|set_solver|done]).
    destruct (existsb _ _) eqn:Ex.
    + injection E as <- <-. split_and!; [done| |done]. intros _.
      apply existsb_exists in Ex as (p & Hp & [Ht Hst']%andb_true_iff).
      exists r, p. apply list_elem_of_In in Hp. rewrite Hps in Hp. apply Z.eqb_eq in Hst'. set_solver.
    + apply IH' in E as (Hv & Hs & Hcm). split_and!; [done|by auto|].
      intros Hre Hrel (r' & p & [->|Hr']%elem_of_cons & Hst' & Hp & Ht & Hpst).
      * exfalso. apply not_true_iff_false in Ex. apply Ex, existsb_exists. exists p.
        rewrite <- Hps in Hp. rewrite Ht, Hpst. by rewrite <- list_elem_of_In.
      * apply Hcm; [done|done|]. by exists r', p.
  - apply IH' in E as (Hv & Hs & _). split_and!; [done|by auto|].
    intros Hre Hrel. destruct Hc1 as (full & ?); [done| |done]. exists r. set_solver.
  - apply IH' in E as (Hv & Hs & _). split_and!; [done|by auto|].
    intros Hre Hrel. destruct Hc1 as (full & ?); [done| |done]. exists r. set_solver.
Qed.

Lemma granted_perm v l l' test : l ≡ₚ l' → granted v l test ↔ granted v l' test.
Proof. intros Hp. unfold granted. by setoid_rewrite Hp. Qed.

Lemma roles_of_sub uid v : roles_of uid v ⊆ a_roles v.
Proof. intros r. unfold roles_of. rewrite !list_elem_of_In, List.filter_In. tauto. Qed.

(** ** System access *)

Lemma HasSystemAccess_post userID ty s s' r :
  slugs_unique (sql_view s) →
  HasSystemAccess col_eq userID ty s = (s', r) →
  sql_view s' = sql_view s ∧
  (r = Ok true → system_access (sql_view s) userID ty) ∧
  ((∀ x, col_eq x x = true) → reliable S access →
     ∃ b, r = Ok b ∧ (b = true ↔ system_access (sql_view s) userID ty)).
Proof.
  intros Hu. unfold HasSystemAccess. unfold mbind at 1, M_bind at 1. intros E. open_call E w a E1.
  apply find_user_post in E1 as (Hv1 & Hs1 & Hc1). unfold system_access, root_prefix.
  destruct a as [[u|]|e].
  2:{ injection E as <- <-. split_and!; [done..|]. intros _ Hrel. exists false. split; [done|].
      destruct (Hc1 Hrel) as [(u & ?)|[_ Hno]]; [done|]. split; [done|].
      intros [(u & Hid & Hin)%list_elem_of_fmap _]. specialize (Hno u Hin).
      by rewrite <- Hid, Z.eqb_refl in Hno. }
  2:{ injection E as <- <-. split_and!; [done..|]. intros _ Hrel.
      by destruct (Hc1 Hrel) as [(u & ?)|[? _]]. }
  destruct (Hs1 u eq_refl) as (u0 & Hin & Hid%Z.eqb_eq & _ & Hroles).
  assert (userID ∈ User.ID <$> a_users (sql_view s)) as Huser
    by (rewrite <- Hid; by apply list_elem_of_fmap_2).
  rewrite Hid in Hroles.
  assert (User.Roles u ⊆ a_roles (sql_view w)) as Hsub.
  { rewrite Hv1. intros x Hx. rewrite Hroles in Hx. by apply (roles_of_sub userID). }
  assert (slugs_unique (sql_view w)) as Hu' by by rewrite Hv1.
  destruct (String.eqb ty AccessTypeTerminal); [|destruct (String.eqb ty AccessTypeFile)].
  3:{ injection E as <- <-. split_and!; [done..|]. intros _ _. exists false. naive_solver. }
  all: unfold mbind at 1, M_bind at 1 in E; open_call E w2 b E2; injection E as <- <-;
    apply roles_grant_post in E2 as (Hv2 & Hs2 & Hc2); [|done|done];
    rewrite Hv1 in Hs2, Hc2; setoid_rewrite (granted_perm _ _ _ _ Hroles) in Hs2;
    setoid_rewrite (granted_perm _ _ _ _ Hroles) in Hc2;
    split_and!; [congruence| |];
    [intros [= ->]; eauto|intros Hre Hrel; exists b; split; [done|]; naive_solver].
Qed.

(** [HasSystemAccess] answers true only for a user that exists and has an
    enabled role with an enabled permission under the root prefix of the
    access type, whatever reads fail on the way; when every read is answered
    it answers, and true exactly for those users.  It changes nothing. *)
Theorem HasSystemAccess_spec userID ty s s' r
  (Hrefl : ∀ x, col_eq x x = true) (Hu : slugs_unique (sql_view s))
  (H : HasSystemAccess col_eq userID ty s = (s', r)) :
  sql_view s' = sql_view s ∧
  (r = Ok true → system_access (sql_view s) userID ty) ∧
  (reliable S access → ∃ b, r = Ok b ∧ (b = true ↔ system_access (sql_view s) userID ty)).
Proof. destruct (HasSystemAccess_post _ _ _ _ _ Hu H) as (? & ? & ?). auto. Qed.

(** ** Permission of a request *)

(** The user has a role, enabled or not, with an enabled permission for the
    method and the path. *)
Definition api_permission (v : access) (userID : Z) (method path : string) : Prop :=
  userID ∈ User.ID <$> a_users v ∧
  ∃ r p, r ∈ roles_of userID v ∧ p ∈ perms_of (Role.ID r) v ∧ Permission.Status p = 1 ∧
         col_eq (Permission.HttpMethod p) method = true ∧ col_eq (Permission.HttpPath p) path = true.

Lemma joined_elem t a b : joined t a b = true ↔ (a, b) ∈ t.
Proof.
  unfold joined. rewrite existsb_exists. split.
  - intros ([x y] & Hin & [Hx%Z.eqb_eq Hy%Z.eqb_eq]%andb_true_iff). cbn in *. subst.
    by apply list_elem_of_In.
  - intros Hin%list_elem_of_In. exists (a, b). cbn. by rewrite !Z.eqb_refl.
Qed.

Lemma concat_map_elem {A B} (f : A → list B) l x :
  x ∈ concat (map f l) ↔ ∃ a, a ∈ l ∧ x ∈ f a.
Proof.
  rewrite list_elem_of_In, in_concat. setoid_rewrite in_map_iff. setoid_rewrite <- list_elem_of_In.
  naive_solver.
Qed.

Lemma permission_join_elem userID method path v :
  tt ∈ permission_join col_eq userID method path v ↔ api_permission v userID method path.
Proof.
  unfold permission_join, api_permission, roles_of, perms_of.
  rewrite concat_map_elem. setoid_rewrite concat_map_elem. setoid_rewrite concat_map_elem.
  setoid_rewrite concat_map_elem.
  setoid_rewrite (list_elem_of_In (List.filter _ _)). setoid_rewrite List.filter_In.
  setoid_rewrite <- list_elem_of_In. setoid_rewrite joined_elem. split.
  - intros (ur & Hur & ro & Hro & rp & Hrp & p & Hp & Hin). case_match eqn:Ec; [|by inversion Hin].
    rewrite !andb_true_iff in Ec. destruct Ec as [[[[[Hj1 Hj2] He] Hm] Hpa] Hst%Z.eqb_eq].
    apply existsb_exists in He as (u & Huin & Hid%Z.eqb_eq).
    apply joined_elem, list_elem_of_singleton in Hj1 as <-, Hj2 as <-.
    split; [rewrite <- Hid; apply list_elem_of_fmap_2; by apply list_elem_of_In|].
    by exists ro, p.
  - intros [(u & -> & Huin)%list_elem_of_fmap (ro & p & [? ?] & [? ?] & Hst & Hm & Hpa)].
    exists (User.ID u, Role.ID ro). split; [done|]. exists ro. split; [done|].
    exists (Role.ID ro, Permission.ID p). split; [done|]. exists p. split; [done|].
    rewrite Hst, Hm, Hpa. unfold joined. cbn. rewrite !Z.eqb_refl. cbn.
    replace (existsb _ _) with true; [by constructor|]. symmetry. apply existsb_exists.
    exists u. split; [by apply list_elem_of_In|apply Z.eqb_refl].
Qed.

Lemma CheckUserPermission_post userID method path s s' r :
  CheckUserPermission col_eq userID method path s = (s', r) →
  sql_view s' = sql_view s ∧
  (∀ b, r = Ok b → b = true ↔ api_permission (sql_view s) userID method path) ∧
  (reliable S access → is_ok r = true).
Proof.
  unfold CheckUserPermission, repo_CheckUserPermission, mbind, M_bind, mret, M_ret. intros E.
  destruct (sql_count _ s) as [w c] eqn:E1. pose proof (sql_count_view _ _ _ _ E1) as Hv.
  destruct c as [n|e].
  - injection E as <- <-. split_and!; [done| |done]. intros b [= <-].
    apply sql_count_ok in E1. rewrite <- permission_join_elem, E1, Z.ltb_lt.
    destruct (permission_join _ _ _ _ _) as [|[] l]; cbn.
    + split; [lia|by inversion 1].
    + split; [set_solver|lia].
  - injection E as <- <-. split_and!; [done..|]. intros (_ & _ & Hc).
    pose proof (Hc _ (permission_join col_eq userID method path) s) as Hn. by rewrite E1 in Hn.
Qed.

(** ** Changing the permissions of a role *)

Lemma drop_role_elem k t a b : (a, b) ∈ drop_role k t ↔ (a, b) ∈ t ∧ a ≠ k.
Proof.
  unfold drop_role. by rewrite !list_elem_of_In, List.filter_In, negb_true_iff, Z.eqb_neq.
Qed.

(** The join table after the rows of a role are replaced. *)
Definition replaced (k : Z) (l : list Z) (t t' : list (Z * Z)) : Prop :=
  ∀ a b, (a, b) ∈ t' ↔ (a ≠ k ∧ (a, b) ∈ t) ∨ (a = k ∧ b ∈ l).

Lemma replaced_rows k l t : replaced k l t (drop_role k t ++ (pair k <$> l)).
Proof.
  intros a b. rewrite elem_of_app, drop_role_elem, list_elem_of_fmap. naive_solver.
Qed.
Lemma replaced_nil k t : replaced k [] t (drop_role k t).
Proof. intros a b. rewrite drop_role_elem. set_solver. Qed.

(** [UpdateRolePermission] replaces the menus and the permissions of the
    role by exactly the given ones and leaves every other role and table
    alone; when it fails, whatever statement failed, nothing is changed. *)
Theorem UpdateRolePermission_spec roleID menuIDs permissionIDs s s' r
  (H : UpdateRolePermission roleID menuIDs permissionIDs s = (s', r)) :
  match r with
  | Ok _ => ∃ ms ps, sql_view s' = set_role_perms ps (set_role_menus ms (sql_view s)) ∧
      replaced roleID menuIDs (a_role_menus (sql_view s)) ms ∧
      replaced roleID permissionIDs (a_role_perms (sql_view s)) ps
  | Err _ => sql_view s' = sql_view s
  end.
Proof.
  unfold UpdateRolePermission in H. destruct r as [[]|]; [|by apply sql_tx_err in H].
  apply sql_tx_ok in H as (s0 & s1 & Hv0 & E & ->). rewrite <- Hv0. clear Hv0.
  unfold mbind at 1, M_bind at 1 in E. open_call E w1 a1 E1. apply sql_exec_spec in E1.
  destruct a1; [|by injection E]. cbn in E1.
  unfold mbind at 1, M_bind at 1 in E. open_call E w2 a2 E2. apply sql_exec_spec in E2.
  destruct a2; [|by injection E]. cbn in E2.
  unfold mbind at 1, M_bind at 1 in E. open_call E w3 a3 E3. destruct a3; [|by injection E].
  assert (∃ ms, sql_view w3 = set_role_menus ms (sql_view w2) ∧
                replaced roleID menuIDs (a_role_menus (sql_view s0)) ms) as (ms & Hms & Hrm).
  { destruct menuIDs as [|i l].
    - injection E3 as <-. exists (drop_role roleID (a_role_menus (sql_view s0))).
      split; [by rewrite E2, E1|apply replaced_nil].
    - apply sql_exec_spec in E3. cbn [is_ok] in E3. eexists. split; [exact E3|].
      rewrite E2, E1. cbn. apply (replaced_rows roleID (i :: l)). }
  exists ms. destruct permissionIDs as [|i l].
  - injection E as <-. exists (drop_role roleID (a_role_perms (sql_view s0))).
    rewrite Hms, E2, E1. split; [done|]. split; [done|]. apply replaced_nil.
  - apply sql_exec_spec in E. cbn [is_ok] in E. eexists.
    split; [rewrite E, Hms, E2, E1; reflexivity|]. split; [done|].
    exact (replaced_rows roleID (i :: l) _).
Qed.
End Props.

(** ** A database in memory *)

#[export] Instance mem_sql (V : Type) : Sql V V := {
  sql_view v := v;
  sql_find _ q v := (v, Ok (q v));
  sql_first _ q v := (v, match q v with x :: _ => Ok x | [] => Err ErrRecordNotFound end);
  sql_count _ q v := (v, Ok (Z.of_nat (length (q v))));
  sql_exec f v := (f v, Ok tt);
  sql_tx _ c v := match c v with (v', Ok a) => (v', Ok a) | (_, Err e) => (v, Err e) end
}.

#[export] Instance mem_sql_laws (V : Type) : SqlLaws V V.
Proof.
  split; cbn; intros *; try by intros [=].
  - by intros [= <- ->].
  - intros [= <- Hq]. destruct (q s) as [|y l]; [done|]. injection Hq as <-. by constructor.
  - intros [= <- Hq]. by destruct (q s).
  - intros [= <- <-]. done.
  - destruct (c s) as [v [x|]] eqn:E; intros [= <- <-]. by exists s, v.
  - destruct (c s) as [v [x|]]; intros [= <- <-]. done.
Qed.

Lemma mem_sql_reliable V : reliable V V.
Proof. split_and!; cbn; [done| |done]. intros A q s e. by destruct (q s); intros [=]. Qed.

Definition demo_user (i : Z) : User := User.mkUser i "ann" "" "" "" "" "" 1 1 0 0 [].
Definition demo_role (i st : Z) (slug : string) : Role := Role.mkRole i slug st slug [] [].
Definition demo_perm (i : Z) (slug : string) : Permission :=
  Permission.mkPermission i slug "" slug "" 1 "POST" "/api/v1/jobs" 0.
(** User 1 is an operator and a guest; the guest role is disabled. *)
Definition demo_access : access :=
  mkAccess [demo_user 1] [demo_role 1 1 "operator"; demo_role 2 0 "guest"]
    [demo_perm 1 "cloud:terminal:root:open"; demo_perm 2 "cloud:file:root:read"] []
    [(1, 1); (1, 2)] [(1, 1); (2, 2)] [].

Lemma demo_slugs_unique : slugs_unique String.eqb demo_access.
Proof.
  intros a b Ha Hb. cbn in Ha, Hb.
  apply elem_of_cons in Ha as [->|Ha]; [|apply list_elem_of_singleton in Ha as ->].
  all: apply elem_of_cons in Hb as [->|Hb]; [|apply list_elem_of_singleton in Hb as ->]; by cbn.
Defined.

(** The operator may use the root terminal; the disabled guest role gives no
    access to the files. *)
Lemma HasSystemAccess_spec_witness :
  system_access demo_access 1 AccessTypeTerminal ∧ ¬ system_access demo_access 1 AccessTypeFile.
Proof.
  destruct (HasSystemAccess_spec String.eqb 1 AccessTypeTerminal demo_access demo_access (Ok true))
    as (_ & Hs & _);
    [exact String.eqb_refl|exact demo_slugs_unique|vm_compute; reflexivity|].
  destruct (HasSystemAccess_spec String.eqb 1 AccessTypeFile demo_access demo_access (Ok false))
    as (_ & _ & Hc);
    [exact String.eqb_refl|exact demo_slugs_unique|vm_compute; reflexivity|].
  split; [exact (Hs eq_refl)|]. destruct (Hc (mem_sql_reliable access)) as (b & E & Hb).
  injection E as <-. intros Ha. apply Hb in Ha. discriminate Ha.
Defined.

Lemma UpdateRolePermission_spec_witness :
  ∃ v, UpdateRolePermission 1 [] [2] demo_access = (v, Ok tt) ∧
       perms_of 1 v = [demo_perm 2 "cloud:file:root:read"] ∧
       replaced 1 [2] (a_role_perms demo_access) (a_role_perms v).
Proof.
  eexists. split; [vm_compute; reflexivity|]. split; [vm_compute; reflexivity|].
  destruct (UpdateRolePermission_spec 1 [] [2] demo_access
    (UpdateRolePermission 1 [] [2] demo_access).1 (Ok tt)) as (ms & ps & E & _ & Hr);
    [vm_compute; reflexivity|].
  apply (f_equal a_role_perms) in E. vm_compute in E. rewrite E. exact Hr.
Defined.

(** A disabled role still grants requests: [CheckUserPermission] does not look
    at the status of the role, as [HasSystemAccess] does. *)
Example disabled_role_grants_requests :
  let v := mkAccess [demo_user 1] [demo_role 2 0 "guest"] [demo_perm 2 "jobs"] []
             [(1, 2)] [(2, 2)] [] in
  (CheckUserPermission String.eqb 1 "POST" "/api/v1/jobs" v).2 = Ok true ∧
  (userHasPermission String.eqb (with_roles (roles_of 1 v) (demo_user 1)) "jobs" v).2 = false.
Proof. vm_compute. split; reflexivity. Qed.
