(* ===== verification/SessionRepo.v ===== *)
(** * Session metadata and credentials in Redis

    internal/repository/session_repository.go, and the three operations of
    redis_repository.go the authentication service uses ([Set], [Get],
    [Del]).  Values are JSON texts; the codec is a parameter. *)

From S2P Require Import Prelude GoStrings Float64 Errors Entity External.

Open Scope Z_scope.

(** ** Redis strings and sets *)

(** The keys that have not expired: strings and sets.  A key may expire
    between two commands, not inside one. *)
Record kview : Type := mkKview {
  kv_str : gmap string string;
  kv_set : gmap string (gset string)
}.
Definition put_str (k v : string) (x : kview) : kview :=
  mkKview (<[k := v]> (kv_str x)) (delete k (kv_set x)).
Definition members (k : string) (x : kview) : gset string := default ∅ (kv_set x !! k).
Definition put_set (k : string) (m : gset string) (x : kview) : kview :=
  mkKview (kv_str x) (<[k := m]> (kv_set x)).
Definition del_key (k : string) (x : kview) : kview :=
  mkKview (delete k (kv_str x)) (delete k (kv_set x)).

Class Kv (K : Type) := {
  kv_view : K → kview;
  kv_Set : string → string → Z → M K (result unit);
  kv_Get : string → M K (result string);
  kv_Del : string → M K (result unit);
  kv_SAdd : string → string → M K (result unit);
  kv_SRem : string → string → M K (result unit);
  kv_SMembers : string → M K (result (list string))
}.

Class KvLaws (K : Type) `{Kv K} : Prop := {
  kv_Set_spec k v ttl s s' r :
    kv_Set k v ttl s = (s', r) →
    kv_view s' = if is_ok r then put_str k v (kv_view s) else kv_view s;
  kv_Get_view k s s' r : kv_Get k s = (s', r) → kv_view s' = kv_view s;
  kv_Get_ok k s s' v : kv_Get k s = (s', Ok v) → kv_str (kv_view s) !! k = Some v;
  kv_Get_nil k s s' :
    kv_Get k s = (s', Err ErrRedisNil) → kv_str (kv_view s) !! k = None;
  kv_Del_spec k s s' r :
    kv_Del k s = (s', r) → kv_view s' = if is_ok r then del_key k (kv_view s) else kv_view s;
  kv_SAdd_spec k m s s' r :
    kv_SAdd k m s = (s', r) →
    kv_view s' = if is_ok r then put_set k ({[m]} ∪ members k (kv_view s)) (kv_view s)
                 else kv_view s;
  kv_SRem_spec k m s s' r :
    kv_SRem k m s = (s', r) →
    kv_view s' = if is_ok r then put_set k (members k (kv_view s) ∖ {[m]}) (kv_view s)
                 else kv_view s;
  kv_SMembers_view k s s' r : kv_SMembers k s = (s', r) → kv_view s' = kv_view s;
  kv_SMembers_ok k s s' l :
    kv_SMembers k s = (s', Ok l) → l ≡ₚ elements (members k (kv_view s))
}.

(** ** Records *)

Module SessionInfo.
Record SessionInfo : Type := mkSessionInfo {
  UserID : Z; Username : string; IsRoot : bool; CreatedAt : Z; LastUsedAt : Z
}.
Definition set_last_used (t : Z) (i : SessionInfo) : SessionInfo :=
  mkSessionInfo (UserID i) (Username i) (IsRoot i) (CreatedAt i) t.
End SessionInfo.
Notation SessionInfo := SessionInfo.SessionInfo.

Module UserCredentials.
Record UserCredentials : Type := mkUserCredentials {
  UserID : Z; Username : string; Password : string; ExpiresAt : Z
}.
End UserCredentials.
Notation UserCredentials := UserCredentials.UserCredentials.

(** [json.Marshal] and [json.Unmarshal] for a struct type. *)
Record codec (A : Type) : Type := mkCodec {
  marshal : A → result string;
  unmarshal : string → result A
}.
Arguments marshal {A}.
Arguments unmarshal {A}.

Definition sessionKeyPrefix : string := "ssh:session:".
Definition sessionListKey : string := "ssh:session:list".
Definition credsKeyPrefix : string := "ssh:creds:".
Definition defaultCredsTTL : Z := 30 * 60 * 1000000000.
Definition session_key (userID : Z) : string := sessionKeyPrefix +:+ Itoa userID.
Definition getCredsKey (userID : Z) : string := credsKeyPrefix +:+ Itoa userID.

Section SessionRepo.
Context {K : Type} `{Kv K}.
Variable info_codec : codec SessionInfo.
Variable creds_codec : codec UserCredentials.
(** [r.redis != nil]. *)
Variable connected : bool.

Definition SaveSession (userID : Z) (username : string) (isRoot : bool) (createdAt : Z)
  : M K (result unit) :=
  if negb connected then mret (Ok tt)
  else match marshal info_codec
               (SessionInfo.mkSessionInfo userID username isRoot createdAt createdAt) with
  | Err e => mret (Err (ErrWrap "序列化会话信息失败" e))
  | Ok data =>
      a ← kv_Set (session_key userID) data 0;
      match a with
      | Err e => mret (Err (ErrWrap "保存会话信息失败" e))
      | Ok _ =>
          b ← kv_SAdd sessionListKey (Itoa userID);
          match b with
          | Err e => mret (Err (ErrWrap "添加会话到列表失败" e))
          | Ok _ => mret (Ok tt)
          end
      end
  end.

Definition GetSessionInfo (userID : Z) : M K (result SessionInfo) :=
  if negb connected then mret (Err (ErrMsg "redis不可用"))
  else
    r ← kv_Get (session_key userID);
    match r with
    | Err ErrRedisNil => mret (Err (ErrMsg "会话不存在"))
    | Err e => mret (Err (ErrWrap "获取会话信息失败" e))
    | Ok data =>
        mret (match unmarshal info_codec data with
              | Ok info => Ok info
              | Err e => Err (ErrWrap "反序列化会话信息失败" e)
              end)
    end.

Definition repo_DeleteSession (userID : Z) : M K (result unit) :=
  if negb connected then mret (Ok tt)
  else
    a ← kv_Del (session_key userID);
    match a with
    | Err e => mret (Err (ErrWrap "删除会话信息失败" e))
    | Ok _ =>
        b ← kv_SRem sessionListKey (Itoa userID);
        match b with
        | Err e => mret (Err (ErrWrap "从会话列表移除失败" e))
        | Ok _ => mret (Ok tt)
        end
    end.

(** A key that cannot be deleted is skipped. *)
Definition DeleteAllSessions : M K (result unit) :=
  if negb connected then mret (Ok tt)
  else
    r ← kv_SMembers sessionListKey;
    match r with
    | Err e => mret (Err (ErrWrap "获取会话列表失败" e))
    | Ok userIDs =>
        _ ← for_each userIDs (λ u, _ ← kv_Del (sessionKeyPrefix +:+ u); mret tt);
        b ← kv_Del sessionListKey;
        match b with
        | Err e => mret (Err (ErrWrap "删除会话列表失败" e))
        | Ok _ => mret (Ok tt)
        end
    end.

(** A session that cannot be read or decoded is skipped. *)
Definition read_listed (u : string) : M K (option SessionInfo) :=
  r ← kv_Get (sessionKeyPrefix +:+ u);
  mret (match r with
        | Err _ => None
        | Ok data => match unmarshal info_codec data with Ok i => Some i | Err _ => None end
        end).
Definition ListActiveSessions : M K (result (list SessionInfo)) :=
  if negb connected then mret (Err (ErrMsg "redis不可用"))
  else
    r ← kv_SMembers sessionListKey;
    match r with
    | Err e => mret (Err (ErrWrap "获取会话列表失败" e))
    | Ok userIDs => l ← for_collect userIDs read_listed; mret (Ok (omap id l))
    end.

Definition UpdateLastUsed (userID lastUsedAt : Z) : M K (result unit) :=
  if negb connected then mret (Ok tt)
  else
    r ← kv_Get (session_key userID);
    match r with
    | Err e => mret (Err (ErrWrap "获取会话信息失败" e))
    | Ok data =>
        match unmarshal info_codec data with
        | Err e => mret (Err (ErrWrap "反序列化会话信息失败" e))
        | Ok info =>
            match marshal info_codec (SessionInfo.set_last_used lastUsedAt info) with
            | Err e => mret (Err (ErrWrap "序列化会话信息失败" e))
            | Ok newData =>
                a ← kv_Set (session_key userID) newData 0;
                match a with
                | Err e => mret (Err (ErrWrap "更新会话信息失败" e))
                | Ok _ => mret (Ok tt)
                end
            end
        end
    end.

Definition SaveUserCredentials (now userID : Z) (username password : string) (expiresAt : Z)
  : M K (result unit) :=
  if negb connected then mret (Ok tt)
  else match marshal creds_codec
               (UserCredentials.mkUserCredentials userID username password expiresAt) with
  | Err e => mret (Err (ErrWrap "序列化凭证失败" e))
  | Ok data =>
      let ttl := dur_sub expiresAt now in
      let ttl := if ttl <=? 0 then defaultCredsTTL else ttl in
      a ← kv_Set (getCredsKey userID) data ttl;
      match a with
      | Err e => mret (Err (ErrWrap "保存凭证失败" e))
      | Ok _ => mret (Ok tt)
      end
  end.

Definition DeleteUserCredentials (userID : Z) : M K (result unit) :=
  if negb connected then mret (Ok tt)
  else
    a ← kv_Del (getCredsKey userID);
    match a with
    | Err e => mret (Err (ErrWrap "删除凭证失败" e))
    | Ok _ => mret (Ok tt)
    end.

Definition GetUserCredentials (now userID : Z) : M K (result UserCredentials) :=
  if negb connected then mret (Err (ErrMsg "redis不可用"))
  else
    r ← kv_Get (getCredsKey userID);
    match r with
    | Err ErrRedisNil => mret (Err (ErrMsg "凭证不存在或已过期"))
    | Err e => mret (Err (ErrWrap "获取凭证失败" e))
    | Ok data =>
        match unmarshal creds_codec data with
        | Err e => mret (Err (ErrWrap "反序列化凭证失败" e))
        | Ok creds =>
            if UserCredentials.ExpiresAt creds <? now
            then _ ← DeleteUserCredentials userID; mret (Err (ErrMsg "凭证已过期"))
            else mret (Ok creds)
        end
    end.
End SessionRepo.

(** * Properties *)

Lemma append_inj_r (p a b : string) : p +:+ a = p +:+ b → a = b.
Proof. induction p as [|c p IH]; cbn; [done|]. intros [=]. by apply IH. Qed.

#[export] Instance session_key_inj : Inj (=) (=) session_key.
Proof. intros a b E%append_inj_r. by apply Itoa_inj. Qed.
#[export] Instance getCredsKey_inj : Inj (=) (=) getCredsKey.
Proof. intros a b E%append_inj_r. by apply Itoa_inj. Qed.

(** A user id in decimal is not the text that names the list. *)
Lemma session_key_not_list u : session_key u ≠ sessionListKey.
Proof.
  intros E. apply (append_inj_r "ssh:session:" (Itoa u) "list") in E.
  pose proof (Itoa_chars u) as Hc. rewrite E in Hc. vm_compute in Hc. done.
Qed.

Section Props.
Context {K : Type} `{KL : KvLaws K}.
Variable info_codec : codec SessionInfo.
Variable creds_codec : codec UserCredentials.
(** Decoding gives back what was encoded. *)
Hypothesis info_roundtrip : ∀ i d, marshal info_codec i = Ok d → unmarshal info_codec d = Ok i.
Hypothesis creds_roundtrip : ∀ c d, marshal creds_codec c = Ok d → unmarshal creds_codec d = Ok c.

(** The stored metadata of a user. *)
Definition stored (v : kview) (u : Z) : option SessionInfo :=
  d ← kv_str v !! session_key u;
  match unmarshal info_codec d with Ok i => Some i | Err _ => None end.

Lemma stored_put_set k m v u : stored (put_set k m v) u = stored v u.
Proof. done. Qed.

Lemma stored_put_str d i v u u' :
  unmarshal info_codec d = Ok i →
  stored (put_str (session_key u) d v) u' = if decide (u = u') then Some i else stored v u'.
Proof.
  intros Hd. unfold stored, put_str. cbn [kv_str]. case_decide as Hu.
  - subst u'. rewrite lookup_insert_eq. cbn. by rewrite Hd.
  - rewrite lookup_insert_ne; [done|]. by intros E%(inj session_key).
Qed.

Lemma stored_del u v u' :
  stored (del_key (session_key u) v) u' = if decide (u = u') then None else stored v u'.
Proof.
  unfold stored, del_key. cbn [kv_str]. case_decide as Hu.
  - subst u'. by rewrite lookup_delete_eq.
  - rewrite lookup_delete_ne; [done|]. by intros E%(inj session_key).
Qed.

Lemma SaveSession_post u name isRoot t s s' :
  SaveSession info_codec true u name isRoot t s = (s', Ok tt) →
  (∀ u', stored (kv_view s') u' =
     if decide (u = u') then Some (SessionInfo.mkSessionInfo u name isRoot t t)
     else stored (kv_view s) u') ∧
  members sessionListKey (kv_view s') = {[Itoa u]} ∪ members sessionListKey (kv_view s).
Proof.
  unfold SaveSession. cbn [negb]. destruct (marshal _ _) as [d|] eqn:Ed; [|by intros [=]].
  apply info_roundtrip in Ed. unfold mbind at 1, M_bind at 1. intros E. open_call E w a E1.
  apply kv_Set_spec in E1. destruct a; [|by injection E]. cbn [is_ok] in E1.
  unfold mbind at 1, M_bind at 1 in E. open_call E w2 b E2. apply kv_SAdd_spec in E2.
  destruct b; [|by injection E]. cbn [is_ok] in E2. injection E as <-. rewrite E2, E1. split.
  - intros u'. rewrite stored_put_set. by apply stored_put_str.
  - unfold members at 1, put_set. cbn [kv_set]. rewrite lookup_insert_eq. cbn.
    unfold members, put_str. cbn [kv_set]. rewrite lookup_delete_ne; [done|].
    apply session_key_not_list.
Qed.

Lemma GetSessionInfo_post u s s' r :
  GetSessionInfo info_codec true u s = (s', r) →
  kv_view s' = kv_view s ∧
  (∀ i, r = Ok i → stored (kv_view s) u = Some i) ∧
  (r = Err (ErrMsg "会话不存在") → stored (kv_view s) u = None).
Proof.
  unfold GetSessionInfo, stored. cbn [negb]. unfold mbind at 1, M_bind at 1. intros E.
  open_call E w a E1. pose proof (kv_Get_view _ _ _ _ E1) as Hv. destruct a as [d|e].
  - apply kv_Get_ok in E1. injection E as <- <-. split; [done|]. rewrite E1. cbn.
    by destruct (unmarshal _ _); split; [intros ? [= ->]| | |].
  - destruct e; injection E as <- <-; split; try done. apply kv_Get_nil in E1.
    by rewrite E1.
Qed.

Lemma repo_DeleteSession_post u s s' :
  repo_DeleteSession true u s = (s', Ok tt) →
  (∀ u', stored (kv_view s') u' = if decide (u = u') then None else stored (kv_view s) u') ∧
  members sessionListKey (kv_view s') = members sessionListKey (kv_view s) ∖ {[Itoa u]}.
Proof.
  unfold repo_DeleteSession. cbn [negb]. unfold mbind at 1, M_bind at 1. intros E.
  open_call E w a E1. apply kv_Del_spec in E1. destruct a; [|by injection E]. cbn [is_ok] in E1.
  unfold mbind at 1, M_bind at 1 in E. open_call E w2 b E2. apply kv_SRem_spec in E2.
  destruct b; [|by injection E]. cbn [is_ok] in E2. injection E as <-. rewrite E2, E1. split.
  - intros u'. rewrite stored_put_set. apply stored_del.
  - unfold members at 1, put_set. cbn [kv_set]. rewrite lookup_insert_eq. cbn.
    unfold members, del_key. cbn [kv_set]. rewrite lookup_delete_ne; [done|].
    apply session_key_not_list.
Qed.

(** Metadata of one user: what is saved is what is read until it is deleted,
    the list of sessions follows, and the metadata of other users is not
    touched. *)
Theorem session_metadata_roundtrip u name isRoot t s s1 s2 s3 r1 s4 r2
  (Hsave : SaveSession info_codec true u name isRoot t s = (s1, Ok tt))
  (Hget : GetSessionInfo info_codec true u s1 = (s2, r1))
  (Hdel : repo_DeleteSession true u s2 = (s3, Ok tt))
  (Hget' : GetSessionInfo info_codec true u s3 = (s4, r2)) :
  (is_ok r1 = true → r1 = Ok (SessionInfo.mkSessionInfo u name isRoot t t)) ∧
  r1 ≠ Err (ErrMsg "会话不存在") ∧ is_ok r2 = false ∧
  Itoa u ∈ members sessionListKey (kv_view s1) ∧ Itoa u ∉ members sessionListKey (kv_view s3) ∧
  (∀ u', u' ≠ u → stored (kv_view s3) u' = stored (kv_view s) u').
Proof.
  apply SaveSession_post in Hsave as [Hs1 Hm1].
  apply GetSessionInfo_post in Hget as (Hv2 & Hok & Hno).
  apply repo_DeleteSession_post in Hdel as [Hs3 Hm3].
  apply GetSessionInfo_post in Hget' as (_ & Hok' & _).
  assert (stored (kv_view s1) u = Some (SessionInfo.mkSessionInfo u name isRoot t t)) as Hst
    by (rewrite Hs1; by rewrite decide_True).
  assert (stored (kv_view s3) u = None) as Hst3 by (rewrite Hs3; by rewrite decide_True).
  split_and!.
  - destruct r1 as [i|]; [|done]. intros _. specialize (Hok i eq_refl). congruence.
  - intros E. specialize (Hno E). congruence.
  - destruct r2 as [i|]; [|done]. specialize (Hok' i eq_refl). congruence.
  - rewrite Hm1. set_solver.
  - rewrite Hm3. set_solver.
  - intros u' Hne. rewrite Hs3, decide_False, Hv2, Hs1, decide_False by congruence. done.
Qed.

(** Credentials are returned as they were saved, and never after the moment
    they expire, whether or not Redis still has the key. *)
Theorem credentials_expire now u name pw ex s s1 now' s2 r
  (Hsave : SaveUserCredentials creds_codec true now u name pw ex s = (s1, Ok tt))
  (Hget : GetUserCredentials creds_codec true now' u s1 = (s2, r)) :
  is_ok r = true → now' ≤ ex ∧ r = Ok (UserCredentials.mkUserCredentials u name pw ex).
Proof.
  unfold SaveUserCredentials in Hsave. cbn [negb] in Hsave.
  destruct (marshal _ _) as [d|] eqn:Ed; [|by injection Hsave].
  apply creds_roundtrip in Ed. unfold mbind at 1, M_bind at 1 in Hsave. open_call Hsave w a E1.
  apply kv_Set_spec in E1. destruct a; [|by injection Hsave]. cbn [is_ok] in E1.
  injection Hsave as <-. unfold GetUserCredentials in Hget. cbn [negb] in Hget.
  unfold mbind at 1, M_bind at 1 in Hget. open_call Hget w2 b E2. destruct b as [d'|e].
  - apply kv_Get_ok in E2. rewrite E1 in E2. unfold put_str in E2. cbn [kv_str] in E2.
    rewrite lookup_insert_eq in E2. injection E2 as <-. rewrite Ed in Hget. cbn in Hget.
    destruct (ex <? now') eqn:Ex; [run_inv; done|]. injection Hget as <- <-.
    apply Z.ltb_ge in Ex. done.
  - by destruct e; injection Hget as <- <-.
Qed.
End Props.

(** ** Redis in memory *)

#[export] Instance mem_kv : Kv kview := {
  kv_view v := v;
  kv_Set k x _ v := (put_str k x v, Ok tt);
  kv_Get k v := (v, match kv_str v !! k with Some x => Ok x | None => Err ErrRedisNil end);
  kv_Del k v := (del_key k v, Ok tt);
  kv_SAdd k m v := (put_set k ({[m]} ∪ members k v) v, Ok tt);
  kv_SRem k m v := (put_set k (members k v ∖ {[m]}) v, Ok tt);
  kv_SMembers k v := (v, Ok (elements (members k v)))
}.

#[export] Instance mem_kv_laws : KvLaws kview.
Proof.
  split; cbn; intros *; try by intros [= <- <-].
  all: unfold kv_Get, kv_view; intros; repeat case_match; by simplify_eq.
Qed.
