(* ===== verification/Auth.v ===== *)
(** * Authentication

    pkg/jwt/jwt.go, internal/middleware/auth.go, pkg/utils/aes_cryptojs.go and
    internal/service/auth_service.go: tokens, the guards in front of the
    handlers, the password the browser encrypts, login, recovery of SSH
    sessions, logout.  Signatures, hashes, the cipher, the captcha store and
    the JSON codec are parameters. *)

From S2P Require Import Prelude GoStrings Errors Entity External Access SshSessions SessionRepo MenuService.

Open Scope Z_scope.

(** ** Tokens *)

Module CustomClaims.
(** [jwt.RegisteredClaims] has the three dates and the issuer; dates are in
    seconds. *)
Record CustomClaims : Type := mkClaims {
  UserID : Z; Username : string; Roles : list string;
  ExpiresAt : Z; IssuedAt : Z; NotBefore : Z; Issuer : string
}.
End CustomClaims.
Notation CustomClaims := CustomClaims.CustomClaims.

Record jwt_config : Type := mkJwtConfig { Secret : string; ExpireHours : Z }.

(** What [ParseWithClaims] answers: claims and the flag [Valid], or an error
    that is or is not [jwt.ErrTokenExpired]. *)
Inductive jwt_parsed : Type :=
  | Parsed (c : CustomClaims) (valid : bool)
  | ParseFailed (is_expired : bool).

Definition ErrTokenInvalid : error := ErrMsg "token 无效".
Definition ErrTokenExpired : error := ErrMsg "token 已过期".

Definition nanos : Z := 1000000000.
(** [jwt.NewNumericDate] drops the part below a second. *)
Definition NumericDate (t : Z) : Z := t / nanos.

Section Jwt.
Variable lib_sign : CustomClaims → string → result string.
Variable lib_parse : string → string → Z → jwt_parsed.
Variable cfg : jwt_config.

(** [now1], [now2], [now3]: the three readings of the clock. *)
Definition GenerateToken (now1 now2 now3 userID : Z) (username : string) (roles : list string)
  : result string :=
  lib_sign (CustomClaims.mkClaims userID username roles
              (NumericDate (now1 + wrap64 (ExpireHours cfg * (3600 * nanos))))
              (NumericDate now2) (NumericDate now3) "cloudque") (Secret cfg).

Definition ParseToken (now : Z) (tokenString : string) : result CustomClaims :=
  match lib_parse tokenString (Secret cfg) now with
  | ParseFailed true => Err ErrTokenExpired
  | ParseFailed false => Err ErrTokenInvalid
  | Parsed claims true => Ok claims
  | Parsed _ false => Err ErrTokenInvalid
  end.

Definition RefreshToken (now now1 now2 now3 : Z) (tokenString : string) : result string :=
  match ParseToken now tokenString with
  | Err e => Err e
  | Ok claims => GenerateToken now1 now2 now3 (CustomClaims.UserID claims)
                   (CustomClaims.Username claims) (CustomClaims.Roles claims)
  end.
End Jwt.

(** ** Guards *)

(** The parts of a request the guards look at. *)
Record http_request : Type := mkRequest {
  hdr_Authorization : string;
  query_token : string;
  cookie_ACCESS_TOKEN : option string;
  req_Method : string;
  req_FullPath : string
}.

(** [strings.SplitN(s, sep, 2)]: the part before the first separator, and
    the rest when there is one. *)
Fixpoint SplitN2 (c : Ascii.ascii) (s : string) : string * option string :=
  match s with
  | EmptyString => (EmptyString, None)
  | String x r =>
      if Ascii.eqb x c then (EmptyString, Some r)
      else let '(h, t) := SplitN2 c r in (String x h, t)
  end.

Definition header_token (h : string) : string :=
  if String.eqb h "" then ""
  else match SplitN2 space h with
       | (p0, Some p1) => if String.eqb p0 "Bearer" then p1 else ""
       | (_, None) => h
       end.
Definition request_token (r : http_request) : string :=
  let token := header_token (hdr_Authorization r) in
  let token := if String.eqb token "" then query_token r else token in
  if String.eqb token "" then default "" (cookie_ACCESS_TOKEN r) else token.

(** The value stored under [ContextUserID]: an [int] or something else. *)
Inductive ctx_value : Type := CtxInt (z : Z) | CtxOther.

Inductive verdict (A : Type) : Type :=
  | Next (a : A)
  | Abort (resp : Response unit).
Arguments Next {A} a.
Arguments Abort {A} resp.

Definition error_text (e : error) : string :=
  match e with ErrMsg m => m | _ => "" end.

Section Guards.
Context {S : Type} {Q : Sql S access}.
Variable col_eq : string → string → bool.
Variable lib_parse : string → string → Z → jwt_parsed.
Variable cfg : jwt_config.

(** [Auth]: the context it leaves for the next handler. *)
Definition Auth (now : Z) (req : http_request) : verdict CustomClaims :=
  let token := request_token req in
  if String.eqb token "" then Abort (Unauthorized "请提供认证令牌")
  else match ParseToken lib_parse cfg now token with
       | Err e => Abort (Unauthorized (error_text e))
       | Ok claims => Next claims
       end.

Definition RequirePermission (user : option ctx_value) (req : http_request)
  : M S (verdict Z) :=
  match user with
  | None => mret (Abort (Forbidden "未登录"))
  | Some CtxOther => mret (Abort (Forbidden "用户信息异常"))
  | Some (CtxInt userID) =>
      r ← CheckUserPermission col_eq userID (req_Method req) (req_FullPath req);
      match r with
      | Err _ => mret (Abort (Forbidden "权限校验失败"))
      | Ok false => mret (Abort (Forbidden "权限不足"))
      | Ok true => mret (Next userID)
      end
  end.

(** The chain [Use(Auth())], [Use(RequirePermission(...))] of the route groups:
    the handler runs on [Next]. *)
Definition guarded (now : Z) (req : http_request) : M S (verdict Z) :=
  match Auth now req with
  | Abort resp => mret (Abort resp)
  | Next claims => RequirePermission (Some (CtxInt (CustomClaims.UserID claims))) req
  end.
End Guards.

(** ** The password the browser encrypts *)

Definition bytes : Type := list Ascii.ascii.
Definition salted : bytes := String.list_ascii_of_string "Salted__".

Section CryptoJS.
(** [base64.StdEncoding.DecodeString]; MD5; CBC decryption with AES, which
    needs whole blocks; [aes.NewCipher]'s check of the key length is part of
    it. *)
Variable base64_decode : string → result bytes.
Variable md5 : bytes → bytes.
Variable cbc_decrypt : bytes → bytes → bytes → bytes.

Definition BlockSize : nat := 16.

(** The loop of [evpBytesToKey]; [n] digests are enough when a digest is not
    empty. *)
Fixpoint evp_loop (n : nat) (passphrase salt : bytes) (total : nat) (d di : bytes) : bytes :=
  if bool_decide (total ≤ length d)%nat then d
  else match n with
       | O => d
       | Datatypes.S n' =>
           let di' := md5 (di ++ passphrase ++ salt) in
           evp_loop n' passphrase salt total (d ++ di') di'
       end.
Definition evpBytesToKey (passphrase salt : bytes) (keyLen ivLen : nat) : bytes * bytes :=
  let d := evp_loop (keyLen + ivLen) passphrase salt (keyLen + ivLen) [] [] in
  (take keyLen d, take ivLen (drop keyLen d)).

(** The padding test and the cut; an empty plaintext makes the index panic. *)
Definition unpad (plain : bytes) : result bytes :=
  match last plain with
  | None => Err (ErrPanic "index out of range [-1]")
  | Some b =>
      let pad := Ascii.nat_of_ascii b in
      if bool_decide (pad = 0 ∨ BlockSize < pad ∨ length plain < pad)%nat
      then Err (New CodeParamFormatError "PKCS7填充非法")
      else Ok (take (length plain - pad) plain)
  end.

Definition DecryptCryptoJSPassphrase (cipherBase64 : string) (passphrase : bytes) : result bytes :=
  match base64_decode cipherBase64 with
  | Err e => Err (NewWithErr CodeParamFormatError "Base64解析失败" e)
  | Ok data =>
      if bool_decide (length data < 16)%nat || negb (bool_decide (take 8 data = salted))
      then Err (New CodeParamFormatError "密文格式无效(缺少Salted__头)")
      else
        let salt := take 8 (drop 8 data) in
        let ciphertext := drop 16 data in
        let '(key, iv) := evpBytesToKey passphrase salt 32 16 in
        if negb (bool_decide (length ciphertext `mod` BlockSize = 0)%nat)
        then Err (New CodeParamFormatError "密文长度非法(非块对齐)")
        else unpad (cbc_decrypt key iv ciphertext)
  end.

(** [secret]: [cfg.App.AESSecret]; [env1], [env2]: AES_SECRET, VITE_AES_KEY. *)
Definition passphrase_of (secret env1 env2 : string) : string :=
  let p := secret in
  let p := if String.eqb p "" then env1 else p in
  if String.eqb p "" then env2 else p.

(** Every error leaves the text as it came; a panic does not return. *)
Definition DecryptIfCryptoJS (secret env1 env2 : string) (s : string) : result string :=
  if String.eqb s "" then Ok s
  else if negb (HasPrefix s "U2FsdGVkX1") then Ok s
  else
    let passphrase := passphrase_of secret env1 env2 in
    if String.eqb passphrase "" then Ok s
    else match DecryptCryptoJSPassphrase s (String.list_ascii_of_string passphrase) with
         | Ok p => Ok (String.string_of_list_ascii p)
         | Err (ErrPanic m) => Err (ErrPanic m)
         | Err _ => Ok s
         end.
End CryptoJS.

(** ** Responses of a login *)

Module LoginRequest.
Record LoginRequest : Type := mkLoginRequest {
  Username : string; Password : string; CaptchaID : string; Captcha : string
}.
End LoginRequest.
Notation LoginRequest := LoginRequest.LoginRequest.

Module UserResponse.
Record UserResponse : Type := mkUserResponse {
  ID : Z; Username : string; RealName : string; Phone : string; Email : string; Avatar : string;
  Status : Z; Priority : Z; MultiTraining : Z; CrossServer : Z; Roles : list string
}.
End UserResponse.
Notation UserResponse := UserResponse.UserResponse.

(** [dto.PermissionResponse] as [aggregate] fills it: [Sort] stays 0. *)
Definition permission_response (p : Permission) : Permission :=
  Permission.mkPermission (Permission.ID p) (Permission.Name p) (Permission.Category p)
    (Permission.Slug p) (Permission.Type_ p) (Permission.Status p) (Permission.HttpMethod p)
    (Permission.HttpPath p) 0.

Module LoginResponse.
Record LoginResponse : Type := mkLoginResponse {
  Token : string; User : UserResponse; Permissions : list Permission;
  MenusTree : heap * list Z
}.
End LoginResponse.
Notation LoginResponse := LoginResponse.LoginResponse.

Definition GetUserResponse (u : User) : UserResponse :=
  UserResponse.mkUserResponse (User.ID u) (User.Username u) (User.RealName u) (User.Phone u)
    (User.Email u) (User.Avatar u) (User.Status u) (User.Priority u) (User.MultiTraining u)
    (User.CrossServer u) (Role.Name <$> User.Roles u).

(** Slugs of the enabled roles. *)
Definition buildRoles (u : User) : list string :=
  Role.Slug <$> List.filter (λ r, Role.Status r =? 1) (User.Roles u).

(** [captcha.Verify]; [stored_ok] is the answer of the store. *)
Definition captcha_Verify (id value : string) (stored_ok : bool) : bool :=
  if String.eqb id "" || String.eqb value "" then false else stored_ok.

(** ** The menu tree of a user *)

(** The order of [sort.Slice] in [buildMenuTree]. *)
Definition menu_before (a b : MenuTreeNode.fields) : Prop :=
  MenuTreeNode.Sort a < MenuTreeNode.Sort b ∨
  MenuTreeNode.Sort a = MenuTreeNode.Sort b ∧
    String.le (MenuTreeNode.Title a) (MenuTreeNode.Title b).
#[export] Instance menu_before_dec a b : Decision (menu_before a b).
Proof. unfold menu_before. apply _. Defined.
Definition sort_menus (l : list Menu) : list Z :=
  Menu.ID <$> merge_sort (λ a b, menu_before (convertToNode a) (convertToNode b)) l.

(** [nodeMap]: the menu of an id; then every node gets its sorted children,
    and the nodes without a parent in the map are the sorted roots. *)
Definition node_map (menus : list Menu) : gmap Z Menu :=
  foldl (λ h m, <[Menu.ID m := m]> h) ∅ menus.
Definition is_root (h : gmap Z Menu) (m : Menu) : bool :=
  (Menu.ParentID m =? 0) || negb (bool_decide (is_Some (h !! Menu.ParentID m))).
Definition buildMenuTree (menus : list Menu) : heap * list Z :=
  let h := node_map menus in
  let nodes := (map_to_list h).*2 in
  ((λ m, mkHnode (convertToNode m)
           (sort_menus (List.filter (λ c, negb (Menu.ParentID c =? 0) &&
                                          (Menu.ParentID c =? Menu.ID m)) nodes))) <$> h,
   sort_menus (List.filter (is_root h) nodes)).

(** ** The authentication service *)

(** The state behind the service: the database, Redis and the SSH sessions. *)
Record auth_world (S K : Type) : Type := mkAuthWorld {
  aw_db : S; aw_kv : K; aw_sm : SessionManager
}.
Arguments mkAuthWorld {S K}.
Arguments aw_db {S K}.
Arguments aw_kv {S K}.
Arguments aw_sm {S K}.

Record sshCredentials : Type := mkSshCredentials { sc_Username : string; sc_Password : string }.

Section AuthService.
Context {S : Type} {Q : Sql S access} {K : Type} {KV : Kv K}.
Variable col_eq : string → string → bool.
Variable lib_sign : CustomClaims → string → result string.
Variable jcfg : jwt_config.
(** [DecryptIfCryptoJS] with its configuration; [bcrypt] compares a hash and
    a password. *)
Variable base64_decode : string → result bytes.
Variable md5 : bytes → bytes.
Variable cbc_decrypt : bytes → bytes → bytes → bytes.
Variables aes_secret env1 env2 : string.
Variable bcrypt_compare : string → string → result unit.
Variable creds_codec : codec sshCredentials.
Variable info_codec : codec SessionInfo.
(** The session manager, the session repository and the Redis repository are
    not nil. *)
Variables has_manager has_sessions has_redis : bool.

Definition on_db {A} : M S A → M (auth_world S K) A :=
  lift aw_db (λ s w, mkAuthWorld s (aw_kv w) (aw_sm w)).
Definition on_kv {A} : M K A → M (auth_world S K) A :=
  lift aw_kv (λ k w, mkAuthWorld (aw_db w) k (aw_sm w)).

Definition creds_key (userID : Z) : string := "ssh_creds:" +:+ Itoa userID.
Definition week : Z := 7 * 24 * 3600 * 1000000000.

Definition saveUserCredentialsToRedis (userID : Z) (username password : string)
  : M K (result unit) :=
  match marshal creds_codec (mkSshCredentials username password) with
  | Err e => mret (Err (NewWithErr CodeInternalError "序列化SSH凭证失败" e))
  | Ok credsJSON =>
      r ← kv_Set (creds_key userID) credsJSON week;
      match r with
      | Err e => mret (Err (NewWithErr CodeInternalError "保存SSH凭证到Redis失败" e))
      | Ok _ => mret (Ok tt)
      end
  end.

Definition GetUserCredentialsFromRedis (userID : Z) : M K (result sshCredentials) :=
  r ← kv_Get (creds_key userID);
  match r with
  | Err e => mret (Err (NewWithErr CodeInternalError "从Redis获取SSH凭证失败" e))
  | Ok credsJSON =>
      if String.eqb credsJSON "" then mret (Err ErrSSHCredentialsNotFound)
      else match unmarshal creds_codec credsJSON with
           | Err e => mret (Err (NewWithErr CodeInternalError "反序列化SSH凭证失败" e))
           | Ok creds => mret (Ok creds)
           end
  end.

(** The two maps of [aggregate] after the roles seen so far. *)
Definition add_enabled {A} (key status : A → Z) (l : list A) (m : gmap Z A) : gmap Z A :=
  foldl (λ m x, if status x =? 1 then <[key x := x]> m else m) m l.
Fixpoint collect (roles : list Role) (perms : gmap Z Permission) (menus : gmap Z Menu)
  : M S (gmap Z Permission * gmap Z Menu) :=
  match roles with
  | [] => mret (perms, menus)
  | r :: rest =>
      if negb (Role.Status r =? 1) then collect rest perms menus
      else
        f ← FindBySlug col_eq (Role.Slug r);
        match f with
        | Err _ | Ok None => collect rest perms menus
        | Ok (Some role) =>
            collect rest (add_enabled Permission.ID Permission.Status (Role.Permissions role) perms)
              (add_enabled Menu.ID Menu.Status (Role.Menus role) menus)
        end
  end.
(** A Go map is read in an unspecified order; here it is that of the keys. *)
Definition aggregate (user : User) : M S (list Permission * list Menu) :=
  m ← collect (User.Roles user) ∅ ∅;
  mret (permission_response <$> (map_to_list m.1).*2, (map_to_list m.2).*2).

(** [stored_ok] is the answer of the captcha store, [now1] to [now3] are the
    readings of the clock in [GenerateToken]. *)
Definition Login (req : LoginRequest) (stored_ok : bool) (now1 now2 now3 : Z)
  : M (auth_world S K) (result LoginResponse) :=
  if negb (captcha_Verify (LoginRequest.CaptchaID req) (LoginRequest.Captcha req) stored_ok)
  then mret (Err ErrInvalidCaptcha)
  else
    u ← on_db (FindByUsername col_eq (LoginRequest.Username req));
    match u with
    | Err e => mret (Err (NewWithErr CodeInternalError "按用户名查找用户失败" e))
    | Ok None => mret (Err ErrInvalidCredentials)
    | Ok (Some user) =>
        if negb (User.Status user =? 1) then mret (Err ErrUserDisabled)
        else match DecryptIfCryptoJS base64_decode md5 cbc_decrypt aes_secret env1 env2
                     (LoginRequest.Password req) with
        | Err e => mret (Err e)
        | Ok pwd =>
            match bcrypt_compare (User.Password user) pwd with
            | Err e => mret (Err (NewWithErr CodeInvalidCredentials "登录失败：密码错误" e))
            | Ok _ =>
                _ ← on_kv (saveUserCredentialsToRedis (User.ID user) (LoginRequest.Username req) pwd);
                pm ← on_db (aggregate user);
                match GenerateToken lib_sign jcfg now1 now2 now3 (User.ID user)
                        (User.Username user) (buildRoles user) with
                | Err e => mret (Err e)
                | Ok token =>
                    mret (Ok (LoginResponse.mkLoginResponse token (GetUserResponse user) pm.1
                                (buildMenuTree pm.2)))
                end
            end
        end
    end.

Definition GetUserMenuPermission (userID : Z)
  : M S (result (list Permission * (heap * list Z))) :=
  u ← FindByID userID;
  match u with
  | Err e => mret (Err (NewWithErr CodeInternalError "按ID查找用户失败" e))
  | Ok None => mret (Err ErrUserNotFound)
  | Ok (Some user) => pm ← aggregate user; mret (Ok (pm.1, buildMenuTree pm.2))
  end.

(** [now], [probe] and [dialled] are what the session manager gets from the
    clock and the host; [connected]: Redis is configured for the metadata. *)
Definition EnsureSSHSessionByType (connected : bool) (now : Z) (probe : bool)
  (dialled : result positive) (userID : Z) (isRoot : bool)
  : M (auth_world S K) (result unit) :=
  if negb has_manager then mret (Err (New CodeInternalError "SSH会话管理器未配置"))
  else
  c ← on_kv (GetUserCredentialsFromRedis userID);
  match c with
  | Err e => mret (Err (NewWithErr CodeInternalError "无法恢复SSH会话，请重新登录" e))
  | Ok creds =>
      u ← on_db (FindByID userID);
      match u with
      | Err e => mret (Err (NewWithErr CodeInternalError "获取用户信息失败" e))
      | Ok None => mret (Err ErrUserNotFound)
      | Ok (Some user) =>
          g ← lift aw_sm (λ sm w, mkAuthWorld (aw_db w) (aw_kv w) sm)
                (GetOrCreateSession now userID (sc_Username creds) (sc_Password creds) isRoot
                   probe dialled);
          match g with
          | Err e => mret (Err (NewWithErr CodeSSHCommandExecutionFailed "创建SSH会话失败" e))
          | Ok r =>
              sm ← gets aw_sm;
              match store sm !! r with
              | None => mret (Err (ErrPanic "nil pointer dereference"))
              | Some ses =>
                  _ ← (if has_sessions
                       then on_kv (SaveSession info_codec connected (User.ID user)
                              (UserSession.Username ses) (UserSession.IsRootUser ses)
                              (UserSession.CreatedAt ses))
                       else mret (Ok tt));
                  mret (Ok tt)
              end
          end
      end
  end.

(** The error of the first read is overwritten, and so is the answer for the
    terminal: the answer for files decides. *)
Definition EnsureSSHSession (connected : bool) (now : Z) (probe : bool)
  (dialled : result positive) (userID : Z) : M (auth_world S K) (result unit) :=
  u ← on_db (FindByID userID);
  let user := match u with Ok x => x | Err _ => None end in
  t ← on_db (HasSystemAccess col_eq userID AccessTypeTerminal);
  match t with
  | Err e => mret (Err (NewWithErr CodeInternalError "获取用户信息失败" e))
  | Ok _ =>
      f ← on_db (HasSystemAccess col_eq userID AccessTypeFile);
      match f with
      | Err e => mret (Err (NewWithErr CodeInternalError "获取用户信息失败" e))
      | Ok isRoot =>
          match user with
          | None => mret (Err ErrUserNotFound)
          | Some _ => EnsureSSHSessionByType connected now probe dialled userID isRoot
          end
      end
  end.

(** Failures are only logged. *)
Definition Logout (connected : bool) (userID : Z) : M (auth_world S K) (result unit) :=
  _ ← (if has_redis then on_kv (kv_Del (creds_key userID)) else mret (Ok tt));
  _ ← (if has_manager
       then modify (λ w, mkAuthWorld (aw_db w) (aw_kv w) (CloseAllSessionsForUser userID (aw_sm w)))
       else mret tt);
  _ ← (if has_sessions then on_kv (repo_DeleteSession connected userID) else mret (Ok tt));
  mret (Ok tt).

(** [fmt.Sprintf("%06d", n)] of a number below a million. *)
Fixpoint zeros (n : nat) : string :=
  match n with O => "" | Datatypes.S k => "0" +:+ zeros k end.
Definition six_digits (n : Z) : string :=
  let s := Itoa n in zeros (6 - String.length s) +:+ s.
(** [rnd] is the random number, [sent] the answer of the mail server. *)
Definition SendEmailCode (email : string) (rnd : Z) (sent : result unit) : M K (result unit) :=
  a ← kv_Set ("email_code:" +:+ email) (six_digits rnd) (5 * 60 * 1000000000);
  match a with
  | Err e => mret (Err (NewWithErr CodeInternalError "缓存验证码失败" e))
  | Ok _ =>
      mret (match sent with
            | Err e => Err (NewWithErr CodeInternalError "发送邮件失败" e)
            | Ok _ => Ok tt
            end)
  end.
End AuthService.

(** * Properties *)

(** ** Guards *)

Section GuardProps.
Context {S : Type} {Q : Sql S access} {L : SqlLaws S access}.
Variable col_eq : string → string → bool.
Variable lib_parse : string → string → Z → jwt_parsed.
Variable cfg : jwt_config.

Lemma ParseToken_ok now t c :
  ParseToken lib_parse cfg now t = Ok c ↔ lib_parse t (Secret cfg) now = Parsed c true.
Proof. unfold ParseToken. destruct (lib_parse _ _ _) as [c' []|[]]; split; by intros [=]; subst. Qed.

(** The answers a refused request gets. *)
Definition refused (resp : Response unit) : Prop :=
  http_status resp = 401 ∨ http_status resp = 403.

(** behind [Auth] and [RequirePermission] a handler runs only for the
    user named by a token of the request that the library accepts as valid,
    and only when that user has an enabled permission for the method and the
    route; every other request, every failed read included, is answered with
    401 or 403.  When the database answers, such a request does reach the
    handler.  The guards change nothing. *)
Theorem guarded_spec now req s s' v
  (H : guarded col_eq lib_parse cfg now req s = (s', v)) :
  sql_view s' = sql_view s ∧
  match v with
  | Next userID => ∃ c,
      request_token req ≠ "" ∧
      lib_parse (request_token req) (Secret cfg) now = Parsed c true ∧
      CustomClaims.UserID c = userID ∧
      api_permission col_eq (sql_view s) userID (req_Method req) (req_FullPath req)
  | Abort resp => refused resp
  end ∧
  (reliable S access → ∀ c,
     request_token req ≠ "" →
     lib_parse (request_token req) (Secret cfg) now = Parsed c true →
     api_permission col_eq (sql_view s) (CustomClaims.UserID c) (req_Method req) (req_FullPath req) →
     v = Next (CustomClaims.UserID c)).
Proof.
  unfold guarded, Auth in H. destruct (String.eqb_spec (request_token req) "") as [Et|Et].
  { injection H as <- <-. split_and!; [done|by left|done]. }
  destruct (ParseToken _ _ _ _) as [c|e] eqn:Ep.
  2:{ injection H as <- <-. split_and!; [done|by left|].
      intros _ c _ Hp%ParseToken_ok. congruence. }
  apply ParseToken_ok in Ep. unfold RequirePermission, mbind, M_bind in H. open_call H w r E.
  apply CheckUserPermission_post in E as (Hv & Hb & Hok). destruct r as [[]|e];
    injection H as <- <-; (split; [done|split]).
  - exists c. split_and!; [done|done|done|]. exact (proj1 (Hb true eq_refl) eq_refl).
  - intros _ c' _ Hp _. congruence.
  - by right.
  - intros _ c' _ Hp Ha. replace c' with c in Ha by congruence. by apply (proj2 (Hb false eq_refl)) in Ha.
  - by right.
  - intros Hrel. by apply Hok in Hrel.
Qed.
End GuardProps.

(** ** Tokens *)

Section TokenProps.
Variable lib_sign : CustomClaims → string → result string.
Variable lib_parse : string → string → Z → jwt_parsed.
Variable cfg : jwt_config.
(** golang-jwt: a token signed with a secret is accepted with the same secret
    from its not-before date until it expires, and gives its claims back. *)
Hypothesis sign_parse : ∀ c k t now,
  lib_sign c k = Ok t →
  CustomClaims.NotBefore c * nanos ≤ now < CustomClaims.ExpiresAt c * nanos →
  lib_parse t k now = Parsed c true.

(** A refreshed token names the same user with the same roles: roles that were
    taken away meanwhile stay in it. *)
Theorem refresh_keeps_claims n1 n2 n3 uid name roles t now m1 m2 m3 t' now'
  (Hgen : GenerateToken lib_sign cfg n1 n2 n3 uid name roles = Ok t)
  (Hnow : NumericDate n3 * nanos ≤ now <
          NumericDate (n1 + wrap64 (ExpireHours cfg * (3600 * nanos))) * nanos)
  (Href : RefreshToken lib_sign lib_parse cfg now m1 m2 m3 t = Ok t')
  (Hnow' : NumericDate m3 * nanos ≤ now' <
           NumericDate (m1 + wrap64 (ExpireHours cfg * (3600 * nanos))) * nanos) :
  ∃ c, ParseToken lib_parse cfg now' t' = Ok c ∧ CustomClaims.UserID c = uid ∧
       CustomClaims.Username c = name ∧ CustomClaims.Roles c = roles.
Proof.
  unfold GenerateToken in Hgen. unfold RefreshToken, ParseToken in Href.
  rewrite (sign_parse _ _ _ now Hgen Hnow) in Href. unfold GenerateToken in Href. cbn in Href.
  unfold ParseToken. rewrite (sign_parse _ _ _ now' Href Hnow'). by eexists.
Qed.
End TokenProps.

(** ** Passwords encrypted by the browser *)

Section CryptoProps.
Variable base64_decode : string → result bytes.
Variable base64_encode : bytes → string.
Variable md5 : bytes → bytes.
Variables cbc_decrypt cbc_encrypt : bytes → bytes → bytes → bytes.
Hypothesis base64_inverse : ∀ b, base64_decode (base64_encode b) = Ok b.
Hypothesis md5_length : ∀ b, length (md5 b) = 16%nat.
(** CBC on whole blocks, with a key of 32 and a vector of 16 bytes. *)
Hypothesis cbc_inverse : ∀ key iv p,
  length key = 32%nat → length iv = 16%nat → (length p `mod` 16 = 0)%nat →
  cbc_decrypt key iv (cbc_encrypt key iv p) = p.
Hypothesis cbc_length : ∀ key iv p, length (cbc_encrypt key iv p) = length p.

(** What CryptoJS computes in the browser. *)
Definition pkcs7 (p : bytes) : bytes :=
  let n := (16 - length p `mod` 16)%nat in p ++ replicate n (Ascii.ascii_of_nat n).
Definition cryptojs_encrypt (passphrase salt plain : bytes) : string :=
  let '(key, iv) := evpBytesToKey md5 passphrase salt 32 16 in
  base64_encode (salted ++ salt ++ cbc_encrypt key iv (pkcs7 plain)).

Lemma evp_loop_length n passphrase salt total d di :
  (total ≤ length d + 16 * n)%nat →
  (total ≤ length (evp_loop md5 n passphrase salt total d di))%nat.
Proof.
  revert d di. induction n as [|n IH]; intros d di Hl; cbn [evp_loop]; case_bool_decide; try lia.
  apply IH. rewrite length_app, md5_length. lia.
Qed.

Lemma evpBytesToKey_length passphrase salt k i :
  length (evpBytesToKey md5 passphrase salt k i).1 = k ∧
  length (evpBytesToKey md5 passphrase salt k i).2 = i.
Proof.
  unfold evpBytesToKey. cbn [fst snd].
  pose proof (evp_loop_length (k + i) passphrase salt (k + i) [] []) as Hl. cbn in Hl.
  rewrite !length_take, length_drop. lia.
Qed.

Lemma pkcs7_blocks p : (length (pkcs7 p) `mod` 16 = 0)%nat.
Proof.
  unfold pkcs7. rewrite length_app, length_replicate.
  pose proof (Nat.mod_upper_bound (length p) 16 ltac:(lia)).
  pose proof (Nat.div_mod_eq (length p) 16) as E.
  replace (length p + _)%nat with (0 + (length p / 16 + 1) * 16)%nat by lia.
  by rewrite Nat.Div0.mod_add.
Qed.

Lemma unpad_pkcs7 p : unpad (pkcs7 p) = Ok p.
Proof.
  unfold unpad, pkcs7. pose proof (Nat.mod_upper_bound (length p) 16 ltac:(lia)).
  remember (16 - length p `mod` 16)%nat as n eqn:En. destruct n as [|n]; [lia|].
  replace (replicate (S n) _) with (replicate n (Ascii.ascii_of_nat (S n)) ++ [Ascii.ascii_of_nat (S n)])
    by (by rewrite <- replicate_S_end).
  rewrite app_assoc, last_snoc. rewrite Ascii.nat_ascii_embedding by lia.
  rewrite bool_decide_false; [|rewrite !length_app, length_replicate; unfold BlockSize; cbn; lia].
  f_equal. rewrite <- app_assoc, !length_app, length_replicate. cbn [length].
  replace (length p + (n + 1) - S n)%nat with (length p) by lia. by rewrite take_app_length.
Qed.

(** A password that CryptoJS encrypted with the shared passphrase is decrypted
    to itself; the derived key and vector have the lengths AES needs. *)
Theorem cryptojs_roundtrip passphrase salt plain
  (Hsalt : length salt = 8%nat) :
  DecryptCryptoJSPassphrase base64_decode md5 cbc_decrypt
    (cryptojs_encrypt passphrase salt plain) passphrase = Ok plain.
Proof.
  unfold cryptojs_encrypt, DecryptCryptoJSPassphrase.
  destruct (evpBytesToKey_length passphrase salt 32 16) as [Hk Hi].
  destruct (evpBytesToKey md5 passphrase salt 32 16) as [key iv] eqn:Ekv. cbn [fst snd] in Hk, Hi.
  rewrite base64_inverse.
  assert (length salted = 8%nat) as Hs8 by done.
  assert (take 8 (salted ++ salt ++ cbc_encrypt key iv (pkcs7 plain)) = salted) as Ht
    by by apply take_app_length'.
  assert (drop 8 (salted ++ salt ++ cbc_encrypt key iv (pkcs7 plain)) =
          salt ++ cbc_encrypt key iv (pkcs7 plain)) as Hd by by apply drop_app_length'.
  rewrite Ht, Hd, bool_decide_false, bool_decide_true by (rewrite ?length_app; lia || done).
  cbn [orb negb].
  rewrite (take_app_length' salt _ 8) by done. rewrite Ekv.
  replace (drop 16 _) with (cbc_encrypt key iv (pkcs7 plain)).
  2:{ rewrite app_assoc. symmetry. apply drop_app_length'. rewrite length_app. lia. }
  unfold BlockSize. rewrite cbc_length, pkcs7_blocks, bool_decide_true by done. cbn [negb].
  rewrite cbc_inverse by (try done; apply pkcs7_blocks). apply unpad_pkcs7.
Qed.
End CryptoProps.

(** ** Login *)

Lemma add_enabled_lookup {A} (key status : A → Z) l m k x :
  add_enabled key status l m !! k = Some x →
  m !! k = Some x ∨ x ∈ l ∧ status x = 1 ∧ key x = k.
Proof.
  unfold add_enabled. revert m. induction l as [|y l IH]; intros m; cbn; [by left|].
  intros [E|(? & ? & ?)]%IH; [|right; set_solver].
  destruct (Z.eqb_spec (status y) 1); [|by left].
  apply lookup_insert_Some in E as [[<- <-]|[_ E]]; [right; set_solver|by left].
Qed.

Lemma add_enabled_keeps {A} (key status : A → Z) l m k :
  is_Some (m !! k) → is_Some (add_enabled key status l m !! k).
Proof.
  unfold add_enabled. revert m. induction l as [|y l IH]; intros m Hk; cbn; [done|].
  apply IH. case_match; [|done]. destruct (decide (key y = k)) as [->|].
  - by rewrite lookup_insert_eq. - by rewrite lookup_insert_ne.
Qed.

Lemma add_enabled_adds {A} (key status : A → Z) l m x :
  x ∈ l → status x = 1 → is_Some (add_enabled key status l m !! key x).
Proof.
  intros Hx Hst. unfold add_enabled. revert m.
  induction l as [|y l IH]; intros m; [by inversion Hx|].
  apply elem_of_cons in Hx as [<-|Hx]; cbn; [|by apply IH].
  rewrite Hst, Z.eqb_refl. apply add_enabled_keeps. by rewrite lookup_insert_eq.
Qed.

Section LoginProps.
Context {S : Type} {Q : Sql S access} {L : SqlLaws S access}.
Variable col_eq : string → string → bool.

(** Enabled permissions and menus of the enabled roles. *)
Definition enabled_perm (v : access) (roles : list Role) (p : Permission) : Prop :=
  ∃ r, r ∈ roles ∧ Role.Status r = 1 ∧ p ∈ perms_of (Role.ID r) v ∧ Permission.Status p = 1.
Definition enabled_menu (v : access) (roles : list Role) (m : Menu) : Prop :=
  ∃ r, r ∈ roles ∧ Role.Status r = 1 ∧ m ∈ menus_of (Role.ID r) v ∧ Menu.Status m = 1.

Lemma enabled_perm_cons v r roles p :
  enabled_perm v roles p → enabled_perm v (r :: roles) p.
Proof. intros (x & ? & ?). exists x. set_solver. Qed.
Lemma enabled_menu_cons v r roles m :
  enabled_menu v roles m → enabled_menu v (r :: roles) m.
Proof. intros (x & ? & ?). exists x. set_solver. Qed.

Lemma collect_post roles ps ms s s' ps' ms' :
  roles ⊆ a_roles (sql_view s) → slugs_unique col_eq (sql_view s) →
  collect col_eq roles ps ms s = (s', (ps', ms')) →
  sql_view s' = sql_view s ∧
  (∀ k p, ps' !! k = Some p → ps !! k = Some p ∨ enabled_perm (sql_view s) roles p) ∧
  (∀ k m, ms' !! k = Some m → ms !! k = Some m ∨ enabled_menu (sql_view s) roles m).
Proof.
  revert s ps ms. induction roles as [|r roles IH]; intros s ps ms Hsub Hu; cbn [collect].
  { intros [= <- <- <-]. auto. }
  assert (roles ⊆ a_roles (sql_view s)) as Hsub' by set_solver.
  destruct (Z.eqb_spec (Role.Status r) 1) as [Hst|Hst]; cbn [negb].
  2:{ intros (Hv & Hp & Hm)%IH; [|done|done]. split_and!; [done| |].
      - intros k p [?|?]%Hp; eauto using enabled_perm_cons.
      - intros k m [?|?]%Hm; eauto using enabled_menu_cons. }
  unfold mbind, M_bind. intros E. open_call E w a E1.
  apply FindBySlug_post in E1 as (Hv1 & Hs1 & _).
  rewrite <- Hv1 in Hsub', Hu.
  destruct a as [[full|]|e]; apply IH in E as (Hv & Hp & Hm); try done; rewrite Hv1 in *;
    (split_and!; [congruence| |]).
  3, 5: intros k p [?|?]%Hp; eauto using enabled_perm_cons.
  3, 4: intros k m [?|?]%Hm; eauto using enabled_menu_cons.
  all: destruct (Hs1 full eq_refl) as (role & Hin & Hc & Hps & Hms);
    assert (role = r) as -> by (apply Hu; [done|set_solver|done]).
  - intros k p [[?|(Hx & Hx1 & _)]%add_enabled_lookup|?]%Hp; eauto using enabled_perm_cons.
    right. exists r. rewrite Hps in Hx. set_solver.
  - intros k m [[?|(Hx & Hx1 & _)]%add_enabled_lookup|?]%Hm; eauto using enabled_menu_cons.
    right. exists r. rewrite Hms in Hx. set_solver.
Qed.

(** A permission is filed under its own id. *)
Lemma collect_sound_keys roles ps ms s s' ps' ms' :
  collect col_eq roles ps ms s = (s', (ps', ms')) →
  (∀ k p, ps !! k = Some p → Permission.ID p = k) →
  ∀ k p, ps' !! k = Some p → Permission.ID p = k.
Proof.
  revert s ps ms. induction roles as [|r roles IH]; intros s ps ms; cbn [collect].
  { by intros [= <- <- <-]. }
  case_match; [by apply IH|]. unfold mbind, M_bind. intros E Hk. open_call E w a E1.
  destruct a as [[full|]|e]; eapply IH; [exact E| |exact E|done|exact E|done].
  intros k p [?|(_ & _ & ?)]%add_enabled_lookup; [by apply Hk|done].
Qed.

Lemma collect_complete roles ps ms s s' ps' ms' :
  roles ⊆ a_roles (sql_view s) → slugs_unique col_eq (sql_view s) →
  collect col_eq roles ps ms s = (s', (ps', ms')) →
  (∀ k, is_Some (ps !! k) → is_Some (ps' !! k)) ∧
  ((∀ x, col_eq x x = true) → reliable S access →
     ∀ p, enabled_perm (sql_view s) roles p → is_Some (ps' !! Permission.ID p)).
Proof.
  revert s ps ms. induction roles as [|r roles IH]; intros s ps ms Hsub Hu; cbn [collect].
  { intros [= <- <- <-]. split; [done|]. intros _ _ p (r & Hr & _). by inversion Hr. }
  assert (roles ⊆ a_roles (sql_view s)) as Hsub' by set_solver.
  destruct (Z.eqb_spec (Role.Status r) 1) as [Hst|Hst]; cbn [negb].
  2:{ intros [Hk Hp]%IH; [|done|done]. split; [done|]. intros Hre Hrel p (x & Hx & Hx1 & Hx2).
      apply elem_of_cons in Hx as [->|Hx]; [done|]. apply Hp; [done|done|]. by exists x. }
  unfold mbind, M_bind. intros E. open_call E w a E1.
  apply FindBySlug_post in E1 as (Hv1 & Hs1 & Hc1). rewrite <- Hv1 in Hsub', Hu.
  destruct a as [[full|]|e]; apply IH in E as [Hk Hp]; try done; rewrite Hv1 in *.
  2, 3: split; [done|]; intros Hre Hrel; destruct Hc1 as (? & ?); [done| |done];
    exists r; set_solver.
  destruct (Hs1 full eq_refl) as (role & Hin & Hc & Hps & _).
  assert (role = r) as -> by (apply Hu; [done|set_solver|done]). split.
  - intros k ?. by apply Hk, add_enabled_keeps.
  - intros Hre Hrel p (x & Hx & Hx1 & Hx2 & Hx3). apply elem_of_cons in Hx as [->|Hx].
    + apply Hk, add_enabled_adds; [by rewrite Hps|done].
    + apply Hp; [done|done|]. by exists x.
Qed.

Lemma aggregate_post user s s' ps ms :
  User.Roles user ⊆ a_roles (sql_view s) → slugs_unique col_eq (sql_view s) →
  aggregate col_eq user s = (s', (ps, ms)) →
  sql_view s' = sql_view s ∧
  (∀ p, p ∈ ps → ∃ p0, p = permission_response p0 ∧
                       enabled_perm (sql_view s) (User.Roles user) p0) ∧
  (∀ m, m ∈ ms → enabled_menu (sql_view s) (User.Roles user) m) ∧
  ((∀ x, col_eq x x = true) → reliable S access →
     ∀ p0, enabled_perm (sql_view s) (User.Roles user) p0 →
           Permission.ID p0 ∈ Permission.ID <$> ps).
Proof.
  intros Hsub Hu. unfold aggregate, mbind, M_bind. intros E. open_call E w a E1.
  destruct a as [ps0 ms0]. pose proof (collect_complete _ _ _ _ _ _ _ Hsub Hu E1) as [_ Hall].
  pose proof (collect_sound_keys _ _ _ _ _ _ _ E1) as Hkeys.
  apply collect_post in E1 as (Hv & Hp & Hm); [|done|done].
  injection E as <- <- <-. split_and!; [done| | |].
  - intros p (p0 & -> & Hin)%list_elem_of_fmap. exists p0. split; [done|].
    apply list_elem_of_fmap in Hin as ([k x] & -> & Hin). apply elem_of_map_to_list in Hin.
    apply Hp in Hin as [E|?]; [|done]. by rewrite lookup_empty in E.
  - intros m Hin. apply list_elem_of_fmap in Hin as ([k x] & -> & Hin).
    apply elem_of_map_to_list in Hin. apply Hm in Hin as [E|?]; [|done]. by rewrite lookup_empty in E.
  - intros Hre Hrel p0 Hp0. destruct (Hall Hre Hrel p0 Hp0) as [p Hpk].
    rewrite <- (Hkeys (λ k x H, ltac:(by rewrite lookup_empty in H)) _ _ Hpk).
    change (Permission.ID p) with (Permission.ID (permission_response p)).
    apply list_elem_of_fmap_2, list_elem_of_fmap_2.
    apply (list_elem_of_fmap_2' snd _ (Permission.ID p0, p)); [|done]. by apply elem_of_map_to_list.
Qed.

Context {K : Type} {KV : Kv K}.
Variable lib_sign : CustomClaims → string → result string.
Variable jcfg : jwt_config.
Variable base64_decode : string → result bytes.
Variable md5 : bytes → bytes.
Variable cbc_decrypt : bytes → bytes → bytes → bytes.
Variables aes_secret env1 env2 : string.
Variable bcrypt_compare : string → string → result unit.
Variable creds_codec : codec sshCredentials.

(** Everything that is checked before a token is made. *)
Definition login_checked (v : access) (req : LoginRequest) (stored_ok : bool) (u : User)
  (pwd : string) : Prop :=
  captcha_Verify (LoginRequest.CaptchaID req) (LoginRequest.Captcha req) stored_ok = true ∧
  u ∈ a_users v ∧ col_eq (User.Username u) (LoginRequest.Username req) = true ∧
  User.Status u = 1 ∧
  DecryptIfCryptoJS base64_decode md5 cbc_decrypt aes_secret env1 env2
    (LoginRequest.Password req) = Ok pwd ∧
  bcrypt_compare (User.Password u) pwd = Ok tt.

(** C11: a login gives a token only when the captcha was right, the named user
    exists and is enabled and the decrypted password matches its hash; the
    token names that user and exactly its enabled roles, and the answer lists
    only enabled permissions of enabled roles, and all of them when every
    read is answered.  Before these checks pass
    nothing is written to Redis, and a login never changes the database or
    the SSH sessions. *)
Theorem Login_spec req stored_ok n1 n2 n3 (w w' : auth_world S K) r
  (Hrefl : ∀ x, col_eq x x = true) (Hu : slugs_unique col_eq (sql_view (aw_db w)))
  (H : Login col_eq lib_sign jcfg base64_decode md5 cbc_decrypt aes_secret env1 env2
         bcrypt_compare creds_codec req stored_ok n1 n2 n3 w = (w', r)) :
  sql_view (aw_db w') = sql_view (aw_db w) ∧ aw_sm w' = aw_sm w ∧
  (is_ok r = false ∧ aw_kv w' = aw_kv w ∨
   ∃ u pwd roles, login_checked (sql_view (aw_db w)) req stored_ok u pwd ∧
     roles ≡ₚ roles_of (User.ID u) (sql_view (aw_db w)) ∧
     ∀ resp, r = Ok resp →
       GenerateToken lib_sign jcfg n1 n2 n3 (User.ID u) (User.Username u)
         (Role.Slug <$> List.filter (λ x, Role.Status x =? 1) roles) =
         Ok (LoginResponse.Token resp) ∧
       (∀ p, p ∈ LoginResponse.Permissions resp →
          ∃ p0, p = permission_response p0 ∧ enabled_perm (sql_view (aw_db w)) roles p0) ∧
       (reliable S access → ∀ p0, enabled_perm (sql_view (aw_db w)) roles p0 →
          Permission.ID p0 ∈ Permission.ID <$> LoginResponse.Permissions resp)).
Proof.
  unfold Login in H. destruct (captcha_Verify _ _ _) eqn:Ecap; cbn [negb] in H.
  2:{ injection H as <- <-. split_and!; [done|done|by left]. }
  unfold mbind at 1, M_bind at 1 in H. open_call H w1 a1 E1. unfold on_db, lift in E1.
  open_call E1 s1 b1 F1. injection E1 as <- <-. apply find_user_post in F1 as (Hv1 & Hs1 & _).
  destruct b1 as [[user|]|e]; [|injection H as <- <-; split_and!; [done|done|by left]..].
  destruct (Hs1 user eq_refl) as (u & Hin & Hname & Huser & Hroles). clear Hs1.
  destruct (Z.eqb_spec (User.Status user) 1) as [Hst|Hst]; cbn [negb] in H;
    [|injection H as <- <-; split_and!; [done|done|by left]].
  destruct (DecryptIfCryptoJS _ _ _ _ _ _ _) as [pwd|e] eqn:Ed;
    [|injection H as <- <-; split_and!; [done|done|by left]].
  destruct (bcrypt_compare _ _) as [[]|e] eqn:Eb;
    [|injection H as <- <-; split_and!; [done|done|by left]].
  unfold mbind at 1, M_bind at 1 in H. open_call H w2 a2 E2. unfold on_kv, lift in E2.
  open_call E2 k2 b2 F2. injection E2 as <- <-.
  unfold mbind at 1, M_bind at 1 in H. open_call H w3 a3 E3. unfold on_db, lift in E3.
  open_call E3 s3 b3 F3. injection E3 as <- <-. destruct b3 as [ps ms]. cbn in F3.
  apply aggregate_post in F3 as (Hv3 & Hp & _ & Hall).
  2:{ rewrite Hv1, Hroles. intros x. apply roles_of_sub. }
  2:{ by rewrite Hv1. }
  rewrite Hv1 in Hv3, Hp, Hall.
  assert (login_checked (sql_view (aw_db w)) req stored_ok u pwd) as Hchk.
  { rewrite Huser in Hst, Eb. by split_and!. }
  destruct (GenerateToken _ _ _ _ _ _ _ _) as [token|e] eqn:Eg; injection H as <- <-;
    (split_and!; [done|done|right; exists u, pwd, (User.Roles user); split_and!; [done|done|]]);
    intros resp [=]; subst resp. split_and!; [|done|by apply Hall]. cbn. rewrite <- Eg, Huser. done.
Qed.
End LoginProps.

(** ** Recovery of SSH sessions *)

Lemma put_session_other key k x sm :
  k ≠ key → sessions (put_session key x sm).1 !! k = sessions sm !! k.
Proof.
  intros Hk. unfold put_session. cbn. rewrite lookup_insert_ne by done.
  by destruct (sessions sm !! key).
Qed.

Lemma CreateSession_other now u name pw isRoot dialled sm k :
  k ≠ getSessionKey u isRoot →
  sessions (CreateSession now u name pw isRoot dialled sm).1 !! k = sessions sm !! k.
Proof.
  intros Hk. unfold CreateSession. destruct dialled as [c|e]; [|done].
  match goal with |- context [put_session ?key ?x sm] =>
    pose proof (put_session_other key k x sm Hk) as Hp; by destruct (put_session key x sm) end.
Qed.

(** A session is opened or replaced under its own key only. *)
Lemma GetOrCreateSession_other now u name pw isRoot probe dialled sm sm' r k :
  GetOrCreateSession now u name pw isRoot probe dialled sm = (sm', r) →
  k ≠ getSessionKey u isRoot → sessions sm' !! k = sessions sm !! k.
Proof.
  intros E Hk. unfold GetOrCreateSession, GetSession in E.
  destruct (sessions sm !! getSessionKey u isRoot) as [ref|] eqn:Es.
  2:{ rewrite <- (CreateSession_other now u name pw isRoot dialled sm k Hk). by rewrite E. }
  destruct (isSessionValid _ _ _); [by injection E as <- <-|].
  apply (f_equal fst) in E. cbn [fst] in E. rewrite <- E, CreateSession_other by done.
  unfold DeleteSession. cbn. rewrite Es. cbn. by rewrite lookup_delete_ne.
Qed.

(** What is stored under a free key. *)
Lemma CreateSession_free now u name pw isRoot c sm :
  sessions sm !! getSessionKey u isRoot = None →
  ∃ ref, (CreateSession now u name pw isRoot (Ok c) sm).2 = Ok ref ∧
    let sm' := (CreateSession now u name pw isRoot (Ok c) sm).1 in
    sessions sm' !! getSessionKey u isRoot = Some ref ∧
    store sm' !! ref = Some (UserSession.mkUserSession (Some c) u
      (if isRoot then GetRootUsername (Cfg sm) else name) pw now now isRoot false) ∧
    ∀ r x, store sm !! r = Some x → store sm' !! r = Some x.
Proof.
  intros Hn. unfold CreateSession, put_session. rewrite Hn. eexists. split; [done|]. cbn.
  rewrite !lookup_insert_eq. split_and!; [done..|]. intros r x Hr. rewrite lookup_insert_ne; [done|].
  intros <-. pose proof (is_fresh (dom (store sm))) as Hf. apply not_elem_of_dom in Hf. congruence.
Qed.

(** The session that is given is open, is of the user and the privilege that
    were asked for and is the one of the table: the old one where the host
    answered on it, or a new one.  An old one that did not answer is closed. *)
Definition session_given (now u : Z) (name pw : string) (isRoot probe : bool) (dialled : result positive)
  (sm sm' : SessionManager) (ref : positive) : Prop :=
  let key := getSessionKey u isRoot in
  sessions sm' !! key = Some ref ∧
  ∃ s, store sm' !! ref = Some s ∧ UserSession.UserID s = u ∧ UserSession.IsRootUser s = isRoot ∧
    UserSession.closed s = false ∧ is_Some (UserSession.Client s) ∧
    ((sessions sm !! key = Some ref ∧ probe = true ∧ UserSession.LastUsedAt s = now) ∨
     ((probe = true → ∀ old so, sessions sm !! key = Some old → store sm !! old = Some so → UserSession.Client so = None) ∧
      ∃ c, dialled = Ok c ∧
        s = UserSession.mkUserSession (Some c) u (if isRoot then GetRootUsername (Cfg sm) else name) pw now now isRoot false ∧
        ∀ old, sessions sm !! key = Some old → ∃ so, store sm' !! old = Some so ∧ UserSession.closed so = true)).

Lemma GetOrCreateSession_given now u name pw isRoot probe dialled sm sm' r :
  sm_inv sm → GetOrCreateSession now u name pw isRoot probe dialled sm = (sm', r) →
  match r with
  | Ok ref => session_given now u name pw isRoot probe dialled sm sm' ref
  | Err _ => (∃ e, dialled = Err e) ∧ sessions sm' !! getSessionKey u isRoot = None
  end.
Proof.
  intros Hi E. unfold GetOrCreateSession, GetSession in E.
  destruct (sessions sm !! getSessionKey u isRoot) as [ref|] eqn:Es.
  - destruct (Hi _ _ Es) as (s & Hs & Hk & Ho). apply getSessionKey_inj in Hk as [Hu Hb].
    set (sm1 := SshSessions.update ref (UserSession.touch now) sm) in *.
    assert (store sm1 !! ref = Some (UserSession.touch now s)) as Hs1 by (cbn; by rewrite lookup_alter_eq, Hs).
    unfold isSessionValid in E. rewrite Hs1 in E. cbn in E.
    assert (sessions (DeleteSession u isRoot sm1) !! getSessionKey u isRoot = None ∧
      store (DeleteSession u isRoot sm1) !! ref = Some (UserSession.close (UserSession.touch now s))) as [Hd1 Hd2].
    { unfold DeleteSession. cbn [sm1 SshSessions.update sessions]. rewrite Es. cbn.
      by rewrite lookup_delete_eq, lookup_alter_eq, lookup_alter_eq, Hs. }
    assert (Cfg (DeleteSession u isRoot sm1) = Cfg sm) as Hcfg.
    { unfold DeleteSession. cbn [sm1 SshSessions.update sessions]. by rewrite Es. }
    destruct (match UserSession.Client s with Some _ => probe | None => false end) eqn:Ev.
    + injection E as <- <-. split; [done|]. exists (UserSession.touch now s). split; [exact Hs1|].
      cbn. destruct (UserSession.Client s) eqn:Ec; [|done]. split_and!; try done. left. by split_and!.
    + destruct dialled as [c|e]; [|injection E as <- <-; split; [by eexists|done]].
      destruct (CreateSession_free now u name pw isRoot c _ Hd1) as (ref' & Hr & Hk & Hst & Hold).
      rewrite E in Hr, Hk, Hst, Hold. cbn in Hr, Hk, Hst, Hold. subst r. split; [done|]. rewrite Hcfg in Hst.
      eexists. split; [exact Hst|]. cbn. split_and!; [done..|]. right. split.
      * intros -> old so Hl Hso. rewrite Es in Hl. injection Hl as <-. rewrite Hs in Hso. injection Hso as <-.
        by destruct (UserSession.Client s).
      * exists c. split_and!; [done..|]. intros old Hl. rewrite Es in Hl. injection Hl as <-.
        eexists. split; [by apply Hold|done].
  - destruct dialled as [c|e]; [|injection E as <- <-; split; [by eexists|done]].
    destruct (CreateSession_free now u name pw isRoot c _ Es) as (ref' & Hr & Hk & Hst & _).
    rewrite E in Hr, Hk, Hst. cbn in Hr, Hk, Hst. subst r. split; [done|].
    eexists. split; [exact Hst|]. cbn. split_and!; [done..|]. right.
    rewrite Es. split; [done|]. exists c. by split_and!.
Qed.

Section SessionProps.
Context {S : Type} {Q : Sql S access} {L : SqlLaws S access} {K : Type} {KV : Kv K}.
Variable col_eq : string → string → bool.
Variable creds_codec : codec sshCredentials.
Variable info_codec : codec SessionInfo.
Variables has_manager has_sessions : bool.

Notation ensure := (EnsureSSHSessionByType creds_codec info_codec has_manager has_sessions).

(** Either nothing was done to the sessions, or the credentials of Redis and a
    user of the database were found and the manager was asked. *)
Lemma EnsureSSHSessionByType_post c now probe dialled u isRoot (w w' : auth_world S K) r :
  ensure c now probe dialled u isRoot w = (w', r) →
  sql_view (aw_db w') = sql_view (aw_db w) ∧
  ((aw_sm w' = aw_sm w ∧ is_ok r = false) ∨
   ∃ k1 creds user g,
     GetUserCredentialsFromRedis creds_codec u (aw_kv w) = (k1, Ok creds) ∧
     user ∈ a_users (sql_view (aw_db w)) ∧ User.ID user = u ∧
     GetOrCreateSession now u (sc_Username creds) (sc_Password creds) isRoot probe dialled (aw_sm w) = (aw_sm w', g) ∧
     (is_ok r = true ↔ ∃ ref, g = Ok ref ∧ is_Some (store (aw_sm w') !! ref))).
Proof.
  unfold EnsureSSHSessionByType. destruct has_manager; cbn [negb]; [|by intros [= <- <-]; split; [|left]].
  unfold mbind at 1, M_bind at 1. intros E. open_call E w1 a1 E1. unfold on_kv, lift in E1.
  open_call E1 k1 b1 F1. injection E1 as <- <-. destruct b1 as [creds|e]; [|injection E as <- <-; by split; [|left]].
  unfold mbind at 1, M_bind at 1 in E. open_call E w2 a2 E2. unfold on_db, lift in E2.
  open_call E2 s2 b2 F2. injection E2 as <- <-. apply find_user_post in F2 as (Hv2 & Hu & _). cbn in Hv2, Hu.
  destruct b2 as [[user|]|e]; [|injection E as <- <-; by split; [|left]..].
  destruct (Hu _ eq_refl) as (u0 & Hin & Hid%Z.eqb_eq & _ & _).
  unfold mbind at 1, M_bind at 1 in E. open_call E w3 a3 E3. unfold lift in E3.
  open_call E3 sm3 b3 F3. injection E3 as <- <-. cbn in F3.
  destruct b3 as [ref|e].
  2:{ injection E as <- <-. split; [done|]. right. exists k1, creds, u0, (Err e). split_and!; try done.
      split; [done|by intros (? & ? & _)]. }
  unfold mbind at 1, M_bind at 1, gets in E. cbn in E.
  destruct (store sm3 !! ref) as [ses|] eqn:Es.
  2:{ injection E as <- <-. split; [done|]. right. exists k1, creds, u0, (Ok ref). split_and!; try done.
      split; [done|]. intros (? & [= <-] & [x Hx]). cbn in Hx. congruence. }
  unfold mbind at 1, M_bind at 1 in E. open_call E w4 a4 E4. injection E as <- <-.
  assert (aw_sm w4 = sm3 ∧ aw_db w4 = s2) as [Hsm Hdb].
  { destruct has_sessions; [|by injection E4 as <- <-].
    unfold on_kv, lift in E4. open_call E4 k4 b4 F4. by injection E4 as <- <-. }
  rewrite Hsm, Hdb. split; [done|]. right. exists k1, creds, u0, (Ok ref). split_and!; try done.
  split; [|done]. intros _. exists ref. by split; [|eexists].
Qed.

Lemma EnsureSSHSessionByType_keys c now probe dialled u isRoot (w w' : auth_world S K) r :
  ensure c now probe dialled u isRoot w = (w', r) →
  sql_view (aw_db w') = sql_view (aw_db w) ∧
  ∀ k, k ≠ getSessionKey u isRoot → sessions (aw_sm w') !! k = sessions (aw_sm w) !! k.
Proof.
  intros [Hdb [[-> _]|(k1 & creds & user & g & _ & _ & _ & Hg & _)]]%EnsureSSHSessionByType_post; [done|].
  split; [done|]. intros. by eapply GetOrCreateSession_other.
Qed.

Lemma creds_found `{!KvLaws K} u (k k' : K) creds :
  GetUserCredentialsFromRedis creds_codec u k = (k', Ok creds) →
  ∃ j, kv_str (kv_view k) !! creds_key u = Some j ∧ unmarshal creds_codec j = Ok creds.
Proof.
  unfold GetUserCredentialsFromRedis. intros E. open_bind E as k1 [j|e] E1; [|done].
  apply kv_Get_ok in E1. exists j. destruct (String.eqb j ""); [done|].
  by destruct (unmarshal creds_codec j); [injection E as _ <-|].
Qed.

(** C35: [EnsureSSHSessionByType], with which the terminal, the files and the
    commands recover a session.  It changes no table of the database and, of the
    table of sessions, only the key of this user and this privilege.  It
    succeeds only for a user of the database whose credentials Redis has; the
    session under the key is then open, has a client and is of this user and
    this privilege: the old one where the host answered on it, or one that was
    dialled now, as root or under the name of the credentials, where the host
    did not; the old one is then closed.  If it fails it left the sessions as
    they were, or the host could not be dialled and no session is left under
    the key.  The privilege itself is not checked here: it is the caller's. *)
Theorem EnsureSSHSessionByType_spec `{!KvLaws K} c now probe dialled u isRoot (w w' : auth_world S K) r
  (Hinv : sm_inv (aw_sm w))
  (H : ensure c now probe dialled u isRoot w = (w', r)) :
  sql_view (aw_db w') = sql_view (aw_db w) ∧
  (∀ key, key ≠ getSessionKey u isRoot → sessions (aw_sm w') !! key = sessions (aw_sm w) !! key) ∧
  if is_ok r then
    ∃ j creds ref, kv_str (kv_view (aw_kv w)) !! creds_key u = Some j ∧ unmarshal creds_codec j = Ok creds ∧
      (∃ user, user ∈ a_users (sql_view (aw_db w)) ∧ User.ID user = u) ∧
      session_given now u (sc_Username creds) (sc_Password creds) isRoot probe dialled (aw_sm w) (aw_sm w') ref
  else aw_sm w' = aw_sm w ∨ (∃ e, dialled = Err e) ∧ sessions (aw_sm w') !! getSessionKey u isRoot = None.
Proof.
  apply EnsureSSHSessionByType_post in H as [Hdb [[-> Hr]|(k1 & creds & user & g & Hc & Hin & Hid & Hg & Hr)]].
  { rewrite Hr. auto. }
  split; [done|]. split; [intros; by eapply GetOrCreateSession_other|].
  apply GetOrCreateSession_given in Hg; [|done]. destruct g as [ref|e].
  - replace (is_ok r) with true.
    + apply creds_found in Hc as (j & Hj & Hu). by exists j, creds, ref; split_and!; eauto.
    + symmetry. apply Hr. exists ref. split; [done|]. destruct Hg as (_ & s & -> & _). by eexists.
  - destruct (is_ok r); [by destruct (proj1 Hr eq_refl) as (? & ? & _)|by right].
Qed.

(** [EnsureSSHSession], which nothing calls, opens or replaces a root session
    only for a user with root access to files, and never touches a session of
    another user. *)
Theorem EnsureSSHSession_privilege c now probe dialled u (w w' : auth_world S K) r
  (Hu : slugs_unique col_eq (sql_view (aw_db w)))
  (H : EnsureSSHSession col_eq creds_codec info_codec has_manager has_sessions c now probe dialled u
         w = (w', r)) :
  sql_view (aw_db w') = sql_view (aw_db w) ∧
  (sessions (aw_sm w') !! getSessionKey u true ≠ sessions (aw_sm w) !! getSessionKey u true →
     system_access (sql_view (aw_db w)) u AccessTypeFile) ∧
  (∀ u' b, u' ≠ u →
     sessions (aw_sm w') !! getSessionKey u' b = sessions (aw_sm w) !! getSessionKey u' b).
Proof.
  unfold EnsureSSHSession in H. unfold mbind at 1, M_bind at 1 in H. open_call H w1 a1 E1.
  unfold on_db, lift in E1. open_call E1 s1 b1 F1. injection E1 as <- <-.
  apply find_user_post in F1 as (Hv1 & _).
  unfold mbind at 1, M_bind at 1 in H. open_call H w2 a2 E2. unfold on_db, lift in E2.
  open_call E2 s2 b2 F2. injection E2 as <- <-. cbn in F2.
  apply HasSystemAccess_post in F2 as (Hv2 & _); [|by rewrite Hv1].
  destruct b2 as [t|e]; [|injection H as <- <-; cbn; split_and!; congruence].
  unfold mbind at 1, M_bind at 1 in H. open_call H w3 a3 E3. unfold on_db, lift in E3.
  open_call E3 s3 b3 F3. injection E3 as <- <-. cbn in F3.
  apply HasSystemAccess_post in F3 as (Hv3 & Hacc & _); [|by rewrite Hv2, Hv1].
  destruct b3 as [isRoot|e]; [|injection H as <- <-; cbn; split_and!; congruence].
  rewrite Hv2, Hv1 in *.
  destruct (match b1 with Ok x => x | Err _ => None end) as [user|];
    [|injection H as <- <-; cbn; split_and!; congruence].
  apply EnsureSSHSessionByType_keys in H as [Hv4 Hk]. cbn in Hv4, Hk. split_and!; [congruence| |].
  - intros Hne. destruct isRoot; [by apply Hacc|]. exfalso. apply Hne, Hk.
    intros [_ E]%getSessionKey_inj. done.
  - intros u' b Hne. apply Hk. by intros [E _]%getSessionKey_inj.
Qed.
End SessionProps.

(** ** Concrete runs *)

(** A library that signs by writing the user id, and accepts such tokens. *)
Definition demo_claims (u : Z) : CustomClaims :=
  CustomClaims.mkClaims u "ann" ["operator"%string] 2000 0 0 "cloudque".
Definition demo_sign (c : CustomClaims) (_ : string) : result string :=
  Ok (Itoa (CustomClaims.UserID c)).
Definition demo_parse (t _ : string) (_ : Z) : jwt_parsed :=
  match Atoi t with Ok u => Parsed (demo_claims u) true | Err _ => ParseFailed false end.
Definition demo_jwt : jwt_config := mkJwtConfig "secret" 24.
Definition demo_request (auth : string) : http_request :=
  mkRequest auth "" None "POST" "/api/v1/jobs".

Lemma guarded_spec_witness :
  api_permission String.eqb demo_access 1 "POST" "/api/v1/jobs" ∧
  ¬ api_permission String.eqb demo_access 7 "POST" "/api/v1/jobs".
Proof.
  destruct (guarded_spec String.eqb demo_parse demo_jwt 0 (demo_request "Bearer 1") demo_access
    demo_access (Next 1)) as (_ & (c & _ & _ & _ & Ha) & _); [vm_compute; reflexivity|].
  split; [exact Ha|]. intros Hn.
  destruct (guarded_spec String.eqb demo_parse demo_jwt 0 (demo_request "Bearer 7") demo_access
    demo_access (Abort (Forbidden "权限不足"))) as (_ & _ & Hc); [vm_compute; reflexivity|].
  assert (Abort (Forbidden "权限不足") = Next 7) as Habs; [|discriminate Habs].
  apply (Hc (mem_sql_reliable access) (demo_claims 7)); [discriminate|reflexivity|exact Hn].
Defined.

(** Texts as their own base64, a constant digest and the identity cipher. *)
Definition demo_md5 (_ : bytes) : bytes := replicate 16 Ascii.zero.
Lemma cryptojs_roundtrip_witness :
  DecryptCryptoJSPassphrase (λ s, Ok (String.list_ascii_of_string s)) demo_md5 (λ _ _ c, c)
    (cryptojs_encrypt String.string_of_list_ascii demo_md5 (λ _ _ p, p)
       (String.list_ascii_of_string "key") (String.list_ascii_of_string "saltsalt")
       (String.list_ascii_of_string "hunter2"))
    (String.list_ascii_of_string "key") = Ok (String.list_ascii_of_string "hunter2").
Proof.
  apply (cryptojs_roundtrip (λ s, Ok (String.list_ascii_of_string s)) String.string_of_list_ascii
    demo_md5 (λ _ _ c, c) (λ _ _ p, p)).
  - intros b. by rewrite String.list_ascii_of_string_of_list_ascii.
  - intros b. apply length_replicate.
  - reflexivity.
  - reflexivity.
  - reflexivity.
Defined.

(** A text of the right form without a ciphertext makes the server panic. *)
Example decrypt_header_panics :
  DecryptCryptoJSPassphrase (λ s, Ok (String.list_ascii_of_string s)) demo_md5 (λ _ _ c, c)
    "Salted__saltsalt" [] = Err (ErrPanic "index out of range [-1]").
Proof. vm_compute. reflexivity. Qed.

Definition demo_sm : SessionManager :=
  NewSessionManager (Config.mkConfig "host" "" "" "" "" 0 0).
Definition demo_codec : codec sshCredentials :=
  mkCodec sshCredentials (λ c, Ok (sc_Username c +:+ ":" +:+ sc_Password c))
    (λ s, match SplitN2 colon s with (u, Some p) => Ok (mkSshCredentials u p) | _ => Err ErrSyntax end).
Definition demo_info_codec : codec SessionInfo :=
  mkCodec SessionInfo (λ i, Ok (Itoa (SessionInfo.UserID i))) (λ _, Err ErrSyntax).
Definition demo_world : auth_world access kview := mkAuthWorld demo_access (mkKview ∅ ∅) demo_sm.
Definition demo_login (pw : string) := Login (S := access) (K := kview) String.eqb demo_sign demo_jwt
  (λ _, Err ErrSyntax) demo_md5 (λ _ _ c, c) "" "" ""
  (λ h p, if String.eqb p "hunter2" then Ok tt else Err (ErrExt 3)) demo_codec
  (LoginRequest.mkLoginRequest "ann" pw "id" "1234") true 0 0 0.

(** Ann logs in with the right password and gets her enabled permission; with
    a wrong one she is refused and nothing is stored. *)
Lemma Login_spec_witness :
  (∃ resp, (demo_login "hunter2" demo_world).2 = Ok resp ∧
     Permission.ID <$> LoginResponse.Permissions resp = [1] ∧
     ∃ u, u ∈ a_users demo_access ∧ User.Status u = 1 ∧ User.Username u = "ann") ∧
  aw_kv (demo_login "wrong" demo_world).1 = aw_kv demo_world.
Proof.
  destruct (Login_spec (K := kview) String.eqb demo_sign demo_jwt (λ _, Err ErrSyntax) demo_md5
    (λ _ _ c, c) "" "" "" (λ h p, if String.eqb p "hunter2" then Ok tt else Err (ErrExt 3)) demo_codec
    (LoginRequest.mkLoginRequest "ann" "hunter2" "id" "1234") true 0 0 0 demo_world
    (demo_login "hunter2" demo_world).1 (demo_login "hunter2" demo_world).2)
    as (_ & _ & [[Hno _]|(u & pwd & roles & Hc & _ & Hr)]).
  - exact String.eqb_refl.
  - exact demo_slugs_unique.
  - apply surjective_pairing.
  - vm_compute in Hno. discriminate Hno.
  - split; [|vm_compute; reflexivity].
    eexists. split; [vm_compute; reflexivity|]. split; [vm_compute; reflexivity|].
    destruct Hc as (_ & Hin & Hname & Hst & _). exists u. split; [exact Hin|].
    split; [exact Hst|]. exact (proj1 (String.eqb_eq _ _) Hname).
Defined.

(** The root session of a user with root access to the terminal only is not
    opened; the ordinary one is. *)
Definition demo_creds : auth_world access kview :=
  mkAuthWorld demo_access (mkKview {[creds_key 1 := "ann:hunter2"%string]} ∅) demo_sm.
Definition demo_ensure := EnsureSSHSession (S := access) (K := kview) String.eqb demo_codec
  demo_info_codec true true true 0 true (Ok 5%positive) 1.

Lemma EnsureSSHSession_privilege_witness :
  (demo_ensure demo_creds).2 = Ok tt ∧
  is_Some (sessions (aw_sm (demo_ensure demo_creds).1) !! getSessionKey 1 false) ∧
  sessions (aw_sm (demo_ensure demo_creds).1) !! getSessionKey 2 true = None ∧
  sessions (aw_sm (demo_ensure demo_creds).1) !! getSessionKey 1 true = None.
Proof.
  split; [vm_compute; reflexivity|]. split; [vm_compute; eexists; reflexivity|].
  destruct (EnsureSSHSession_privilege (K := kview) String.eqb demo_codec demo_info_codec true true
    true 0 true (Ok 5%positive) 1 demo_creds (demo_ensure demo_creds).1 (demo_ensure demo_creds).2)
    as (_ & _ & Hother).
  - exact demo_slugs_unique.
  - apply surjective_pairing.
  - split; [|vm_compute; reflexivity]. rewrite (Hother 2 true); [vm_compute; reflexivity|discriminate].
Defined.

(** The caller asks for the root session: it is opened, although Ann has root
    access to the terminal only. *)
Definition demo_ensure_root := EnsureSSHSessionByType (S := access) (K := kview) demo_codec
  demo_info_codec true true true 0 true (Ok 5%positive) 1 true.

Lemma EnsureSSHSessionByType_spec_witness :
  (demo_ensure_root demo_creds).2 = Ok tt ∧
  (∃ ref s, sessions (aw_sm (demo_ensure_root demo_creds).1) !! getSessionKey 1 true = Some ref ∧
     store (aw_sm (demo_ensure_root demo_creds).1) !! ref = Some s ∧
     UserSession.IsRootUser s = true ∧ UserSession.closed s = false) ∧
  sessions (aw_sm (demo_ensure_root demo_creds).1) !! getSessionKey 1 false = None.
Proof.
  destruct (EnsureSSHSessionByType_spec (K := kview) demo_codec demo_info_codec true true true 0 true
    (Ok 5%positive) 1 true demo_creds (demo_ensure_root demo_creds).1 (demo_ensure_root demo_creds).2)
    as (_ & Hk & Hr).
  - by intros key r.
  - apply surjective_pairing.
  - split; [vm_compute; reflexivity|]. split; [|by rewrite Hk].
    change (is_ok (demo_ensure_root demo_creds).2) with true in Hr.
    destruct Hr as (j & creds & ref & _ & _ & _ & Hs & s & Hst & _ & Hb & Ho & _).
    by exists ref, s.
Defined.
