(* ===== verification/GoPath.v ===== *)
(** * The parts of Go's path, strings and strconv packages the file service uses

    A path is split at its slashes into components; [Clean] runs over them
    with a stack, which is what the byte loop of package path does with its
    output buffer and its mark for leading ".." components. *)

From Stdlib Require Import Ascii DecimalString.
From S2P Require Import Prelude GoStrings.

Local Open Scope string_scope.
Open Scope Z_scope.

(** ** strings and strconv *)

(** [strings.Contains]. *)
Fixpoint Contains (s sub : string) : bool :=
  HasPrefix s sub || match s with EmptyString => false | String _ r => Contains r sub end.

(** [strings.ReplaceAll] with a one-byte pattern. *)
Fixpoint ReplaceAll (s : string) (old : ascii) (new : string) : string :=
  match s with
  | EmptyString => EmptyString
  | String x r => (if Ascii.eqb x old then new else String x EmptyString) +:+ ReplaceAll r old new
  end.

(** [strings.HasSuffix], [strings.TrimSuffix]. *)
Definition string_rev (s : string) : string :=
  String.string_of_list_ascii (reverse (String.list_ascii_of_string s)).
Definition HasSuffix (s suf : string) : bool := HasPrefix (string_rev s) (string_rev suf).
Definition TrimSuffix (s suf : string) : string :=
  if HasSuffix s suf then String.substring 0 (String.length s - String.length suf) s else s.

(** [strconv.ParseInt(s, 10, 64)] accepts what [Atoi] accepts. *)
Definition ParseInt (s : string) : result Z := Atoi s.
(** [strconv.ParseUint(s, 10, 32)]: digits only. *)
Definition ParseUint32 (s : string) : result Z :=
  match NilZero.uint_of_string s with
  | None => Err ErrSyntax
  | Some d => let z := Z.of_uint d in if z <? 2 ^ 32 then Ok z else Err ErrRange
  end.

(** ** path *)

Notation slash := ("/"%char) (only parsing).

Definition IsAbs (p : string) : bool := HasPrefix p "/".

(** One component on the stack (last component first). *)
Definition push_component (rooted : bool) (st : list string) (c : string) : list string :=
  if String.eqb c "" || String.eqb c "." then st
  else if String.eqb c ".." then
    match st with
    | [] => if rooted then [] else [".."]
    | t :: st' => if String.eqb t ".." then ".." :: st else st'
    end
  else c :: st.
Definition clean_components (rooted : bool) (cs : list string) : list string :=
  reverse (foldl (push_component rooted) [] cs).

(** [path.Clean]. *)
Definition Clean (p : string) : string :=
  let rooted := IsAbs p in
  let cs := clean_components rooted (Split slash p) in
  if rooted then "/" +:+ Join "/" cs
  else match cs with [] => "." | _ => Join "/" cs end.

(** [path.Join] of two elements. *)
Definition path_Join (a b : string) : string :=
  if String.eqb a "" then (if String.eqb b "" then "" else Clean b)
  else Clean (a +:+ "/" +:+ b).

(** The text after the last slash and the text up to and including it. *)
Definition last_element (p : string) : string := default "" (last (Split slash p)).
Definition dir_part (p : string) : string :=
  String.substring 0 (String.length p - String.length (last_element p)) p.

Fixpoint strip_slashes (l : list ascii) : list ascii :=
  match l with
  | c :: r => if Ascii.eqb c slash then strip_slashes r else l
  | [] => []
  end.

(** [path.Base], [path.Dir], [path.Ext]. *)
Definition Base (p : string) : string :=
  if String.eqb p "" then "."
  else
    let q := String.string_of_list_ascii
               (reverse (strip_slashes (reverse (String.list_ascii_of_string p)))) in
    let b := last_element q in
    if String.eqb b "" then "/" else b.
Definition Dir (p : string) : string := Clean (dir_part p).
Definition Ext (p : string) : string :=
  match reverse (Split "."%char (last_element p)) with
  | e :: _ :: _ => "." +:+ e
  | _ => ""
  end.

Example clean_ex1 : Clean "/home/ann/../bob//x/." = "/home/bob/x".
Proof. vm_compute. reflexivity. Qed.
Example clean_ex2 : Clean "../a/../../b" = "../../b".
Proof. vm_compute. reflexivity. Qed.
Example clean_ex3 : (Clean "", Clean "/..", Clean "a/..") = (".", "/", ".").
Proof. vm_compute. reflexivity. Qed.
Example base_ex : (Base "/a/b//", Base "/", Base "", Dir "/a/b", Dir "b", Ext "x.tar.gz", Ext "a.b/c")
  = ("b", "/", ".", "/a", ".", ".gz", "").
Proof. vm_compute. reflexivity. Qed.
Example trim_suffix_ex : (TrimSuffix "data.zip" ".zip", TrimSuffix "data" "") = ("data", "data").
Proof. vm_compute. reflexivity. Qed.

(** ** Strings *)

Lemma sapp_assoc (a b c : string) : (a +:+ b) +:+ c = a +:+ (b +:+ c).
Proof. induction a as [|x a IH]; [done|]. exact (f_equal (String x) IH). Qed.
Lemma sapp_nil_r (a : string) : a +:+ "" = a.
Proof. induction a as [|x a IH]; [done|]. exact (f_equal (String x) IH). Qed.

Lemma sapp_cons x (a b : string) : String x a +:+ b = String x (a +:+ b).
Proof. done. Qed.
Lemma prefix_cons x p y s :
  String.prefix (String x p) (String y s) = (if ascii_dec x y then String.prefix p s else false).
Proof. done. Qed.

Lemma HasPrefix_app (s p : string) : HasPrefix s p = true ↔ ∃ r, s = p +:+ r.
Proof.
  unfold HasPrefix. revert s. induction p as [|x p IH]; intros s.
  - split; [by exists s|]. by destruct s.
  - destruct s as [|y s]; [split; [done|by intros [r ?]]|]. rewrite prefix_cons.
    destruct (ascii_dec x y) as [->|].
    + rewrite IH. split; intros [r Hr]; exists r; rewrite ?sapp_cons in *; congruence.
    + split; [done|]. intros [r Hr]. rewrite sapp_cons in Hr. congruence.
Qed.

Lemma list_ascii_app (a b : string) :
  String.list_ascii_of_string (a +:+ b) = (String.list_ascii_of_string a ++ String.list_ascii_of_string b)%list.
Proof. induction a as [|c a IH]; [done|]. rewrite sapp_cons. cbn. by rewrite IH. Qed.
Lemma string_of_app (a b : list ascii) :
  String.string_of_list_ascii (a ++ b)%list = String.string_of_list_ascii a +:+ String.string_of_list_ascii b.
Proof. induction a as [|c a IH]; [done|]. cbn. by rewrite IH, sapp_cons. Qed.
Lemma string_rev_app (a b : string) : string_rev (a +:+ b) = string_rev b +:+ string_rev a.
Proof. unfold string_rev. by rewrite list_ascii_app, reverse_app, string_of_app. Qed.
Lemma string_rev_invol (a : string) : string_rev (string_rev a) = a.
Proof.
  unfold string_rev. rewrite String.list_ascii_of_string_of_list_ascii, reverse_involutive.
  apply String.string_of_list_ascii_of_string.
Qed.
Lemma HasSuffix_app (s p : string) : HasSuffix s p = true ↔ ∃ r, s = r +:+ p.
Proof.
  unfold HasSuffix. rewrite HasPrefix_app. split; intros [r Hr].
  - exists (string_rev r). by rewrite <- (string_rev_invol s), Hr, string_rev_app, string_rev_invol.
  - exists (string_rev r). by rewrite Hr, string_rev_app.
Qed.
Lemma slength_app (a b : string) : String.length (a +:+ b) = (String.length a + String.length b)%nat.
Proof. induction a as [|c a IH]; [done|]. rewrite sapp_cons. cbn. by rewrite IH. Qed.
Lemma substring_prefix (a b : string) : String.substring 0 (String.length a) (a +:+ b) = a.
Proof. induction a as [|c a IH]; [by destruct b|]. rewrite sapp_cons. cbn. by rewrite IH. Qed.
Lemma TrimSuffix_app (r p : string) : TrimSuffix (r +:+ p) p = r.
Proof.
  unfold TrimSuffix. replace (HasSuffix (r +:+ p) p) with true by (symmetry; apply HasSuffix_app; eauto).
  rewrite slength_app. replace (_ + _ - _)%nat with (String.length r) by lia. apply substring_prefix.
Qed.

Definition no_slash (c : string) : bool := all_chars (λ x, negb (Ascii.eqb x slash)) c.

(** A component that names something: what is left after cleaning. *)
Definition is_name (c : string) : bool :=
  no_slash c && negb (String.eqb c "") && negb (String.eqb c ".") && negb (String.eqb c "..").

Lemma Split_all_no c (s : string) :
  Forall (λ x, all_chars (λ y, negb (Ascii.eqb y c)) x = true) (Split c s).
Proof.
  induction s as [|x s IH]; simpl; [by repeat constructor|].
  destruct (Ascii.eqb x c) eqn:E; [by constructor|].
  destruct (Split c s) as [|h t]; [constructor; [simpl; by rewrite E|done]|].
  inversion IH; subst. constructor; [simpl; by rewrite E|done].
Qed.

Lemma Split_sep c (r : string) : Split c (String c r) = "" :: Split c r.
Proof. simpl. by rewrite Ascii.eqb_refl. Qed.

Lemma Split_ne c (s : string) : Split c s ≠ [].
Proof.
  destruct s as [|x s]; simpl; [done|]. destruct (Ascii.eqb x c); [done|]. by destruct (Split c s).
Qed.

Lemma Split_app_sep (a b : string) :
  Split slash (a +:+ "/" +:+ b) = (Split slash a ++ Split slash b)%list.
Proof.
  induction a as [|x a IH]; [apply Split_sep|]. rewrite sapp_cons. cbn [Split].
  destruct (Ascii.eqb x slash); [by rewrite IH|]. rewrite IH.
  pose proof (Split_ne slash a). by destruct (Split slash a).
Qed.

(** ** Cleaning *)

Lemma Split_name c : no_slash c = true → Split slash c = [c].
Proof.
  unfold no_slash. induction c as [|x c IH]; [done|]. cbn. rewrite andb_true_iff, negb_true_iff.
  intros [-> Hc]. by rewrite IH.
Qed.
Lemma push_names st c :
  no_slash c = true → Forall (λ x, is_name x = true) st →
  Forall (λ x, is_name x = true) (push_component true st c).
Proof.
  intros Hc Hst. unfold push_component.
  destruct (String.eqb c "" || String.eqb c ".") eqn:E1; [done|].
  apply orb_false_iff in E1 as [E1 E1'].
  destruct (String.eqb c "..") eqn:E2.
  - destruct Hst as [|t st' Ht Hst']; [constructor|].
    destruct (String.eqb t "..") eqn:Et; [|done].
    unfold is_name in Ht. rewrite Et in Ht. by rewrite andb_false_r in Ht.
  - constructor; [|done]. unfold is_name. by rewrite Hc, E1, E1', E2.
Qed.

Lemma push_name rooted st c : is_name c = true → push_component rooted st c = c :: st.
Proof.
  unfold is_name, push_component. intros H. destruct (no_slash c); [|done].
  destruct (String.eqb c ""), (String.eqb c "."), (String.eqb c ".."); done.
Qed.

Lemma foldl_push_names rooted cs st :
  Forall (λ x, is_name x = true) cs → foldl (push_component rooted) st cs = (reverse cs ++ st)%list.
Proof.
  intros H. revert st. induction H as [|c cs Hc Hcs IH]; intros st; simpl; [done|].
  rewrite push_name, IH by done. by rewrite reverse_cons, <- (assoc_L app).
Qed.

Lemma clean_rooted_names cs :
  Forall (λ x, no_slash x = true) cs → Forall (λ x, is_name x = true) (clean_components true cs).
Proof.
  intros H. unfold clean_components. apply Forall_reverse.
  assert (∀ st, Forall (λ x, is_name x = true) st →
    Forall (λ x, is_name x = true) (foldl (push_component true) st cs)) as G; [|by apply G].
  induction H as [|c cs Hc Hcs IH]; intros st Hst; simpl; [done|].
  apply IH, push_names; done.
Qed.

(** The text of an absolute path with the given components. *)
Definition abs_path (cs : list string) : string := "/" +:+ Join "/" cs.

(** A cleaned absolute path is a slash and names separated by slashes. *)
Lemma Clean_abs p :
  IsAbs p = true → ∃ cs, Forall (λ x, is_name x = true) cs ∧ Clean p = abs_path cs.
Proof.
  intros H. unfold Clean. rewrite H. eexists; split; [|done].
  apply clean_rooted_names, Split_all_no.
Qed.

Lemma is_name_no_slash c : is_name c = true → no_slash c = true.
Proof. unfold is_name. by destruct (no_slash c). Qed.

Lemma Split_abs_path cs :
  cs ≠ [] → Forall (λ x, is_name x = true) cs → Split slash (abs_path cs) = "" :: cs.
Proof.
  intros Hne H. unfold abs_path. change ("/" +:+ Join "/" cs) with (String slash (Join "/" cs)).
  rewrite Split_sep. f_equal. apply (Split_Join slash); [done|].
  eapply Forall_impl; [exact H|]. intros c. apply is_name_no_slash.
Qed.

Lemma IsAbs_abs_path cs : IsAbs (abs_path cs) = true.
Proof. apply HasPrefix_app. by eexists. Qed.

Lemma Clean_abs_path cs :
  Forall (λ x, is_name x = true) cs → Clean (abs_path cs) = abs_path cs.
Proof.
  intros H. destruct (decide (cs = [])) as [->|Hne]; [reflexivity|].
  unfold Clean. rewrite Split_abs_path by done.
  rewrite IsAbs_abs_path. unfold clean_components. cbn [foldl].
  change (push_component true [] "") with (@nil string).
  by rewrite foldl_push_names, app_nil_r, reverse_involutive.
Qed.

(** Cleaning twice is cleaning once. *)
Definition dots : string := "..".
Definition rel_form (cs : list string) : Prop :=
  ∃ n ns, cs = (replicate n dots ++ ns)%list ∧ Forall (λ x, is_name x = true) ns.

Lemma push_rel st c :
  no_slash c = true → rel_form (reverse st) → rel_form (reverse (push_component false st c)).
Proof.
  intros Hc (n & ns & Heq & Hns). unfold push_component.
  destruct (String.eqb c "" || String.eqb c ".") eqn:E1; [by exists n, ns|].
  apply orb_false_iff in E1 as [E1 E1'].
  destruct (String.eqb c "..") eqn:E2.
  - destruct st as [|t st].
    { exists 1%nat, []. done. }
    rewrite reverse_cons in Heq. destruct ns as [|x ns'] using rev_ind.
    + rewrite app_nil_r in Heq. destruct n as [|n]; [by destruct (reverse st)|].
      rewrite replicate_S_end in Heq. apply app_inj_tail in Heq as [Heq ->].
      simpl. exists (S (S n)), []. rewrite !reverse_cons, Heq, app_nil_r. 
      by rewrite <- !replicate_S_end.
    + rewrite (assoc_L app) in Heq. apply app_inj_tail in Heq as [Heq ->].
      apply Forall_app in Hns as [Hns Hx]. apply Forall_cons in Hx as [Hx _].
      destruct (String.eqb x "..") eqn:Ex.
      { unfold is_name in Hx. rewrite Ex in Hx. by rewrite andb_false_r in Hx. }
      by exists n, ns'.
  - exists n, (ns ++ [c])%list. rewrite reverse_cons, Heq, (assoc_L app). split; [done|].
    apply Forall_app; split; [done|]. apply Forall_singleton.
    unfold is_name. by rewrite Hc, E1, E1', E2.
Qed.

Lemma clean_rel_form cs :
  Forall (λ x, no_slash x = true) cs → rel_form (clean_components false cs).
Proof.
  intros H. unfold clean_components.
  assert (∀ st, rel_form (reverse st) → rel_form (reverse (foldl (push_component false) st cs)))
    as G; [|apply G; by exists 0%nat, []].
  induction H as [|c cs Hc Hcs IH]; intros st Hst; simpl; [done|].
  by apply IH, push_rel.
Qed.

Lemma foldl_push_dots n st k :
  st = replicate k dots → foldl (push_component false) st (replicate n dots) = replicate (n + k) dots.
Proof.
  revert st k. induction n as [|n IH]; intros st k ->; [done|].
  cbn [replicate foldl]. rewrite (IH _ (S k)); [by rewrite Nat.add_succ_r|]. by destruct k.
Qed.

Lemma clean_of_form cs : rel_form cs → clean_components false cs = cs.
Proof.
  intros (n & ns & -> & Hns). unfold clean_components.
  rewrite foldl_app, (foldl_push_dots n [] 0), foldl_push_names, Nat.add_0_r by done.
  by rewrite reverse_app, reverse_involutive, reverse_replicate.
Qed.

Lemma rel_form_no_slash cs : rel_form cs → Forall (λ x, no_slash x = true) cs.
Proof.
  intros (n & ns & -> & Hns). apply Forall_app. split.
  - by apply Forall_replicate.
  - eapply Forall_impl; [exact Hns|]. intros c. apply is_name_no_slash.
Qed.

Lemma rel_form_head c cs : rel_form (c :: cs) → c ≠ "".
Proof.
  intros (n & ns & Heq & Hns) ->. destruct n as [|n]; [|done]. simpl in Heq. subst ns.
  by inversion Hns.
Qed.

Lemma Join_cons2 c d cs : Join "/" (c :: d :: cs) = c +:+ "/" +:+ Join "/" (d :: cs).
Proof. done. Qed.

Lemma Join_rel_not_abs c cs : rel_form (c :: cs) → IsAbs (Join "/" (c :: cs)) = false.
Proof.
  intros H. pose proof (rel_form_head _ _ H) as Hne.
  apply rel_form_no_slash in H. inversion H as [|?? Hc _]; subst.
  destruct c as [|x c]; [done|]. unfold no_slash in Hc. simpl in Hc.
  apply andb_true_iff in Hc as [Hx _].
  assert (∃ r, Join "/" (String x c :: cs) = String x r) as [r ->].
  { destruct cs as [|d cs]; [by eexists|]. rewrite Join_cons2, sapp_cons. by eexists. }
  unfold IsAbs, HasPrefix. rewrite prefix_cons. destruct (ascii_dec slash x) as [<-|]; done.
Qed.

Lemma Clean_idem p : Clean (Clean p) = Clean p.
Proof.
  destruct (IsAbs p) eqn:Habs.
  - destruct (Clean_abs p Habs) as (cs & Hcs & ->). by apply Clean_abs_path.
  - unfold Clean at 2 3. rewrite Habs.
    pose proof (clean_rel_form _ (Split_all_no slash p)) as Hf.
    destruct (clean_components false (Split slash p)) as [|c cs] eqn:E; [reflexivity|].
    unfold Clean. rewrite Join_rel_not_abs by done.
    rewrite (Split_Join slash) by (done || by apply rel_form_no_slash).
    by rewrite clean_of_form.
Qed.

(** ** Prefixes of paths *)

Definition slashed (cs : list string) : string := foldr (λ c r, "/" +:+ c +:+ r) "" cs.

Lemma Join_slashed c cs : Join "/" (c :: cs) = c +:+ slashed cs.
Proof.
  revert c. induction cs as [|d cs IH]; intros c; [by rewrite sapp_nil_r|].
  rewrite Join_cons2, IH. done.
Qed.

(** A text without slash at the front of [x / ...]. *)
Lemma no_slash_prefix u r x t :
  no_slash u = true → no_slash x = true → u +:+ r = x +:+ t → (t = "" ∨ HasPrefix t "/" = true) →
  ∃ v, x = u +:+ v ∧ r = v +:+ t.
Proof.
  revert x. induction u as [|a u IH]; intros x Hu Hx Heq Ht; [by exists x|].
  destruct x as [|b x].
  - destruct Ht as [->|Ht]; [done|]. apply HasPrefix_app in Ht as [t' ->].
    unfold no_slash in Hu. simpl in Hu. rewrite !sapp_cons in Heq.
    injection Heq as -> _. done.
  - rewrite !sapp_cons in Heq. injection Heq as -> Heq.
    unfold no_slash in Hu, Hx. simpl in Hu, Hx.
    apply andb_true_iff in Hu as [_ Hu]. apply andb_true_iff in Hx as [_ Hx].
    destruct (IH x Hu Hx Heq Ht) as (v & -> & ->). by exists v.
Qed.

Lemma slashed_app a b : slashed (a ++ b)%list = slashed a +:+ slashed b.
Proof. induction a as [|c a IH]; [done|]. simpl. by rewrite IH, !sapp_assoc. Qed.

Lemma abs_path_slashed cs : cs ≠ [] → abs_path cs = slashed cs.
Proof. destruct cs as [|c cs]; [done|]. intros _. unfold abs_path. by rewrite Join_slashed. Qed.

Lemma slashed_head cs : slashed cs = "" ∨ HasPrefix (slashed cs) "/" = true.
Proof. destruct cs as [|c cs]; [by left|right]. apply HasPrefix_app. by eexists. Qed.

Lemma sapp_inj_l (p a b : string) : p +:+ a = p +:+ b → a = b.
Proof.
  induction p as [|x p IH]; [done|]. rewrite !sapp_cons. intros H. injection H as H. by apply IH.
Qed.

Lemma no_slash_app a b : no_slash (a +:+ b) = no_slash a && no_slash b.
Proof.
  unfold no_slash. induction a as [|x a IH]; [done|]. rewrite sapp_cons. simpl.
  by rewrite IH, andb_assoc.
Qed.

(** When the text of one path begins with the text of another, the components
    agree up to the last one, which may be longer. *)
Lemma slashed_prefix hs u cs r :
  Forall (λ x, no_slash x = true) (hs ++ [u])%list → Forall (λ x, no_slash x = true) cs →
  slashed (hs ++ [u])%list +:+ r = slashed cs →
  ∃ suf rest, cs = (hs ++ (u +:+ suf) :: rest)%list ∧ r = suf +:+ slashed rest.
Proof.
  revert cs. induction hs as [|h hs IH]; intros cs Hh Hcs Heq.
  - destruct cs as [|x t]; [done|]. simpl in Heq.
    rewrite !sapp_assoc in Heq. apply sapp_inj_l in Heq. rewrite <- sapp_assoc, sapp_nil_r in Heq.
    apply Forall_cons in Hh as [Hu _]. apply Forall_cons in Hcs as [Hx _].
    destruct (no_slash_prefix _ _ _ _ Hu Hx Heq (slashed_head t)) as (v & -> & ->).
    by exists v, t.
  - destruct cs as [|x t]; [done|]. simpl in Heq, Hh.
    rewrite !sapp_assoc in Heq. apply sapp_inj_l in Heq.
    apply Forall_cons in Hh as [Hu Hh]. apply Forall_cons in Hcs as [Hx Hcs].
    destruct (no_slash_prefix _ _ _ _ Hu Hx Heq (slashed_head t)) as (v & -> & Hv).
    rewrite no_slash_app in Hx. apply andb_true_iff in Hx as [_ Hv'].
    destruct v as [|y v].
    + destruct (IH t Hh Hcs Hv) as (suf & rest & -> & ->). exists suf, rest. by rewrite sapp_nil_r.
    + destruct hs; simpl in Hv; rewrite !sapp_cons in Hv; injection Hv as <- _; done.
Qed.

(** Paths whose text begins with the text of [home]: [home] itself extended
    by a suffix of its last component, then names below it. *)
Definition extends_home (home q : string) : Prop :=
  ∃ suf rest, no_slash suf = true ∧ Forall (λ x, is_name x = true) rest ∧
    q = home +:+ suf +:+ slashed rest.

Lemma abs_prefix_extends home q :
  (∃ hs, hs ≠ [] ∧ Forall (λ x, is_name x = true) hs ∧ home = abs_path hs) →
  (∃ cs, Forall (λ x, is_name x = true) cs ∧ q = abs_path cs) →
  HasPrefix q home = true → extends_home home q.
Proof.
  intros (hs & Hne & Hh & ->) (cs & Hcs & ->) [r Hr]%HasPrefix_app.
  destruct hs as [|u hs _] using rev_ind; [done|].
  rewrite (abs_path_slashed (hs ++ [u])%list) in * by done.
  assert (cs ≠ []) as Hne'.
  { intros ->. destruct hs as [|h hs]; simpl in Hr;
      apply (sapp_inj_l "/" "") in Hr.
    - apply Forall_cons in Hh as [Hu _]. rewrite sapp_nil_r in Hr. by destruct u.
    - apply Forall_cons in Hh as [Hu _]. by destruct h. }
  rewrite abs_path_slashed in Hr |- * by done.
  assert (∀ l, Forall (λ x, is_name x = true) l → Forall (λ x, no_slash x = true) l) as Hn.
  { intros l Hl. eapply Forall_impl; [exact Hl|]. intros c. apply is_name_no_slash. }
  destruct (slashed_prefix hs u cs r (Hn _ Hh) (Hn _ Hcs) (eq_sym Hr)) as (suf & rest & -> & ->).
  apply Forall_app in Hcs as [_ Hcs]. apply Forall_cons in Hcs as [Hu Hrest].
  exists suf, rest. split; [|split; [done|]].
  - apply is_name_no_slash in Hu. rewrite no_slash_app in Hu. by apply andb_true_iff in Hu as [_ ?].
  - exact Hr.
Qed.

(** ** Joining a clean path and a last component *)

Lemma clean_onto cs (p : string) :
  cs ≠ [] → Forall (λ x, is_name x = true) cs →
  path_Join (abs_path cs) p = abs_path (reverse (foldl (push_component true) (reverse cs) (Split slash p))).
Proof.
  intros Hne Hcs. unfold path_Join.
  destruct (String.eqb_spec (abs_path cs) "") as [E|_]; [discriminate E|].
  assert (IsAbs (abs_path cs +:+ "/" +:+ p) = true) as Ha.
  { apply HasPrefix_app. unfold abs_path. rewrite sapp_assoc. by eexists. }
  unfold Clean. rewrite Ha, Split_app_sep, Split_abs_path by done. unfold clean_components, abs_path.
  do 2 f_equal. f_equal. rewrite foldl_app. f_equal. cbn [foldl].
  change (push_component true [] "") with (@nil string). by rewrite foldl_push_names, app_nil_r.
Qed.

Lemma path_Join_cases cs c n :
  Forall (λ x, is_name x = true) (cs ++ [c])%list → no_slash n = true ∨ n = "/" →
  path_Join (abs_path (cs ++ [c])) n = abs_path (cs ++ [c]) ∨
  is_name n = true ∧ path_Join (abs_path (cs ++ [c])) n = abs_path (cs ++ [c; n]) ∨
  n = ".." ∧ path_Join (abs_path (cs ++ [c])) n = abs_path cs.
Proof.
  intros Hcs Hn. rewrite clean_onto by (done || by destruct cs). destruct Hn as [Hn| ->].
  2:{ left. change (Split slash "/") with [""; ""]. cbn [foldl].
      assert (∀ st, push_component true st "" = st) as Hp by done. by rewrite !Hp, reverse_involutive. }
  rewrite Split_name by done. cbn [foldl]. rewrite reverse_snoc. unfold push_component.
  destruct (String.eqb_spec n "") as [->|H1]; [left; cbn [orb]; by rewrite ?orb_true_r, reverse_cons, reverse_involutive|].
  destruct (String.eqb_spec n ".") as [->|H2]; [left; cbn [orb]; by rewrite ?orb_true_r, reverse_cons, reverse_involutive|].
  cbn [orb]. destruct (String.eqb_spec n "..") as [->|H3].
  - right. right. split; [done|]. apply Forall_app in Hcs as [_ Hc]. apply Forall_cons in Hc as [Hc _].
    destruct (String.eqb_spec c "..") as [->|]; [done|]. by rewrite reverse_involutive.
  - right. left. split.
    + unfold is_name. rewrite Hn. apply String.eqb_neq in H1, H2, H3. by rewrite H1, H2, H3.
    + rewrite !reverse_cons, reverse_involutive, <- app_assoc. done.
Qed.

Lemma is_name_app u suf : is_name u = true → no_slash suf = true → is_name (u +:+ suf) = true.
Proof.
  unfold is_name. rewrite !andb_true_iff, !negb_true_iff, !String.eqb_neq, no_slash_app.
  intros [[[H1 H2] H3] H4] H5. rewrite H1, H5. split_and!; [done| | |];
    destruct u as [|a [|b [|c u]]]; rewrite ?sapp_cons; try done; intros E; injection E; intros; subst; try done;
    destruct suf; done.
Qed.

(** What [extends_home] is in terms of components. *)
Lemma extends_names hs u q :
  Forall (λ x, is_name x = true) (hs ++ [u])%list →
  extends_home (abs_path (hs ++ [u])%list) q ↔
  ∃ suf rest, no_slash suf = true ∧ Forall (λ x, is_name x = true) rest ∧
    q = abs_path (hs ++ (u +:+ suf) :: rest)%list.
Proof.
  intros Hh. unfold extends_home. split; intros (suf & rest & H1 & H2 & ->); exists suf, rest; (split; [done|]); (split; [done|]);
    rewrite !abs_path_slashed by (by destruct hs); rewrite !slashed_app; cbn; by rewrite ?sapp_nil_r, ?sapp_assoc.
Qed.

(** A path that extends [home], joined with a component, extends it too, but for
    "..", which may lead to the directory [home] is in. *)
Lemma join_extends home t n :
  (∃ hs, hs ≠ [] ∧ Forall (λ x, is_name x = true) hs ∧ home = abs_path hs) →
  extends_home home t → no_slash n = true ∨ n = "/" →
  extends_home home (path_Join t n) ∨ n = ".." ∧ path_Join t n = path_Join home "..".
Proof.
  intros (hs & Hne & Hh & ->) Ht Hn. destruct hs as [|u hs _] using rev_ind; [done|].
  apply extends_names in Ht as (suf & rest & Hs & Hr & ->); [|done].
  apply Forall_app in Hh as Hh'. destruct Hh' as [Hhs Hu]. apply Forall_cons in Hu as [Hu _].
  pose proof (is_name_app u suf Hu Hs) as Hus.
  assert (path_Join (abs_path (hs ++ [u])) ".." = abs_path hs) as Hup.
  { rewrite clean_onto by (done || by destruct hs). change (Split slash "..") with [".."].
    cbn [foldl]. rewrite reverse_snoc. unfold push_component.
    change ((".." =? "")%string || (".." =? ".")%string) with false. change (".." =? "..")%string with true.
    destruct (String.eqb_spec u "..") as [->|]; [done|]. by rewrite reverse_involutive. }
  destruct rest as [|c rest _] using rev_ind.
  - destruct (path_Join_cases hs (u +:+ suf) n) as [E|[[Hnn E]|[-> E]]]; [|done|..].
    + apply Forall_app. split; [done|]. by constructor.
    + left. rewrite E. apply extends_names; [done|]. by exists suf, [].
    + left. rewrite E. apply extends_names; [done|]. exists suf, [n]. split; [done|]. split; [by constructor|done].
    + right. split; [done|]. by rewrite E, Hup.
  - left. replace (hs ++ (u +:+ suf) :: rest ++ [c])%list with ((hs ++ (u +:+ suf) :: rest) ++ [c])%list
      by (by rewrite <- app_assoc).
    apply Forall_app in Hr as [Hr Hc].
    assert (Forall (λ x, is_name x = true) ((hs ++ (u +:+ suf) :: rest) ++ [c])%list) as Hall.
    { apply Forall_app. split; [|done]. apply Forall_app. split; [done|]. by constructor. }
    destruct (path_Join_cases _ c n Hall Hn) as [->|[[Hnn ->]|[_ ->]]]; apply extends_names; try done.
    + exists suf, (rest ++ [c])%list. split; [done|]. split; [by apply Forall_app|]. by rewrite <- app_assoc.
    + exists suf, (rest ++ [c; n])%list. split; [done|]. apply Forall_cons in Hc as [Hc _].
      split; [apply Forall_app; split; [done|by repeat constructor]|]. by rewrite <- app_assoc.
    + by exists suf, rest.
Qed.

(** The name of an archive without its extension has no slash; for the root it
    is the slash. *)
Lemma substring_chars P n (s : string) : all_chars P s = true → all_chars P (String.substring 0 n s) = true.
Proof.
  revert n. induction s as [|c s IH]; intros [|n] Hs; try done. cbn in *.
  apply andb_true_iff in Hs as [-> Hs]. by apply IH.
Qed.
Lemma TrimSuffix_no_slash (s suf : string) : no_slash s = true → no_slash (TrimSuffix s suf) = true.
Proof. intros Hs. unfold TrimSuffix. case_match; [by apply substring_chars|done]. Qed.
Lemma last_element_no_slash (p : string) : no_slash (last_element p) = true.
Proof.
  unfold last_element. destruct (last (Split slash p)) as [x|] eqn:E; [|done]. cbn.
  apply last_Some in E as [l E]. pose proof (Split_all_no slash p) as HF. rewrite E in HF.
  apply Forall_app in HF as [_ HF]. by apply Forall_cons in HF as [HF _].
Qed.
Lemma Base_no_slash (p : string) : no_slash (Base p) = true ∨ Base p = "/".
Proof.
  unfold Base. destruct (String.eqb p ""); [by left|]. cbv zeta.
  destruct (String.eqb (last_element _) ""); [by right|]. left. apply last_element_no_slash.
Qed.
