(* ===== verification/Shell.v ===== *)
(** * Words of a shell command

    The file service quotes paths into the commands it sends.  [sh_words] is
    what a POSIX shell makes of a command line that is one simple command:
    the words after quote removal.  It is the reference the quoting is proved
    against; a command that contains an unquoted operator, expansion or glob
    has no words here. *)

From Stdlib Require Import Ascii.
From S2P Require Import Prelude GoStrings GoPath.

Open Scope Z_scope.

Notation squote := ("'"%char) (only parsing).
Notation backslash := ("\"%char) (only parsing).

Inductive lex_mode : Type := Plain | Quoted | Escaped.

Definition special_chars : list ascii :=
  String.list_ascii_of_string "|&;<>()$`*?[#~=%!{}" ++ [ascii_of_nat 34; newline].
Definition is_special (c : ascii) : bool := existsb (Ascii.eqb c) special_chars.
Definition is_blank (c : ascii) : bool := Ascii.eqb c space || Ascii.eqb c (ascii_of_nat 9).

Definition snoc (cur : option string) (c : ascii) : option string :=
  Some (default EmptyString cur +:+ String c EmptyString).
Definition flush (cur : option string) (ws : list string) : list string :=
  match cur with Some w => w :: ws | None => ws end.

(** [cur]: the word that is being read. *)
Fixpoint sh_lex (m : lex_mode) (cur : option string) (s : string) : option (list string) :=
  match s with
  | EmptyString => match m with Plain => Some (flush cur []) | _ => None end
  | String c r =>
      match m with
      | Quoted =>
          if Ascii.eqb c squote then sh_lex Plain cur r else sh_lex Quoted (snoc cur c) r
      | Escaped =>
          if Ascii.eqb c newline then sh_lex Plain cur r else sh_lex Plain (snoc cur c) r
      | Plain =>
          if Ascii.eqb c squote then sh_lex Quoted (Some (default EmptyString cur)) r
          else if Ascii.eqb c backslash then sh_lex Escaped cur r
          else if is_blank c then flush cur <$> sh_lex Plain None r
          else if is_special c then None
          else sh_lex Plain (snoc cur c) r
      end
  end.
Definition sh_words (cmd : string) : option (list string) := sh_lex Plain None cmd.

(** The quoting of the file service. *)
Definition shell_quote (p : string) : string :=
  "'" +:+ ReplaceAll p squote "'\''" +:+ "'".

Example words_ex : sh_words "rm -rf 'a'\''b c' x" = Some ["rm"; "-rf"; "a'b c"; "x"]%string.
Proof. reflexivity. Qed.
Example words_injection : sh_words "rm -rf a;reboot" = None.
Proof. reflexivity. Qed.

Lemma lex_quoted p cur rest :
  sh_lex Quoted (Some cur) (ReplaceAll p squote "'\''" +:+ "'" +:+ rest) =
  sh_lex Plain (Some (cur +:+ p)) rest.
Proof.
  revert cur. induction p as [|c p IH]; intros cur; [by rewrite sapp_nil_r|].
  cbn [ReplaceAll]. rewrite !sapp_assoc.
  destruct (Ascii.eqb c squote) eqn:E.
  - apply Ascii.eqb_eq in E as ->.
    change (sh_lex Quoted (Some (default EmptyString (snoc (Some cur) squote)))
              (ReplaceAll p squote "'\''" +:+ "'" +:+ rest) =
            sh_lex Plain (Some (cur +:+ String squote p)) rest).
    cbn [snoc default]. rewrite IH. cbn. by rewrite sapp_assoc.
  - rewrite sapp_cons. cbn [sh_lex]. rewrite E. unfold snoc. cbn [default].
    change ("" +:+ ?x) with x. rewrite IH. by rewrite sapp_assoc.
Qed.

(** A quoted path is read back as it was, whatever bytes it has. *)
Lemma lex_shell_quote p cur rest :
  sh_lex Plain cur (shell_quote p +:+ rest) = sh_lex Plain (Some (default EmptyString cur +:+ p)) rest.
Proof.
  unfold shell_quote. rewrite !sapp_assoc.
  change (sh_lex Quoted (Some (default EmptyString cur)) (ReplaceAll p squote "'\''" +:+ "'" +:+ rest) =
          sh_lex Plain (Some (default EmptyString cur +:+ p)) rest).
  apply lex_quoted.
Qed.
