(* ===== verification/FileService.v ===== *)
(** * The file service (internal/service/files_service.go)

    Listing, uploading, downloading, deleting and unpacking files of the
    server for a user, over the user's own SSH session or over the root
    session.  The SSH and SFTP connections, the local disk, the clock and the
    JSON codec are not under src/: they are the operations of the class
    [FileHost] and the codecs. *)

From S2P Require Import Prelude GoStrings Float64 Errors Entity SessionRepo Exec GoPath Shell.

Open Scope Z_scope.

(** ** Data *)

(** What [os.FileInfo] tells of an entry; [Sys] is nil, an [*sftp.FileStat]
    with the owner, or something else. *)
Inductive sys_info : Type := SysNil | SysOther | SysStat (uid : Z).
Record file_info : Type := mkInfo {
  fi_Name : string; fi_Size : Z; fi_ModTime : Z; fi_IsDir : bool; fi_Sys : sys_info
}.

(** [*ssh.UserSession] as the service sees it. *)
Record file_session (C : Type) : Type := mkFileSession {
  fs_Username : string; fs_Client : option C
}.
Arguments mkFileSession {C}.
Arguments fs_Username {C}.
Arguments fs_Client {C}.

Module FileListRequest.
Record FileListRequest : Type := mkFileListRequest {
  Path : string; Keyword : string; Page : Z; PageSize : Z
}.
End FileListRequest.
Notation FileListRequest := FileListRequest.FileListRequest.

Module DirectoryItem.
Record DirectoryItem : Type := mkDirectoryItem {
  Name : string; UpdatedAt : Z; Path : string; Username : string
}.
End DirectoryItem.
Notation DirectoryItem := DirectoryItem.DirectoryItem.

(** [IsDir] is never set. *)
Module FileItem.
Record FileItem : Type := mkFileItem {
  Filename : string; FileSize : Z; UpdatedAt : Z; Path : string; Username : string; IsDir : bool
}.
End FileItem.
Notation FileItem := FileItem.FileItem.

Module BreadcrumbItem.
Record BreadcrumbItem : Type := mkBreadcrumbItem { Name : string; Path : string }.
End BreadcrumbItem.
Notation BreadcrumbItem := BreadcrumbItem.BreadcrumbItem.

Module FilesListData.
Record FilesListData : Type := mkFilesListData {
  Breadcrumb : list BreadcrumbItem; Path : string; FileList : list FileItem;
  DirectoryList : list DirectoryItem; Total : Z; Page : Z; Pages : Z; PageSize : Z
}.
End FilesListData.
Notation FilesListData := FilesListData.FilesListData.

(** What is cached of a directory. *)
Record list_cache : Type := mkListCache {
  lc_RealPath : string; lc_Dirs : list DirectoryItem; lc_Files : list FileItem
}.

Module UploadProgressData.
Record UploadProgressData : Type := mkUploadProgressData {
  Filename : string; Status : string; Progress : float64; Uploaded : Z; Total : Z;
  Speed : string; Remaining : string; Error : string
}.
End UploadProgressData.
Notation UploadProgressData := UploadProgressData.UploadProgressData.

(** ** The interface *)

(** [C] are clients with their SFTP connection, [F] open remote files.
    [fh_Copy f tmp] is [io.CopyBuffer] from the local file [tmp] to [f]: the
    outcomes of the reads it made (a count and whether the end was reached)
    and its result. *)
Class FileHost (S C F : Type) := {
  fh_now : M S Z;
  fh_GetSession : Z → bool → M S (result (file_session C));
  fh_EnsureSSHSessionByType : Z → bool → M S (result unit);
  fh_HasSystemAccess : Z → M S (result bool);
  fh_ExecuteCommand : C → string → M S (result string);
  fh_ExecuteCommandWithStatus : C → string → M S (string * Z * option error);
  fh_has_sftp : C → bool;
  fh_Stat : C → string → M S (result file_info);
  fh_StatVFS : C → string → M S (result (Z * Z));
  fh_MkdirAll : C → string → M S (result unit);
  fh_RealPath : C → string → M S (result string);
  fh_ReadDir : C → string → M S (result (list file_info));
  fh_Open : C → string → M S (result F);
  fh_FStat : F → M S (result file_info);
  fh_Create : C → string → M S (result F);
  fh_Close : F → M S (result unit);
  fh_Remove : C → string → M S (result unit);
  fh_Copy : F → string → M S (list (Z * bool) * result unit);
  fh_IsNotExist : error → bool;
  lf_MkdirAll : string → M S (result unit);
  lf_CreateTemp : string → string → M S (result string);
  lf_CopyTo : string → M S (result unit);
  lf_Open : string → M S (result unit);
  lf_Remove : string → M S (result unit)
}.

(** ** State *)

(** An upload that runs in the background. *)
Record upload_task : Type := mkUploadTask {
  ut_UserID : Z; ut_TempFilePath : string; ut_OriginalFilename : string;
  ut_TargetPath : string; ut_IsRootMode : bool; ut_TotalSize : Z
}.

(** The connections and the local disk, Redis, the two [sync.Map]s of the
    service, and a record of what happened: the commands sent with the user
    and the mode of the session, the temporary files that exist, the uploads
    that were started and have not run, and the files whose removal failed. *)
Record fworld (S K : Type) : Type := mkFworld {
  fw_host : S;
  fw_kv : K;
  homeDirCache : gset Z;
  sessionCheckCache : gmap Z Z;
  fw_sent : list (Z * bool * string);
  fw_temps : gset string;
  fw_tasks : list upload_task;
  fw_stuck : gset string
}.
Arguments mkFworld {S K}.
Arguments fw_host {S K}.
Arguments fw_kv {S K}.
Arguments homeDirCache {S K}.
Arguments sessionCheckCache {S K}.
Arguments fw_sent {S K}.
Arguments fw_temps {S K}.
Arguments fw_tasks {S K}.
Arguments fw_stuck {S K}.

(** The owner map as it is cached: "uid:name" joined with commas. *)
Definition uid_pair (p : Z * string) : string := Itoa p.1 +:+ ":" +:+ p.2.
Definition read_uid_pair (pair : string) : option (Z * string) :=
  match Split colon pair with
  | [k; v] => match ParseUint32 k with Ok uid => Some (uid, v) | Err _ => None end
  | _ => None
  end.
Definition uid_map_of (pairs : list (Z * string)) : gmap Z string :=
  foldl (λ m p, <[p.1 := p.2]> m) ∅ pairs.
Definition read_uid_cache (cachedMap : string) : list (Z * string) :=
  omap read_uid_pair (Split comma cachedMap).

(** A line of the password database. *)
Definition passwd_line (line : string) : option (Z * string) :=
  match Split colon line with
  | username :: _ :: uidStr :: _ =>
      match ParseUint32 uidStr with Ok uid => Some (uid, username) | Err _ => None end
  | _ => None
  end.
Definition parse_passwd (out : string) : list (Z * string) := omap passwd_line (Split newline out).

Definition owner_of (absent : string) (uidToName : gmap Z string) (e : file_info) : string :=
  match fi_Sys e with
  | SysStat uid => default absent (uidToName !! uid)
  | SysOther | SysNil => "unknown"
  end.

Definition dir_item (realPath owner : string) (e : file_info) : DirectoryItem :=
  DirectoryItem.mkDirectoryItem (fi_Name e) (fi_ModTime e) (path_Join realPath (fi_Name e)) owner.
Definition file_item (realPath owner : string) (e : file_info) : FileItem :=
  FileItem.mkFileItem (fi_Name e) (fi_Size e) (fi_ModTime e) (path_Join realPath (fi_Name e)) owner
    false.

(** The loop over the entries, then [sort.Slice] by name: names of a
    directory are distinct, so every sort gives this order. *)
Definition list_dirs (realPath : string) (uids : gmap Z string) (entries : list file_info)
  : list DirectoryItem :=
  merge_sort (λ a b, String.le (DirectoryItem.Name a) (DirectoryItem.Name b))
    ((λ e, dir_item realPath (owner_of (fi_Name e) uids e) e) <$> List.filter fi_IsDir entries).
Definition list_files (realPath : string) (uids : gmap Z string) (entries : list file_info)
  : list FileItem :=
  merge_sort (λ a b, String.le (FileItem.Filename a) (FileItem.Filename b))
    ((λ e, file_item realPath (owner_of (fi_Name e) uids e) e) <$>
      List.filter (λ e, negb (fi_IsDir e)) entries).

(** The keyword filter. *)
Definition keyword_dirs (kw : string) (l : list DirectoryItem) : list DirectoryItem :=
  if String.eqb kw "" then l else List.filter (λ d, Contains (DirectoryItem.Name d) kw) l.
Definition keyword_files (kw : string) (l : list FileItem) : list FileItem :=
  if String.eqb kw "" then l else List.filter (λ f, Contains (FileItem.Filename f) kw) l.

(** One of the two loops of the pagination: the items selected, the index
    and the count after it. *)
Fixpoint page_loop {A : Type} (start size : Z) (l : list A) (idx count : Z) : list A * (Z * Z) :=
  match l with
  | [] => ([], (idx, count))
  | x :: l' =>
      if (start <=? idx) && (count <? size) then
        let '(sel, r) := page_loop start size l' (idx + 1) (count + 1) in (x :: sel, r)
      else page_loop start size l' (idx + 1) count
  end.
(** The requested page of the directories followed by the files. *)
Definition paginate {A B : Type} (page size : Z) (dirs : list A) (files : list B)
  : list A * list B :=
  let total := Z.of_nat (length dirs) + Z.of_nat (length files) in
  let start := wrap64 ((page - 1) * size) in
  if start <? total then
    let '(d, (idx, count)) := page_loop start size dirs 0 0 in
    let '(f, _) := page_loop start size files idx count in
    (d, f)
  else ([], []).
Definition page_count (total size : Z) : Z :=
  Z.quot total size + (if Z.rem total size =? 0 then 0 else 1).

(** [buildBreadcrumb]: the loop over the components. *)
Fixpoint breadcrumb_loop (currentPath : string) (parts : list string) : list BreadcrumbItem :=
  match parts with
  | [] => []
  | part :: rest =>
      if String.eqb part "" then
        breadcrumb_loop (if String.eqb currentPath "" then "/" else currentPath) rest
      else
        let cur := if String.eqb currentPath "/" then currentPath +:+ part
                   else currentPath +:+ "/" +:+ part in
        BreadcrumbItem.mkBreadcrumbItem part cur :: breadcrumb_loop cur rest
  end.
Definition buildBreadcrumb (p : string) : list BreadcrumbItem :=
  (if HasPrefix p "/" then [BreadcrumbItem.mkBreadcrumbItem "/" "/"] else []) ++
  breadcrumb_loop "" (Split slash p).

Definition second : Z := 1000000000.
Definition bool_text (b : bool) : string := if b then "true" else "false".
Definition list_key (userID : Z) (isRootMode : bool) (p : string) : string :=
  "file:list:" +:+ Itoa userID +:+ ":" +:+ bool_text isRootMode +:+ ":" +:+ p.

(** The decision of [resolvePath] in user mode, for a trimmed path. *)
Definition resolve_in_home (homeDir p : string) : result string :=
  if String.eqb p "" || String.eqb p "." then Ok homeDir
  else
    let cleanPath := Clean p in
    if IsAbs cleanPath then
      if HasPrefix cleanPath homeDir then Ok cleanPath
      else if String.eqb cleanPath "/" then Ok homeDir
      else Err (New CodeForbidden "访问被拒绝：只能访问用户主目录下的文件")
    else
      let finalPath := path_Join homeDir cleanPath in
      if negb (HasPrefix finalPath homeDir) then Err (New CodeForbidden "越权访问被拒绝")
      else Ok finalPath.

(** ** Texts of errors and numbers *)

Section Text.
(** The text of an error that comes from a library. *)
Variable lib_text : error → string.
(** [Error()]. *)
Fixpoint err_Error (e : error) : string :=
  match e with
  | ErrMsg m => m
  | ErrWrap m e' => m +:+ ": " +:+ err_Error e'
  | ErrBiz code m (Some e') => "[" +:+ Itoa code +:+ "] " +:+ m +:+ ": " +:+ err_Error e'
  | ErrBiz code m None => "[" +:+ Itoa code +:+ "] " +:+ m
  | _ => lib_text e
  end.
End Text.

(** [x / y] and [x * n] on finite floats, [y] positive. *)
Definition f_div (x y : float64) : float64 :=
  if x <? 0 then - round_quot (- x * f_one) y else round_quot (x * f_one) y.
Definition f_mul_int (x : float64) (n : Z) : float64 := round64 (x * n).

(** [fmt.Sprintf("%.*f", prec, x)]: the exact value rounded to [prec] digits. *)
Definition pad_zeros (n : nat) (s : string) : string :=
  concat_strings (replicate (n - String.length s) "0"%string) +:+ s.
Definition fixed_digits (prec : nat) (n : Z) : string :=
  let d := 10 ^ Z.of_nat prec in
  Itoa (n / d) +:+ "." +:+ pad_zeros prec (Itoa (n mod d)).
Definition format_fixed (prec : nat) (x : float64) : string :=
  let n := rne_div (Z.abs x * 10 ^ Z.of_nat prec) f_one in
  (if x <? 0 then "-"%string else ""%string) +:+ fixed_digits prec n.

Definition formatUploadSpeed (bytesPerSec : float64) : string :=
  if bytesPerSec <? f_of_int 1024 then format_fixed 1 bytesPerSec +:+ " B/s"
  else if bytesPerSec <? f_of_int (1024 * 1024) then
    format_fixed 1 (f_div_const bytesPerSec 1024) +:+ " KB/s"
  else format_fixed 1 (f_div_const (f_div_const bytesPerSec 1024) 1024) +:+ " MB/s".

(** [d.Round(time.Second)]: halves away from zero; a result outside
    [int64] is replaced by the limit. *)
Definition round_second (d : Z) : Z :=
  let r := Z.rem d second in
  if d <? 0 then
    (if - r + - r <? second then d - r else Z.max min_int64 (d - r - second))
  else if r + r <? second then d - r else Z.min max_int64 (d + second - r).
(** [%02d]: the sign counts as a digit. *)
Definition two_digits (z : Z) : string :=
  if z <? 0 then "-" +:+ pad_zeros 1 (Itoa (- z)) else pad_zeros 2 (Itoa z).
Definition formatUploadDuration (d0 : Z) : string :=
  let d := round_second d0 in
  let h := Z.quot d (3600 * second) in
  let d := d - h * (3600 * second) in
  let m := Z.quot d (60 * second) in
  let d := d - m * (60 * second) in
  let s := Z.quot d second in
  if 0 <? h then two_digits h +:+ ":" +:+ two_digits m +:+ ":" +:+ two_digits s
  else two_digits m +:+ ":" +:+ two_digits s.

Definition size_units : list string := ["B"; "KB"; "MB"; "GB"; "TB"; "PB"; "EB"]%string.
(** The loop of [formatFileSize]; at most six steps. *)
Fixpoint unit_loop (n : nat) (humanfmt : float64) (i : nat) : float64 * nat :=
  match n with
  | O => (humanfmt, i)
  | Datatypes.S k =>
      if f_of_int 1024 <=? humanfmt then unit_loop k (f_div_const humanfmt 1024) (i + 1)
      else (humanfmt, i)
  end.
Definition formatFileSize (s : Z) : string :=
  if s =? 0 then "0 B"
  else
    let '(humanfmt, i) := unit_loop (length size_units - 1) (f_of_int s) 0 in
    format_fixed 2 humanfmt +:+ " " +:+ default ""%string (size_units !! i).

Example size_ex : (formatFileSize 1536, formatFileSize 1048575, formatFileSize (-5))
  = ("1.50 KB", "1024.00 KB", "-5.00 B")%string.
Proof. vm_compute. reflexivity. Qed.
Example duration_ex : (formatUploadDuration (3725 * second), formatUploadDuration (59500000000))
  = ("01:02:05", "01:00")%string.
Proof. vm_compute. reflexivity. Qed.
Example speed_ex : (formatUploadSpeed (f_of_int 512), formatUploadSpeed (f_of_int 1572864))
  = ("512.0 B/s", "1.5 MB/s")%string.
Proof. vm_compute. reflexivity. Qed.

(** ** Upload progress *)

(** [ProgressReader]; [startTime] is [None] while it is the zero time. *)
Record ProgressReader : Type := mkProgressReader {
  pr_Total : Z; pr_Uploaded : Z; pr_lastReport : Z; pr_startTime : option Z
}.

(** The texts of a report after [duration] nanoseconds.  [conv] is what the
    conversion to [time.Duration] gives for a quotient that is infinite, not a
    number or out of range, which Go leaves to the implementation. *)
Definition seconds_of (d : Z) : float64 :=
  f_add (f_of_int (Z.quot d second)) (f_div_const (f_of_int (Z.rem d second)) second).
Definition to_duration (conv : Z) (x : option float64) : Z :=
  match x with
  | Some x => if in_int64 (f_to_int x) then f_to_int x else conv
  | None => conv
  end.
Definition progress_texts (conv : Z) (r : ProgressReader) (elapsed : Z) : string * string :=
  let duration := seconds_of elapsed in
  if 0 <? duration then
    let bytesPerSec := f_div (f_of_int (pr_Uploaded r)) duration in
    (formatUploadSpeed bytesPerSec,
     if pr_Uploaded r <? pr_Total r then
       let remBytes := f_of_int (wrap64 (pr_Total r - pr_Uploaded r)) in
       let remSeconds := if bytesPerSec =? 0 then None
                         else if bytesPerSec <? 0 then Some (- f_div remBytes (- bytesPerSec))
                         else Some (f_div remBytes bytesPerSec) in
       formatUploadDuration (wrap64 (to_duration conv remSeconds * second))
     else ""%string)
  else (""%string, ""%string).

(** ** The service *)

Section FileService.
Context {S C F : Type} `{FileHost S C F} {K : Type} {KV : Kv K}.
Variable list_codec : codec list_cache.
Variable progress_codec : codec UploadProgressData.
Variable lib_text : error → string.
Variable conv : Z.
(** [config.Get().Server.BasePath]. *)
Variable cfg_BasePath : string.
(** The session manager and the Redis repository are not nil. *)
Variables has_manager has_redis : bool.

Notation W := (fworld S K).

Definition on_host {A} : M S A → M W A :=
  lift fw_host (λ s w, mkFworld s (fw_kv w) (homeDirCache w) (sessionCheckCache w) (fw_sent w)
                        (fw_temps w) (fw_tasks w) (fw_stuck w)).
Definition on_redis {A} : M K A → M W A :=
  lift fw_kv (λ k w, mkFworld (fw_host w) k (homeDirCache w) (sessionCheckCache w) (fw_sent w)
                      (fw_temps w) (fw_tasks w) (fw_stuck w)).
Definition store_check (userID t : Z) : M W unit :=
  modify (λ w, mkFworld (fw_host w) (fw_kv w) (homeDirCache w)
                 (<[userID := t]> (sessionCheckCache w)) (fw_sent w) (fw_temps w) (fw_tasks w) (fw_stuck w)).
Definition store_home (userID : Z) : M W unit :=
  modify (λ w, mkFworld (fw_host w) (fw_kv w) ({[userID]} ∪ homeDirCache w)
                 (sessionCheckCache w) (fw_sent w) (fw_temps w) (fw_tasks w) (fw_stuck w)).
(** [client.ExecuteCommand(cmd)] on the session of a user and a mode. *)
Definition exec (userID : Z) (isRoot : bool) (c : C) (cmd : string) : M W (result string) :=
  _ ← modify (λ w, mkFworld (fw_host w) (fw_kv w) (homeDirCache w) (sessionCheckCache w)
                     ((userID, isRoot, cmd) :: fw_sent w) (fw_temps w) (fw_tasks w) (fw_stuck w));
  on_host (fh_ExecuteCommand c cmd).

(** Was the session of the user checked in the last three seconds? *)
Definition recently_checked (userID : Z) : M W bool :=
  o ← gets (λ w, sessionCheckCache w !! userID);
  match o with
  | None => mret false
  | Some lastCheck => t ← on_host fh_now; mret (dur_sub t lastCheck <? 3 * second)
  end.
Definition check_session (userID : Z) (isRoot : bool) (c : C) : M W bool :=
  cached ← recently_checked userID;
  if cached : bool then mret true
  else
    p ← exec userID isRoot c "echo 1";
    match p with
    | Err _ => mret false
    | Ok _ =>
        if fh_has_sftp c then (t ← on_host fh_now; _ ← store_check userID t; mret true)
        else mret false
    end.

(** The session is returned with its client, which is not nil. *)
Definition getOrReconnectSession (userID : Z) (isRoot : bool) : M W (result (string * C)) :=
  if negb has_manager then mret (Err (New CodeInternalError "SSH会话管理器未初始化"))
  else
    g ← on_host (fh_GetSession userID isRoot);
    live ← match g with
           | Ok (mkFileSession u (Some c)) =>
               isValid ← check_session userID isRoot c;
               mret (if isValid : bool then Some (u, c) else None)
           | _ => mret None
           end;
    match live with
    | Some s => mret (Ok s)
    | None =>
        e ← on_host (fh_EnsureSSHSessionByType userID isRoot);
        match e with
        | Err e => mret (Err (NewWithErr CodeInternalError "恢复SSH会话失败" e))
        | Ok _ =>
            g2 ← on_host (fh_GetSession userID isRoot);
            match g2 with
            | Err _ => mret (Err (New CodeUnauthorized "SSH会话恢复失败"))
            | Ok (mkFileSession u (Some c)) =>
                if fh_has_sftp c then mret (Ok (u, c))
                else mret (Err (New CodeInternalError "SSH客户端未连接"))
            | Ok (mkFileSession _ None) => mret (Err (New CodeInternalError "SSH客户端未连接"))
            end
        end
    end.

Definition getSftpClient (userID : Z) (isRoot : bool) : M W (result C) :=
  s ← getOrReconnectSession userID isRoot;
  mret (match s with
        | Err e => Err (NewWithErr CodeInternalError "获取SFTP客户端失败" e)
        | Ok (_, c) => Ok c
        end).
Definition getSSHClient (userID : Z) (isRoot : bool) : M W (result C) :=
  s ← getOrReconnectSession userID isRoot;
  mret (match s with
        | Err e => Err (NewWithErr CodeInternalError "获取SSH客户端失败" e)
        | Ok (_, c) => Ok c
        end).
Definition executeSSHCommand (userID : Z) (cmd : string) (isRoot : bool) : M W (result string) :=
  c ← getSSHClient userID isRoot;
  match c with
  | Err e => mret (Err (NewWithErr CodeInternalError "获取SSH客户端失败" e))
  | Ok client =>
      o ← exec userID isRoot client cmd;
      match o with
      | Err e => mret (Err (NewWithErr CodeSSHCommandExecutionFailed
                              ("执行命令失败: " +:+ err_Error lib_text e) e))
      | Ok output => mret (Ok output)
      end
  end.

(** ** Paths *)

Definition base_path : string := if String.eqb cfg_BasePath "" then "/home" else cfg_BasePath.
Definition home_dir (username : string) : string := path_Join base_path username.

(** The home directory is created once per process and user. *)
Definition ensure_home (userID : Z) (c : C) (homeDir : string) : M W (result unit) :=
  checked ← gets (λ w, bool_decide (userID ∈ homeDirCache w));
  if checked : bool then mret (Ok tt)
  else
    st ← on_host (fh_Stat c homeDir);
    match st with
    | Ok _ => _ ← store_home userID; mret (Ok tt)
    | Err e =>
        if fh_IsNotExist e then
          mk ← on_host (fh_MkdirAll c homeDir);
          match mk with
          | Err e' => mret (Err (NewWithErr CodeInternalError "创建用户主目录失败" e'))
          | Ok _ => _ ← store_home userID; mret (Ok tt)
          end
        else mret (Err (NewWithErr CodeInternalError "检查用户主目录状态失败" e))
    end.

Definition resolvePath (userID : Z) (p0 : string) (isRootMode : bool) : M W (result string) :=
  let p := TrimSpace p0 in
  s ← getOrReconnectSession userID isRootMode;
  match s with
  | Err e => mret (Err (NewWithErr CodeInternalError "获取SSH会话失败" e))
  | Ok (username, c) =>
      if isRootMode then
        mret (Ok (if String.eqb p "" || String.eqb p "." then "/" else Clean p))
      else
        h ← ensure_home userID c (home_dir username);
        match h with
        | Err e => mret (Err e)
        | Ok _ => mret (resolve_in_home (home_dir username) p)
        end
  end.
(** ** Listing *)

Definition last_path_key (userID : Z) : string := "file:last_path:" +:+ Itoa userID.

(** The path asked for: " " stands for the last one, any other is stored. *)
Definition requested_path (userID : Z) (p : string) : M W string :=
  if String.eqb p " " then
    r ← on_redis (kv_Get (last_path_key userID));
    mret (match r with Ok lastPath => lastPath | Err _ => ""%string end)
  else
    _ ← on_redis (kv_Set (last_path_key userID) p (7 * 24 * 3600 * second));
    mret p.

Definition cached_list (key : string) : M W (option list_cache) :=
  if negb has_redis then mret None
  else
    r ← on_redis (kv_Get key);
    mret (match r with
          | Ok s => if String.eqb s "" then None
                    else match unmarshal list_codec s with Ok d => Some d | Err _ => None end
          | Err _ => None
          end).

(** [uidToName]: from the cache, else from the password database, which is
    cached for an hour. *)
Definition load_uids (userID : Z) (isRootMode : bool) : M W (gmap Z string) :=
  cached ← (if has_redis then
              r ← on_redis (kv_Get "file:uid_map");
              mret (match r with
                    | Ok s => if String.eqb s "" then ∅ else uid_map_of (read_uid_cache s)
                    | Err _ => ∅
                    end)
            else mret ∅);
  if negb (bool_decide (cached = ∅)) then mret cached
  else
    o ← executeSSHCommand userID "getent passwd || cat /etc/passwd" isRootMode;
    match o with
    | Err _ => mret cached
    | Ok passwdOut =>
        let pairs := parse_passwd passwdOut in
        _ ← (if has_redis && negb (bool_decide (pairs = [])) then
               on_redis (kv_Set "file:uid_map" (Join "," (uid_pair <$> pairs)) (3600 * second))
             else mret (Ok tt));
        mret (uid_map_of pairs)
    end.

(** The directory read from the server, and put into the cache. *)
Definition read_directory (userID : Z) (isRootMode : bool) (resolvedPath key : string)
  : M W (result list_cache) :=
  c ← getSftpClient userID isRootMode;
  match c with
  | Err e => mret (Err (NewWithErr CodeInternalError "获取SFTP客户端失败" e))
  | Ok client =>
      rp ← on_host (fh_RealPath client resolvedPath);
      match rp with
      | Err e => mret (Err (NewWithErr CodeInternalError ("无法解析路径: " +:+ resolvedPath) e))
      | Ok realPath =>
          en ← on_host (fh_ReadDir client realPath);
          match en with
          | Err e => mret (Err (NewWithErr CodeInternalError ("读取目录失败: " +:+ realPath) e))
          | Ok entries =>
              uids ← load_uids userID isRootMode;
              let data := mkListCache realPath (list_dirs realPath uids entries)
                            (list_files realPath uids entries) in
              _ ← match marshal list_codec data with
                  | Ok s => if has_redis then on_redis (kv_Set key s (5 * second)) else mret (Ok tt)
                  | Err _ => mret (Ok tt)
                  end;
              mret (Ok data)
          end
      end
  end.

(** The answer for a directory: filter, then page. *)
Definition list_response (kw : string) (page size : Z) (data : list_cache) : FilesListData :=
  let dirs := keyword_dirs kw (lc_Dirs data) in
  let files := keyword_files kw (lc_Files data) in
  let total := Z.of_nat (length dirs) + Z.of_nat (length files) in
  let '(d, f) := paginate page size dirs files in
  FilesListData.mkFilesListData (buildBreadcrumb (lc_RealPath data)) (lc_RealPath data) f d total
    page (page_count total size) size.

(** A nil Redis repository panics on the last path. *)
Definition GetFileList (userID : Z) (req : FileListRequest) (isRootMode : bool)
  : M W (result FilesListData) :=
  if negb has_redis then mret (Err (ErrPanic "nil pointer dereference"))
  else
    path ← requested_path userID (FileListRequest.Path req);
    let page := if FileListRequest.Page req <=? 0 then 1 else FileListRequest.Page req in
    let size := if FileListRequest.PageSize req <=? 0 then 100 else FileListRequest.PageSize req in
    r ← resolvePath userID path isRootMode;
    match r with
    | Err e => mret (Err (NewWithErr CodeInternalError "解析路径失败" e))
    | Ok resolvedPath =>
        let key := list_key userID isRootMode resolvedPath in
        hit ← cached_list key;
        d ← match hit with
            | Some data => mret (Ok data)
            | None => read_directory userID isRootMode resolvedPath key
            end;
        mret (match d with
              | Err e => Err e
              | Ok data => Ok (list_response (FileListRequest.Keyword req) page size data)
              end)
    end.

Definition invalidateFileListCache (userID : Z) (isRootMode : bool) (p : string) : M W unit :=
  if has_redis then _ ← on_redis (kv_Del (list_key userID isRootMode p)); mret tt else mret tt.

(** ** Upload *)

Definition add_temp (t : string) : M W unit :=
  modify (λ w, mkFworld (fw_host w) (fw_kv w) (homeDirCache w) (sessionCheckCache w) (fw_sent w)
                 ({[t]} ∪ fw_temps w) (fw_tasks w) (fw_stuck w)).
(** [os.Remove] of a temporary file; an error is logged or dropped, and recorded
    here. *)
Definition remove_temp (t : string) : M W unit :=
  r ← on_host (lf_Remove t);
  if is_ok r then
    modify (λ w, mkFworld (fw_host w) (fw_kv w) (homeDirCache w) (sessionCheckCache w) (fw_sent w)
                   (fw_temps w ∖ {[t]}) (fw_tasks w) (fw_stuck w))
  else
    modify (λ w, mkFworld (fw_host w) (fw_kv w) (homeDirCache w) (sessionCheckCache w) (fw_sent w)
                   (fw_temps w) (fw_tasks w) ({[t]} ∪ fw_stuck w)).
(** The [go] statement. *)
Definition spawn (t : upload_task) : M W unit :=
  modify (λ w, mkFworld (fw_host w) (fw_kv w) (homeDirCache w) (sessionCheckCache w) (fw_sent w)
                 (fw_temps w) (fw_tasks w ++ [t]) (fw_stuck w)).

(** The answer is the name of the file; [size] is [header.Size]. *)
Definition UploadFile (userID : Z) (filename : string) (size : Z) (targetPath : string)
  (isRootMode : bool) : M W (result string) :=
  d ← on_host (lf_MkdirAll "uploads/temp");
  match d with
  | Err _ => mret (Err (New CodeInternalError "创建临时目录失败"))
  | Ok _ =>
      t ← on_host (lf_CreateTemp "uploads/temp" ("upload-" +:+ Itoa userID +:+ "-" +:+ filename +:+ "-"));
      match t with
      | Err _ => mret (Err (New CodeInternalError "创建临时文件失败"))
      | Ok tempFile =>
          _ ← add_temp tempFile;
          cp ← on_host (lf_CopyTo tempFile);
          match cp with
          | Err _ => _ ← remove_temp tempFile; mret (Err (New CodeInternalError "保存上传文件失败"))
          | Ok _ =>
              _ ← spawn (mkUploadTask userID tempFile filename targetPath isRootMode size);
              mret (Ok filename)
          end
      end
  end.

Definition getUploadProgressKey (userID : Z) (filename targetPath : string) (isRootMode : bool)
  : M W string :=
  r ← resolvePath userID targetPath isRootMode;
  let resolvedPath := match r with Ok q => q | Err _ => targetPath end in
  mret ("upload:progress:" +:+ Itoa userID +:+ ":" +:+ filename +:+ ":" +:+ resolvedPath).

(** [float64(uploaded) / float64(totalSize) * 100]. *)
Definition percent (part total : Z) : float64 :=
  if 0 <? total then f_mul_int (f_div (f_of_int part) (f_of_int total)) 100 else 0.

Definition progress_data (filename status : string) (uploaded totalSize : Z)
  (speed remaining errMsg : string) : UploadProgressData :=
  UploadProgressData.mkUploadProgressData filename status (percent uploaded totalSize) uploaded
    totalSize speed remaining errMsg.

(** A value that cannot be encoded is stored as the empty text. *)
Definition reportProgress (key : string) (d : UploadProgressData) : M W unit :=
  if negb has_redis then mret tt
  else
    let jsonData := match marshal progress_codec d with Ok s => s | Err _ => ""%string end in
    _ ← on_redis (kv_Set key jsonData (3600 * second)); mret tt.

(** [ProgressReader.Read] after the underlying reader read [n] bytes;
    [eof]: its error is [io.EOF].  [report] is [ReportFunc]. *)
Definition progress_Read (report : Z → string → string → M W unit) (n : Z) (eof : bool)
  (r : ProgressReader) : M W ProgressReader :=
  r ← match pr_startTime r with
      | Some _ => mret r
      | None =>
          t0 ← on_host fh_now;
          t1 ← on_host fh_now;
          mret (mkProgressReader (pr_Total r) (pr_Uploaded r) t1 (Some t0))
      end;
  let r := mkProgressReader (pr_Total r) (wrap64 (pr_Uploaded r + n)) (pr_lastReport r)
             (pr_startTime r) in
  t ← on_host fh_now;
  if (second <? dur_sub t (pr_lastReport r)) || (eof && (0 <? n)) then
    t2 ← on_host fh_now;
    let '(speed, remaining) := progress_texts conv r (dur_sub t2 (default 0 (pr_startTime r))) in
    _ ← report (pr_Uploaded r) speed remaining;
    t3 ← on_host fh_now;
    mret (mkProgressReader (pr_Total r) (pr_Uploaded r) t3 (pr_startTime r))
  else mret r.
Fixpoint progress_reads (report : Z → string → string → M W unit) (reads : list (Z * bool))
  (r : ProgressReader) : M W ProgressReader :=
  match reads with
  | [] => mret r
  | (n, eof) :: rest => r' ← progress_Read report n eof r; progress_reads report rest r'
  end.

(** The body of [asyncUploadToSFTP] after the temporary file's [defer]; the
    deferred [Close]s of the two files follow in reverse order. *)
Definition upload_body (t : upload_task) : M W unit :=
  let userID := ut_UserID t in
  let isRootMode := ut_IsRootMode t in
  let total := ut_TotalSize t in
  progressKey ← getUploadProgressKey userID (ut_OriginalFilename t) (ut_TargetPath t) isRootMode;
  let report status uploaded speed remaining errMsg :=
    reportProgress progressKey
      (progress_data (ut_OriginalFilename t) status uploaded total speed remaining errMsg) in
  let failed uploaded msg e := report "failed"%string uploaded ""%string ""%string
                                 (msg +:+ ": " +:+ err_Error lib_text e) in
  c ← getSftpClient userID isRootMode;
  match c with
  | Err e => failed 0 "获取SFTP客户端失败"%string e
  | Ok client =>
      rp ← resolvePath userID (ut_TargetPath t) isRootMode;
      match rp with
      | Err e => failed 0 "解析目标路径失败"%string e
      | Ok resolvedPath =>
          mk ← on_host (fh_MkdirAll client resolvedPath);
          match mk with
          | Err e => failed 0 "创建SFTP目录失败"%string e
          | Ok _ =>
              let dstPath := path_Join resolvedPath (ut_OriginalFilename t) in
              cr ← on_host (fh_Create client dstPath);
              match cr with
              | Err e => failed 0 "创建远程文件失败"%string e
              | Ok dst =>
                  op ← on_host (lf_Open (ut_TempFilePath t));
                  _ ← match op with
                      | Err e => failed 0 "打开临时文件失败"%string e
                      | Ok _ =>
                          cp ← on_host (fh_Copy dst (ut_TempFilePath t));
                          pr ← progress_reads
                                 (λ uploaded speed remaining,
                                    report "uploading"%string uploaded speed remaining ""%string)
                                 cp.1 (mkProgressReader total 0 0 None);
                          match cp.2 with
                          | Err e =>
                              _ ← on_host (fh_Remove client dstPath);
                              failed (pr_Uploaded pr) "上传失败"%string e
                          | Ok _ =>
                              _ ← report "completed"%string total ""%string ""%string ""%string;
                              invalidateFileListCache userID isRootMode resolvedPath
                          end
                      end;
                  _ ← on_host (fh_Close dst);
                  mret tt
              end
          end
      end
  end.
Definition asyncUploadToSFTP (t : upload_task) : M W unit :=
  _ ← upload_body t; remove_temp (ut_TempFilePath t).

(** A background upload runs. *)
Definition run_task (i : nat) : M W unit :=
  o ← gets (λ w, fw_tasks w !! i);
  match o with
  | None => mret tt
  | Some t =>
      _ ← modify (λ w, mkFworld (fw_host w) (fw_kv w) (homeDirCache w) (sessionCheckCache w)
                         (fw_sent w) (fw_temps w) (delete i (fw_tasks w)) (fw_stuck w));
      asyncUploadToSFTP t
  end.

(** [unknown] stands for a task that is finished or never started. *)
Definition unknown_progress (filename : string) : UploadProgressData :=
  UploadProgressData.mkUploadProgressData filename "unknown" 0 0 0 "" "" "".
Definition GetUploadProgress (userID : Z) (filename targetPath : string)
  : M W (result UploadProgressData) :=
  if negb has_redis then mret (Err (New CodeInternalError "未配置进度存储"))
  else
    let filename := TrimSpace filename in
    let targetPath := TrimSpace targetPath in
    a ← on_host (fh_HasSystemAccess userID);
    match a with
    | Err e => mret (Err e)
    | Ok isRootMode =>
        progressKey ← getUploadProgressKey userID filename targetPath isRootMode;
        v ← on_redis (kv_Get progressKey);
        match v with
        | Err _ => mret (Ok (unknown_progress filename))
        | Ok s =>
            if String.eqb s "" then mret (Ok (unknown_progress filename))
            else mret (match unmarshal progress_codec s with
                       | Err e => Err (NewWithErr CodeInternalError "解析进度数据失败" e)
                       | Ok out => Ok out
                       end)
        end
    end.

(** ** Download, delete, unpack *)

(** The open file, its name, size and date. *)
Definition DownloadFile (userID : Z) (p : string) (isRootMode : bool)
  : M W (result (F * string * Z * Z)) :=
  c ← getSftpClient userID isRootMode;
  match c with
  | Err e => mret (Err e)
  | Ok client =>
      r ← resolvePath userID p isRootMode;
      match r with
      | Err e => mret (Err e)
      | Ok resolvedPath =>
          o ← on_host (fh_Open client resolvedPath);
          match o with
          | Err e => mret (Err (NewWithErr CodeInternalError ("打开文件失败: " +:+ resolvedPath) e))
          | Ok f =>
              st ← on_host (fh_FStat f);
              match st with
              | Err e =>
                  _ ← on_host (fh_Close f);
                  mret (Err (NewWithErr CodeInternalError ("获取文件状态失败: " +:+ resolvedPath) e))
              | Ok stat => mret (Ok (f, Base resolvedPath, fi_Size stat, fi_ModTime stat))
              end
          end
      end
  end.

Definition delete_command (q : string) : string := "rm -rf " +:+ shell_quote q.

Definition DeleteFile (userID : Z) (p : string) (isRootMode : bool) : M W (result unit) :=
  r ← resolvePath userID p isRootMode;
  match r with
  | Err e => mret (Err e)
  | Ok resolvedPath =>
      c ← getSftpClient userID isRootMode;
      match c with
      | Err e => mret (Err e)
      | Ok sftpClient =>
          st ← on_host (fh_Stat sftpClient resolvedPath);
          match st with
          | Err e =>
              if fh_IsNotExist e then mret (Err (New CodeInvalidParam "文件或目录不存在"))
              else mret (Err (NewWithErr CodeInternalError "获取文件状态失败" e))
          | Ok _ =>
              o ← executeSSHCommand userID (delete_command resolvedPath) isRootMode;
              match o with
              | Err e => mret (Err (NewWithErr CodeSSHCommandExecutionFailed "执行删除命令失败" e))
              | Ok _ =>
                  st2 ← on_host (fh_Stat sftpClient resolvedPath);
                  match st2 with
                  | Ok _ => mret (Err (New CodeInternalError "删除失败，可能权限不足"))
                  | Err e =>
                      if negb (fh_IsNotExist e)
                      then mret (Err (NewWithErr CodeInternalError "验证删除结果失败" e))
                      else
                        _ ← invalidateFileListCache userID isRootMode (Dir resolvedPath);
                        mret (Ok tt)
                  end
              end
          end
      end
  end.

(** The name of the directory an archive is unpacked into. *)
Definition expected_dir_name (resolvedPath : string) : string :=
  let baseName := Base resolvedPath in TrimSuffix baseName (Ext baseName).
Definition unzip_command (q target : string) : string :=
  "unzip -n " +:+ shell_quote q +:+ " -d " +:+ shell_quote target.

Definition UnzipFile (userID : Z) (path targetPath : string) (isRootMode : bool)
  : M W (result unit) :=
  r ← resolvePath userID path isRootMode;
  match r with
  | Err e => mret (Err e)
  | Ok resolvedPath =>
      r2 ← resolvePath userID targetPath isRootMode;
      match r2 with
      | Err e => mret (Err e)
      | Ok resolvedTarget =>
          c ← getSftpClient userID isRootMode;
          match c with
          | Err e => mret (Err e)
          | Ok client =>
              let expectedDirName := expected_dir_name resolvedPath in
              let finalTargetDir := path_Join resolvedTarget expectedDirName in
              st ← on_host (fh_Stat client finalTargetDir);
              match st with
              | Ok _ => mret (Err (New CodeFileExists ("目标路径已存在文件或目录: " +:+ expectedDirName)))
              | Err e =>
                  if negb (fh_IsNotExist e)
                  then mret (Err (NewWithErr CodeInternalError "检查文件状态失败" e))
                  else
                    o ← executeSSHCommand userID (unzip_command resolvedPath finalTargetDir) isRootMode;
                    match o with
                    | Err e => mret (Err (NewWithErr CodeSSHCommandExecutionFailed "执行解压命令失败" e))
                    | Ok _ =>
                        _ ← invalidateFileListCache userID isRootMode resolvedTarget;
                        mret (Ok tt)
                    end
              end
          end
      end
  end.

(** ** The home directories *)

Definition home_list_path (p : string) : result string :=
  if String.eqb p "" || String.eqb p "." || String.eqb p "/" then Ok base_path
  else
    let cleanPath := Clean (path_Join base_path p) in
    if negb (HasPrefix cleanPath base_path)
    then Err (New CodeForbidden ("越权访问被拒绝: " +:+ p))
    else Ok cleanPath.

(** [dirs[start:end]]: bounds outside [0 <= start <= end <= len] panic. *)
Definition slice {A : Type} (start stop : Z) (l : list A) : result (list A) :=
  if (0 <=? start) && (start <=? stop) && (stop <=? Z.of_nat (length l))
  then Ok (take (Z.to_nat (stop - start)) (drop (Z.to_nat start) l))
  else Err (ErrPanic "slice bounds out of range").

Definition home_page (page size : Z) (dirs : list DirectoryItem) : result (list DirectoryItem) :=
  let total := Z.of_nat (length dirs) in
  let start := wrap64 ((page - 1) * size) in
  let stop := wrap64 (start + size) in
  let stop := if total <? stop then total else stop in
  if start <? total then slice start stop dirs else Ok [].

Definition home_dirs (kw realPath : string) (uids : gmap Z string) (entries : list file_info)
  : list DirectoryItem :=
  merge_sort (λ a b, String.le (DirectoryItem.Name a) (DirectoryItem.Name b))
    ((λ e, dir_item realPath (owner_of "暂无数据，请刷新" uids e) e) <$>
      List.filter (λ e, fi_IsDir e && (String.eqb kw "" || Contains (fi_Name e) kw)) entries).

Definition GetHomeDirectoriesList (userID : Z) (req : FileListRequest) (isRootMode : bool)
  : M W (result FilesListData) :=
  c ← getSftpClient userID true;
  match c with
  | Err e => mret (Err e)
  | Ok client =>
      let page := if FileListRequest.Page req <=? 0 then 1 else FileListRequest.Page req in
      let size := if FileListRequest.PageSize req <=? 0 then 100 else FileListRequest.PageSize req in
      match home_list_path (FileListRequest.Path req) with
      | Err e => mret (Err e)
      | Ok realPath =>
          en ← on_host (fh_ReadDir client realPath);
          match en with
          | Err e => mret (Err (NewWithErr CodeInternalError ("读取目录失败: " +:+ realPath) e))
          | Ok entries =>
              o ← executeSSHCommand userID "getent passwd || cat /etc/passwd" isRootMode;
              let uids := match o with Ok out => uid_map_of (parse_passwd out) | Err _ => ∅ end in
              let dirs := home_dirs (FileListRequest.Keyword req) realPath uids entries in
              let total := Z.of_nat (length dirs) in
              mret (match home_page page size dirs with
                    | Err e => Err e
                    | Ok sliced =>
                        Ok (FilesListData.mkFilesListData (buildBreadcrumb realPath) realPath []
                              sliced total page (page_count total size) size)
                    end)
          end
      end
  end.

(** ** What the operations send *)

(** The commands sent during a run satisfy [P]. *)
Definition sent_by (P : Z * bool * string → Prop) : relation W :=
  λ w w', ∃ l, fw_sent w' = l ++ fw_sent w ∧ Forall P l.
#[local] Instance sent_by_preorder P : PreOrder (sent_by P).
Proof.
  split.
  - intros w. by exists [].
  - intros w1 w2 w3 (l1 & E1 & H1) (l2 & E2 & H2). exists (l2 ++ l1).
    rewrite E2, E1, app_assoc. split; [done|]. by apply Forall_app.
Qed.

Section Sends.
Context (P : Z * bool * string → Prop).
Notation sends := (triple (sent_by P)).

Lemma sends_host {A} (c : M S A) : sends (λ a, ∃ s s', c s = (s', a)) (on_host c).
Proof. intros w w' a E. unfold on_host in E. run_inv. split; [by exists []|by eexists _, _]. Qed.
Lemma sends_redis {A} (c : M K A) : sends (λ _, True) (on_redis c).
Proof. intros w w' a E. unfold on_redis in E. run_inv. split; [by exists []|done]. Qed.
Lemma sends_store_check u t : sends (λ _, True) (store_check u t).
Proof. intros w w' a E. unfold store_check in E. run_inv. split; [by exists []|done]. Qed.
Lemma sends_store_home u : sends (λ _, True) (store_home u).
Proof. intros w w' a E. unfold store_home in E. run_inv. split; [by exists []|done]. Qed.
Lemma sends_exec u root c cmd : P (u, root, cmd) → sends (λ _, True) (exec u root c cmd).
Proof.
  intros HP w w' a E. unfold exec, on_host in E. run_inv.
  split; [|done]. exists [(u, root, cmd)]. split; [done|]. by repeat constructor.
Qed.
End Sends.

Ltac solve_sends :=
  repeat first
    [ progress intros
    | progress cbn beta
    | apply triple_ret; [apply _|by eauto]
    | apply triple_gets; apply _
    | solve [eauto using sends_store_check, sends_store_home, sends_redis, sends_exec]
    | apply sends_host
    | eapply triple_bind; [apply _| |]
    | progress cbv zeta
    | case_match ].

Section Confined.
Variables (userID : Z) (username : string).
(** The session manager's session of the user in user mode is a login as
    [username]. *)
Hypothesis session_user : ∀ s s' u oc,
  fh_GetSession userID false s = (s', Ok (mkFileSession u oc)) → u = username.
Variable P : Z * bool * string → Prop.
Hypothesis P_ping : P (userID, false, "echo 1"%string).
Notation sends := (triple (sent_by P)).

Lemma sends_recently_checked u : sends (λ _, True) (recently_checked u).
Proof.
  unfold recently_checked. eapply triple_bind; [apply _|apply triple_gets, _|].
  intros [t|] _; [|by tret].
  tbind sends_host. intros. by tret.
Qed.

Lemma sends_check_session c : sends (λ _, True) (check_session userID false c).
Proof.
  unfold check_session. tbind sends_recently_checked.
  intros [|] _; [by tret|]. solve_sends.
Qed.

Lemma sends_session :
  sends (λ r, ∀ u c, r = Ok (u, c) → u = username) (getOrReconnectSession userID false).
Proof.
  unfold getOrReconnectSession. destruct has_manager; cbn [negb]; [|by tret].
  tbind sends_host. intros g (s & s' & Hg).
  apply (triple_bind _ (λ o : option (string * C), ∀ u c, o = Some (u, c) → u = username)).
  - destruct g as [[u [c|]]|]; [|by tret..].
    tbind sends_check_session.
    intros [|] _; apply triple_ret; [apply _| |apply _|done].
    intros u' c' [= <- <-]. by eapply session_user.
  - intros [[u c]|] Hlive; [apply triple_ret; [apply _|]; intros ?? [= -> ->]; by eapply Hlive|].
    tbind sends_host. intros [|e] _; [|by tret].
    tbind sends_host.
    intros [[u [c|]]|] (s1 & s2 & Hg2); [|by tret..].
    destruct (fh_has_sftp c); apply triple_ret; [apply _| |apply _|done].
    intros u' c' [= <- <-]. by eapply session_user.
Qed.

Lemma sends_getSftpClient : sends (λ _, True) (getSftpClient userID false).
Proof.
  unfold getSftpClient. tbind sends_session.
  intros. by tret.
Qed.

Lemma sends_getSSHClient : sends (λ _, True) (getSSHClient userID false).
Proof. unfold getSSHClient. tbind sends_session. intros. by tret. Qed.

Lemma sends_command cmd :
  P (userID, false, cmd) → sends (λ _, True) (executeSSHCommand userID cmd false).
Proof.
  intros HP. unfold executeSSHCommand. tbind sends_getSSHClient.
  intros [c|e] _; [|by tret].
  eapply triple_bind; [apply _|by apply sends_exec|]. intros [o|e] _; by tret.
Qed.

Lemma sends_ensure_home c h : sends (λ _, True) (ensure_home userID c h).
Proof. unfold ensure_home. solve_sends. Qed.

(** ** Confinement of paths *)

Lemma home_dir_names u :
  IsAbs base_path = true → is_name u = true →
  ∃ hs, hs ≠ [] ∧ Forall (λ x, is_name x = true) hs ∧ home_dir u = abs_path hs.
Proof.
  intros Hb Hu. unfold home_dir, path_Join.
  destruct (String.eqb_spec base_path "") as [E|_]; [by rewrite E in Hb|].
  assert (IsAbs (base_path +:+ "/" +:+ u) = true) as Ha.
  { apply HasPrefix_app in Hb as [r ->]. rewrite sapp_assoc. apply HasPrefix_app. by eexists. }
  unfold Clean. rewrite Ha, Split_app_sep. eexists. split; [|split; [|done]].
  - unfold clean_components. rewrite foldl_app, (Split_no_sep slash u) by by apply is_name_no_slash.
    cbn [foldl]. rewrite push_name by done. rewrite reverse_cons.
    by destruct (reverse _).
  - apply clean_rooted_names, Forall_app. split; apply Split_all_no.
Qed.
Lemma extends_home_refl h : extends_home h h.
Proof. exists "", []. repeat split; [done|]. cbn. by rewrite !sapp_nil_r. Qed.

Lemma resolve_in_home_confined u p q :
  IsAbs base_path = true → is_name u = true →
  resolve_in_home (home_dir u) p = Ok q → extends_home (home_dir u) q ∧ Clean q = q.
Proof.
  intros Hb Hu E. destruct (home_dir_names u Hb Hu) as (hs & Hne & Hhs & Hh).
  assert (Clean (home_dir u) = home_dir u) as Hc by (rewrite Hh; by apply Clean_abs_path).
  unfold resolve_in_home in E. destruct (_ || _) eqn:E0 in E.
  { injection E as <-. split; [apply extends_home_refl|done]. }
  destruct (IsAbs (Clean p)) eqn:Ea.
  - destruct (HasPrefix (Clean p) (home_dir u)) eqn:Epre.
    + injection E as <-. split; [|apply Clean_idem].
      apply abs_prefix_extends; [by exists hs| |done].
      rewrite <- (Clean_idem p). destruct (Clean_abs _ Ea) as (cs & ? & ->). by exists cs.
    + destruct (String.eqb (Clean p) "/"); [|done]. injection E as <-. split; [apply extends_home_refl|done].
  - destruct (HasPrefix (path_Join _ _) (home_dir u)) eqn:Epre; [|done].
    cbn [negb] in E. injection E as <-.
    unfold path_Join in *. destruct (String.eqb_spec (home_dir u) "") as [Ee|_].
    { rewrite Hh in Ee. discriminate Ee. }
    assert (IsAbs (home_dir u +:+ "/" +:+ Clean p) = true) as Ha.
    { rewrite Hh. apply HasPrefix_app. unfold abs_path. rewrite sapp_assoc. by eexists. }
    split; [|apply Clean_idem]. apply abs_prefix_extends; [by exists hs| |done].
    destruct (Clean_abs _ Ha) as (cs & ? & ->). by exists cs.
Qed.

Lemma sends_resolvePath p :
  IsAbs base_path = true → is_name username = true →
  sends (λ r, ∀ q, r = Ok q → extends_home (home_dir username) q ∧ Clean q = q)
    (resolvePath userID p false).
Proof.
  intros Hb Hu. unfold resolvePath. tbind sends_session.
  intros [[u c]|e] Hs; [|by tret]. rewrite (Hs u c eq_refl). tbind sends_ensure_home.
  intros [|e] _; tret; [|done]. intros q. by apply resolve_in_home_confined.
Qed.

Lemma sends_invalidate u root q : sends (λ _, True) (invalidateFileListCache u root q).
Proof.
  unfold invalidateFileListCache. destruct has_redis; [|by tret]. tbind sends_redis.
  intros. by tret.
Qed.

End Confined.

(** ** Quoted commands *)

Lemma delete_words q : sh_words (delete_command q) = Some ["rm"; "-rf"; q]%string.
Proof.
  unfold delete_command, sh_words.
  change (flush (Some "rm"%string) <$> (flush (Some "-rf"%string) <$> sh_lex Plain None (shell_quote q)) =
          Some ["rm"; "-rf"; q]%string).
  by rewrite <- (sapp_nil_r (shell_quote q)), lex_shell_quote.
Qed.

Lemma unzip_words q t :
  sh_words (unzip_command q t) = Some ["unzip"; "-n"; q; "-d"; t]%string.
Proof.
  unfold unzip_command, sh_words.
  change (flush (Some "unzip"%string) <$> (flush (Some "-n"%string) <$>
            sh_lex Plain None (shell_quote q +:+ " -d " +:+ shell_quote t)) =
          Some ["unzip"; "-n"; q; "-d"; t]%string).
  rewrite lex_shell_quote.
  change (flush (Some "unzip"%string) <$> (flush (Some "-n"%string) <$> (flush (Some ("" +:+ q)) <$>
            (flush (Some "-d"%string) <$> sh_lex Plain None (shell_quote t)))) =
          Some ["unzip"; "-n"; q; "-d"; t]%string).
  by rewrite <- (sapp_nil_r (shell_quote t)), lex_shell_quote.
Qed.

(** C39: The shell that runs the delete and the unpack command sees exactly the
    words meant: the command, its options and the paths, whatever bytes the
    paths contain. *)
Theorem file_commands_words q t :
  sh_words (delete_command q) = Some ["rm"; "-rf"; q]%string ∧
  sh_words (unzip_command q t) = Some ["unzip"; "-n"; q; "-d"; t]%string.
Proof. split; [apply delete_words|apply unzip_words]. Qed.

(** ** Confinement to the home directory *)

(** Every file of the home is reached, by its absolute path and, below the
    home, by its path relative to it. *)
Lemma resolve_in_home_reaches u rest :
  IsAbs base_path = true → is_name u = true → Forall (λ x, is_name x = true) rest →
  resolve_in_home (home_dir u) (home_dir u +:+ slashed rest) = Ok (home_dir u +:+ slashed rest) ∧
  resolve_in_home (home_dir u) (Join "/" rest) = Ok (home_dir u +:+ slashed rest).
Proof.
  intros Hb Hu Hr. destruct (home_dir_names u Hb Hu) as (hs & Hne & Hhs & Hh).
  assert (home_dir u +:+ slashed rest = abs_path (hs ++ rest)) as Hq.
  { rewrite Hh, !abs_path_slashed, slashed_app by (done || by destruct hs). done. }
  assert (Forall (λ x, is_name x = true) (hs ++ rest)) as Hall by by apply Forall_app.
  split.
  - unfold resolve_in_home. rewrite Hq, Clean_abs_path, IsAbs_abs_path by done.
    rewrite (proj2 (HasPrefix_app (abs_path _) _)) by (exists (slashed rest); by rewrite <- Hq).
    unfold abs_path. by destruct (Join "/" (hs ++ rest)).
  - destruct rest as [|c cs].
    { cbn. by rewrite sapp_nil_r. }
    assert (rel_form (c :: cs)) as Hf by by exists 0%nat, (c :: cs).
    assert (Clean (Join "/" (c :: cs)) = Join "/" (c :: cs)) as Hc.
    { unfold Clean. rewrite Join_rel_not_abs by done.
      by rewrite (Split_Join slash), clean_of_form by (done || by apply rel_form_no_slash). }
    unfold resolve_in_home. rewrite Hc, Join_rel_not_abs by done.
    assert (path_Join (home_dir u) (Join "/" (c :: cs)) = home_dir u +:+ slashed (c :: cs)) as Hj.
    { unfold path_Join. destruct (String.eqb_spec (home_dir u) "") as [Ee|_].
      { rewrite Hh in Ee. discriminate Ee. }
      rewrite Join_slashed. change ("/" +:+ c +:+ slashed cs) with (slashed (c :: cs)).
      rewrite Hq. by apply Clean_abs_path. }
    rewrite Hj, (proj2 (HasPrefix_app _ _)) by by eexists.
    apply Forall_cons in Hr as [Hcn _]. rewrite Join_slashed.
    destruct c as [|x c]; [done|]. rewrite sapp_cons.
    destruct (String.eqb_spec (String x (c +:+ slashed cs)) "."%string) as [Ed|_]; [|done].
    injection Ed as -> Ed. by destruct c.
Qed.

Section Claims.
Variables (userID : Z) (username : string).
Hypothesis session_user : ∀ s s' u oc,
  fh_GetSession userID false s = (s', Ok (mkFileSession u oc)) → u = username.
Hypothesis base_abs : IsAbs base_path = true.
Hypothesis name_ok : is_name username = true.

(** C9: In user mode every path that [resolvePath] accepts is clean (no empty,
    "." or ".." component) and its text begins with the home directory of the
    session's user: it is the home, something below it, or an entry of the base
    directory whose name extends the user's name.  Every file of the home is
    accepted, by its absolute and by its relative path. *)
Theorem resolvePath_confined p w w' q rest
  (Hrun : resolvePath userID p false w = (w', Ok q))
  (Hrest : Forall (λ x, is_name x = true) rest) :
  (extends_home (home_dir username) q ∧ Clean q = q) ∧
  resolve_in_home (home_dir username) (home_dir username +:+ slashed rest) =
    Ok (home_dir username +:+ slashed rest) ∧
  resolve_in_home (home_dir username) (Join "/" rest) = Ok (home_dir username +:+ slashed rest).
Proof.
  split; [|by apply resolve_in_home_reaches].
  destruct (sends_resolvePath userID username session_user (λ _, True) I p base_abs name_ok _ _ _ Hrun)
    as [_ HQ]. by apply HQ.
Qed.

(** A command an operation on files may send in user mode: the probe, or one
    plain command on paths whose text begins with that of the home directory.
    The one place outside is the directory the home is in, for an archive whose
    name without extension is "..". *)
Definition confined_command (e : Z * bool * string) : Prop :=
  e.1 = (userID, false) ∧
  (e.2 = "echo 1"%string ∨
   (∃ q, sh_words e.2 = Some ["rm"; "-rf"; q]%string ∧ extends_home (home_dir username) q) ∨
   (∃ q target, sh_words e.2 = Some ["unzip"; "-n"; q; "-d"; target]%string ∧
      extends_home (home_dir username) q ∧
      (extends_home (home_dir username) target ∨
       expected_dir_name q = ".."%string ∧ target = path_Join (home_dir username) ".."))).

Notation sends := (triple (sent_by confined_command)).

Lemma confined_ping : confined_command (userID, false, "echo 1"%string).
Proof. split; [done|by left]. Qed.

Lemma sends_DeleteFile p : sends (λ _, True) (DeleteFile userID p false).
Proof.
  unfold DeleteFile.
  eapply triple_bind; [apply _|by apply (sends_resolvePath _ _ session_user _ confined_ping)|].
  intros [q|e] Hq; [|by tret]. destruct (Hq q eq_refl) as [He _].
  eapply triple_bind; [apply _|by apply (sends_getSftpClient _ _ session_user _ confined_ping)|].
  intros [c|e] _; [|by tret]. tbind sends_host. intros [i|e] _; [|case_match; by tret].
  eapply triple_bind; [apply _| |].
  { apply (sends_command _ _ session_user _ confined_ping). split; [done|]. right; left.
    exists q. split; [apply delete_words|done]. }
  intros [o|e] _; [|by tret]. tbind sends_host. intros [j|e] _; [by tret|].
  case_match; [by tret|]. tbind sends_invalidate. intros. by tret.
Qed.

Lemma expected_dir_no_slash q : no_slash (expected_dir_name q) = true ∨ expected_dir_name q = "/"%string.
Proof.
  unfold expected_dir_name. cbv zeta. destruct (Base_no_slash q) as [Hb| ->]; [left; by apply TrimSuffix_no_slash|by right].
Qed.
Lemma sends_UnzipFile p t : sends (λ _, True) (UnzipFile userID p t false).
Proof.
  unfold UnzipFile.
  eapply triple_bind; [apply _|by apply (sends_resolvePath _ _ session_user _ confined_ping)|].
  intros [q|e] Hq; [|by tret]. destruct (Hq q eq_refl) as [He _].
  eapply triple_bind; [apply _|by apply (sends_resolvePath _ _ session_user _ confined_ping)|].
  intros [t'|e] Ht; [|by tret]. destruct (Ht t' eq_refl) as [He' _].
  eapply triple_bind; [apply _|by apply (sends_getSftpClient _ _ session_user _ confined_ping)|].
  intros [c|e] _; [|by tret]. cbv zeta. tbind sends_host. intros [i|e] _; [by tret|].
  case_match; [by tret|].
  eapply triple_bind; [apply _| |].
  { apply (sends_command _ _ session_user _ confined_ping). split; [done|]. right; right.
    exists q, (path_Join t' (expected_dir_name q)). split; [apply unzip_words|]. split; [done|].
    apply join_extends; [by apply home_dir_names|done|apply expected_dir_no_slash]. }
  intros [o|e'] _; [|by tret]. tbind sends_invalidate. intros. by tret.
Qed.

(** Whatever happens, deleting or unpacking in user mode sends only commands
    over the user's own session, and apart from the liveness probe each is one
    plain command without expansion on paths whose text begins with that of the
    user's home; the directory of the home itself is reached only by an archive
    with the name ".." in front of its extension. *)
Theorem file_commands_confined p t w w1 w2 r1 r2
  (Hdel : DeleteFile userID p false w = (w1, r1))
  (Hzip : UnzipFile userID p t false w1 = (w2, r2)) :
  ∃ l, fw_sent w2 = l ++ fw_sent w ∧ Forall confined_command l.
Proof.
  apply sends_DeleteFile in Hdel as [H1 _]. apply sends_UnzipFile in Hzip as [H2 _].
  by assert (sent_by confined_command w w2) by by etrans.
Qed.
End Claims.

(** ** Results of deletion and unpacking *)

Lemma executeSSHCommand_sent u cmd root w w' o :
  executeSSHCommand u cmd root w = (w', Ok o) → (u, root, cmd) ∈ fw_sent w'.
Proof.
  unfold executeSSHCommand. intros E. open_bind E as w1 c E1. destruct c as [c|e]; [|by run_inv].
  open_bind E as w2 [o'|e] E2; [|by run_inv].
  unfold exec, on_host in E2. run_inv. by left.
Qed.

Lemma invalidate_sent u root q w w' x :
  invalidateFileListCache u root q w = (w', x) →
  fw_sent w' = fw_sent w ∧
  (has_redis = true → ∃ r, kv_Del (list_key u root q) (fw_kv w) = (fw_kv w', r)).
Proof.
  unfold invalidateFileListCache. destruct has_redis; intros E; [|by run_inv].
  open_bind E as w1 r E1. unfold on_redis in E1. run_inv. split; [done|]. intros _. by eexists.
Qed.

(** [DeleteFile] reports success only when the path existed, the command that
    removes exactly that path was sent on the session of the mode, the server
    then said that the path no longer exists, and after that the cached
    listing of the parent directory was dropped (with working Redis: the next
    listing of it is read from the server). *)
Theorem DeleteFile_verified `{!KvLaws K} userID p mode w w'
  (Hrun : DeleteFile userID p mode w = (w', Ok tt)) :
  ∃ w1 q c s s' e,
    resolvePath userID p mode w = (w1, Ok q) ∧
    (userID, mode, delete_command q) ∈ fw_sent w' ∧
    fh_Stat c q s = (s', Err e) ∧ fh_IsNotExist e = true ∧ fw_host w' = s' ∧
    (has_redis = true →
     (∃ k r, kv_Del (list_key userID mode (Dir q)) k = (fw_kv w', r) ∧
       (is_ok r = true → kv_str (kv_view (fw_kv w')) !! list_key userID mode (Dir q) = None))).
Proof.
  unfold DeleteFile in Hrun. open_bind Hrun as w1 [q|] Eq; [|by run_inv].
  open_bind Hrun as w2 [c|] Ec; [|by run_inv]. open_bind Hrun as w3 [i|] Es.
  2:{ case_match; by run_inv. }
  open_bind Hrun as w4 [o|] Eo; [|by run_inv]. open_bind Hrun as w5 [j|e] Ej; [by run_inv|].
  destruct (fh_IsNotExist e) eqn:En; cbn [negb] in Hrun; [|by run_inv].
  open_bind Hrun as w6 x Ei. unfold mret, M_ret in Hrun. injection Hrun as <-.
  apply executeSSHCommand_sent in Eo. 
  assert (fw_sent w5 = fw_sent w4 ∧ ∃ s s', fh_Stat c q s = (s', Err e) ∧ fw_host w5 = s')
    as (Hs5 & s & s' & Hst & Hh) by (unfold on_host in Ej; run_inv; eauto).
  assert (fw_host w6 = fw_host w5) as Hh6.
  { unfold invalidateFileListCache, on_redis in Ei. destruct has_redis; run_inv; done. }
  apply invalidate_sent in Ei as [Hs6 Hdel].
  exists w1, q, c, s, s', e. repeat split; try done.
  - by rewrite Hs6, Hs5.
  - by rewrite Hh6, Hh.
  - intros Hr. destruct (Hdel Hr) as [r Hr']. exists (fw_kv w5), r. split; [done|].
    intros Hok. apply kv_Del_spec in Hr'. rewrite Hok in Hr'. rewrite Hr'. apply lookup_delete_eq.
Qed.

(** Unpacking never overwrites: when the server says that the directory the
    archive would be unpacked into exists, the answer is the error "file
    exists" with its name, nothing is sent but liveness probes, and when the
    server cannot tell, the answer is an error too. *)
Theorem UnzipFile_no_overwrite userID p t mode w w1 q w2 t' w3 c st w4 w' r
  (Hq : resolvePath userID p mode w = (w1, Ok q))
  (Ht : resolvePath userID t mode w1 = (w2, Ok t'))
  (Hc : getSftpClient userID mode w2 = (w3, Ok c))
  (Hst : on_host (fh_Stat c (path_Join t' (expected_dir_name q))) w3 = (w4, st))
  (Hne : match st with Ok _ => true | Err e => negb (fh_IsNotExist e) end = true)
  (Hrun : UnzipFile userID p t mode w = (w', r)) :
  w' = w4 ∧ fw_sent w' = fw_sent w3 ∧
  r = Err (match st with
           | Ok _ => New CodeFileExists ("目标路径已存在文件或目录: " +:+ expected_dir_name q)
           | Err e => NewWithErr CodeInternalError "检查文件状态失败" e
           end).
Proof.
  unfold UnzipFile in Hrun. open_bind Hrun as v1 a1 E1. rewrite Hq in E1. injection E1 as <- <-.
  open_bind Hrun as v2 a2 E2. rewrite Ht in E2. injection E2 as <- <-.
  open_bind Hrun as v3 a3 E3. rewrite Hc in E3. injection E3 as <- <-. cbv zeta in Hrun.
  open_bind Hrun as v4 a4 E4. rewrite Hst in E4. injection E4 as <- <-.
  assert (fw_sent w4 = fw_sent w3) as Hs by (unfold on_host in Hst; run_inv; done).
  destruct st as [i|e]; [|rewrite Hne in Hrun]; injection Hrun as <- <-; done.
Qed.

(** ** Pagination *)

Lemma page_loop_skip {A} start size (l : list A) idx count :
  idx + Z.of_nat (length l) ≤ start →
  page_loop start size l idx count = ([], (idx + Z.of_nat (length l), count)).
Proof.
  revert idx. induction l as [|x l IH]; intros idx Hl; cbn [page_loop length] in *.
  - by rewrite Z.add_0_r.
  - rewrite Nat2Z.inj_succ in *. destruct (Z.leb_spec start idx); [lia|]. cbn [andb].
    rewrite IH by lia. do 2 f_equal. lia.
Qed.

Lemma page_loop_take {A} start size (l : list A) idx count :
  start ≤ idx → 0 ≤ count ≤ size →
  page_loop start size l idx count =
    (take (Z.to_nat (size - count)) l,
     (idx + Z.of_nat (length l), Z.min size (count + Z.of_nat (length l)))).
Proof.
  revert idx count. induction l as [|x l IH]; intros idx count Hi Hc; cbn [page_loop length].
  - rewrite take_nil, Z.add_0_r. do 2 f_equal. lia.
  - rewrite Nat2Z.inj_succ. destruct (Z.leb_spec start idx); [|lia]. cbn [andb].
    destruct (Z.ltb_spec count size).
    + rewrite IH by lia. replace (Z.to_nat (size - count)) with (Datatypes.S (Z.to_nat (size - (count + 1)))) by lia.
      cbn [take]. do 2 f_equal; [|f_equal]; lia.
    + rewrite IH by lia. replace (Z.to_nat (size - count)) with 0%nat by lia.
      cbn [take]. do 2 f_equal; lia.
Qed.

(** The loop from index [idx], nothing counted before [start]. *)
Lemma page_loop_spec {A} start size (l : list A) idx :
  0 ≤ idx ≤ start → 0 ≤ size →
  page_loop start size l idx 0 =
    (take (Z.to_nat size) (drop (Z.to_nat (start - idx)) l),
     (idx + Z.of_nat (length l), Z.min size (Z.max 0 (idx + Z.of_nat (length l) - start)))).
Proof.
  revert idx. induction l as [|x l IH]; intros idx Hi Hs.
  - cbn. rewrite drop_nil, take_nil, Z.add_0_r. do 2 f_equal. lia.
  - destruct (Z.eq_dec idx start) as [->|].
    + rewrite page_loop_take by lia. rewrite Z.sub_diag, Z.sub_0_r. cbn [Z.to_nat drop].
      do 2 f_equal. lia.
    + cbn [page_loop length]. destruct (Z.leb_spec start idx); [lia|]. cbn [andb].
      rewrite IH by lia.
      replace (Z.to_nat (start - idx)) with (Datatypes.S (Z.to_nat (start - (idx + 1)))) by lia.
      cbn [drop]. do 2 f_equal; lia.
Qed.

(** C38: The two loops of the pagination give the reference page: the directories
    and then the files, [size] entries after the first [(page - 1) * size],
    for every positive page and size whose offset fits an [int]
    ([huge_page_list] is one whose offset does not). *)
Theorem paginate_equiv {A B} page size (dirs : list A) (files : list B)
  (Hpage : 1 ≤ page) (Hsize : 1 ≤ size) (Hint : (page - 1) * size ≤ max_int64) :
  let '(d, f) := paginate page size dirs files in
  (inl <$> d) ++ (inr <$> f) =
  take (Z.to_nat size) (drop (Z.to_nat ((page - 1) * size)) ((inl <$> dirs) ++ (inr <$> files))).
Proof.
  unfold paginate. rewrite wrap64_small by (unfold min_int64; nia).
  set (start := (page - 1) * size) in *. assert (0 ≤ start) by nia.
  destruct (Z.ltb_spec start (Z.of_nat (length dirs) + Z.of_nat (length files))) as [Hlt|Hge].
  - rewrite page_loop_spec by lia. rewrite Z.add_0_l, !Z.sub_0_r.
    destruct (Z.le_gt_cases start (Z.of_nat (length dirs))) as [Hd|Hd].
    + rewrite page_loop_take by lia.
      rewrite drop_app_le, take_app by (rewrite length_fmap; lia).
      rewrite fmap_take, fmap_drop. f_equal. rewrite fmap_take. f_equal.
      rewrite length_drop, length_fmap. lia.
    + rewrite (drop_ge dirs) by lia.
      replace (Z.min size _) with 0 by lia. rewrite page_loop_spec by lia.
      rewrite take_nil. cbn [fmap list_fmap app]. rewrite drop_app_ge by (rewrite length_fmap; lia).
      rewrite fmap_take, fmap_drop, length_fmap. do 2 f_equal. lia.
  - rewrite drop_ge by (rewrite length_app, !length_fmap; lia). by rewrite take_nil.
Qed.

(** ** Temporary files *)

Definition disk (w : W) : gset string * list upload_task * gset string := (fw_temps w, fw_tasks w, fw_stuck w).

Lemma disk_host {A} (c : M S A) : keeps disk (on_host c).
Proof. by apply keeps_lift. Qed.
Lemma disk_redis {A} (c : M K A) : keeps disk (on_redis c).
Proof. by apply keeps_lift. Qed.
Lemma disk_store_check u t : keeps disk (store_check u t).
Proof. intros w w' a E. unfold store_check in E. by run_inv. Qed.
Lemma disk_store_home u : keeps disk (store_home u).
Proof. intros w w' a E. unfold store_home in E. by run_inv. Qed.
Lemma disk_exec u root c cmd : keeps disk (exec u root c cmd).
Proof. intros w w' a E. unfold exec, on_host in E. by run_inv. Qed.
#[local] Hint Resolve disk_host disk_redis disk_store_check disk_store_home disk_exec : keeps.

Lemma disk_recently_checked u : keeps disk (recently_checked u).
Proof. unfold recently_checked. solve_keeps. Qed.
#[local] Hint Resolve disk_recently_checked : keeps.
Lemma disk_check_session u root c : keeps disk (check_session u root c).
Proof. unfold check_session. solve_keeps. Qed.
#[local] Hint Resolve disk_check_session : keeps.
Lemma disk_session u root : keeps disk (getOrReconnectSession u root).
Proof. unfold getOrReconnectSession. solve_keeps. Qed.
#[local] Hint Resolve disk_session : keeps.
Lemma disk_getSftpClient u root : keeps disk (getSftpClient u root).
Proof. unfold getSftpClient. solve_keeps. Qed.
Lemma disk_getSSHClient u root : keeps disk (getSSHClient u root).
Proof. unfold getSSHClient. solve_keeps. Qed.
Lemma disk_ensure_home u c h : keeps disk (ensure_home u c h).
Proof. unfold ensure_home. solve_keeps. Qed.
#[local] Hint Resolve disk_getSftpClient disk_getSSHClient disk_ensure_home : keeps.
Lemma disk_executeSSHCommand u cmd root : keeps disk (executeSSHCommand u cmd root).
Proof. unfold executeSSHCommand. solve_keeps. Qed.
Lemma disk_resolvePath u p root : keeps disk (resolvePath u p root).
Proof. unfold resolvePath. solve_keeps. Qed.
Lemma disk_invalidate u root p : keeps disk (invalidateFileListCache u root p).
Proof. unfold invalidateFileListCache. solve_keeps. Qed.
Lemma disk_reportProgress k d : keeps disk (reportProgress k d).
Proof. unfold reportProgress. solve_keeps. Qed.
#[local] Hint Resolve disk_executeSSHCommand disk_resolvePath disk_invalidate disk_reportProgress : keeps.
Lemma disk_progressKey u f t root : keeps disk (getUploadProgressKey u f t root).
Proof. unfold getUploadProgressKey. solve_keeps. Qed.
Lemma disk_progress_Read report n eof r :
  (∀ a b c, keeps disk (report a b c)) → keeps disk (progress_Read report n eof r).
Proof. intros. unfold progress_Read. solve_keeps. Qed.
#[local] Hint Resolve disk_progressKey disk_progress_Read : keeps.
Lemma disk_progress_reads report reads r :
  (∀ a b c, keeps disk (report a b c)) → keeps disk (progress_reads report reads r).
Proof.
  intros Hr. revert r. induction reads as [|[n eof] reads IH]; intros r; cbn; [apply keeps_ret|].
  apply keeps_bind; [by apply disk_progress_Read|done].
Qed.
#[local] Hint Resolve disk_progress_reads : keeps.
Lemma disk_upload_body t : keeps disk (upload_body t).
Proof. unfold upload_body. solve_keeps. Qed.
Lemma disk_cached_list k : keeps disk (cached_list k).
Proof. unfold cached_list. solve_keeps. Qed.
Lemma disk_load_uids u root : keeps disk (load_uids u root).
Proof. unfold load_uids. solve_keeps. Qed.
Lemma disk_requested_path u p : keeps disk (requested_path u p).
Proof. unfold requested_path. solve_keeps. Qed.
#[local] Hint Resolve disk_upload_body disk_cached_list disk_load_uids disk_requested_path : keeps.
Lemma disk_read_directory u root p k : keeps disk (read_directory u root p k).
Proof. unfold read_directory. solve_keeps. Qed.
#[local] Hint Resolve disk_read_directory : keeps.

(** The operations of the service, one after the other. *)
Inductive file_step : W → W → Prop :=
  | step_upload u f n t root w w' r : UploadFile u f n t root w = (w', r) → file_step w w'
  | step_run i w w' x : run_task i w = (w', x) → file_step w w'
  | step_list u q root w w' r : GetFileList u q root w = (w', r) → file_step w w'
  | step_home u q root w w' r : GetHomeDirectoriesList u q root w = (w', r) → file_step w w'
  | step_download u p root w w' r : DownloadFile u p root w = (w', r) → file_step w w'
  | step_delete u p root w w' r : DeleteFile u p root w = (w', r) → file_step w w'
  | step_unzip u p t root w w' r : UnzipFile u p t root w = (w', r) → file_step w w'
  | step_progress u f t w w' r : GetUploadProgress u f t w = (w', r) → file_step w w'.

(** Every temporary file is that of an upload that has not run yet, or was to be
    removed in vain; no removal fails on a disk that removes files. *)
Definition temps_owned (w : W) : Prop :=
  ∀ t, t ∈ fw_temps w → t ∈ fw_stuck w ∨ ∃ task, task ∈ fw_tasks w ∧ ut_TempFilePath task = t.
Definition removes_files : Prop := ∀ t s s' r, lf_Remove t s = (s', r) → is_ok r = true.
Definition disk_ok (w : W) : Prop := temps_owned w ∧ (removes_files → fw_stuck w = ∅).

Lemma owned_disk w w' : disk w' = disk w → disk_ok w → disk_ok w'.
Proof. unfold disk, disk_ok, temps_owned. intros [= -> -> ->]. done. Qed.

Lemma remove_temp_spec t w w' x :
  remove_temp t w = (w', x) → fw_tasks w' = fw_tasks w ∧
  (fw_temps w' = fw_temps w ∖ {[t]} ∧ fw_stuck w' = fw_stuck w ∨
   fw_temps w' = fw_temps w ∧ fw_stuck w' = {[t]} ∪ fw_stuck w ∧ ¬ removes_files).
Proof.
  unfold remove_temp. intros E. open_bind E as w1 r E1. unfold on_host in E1. run_inv.
  destruct (is_ok r) eqn:Ha; unfold modify in E; injection E as <-; (split; [done|]); [by left|right].
  split_and!; [done..|]. intros Hr. apply Hr in E0. congruence.
Qed.
(** A file that is removed, or was to be, needs no task any more. *)
Lemma owned_remove t w w' x :
  remove_temp t w = (w', x) →
  (∀ t', t' ∈ fw_temps w → t' = t ∨ t' ∈ fw_stuck w ∨ ∃ task, task ∈ fw_tasks w ∧ ut_TempFilePath task = t') →
  (removes_files → fw_stuck w = ∅) → disk_ok w'.
Proof.
  intros (Ht & [[Hte Hs]|(Hte & Hs & Hr)])%remove_temp_spec Hw Hok; (split; [|rewrite Hs; by auto]); intros t'.
  - rewrite Hte, Hs, Ht. intros [Hin Hne]%elem_of_difference. destruct (Hw t' Hin) as [->|?]; [set_solver|done].
  - rewrite Hte, Hs, Ht. intros Hin. destruct (Hw t' Hin) as [->|[?|?]]; [left; set_solver|left; set_solver|by right].
Qed.

Lemma owned_upload u f n t root w w' r :
  UploadFile u f n t root w = (w', r) → disk_ok w → disk_ok w'.
Proof.
  unfold UploadFile. intros E Hw. open_bind E as w1 [|] E1; apply disk_host in E1.
  2:{ injection E as <- <-. by eapply owned_disk. }
  open_bind E as w2 [tmp|] E2; apply disk_host in E2.
  2:{ injection E as <- <-. eapply owned_disk; [|done]. congruence. }
  assert (disk_ok w2) as [Hw2 Hok] by (eapply owned_disk; [|done]; congruence).
  open_bind E as w3 x E3. open_bind E as w4 [|] E4; apply disk_host in E4; injection E4 as E4 E4' E4''.
  - open_bind E as w5 y E5. unfold spawn, add_temp in E5, E3. run_inv. split; cbn; [|by rewrite E4''].
    intros t'. cbn. rewrite E4, E4', E4''. cbn. intros [->%elem_of_singleton|Ht]%elem_of_union.
    + right. eexists. split; [apply elem_of_app; right; by left|done].
    + destruct (Hw2 _ Ht) as [?|(k & ? & ?)]; [by left|right]. exists k. split; [|done]. apply elem_of_app. by left.
  - open_bind E as w5 y E5. unfold add_temp in E3. run_inv. cbn in *. eapply owned_remove; [exact E5| |by rewrite E4''].
    intros t'. rewrite E4, E4', E4''. intros [->%elem_of_singleton|Ht]%elem_of_union; [by left|right]. by apply Hw2.
Qed.

Lemma owned_run i w w' x : run_task i w = (w', x) → disk_ok w → disk_ok w'.
Proof.
  unfold run_task. intros E Hw. open_bind E as w1 o E1. unfold gets in E1. injection E1 as <- <-.
  destruct (fw_tasks w !! i) as [task|] eqn:Ei; [|by run_inv]. destruct Hw as [Hw Hok].
  open_bind E as w2 y E2. unfold asyncUploadToSFTP in E. open_bind E as w3 z E3.
  apply disk_upload_body in E3. injection E3 as E3 E3' E3''.
  unfold modify in E2. injection E2 as <-. cbn in *. eapply owned_remove; [exact E| |by rewrite E3''].
  intros t. rewrite E3, E3', E3''. intros Ht. destruct (Hw t Ht) as [?|(k & Hk & <-)]; [by right; left|].
  apply list_elem_of_lookup in Hk as [j Hj].
  destruct (decide (ut_TempFilePath k = ut_TempFilePath task)) as [?|Hne]; [by left|].
  right. right. exists k. split; [|done].
  rewrite <- (take_drop_middle _ _ _ Ei) in Hj. rewrite delete_take_drop.
  apply elem_of_app. apply list_elem_of_lookup_2 in Hj as Hj'.
  apply elem_of_app in Hj' as [?|[->|?]%elem_of_cons]; [by left|done|by right].
Qed.

Ltac by_disk :=
  match goal with
  | E : ?c ?w = (?w', _) |- _ =>
      eapply owned_disk; [|eassumption]; refine ((_ : keeps disk c) _ _ _ E); solve_keeps
  end.

(** C28: No upload forgets its temporary file: in every state the operations of
    the service reach, with any failures, each temporary file on the local disk
    belongs to an upload that is still to run, or its removal was tried and the
    disk refused it.  So when no upload is pending only such files are left, and
    none at all when the disk refuses no removal. *)
Theorem uploads_clean_up w w'
  (Hw : fw_temps w = ∅) (Hs : fw_stuck w = ∅) (Hsteps : rtc file_step w w') :
  (∀ t, t ∈ fw_temps w' → t ∈ fw_stuck w' ∨ ∃ task, task ∈ fw_tasks w' ∧ ut_TempFilePath task = t) ∧
  (fw_tasks w' = [] → fw_temps w' ⊆ fw_stuck w') ∧
  ((∀ t s s' r, lf_Remove t s = (s', r) → is_ok r = true) → fw_tasks w' = [] → fw_temps w' = ∅).
Proof.
  assert (disk_ok w') as [Ho Hok].
  { assert (disk_ok w) as H0 by (split; [intros t; rewrite Hw; set_solver|by intros _]). clear Hw Hs.
    induction Hsteps as [|x y z Hs _ IH]; [done|]. apply IH. destruct Hs.
    - by eapply owned_upload.
    - by eapply owned_run.
    - unfold GetFileList in *. by_disk.
    - unfold GetHomeDirectoriesList in *. by_disk.
    - unfold DownloadFile in *. by_disk.
    - unfold DeleteFile in *. by_disk.
    - unfold UnzipFile in *. by_disk.
    - unfold GetUploadProgress in *. by_disk. }
  assert (fw_tasks w' = [] → fw_temps w' ⊆ fw_stuck w') as Hn.
  { intros Hn t Ht. destruct (Ho t Ht) as [?|(k & Hk & _)]; [done|]. rewrite Hn in Hk. set_solver. }
  split; [exact Ho|]. split; [exact Hn|]. intros Hr Ht. specialize (Hn Ht). rewrite (Hok Hr) in Hn. set_solver.
Qed.

(** ** Percentages *)

(** The progress of an upload and the share of a disk are between 0 and 100
    percent when the part does not exceed the total: rounding in the division
    and in the multiplication never leaves the range, and the whole is
    exactly 100. *)
Theorem percent_range part total
  (Hpart : 0 ≤ part ≤ total) (Htotal : 0 < total) :
  0 ≤ percent part total ≤ f_of_int 100 ∧ percent total total = f_of_int 100.
Proof.
  assert (f_of_int 100 = 100 * f_one) as Hc by by apply f_of_int_exact.
  pose proof f_one_pos as H1. pose proof (f_of_int_pos total Htotal) as Ht.
  assert (f_of_int 0 = 0) as H0 by reflexivity.
  pose proof (f_of_int_mono 0 part ltac:(lia)) as Hp0. rewrite H0 in Hp0.
  pose proof (f_of_int_mono part total ltac:(lia)) as Hpt.
  assert (∀ x, 0 ≤ x ≤ 2 ^ 1074 → 0 ≤ f_mul_int x 100 ≤ f_of_int 100) as Hmul.
  { intros x Hx. unfold f_mul_int. rewrite Hc.
    assert (100 * f_one = round64 (100 * f_one)) as Hr.
    { symmetry. rewrite <- Hc. apply round64_exact, f_of_int_representable. }
    rewrite Hr. replace 0 with (round64 0) by reflexivity.
    split; apply round64_mono; rewrite ?f_one_pow; lia. }
  assert (percent total total = f_of_int 100) as Hfull.
  { unfold percent. destruct (Z.ltb_spec 0 total); [|lia]. unfold f_div.
    destruct (Z.ltb_spec (f_of_int total) 0); [lia|].
    replace (round_quot (f_of_int total * f_one) (f_of_int total)) with f_one.
    - unfold f_mul_int. rewrite Z.mul_comm, <- Hc. apply round64_exact, f_of_int_representable.
    - unfold round_quot. rewrite Z.mul_comm, Z.div_mul by lia.
      rewrite f_one_pow, Z.log2_pow2 by lia.
      assert (2 ^ 53 ≤ 2 ^ 1074) by (apply Z.pow_le_mono_r; lia).
      destruct (Z.ltb_spec (2 ^ 1074) (2 ^ 53)); [lia|].
      assert (2 ^ 1074 = 2 ^ 52 * 2 ^ (1074 - 52)) as Hpow by by rewrite <- Z.pow_add_r.
      replace (2 ^ 1074 * f_of_int total) with (2 ^ 52 * (f_of_int total * 2 ^ (1074 - 52)))
        by (rewrite Hpow; ring).
      rewrite rne_div_exact by (apply Z.mul_pos_pos; [done|by apply Z.pow_pos_nonneg]). done. }
  split; [|done]. unfold percent. destruct (Z.ltb_spec 0 total); [|lia]. apply Hmul. unfold f_div.
  destruct (Z.ltb_spec (f_of_int part) 0); [lia|]. rewrite f_one_pow in *. apply round_quot_unit; nia.
Qed.

End FileService.
#[export] Existing Instance sent_by_preorder.

(** ** A concrete server *)

(** The paths that exist; "ann" is logged in; [rm] removes its argument. *)
Definition demo_info (q : string) : file_info := mkInfo (Base q) 0 0 false SysNil.
#[export] Instance demo_files : FileHost (list string) unit string := {|
  fh_now s := (s, 0);
  fh_GetSession _ _ s := (s, Ok (mkFileSession "ann" (Some tt)));
  fh_EnsureSSHSessionByType _ _ s := (s, Ok tt);
  fh_HasSystemAccess _ s := (s, Ok false);
  fh_ExecuteCommand _ cmd s :=
    match sh_words cmd with
    | Some [_; _; q] => (List.filter (λ x, negb (String.eqb x q)) s, Ok ""%string)
    | _ => (s, Ok ""%string)
    end;
  fh_ExecuteCommandWithStatus _ _ s := (s, (""%string, 0, None));
  fh_has_sftp _ := true;
  fh_Stat _ q s := (s, if existsb (String.eqb q) s then Ok (demo_info q) else Err (ErrExt 2));
  fh_StatVFS _ _ s := (s, Err (ErrExt 0));
  fh_MkdirAll _ q s := (q :: s, Ok tt);
  fh_RealPath _ q s := (s, Ok q);
  fh_ReadDir _ q s := (s, Ok []);
  fh_Open _ q s := (s, if existsb (String.eqb q) s then Ok q else Err (ErrExt 2));
  fh_FStat q s := (s, Ok (demo_info q));
  fh_Create _ q s := (q :: s, Ok q);
  fh_Close _ s := (s, Ok tt);
  fh_Remove _ q s := (List.filter (λ x, negb (String.eqb x q)) s, Ok tt);
  fh_Copy _ _ s := (s, ([(3, false); (0, true)], Ok tt));
  fh_IsNotExist e := match e with ErrExt 2 => true | _ => false end;
  lf_MkdirAll _ s := (s, Ok tt);
  lf_CreateTemp d p s := (s, Ok (d +:+ "/" +:+ p));
  lf_CopyTo _ s := (s, Ok tt);
  lf_Open _ s := (s, Ok tt);
  lf_Remove _ s := (s, Ok tt)
|}.

Definition demo_fworld : fworld (list string) kview :=
  mkFworld ["/home/ann"; "/home/ann/a'b.zip"; "/home/annette/secret"]%string (mkKview ∅ ∅) ∅ ∅ [] ∅ [] ∅.
Definition demo_text (e : error) : string := "".
Definition demo_list_codec : codec list_cache := mkCodec _ (λ _, Err (ErrExt 0)) (λ _, Err (ErrExt 0)).
Definition demo_progress_codec : codec UploadProgressData :=
  mkCodec _ (λ d, Ok (UploadProgressData.Status d)) (λ _, Err (ErrExt 0)).

(** The home of another user whose name begins with the name of the session's
    user is not refused. *)
Example resolve_sibling :
  snd (resolvePath "/home" true 7 "/home/annette/secret" false demo_fworld) =
  Ok "/home/annette/secret"%string.
Proof. vm_compute. reflexivity. Qed.
Example resolve_sibling_relative :
  snd (resolvePath "/home" true 7 "../annette/secret" false demo_fworld) =
  Ok "/home/annette/secret"%string.
Proof. vm_compute. reflexivity. Qed.
Example resolve_outside :
  snd (resolvePath "/home" true 7 "/home/bob" false demo_fworld) =
  Err (New CodeForbidden "访问被拒绝：只能访问用户主目录下的文件").
Proof. vm_compute. reflexivity. Qed.

(** The archive "...zip" without its extension is "..": it would be unpacked into
    the directory the home is in.  What stops this on a real host is that this
    directory exists; here the host answers that it does not. *)
Example unpack_beside :
  expected_dir_name "/home/ann/...zip" = ".."%string ∧
  (7, false, unzip_command "/home/ann/...zip" "/home") ∈
    fw_sent (fst (UnzipFile demo_text "/home" true true 7 "...zip" "." false demo_fworld)).
Proof. split; [vm_compute; reflexivity|]. apply (bool_decide_unpack _). vm_compute. done. Qed.

(** A page number whose offset overflows: the listing gives the first page
    again, the home listing panics. *)
Definition huge_page : Z := 2 ^ 62 + 2.
Example huge_page_list : paginate huge_page 2 [1; 2; 3] [4] = ([1; 2], []).
Proof. vm_compute. reflexivity. Qed.
Example huge_page_home :
  home_page (2 ^ 61 + 2) 4 [dir_item "/home" "ann" (demo_info "/home/ann")] =
  Err (ErrPanic "slice bounds out of range").
Proof. vm_compute. reflexivity. Qed.

Lemma demo_session_user (s s' : list string) u oc :
  fh_GetSession 7 false s = (s', Ok (mkFileSession u oc)) → u = "ann"%string.
Proof. intros E. cbn in E. congruence. Qed.

Lemma resolvePath_confined_witness :
  let '(w', r) := resolvePath "/home" true 7 "x/../y" false demo_fworld in
  match r with
  | Ok q => extends_home (home_dir "/home" "ann") q
  | Err _ => False
  end.
Proof.
  destruct (resolvePath "/home" true 7 "x/../y" false demo_fworld) as [w' r] eqn:E.
  assert (r = Ok "/home/ann/y"%string) as -> by (vm_compute in E; congruence).
  apply (resolvePath_confined "/home" true 7 "ann" demo_session_user eq_refl eq_refl
           "x/../y" demo_fworld w' _ [] E (List.Forall_nil _)).
Defined.

Lemma file_commands_confined_witness :
  let '(w1, r1) := DeleteFile demo_text "/home" true true 7 "a'b.zip" false demo_fworld in
  let '(w2, r2) := UnzipFile demo_text "/home" true true 7 "a'b.zip" "out" false w1 in
  r1 = Ok tt ∧ ∃ l, fw_sent w2 = l ++ [] ∧ Forall (confined_command "/home" 7 "ann") l.
Proof.
  destruct (DeleteFile demo_text "/home" true true 7 "a'b.zip" false demo_fworld) as [w1 r1] eqn:E1.
  destruct (UnzipFile demo_text "/home" true true 7 "a'b.zip" "out" false w1) as [w2 r2] eqn:E2.
  split; [vm_compute in E1; congruence|].
  apply (file_commands_confined demo_text "/home" true true 7 "ann" demo_session_user
           eq_refl eq_refl "a'b.zip" "out" demo_fworld w1 w2 r1 r2 E1 E2).
Defined.

Lemma DeleteFile_verified_witness :
  ∃ w' w1 q, DeleteFile demo_text "/home" true true 7 "a'b.zip" false demo_fworld = (w', Ok tt) ∧
    resolvePath "/home" true 7 "a'b.zip" false demo_fworld = (w1, Ok q) ∧
    (7, false, delete_command q) ∈ fw_sent w'.
Proof.
  destruct (DeleteFile_verified demo_text "/home" true true 7 "a'b.zip" false demo_fworld
    (fst (DeleteFile demo_text "/home" true true 7 "a'b.zip" false demo_fworld)))
    as (w1 & q & c & s & s' & e & Hq & Hin & _).
  - apply run_eq. vm_compute. reflexivity.
  - eexists _, w1, q. split; [|done]. apply run_eq. vm_compute. reflexivity.
Defined.

(** The directory "a'b" exists next to the archive. *)
Definition demo_unpacked : fworld (list string) kview :=
  mkFworld ["/home/ann"; "/home/ann/a'b.zip"; "/home/ann/a'b"]%string (mkKview ∅ ∅) ∅ ∅ [] ∅ [] ∅.
Definition demo_w1 := fst (resolvePath "/home" true 7 "a'b.zip" false demo_unpacked).
Definition demo_w2 := fst (resolvePath "/home" true 7 "." false demo_w1).
Definition demo_w3 := fst (getSftpClient (F := string) true 7 false demo_w2).
Lemma UnzipFile_no_overwrite_witness :
  let '(w', r) := UnzipFile demo_text "/home" true true 7 "a'b.zip" "." false demo_unpacked in
  r = Err (New CodeFileExists "目标路径已存在文件或目录: a'b").
Proof.
  destruct (UnzipFile demo_text "/home" true true 7 "a'b.zip" "." false demo_unpacked) as [w' r] eqn:E.
  refine (proj2 (proj2 (UnzipFile_no_overwrite demo_text "/home" true true 7 "a'b.zip" "." false
    demo_unpacked demo_w1 "/home/ann/a'b.zip" demo_w2 "/home/ann" demo_w3 tt
    (Ok (demo_info "/home/ann/a'b")) demo_w3 w' r _ _ _ _ eq_refl E))).
  all: vm_compute; reflexivity.
Defined.

Lemma paginate_equiv_witness :
  let '(d, f) := paginate 2 2 [1; 2; 3] [true; false] in
  (inl <$> d) ++ (inr <$> f) = [inl 3; inr true].
Proof. apply (paginate_equiv 2 2 [1; 2; 3] [true; false]); unfold max_int64; lia. Defined.

Lemma uploads_clean_up_witness :
  let w1 := fst (UploadFile 7 "f" 3 "d" false demo_fworld) in
  let w2 := fst (run_task demo_progress_codec demo_text 0 "/home" true true 0 w1) in
  size (fw_temps w1) = 1%nat ∧ fw_temps w2 = ∅.
Proof.
  cbv zeta. split; [vm_compute; reflexivity|].
  refine (proj2 (proj2 (uploads_clean_up demo_list_codec demo_progress_codec demo_text 0 "/home" true true
    demo_fworld _ eq_refl eq_refl _)) _ _).
  - eapply rtc_l; [eapply step_upload; apply surjective_pairing|].
    eapply rtc_l; [|apply rtc_refl]. eapply step_run. apply surjective_pairing.
  - intros ???? E0. cbn in E0. by simplify_eq.
  - vm_compute. reflexivity.
Defined.

Lemma percent_range_witness : 0 ≤ percent 1 3 ≤ f_of_int 100 ∧ percent 3 3 = f_of_int 100.
Proof. apply (percent_range 1 3); lia. Defined.
