(* ===== verification/DiskUsage.v ===== *)
(** * Disk usage (internal/service/files_service.go, disk_usage_scheduler.go)

    Sizes of directories and their share of the file system, from the output
    of [du], [df] and [stat]; the cache of the results; the usage of all users
    over the root session; the scheduler that refreshes it once a day. *)

From S2P Require Import Prelude GoStrings Float64 Errors Entity SessionRepo Exec GoPath Shell FileService.

Open Scope Z_scope.

(** ** Reading command output *)

(** The last line that is not blank, trimmed. *)
Definition last_line (text : string) : string :=
  default ""%string (List.find (λ l, negb (String.eqb l ""))
    (TrimSpace <$> reverse (Split newline text))).
(** The first field of a text, the text itself when it has none. *)
Definition first_field (text line : string) : string :=
  match Fields line with f :: _ => f | [] => text end.

(** The line of [df -kP] with the numbers: the last one that is neither
    blank nor a header. *)
Definition df_line (outTotal : string) : string :=
  default ""%string
    (List.find (λ l, negb (String.eqb l "" || Contains l "Filesystem" || Contains l "1024-blocks"))
       (TrimSpace <$> reverse (Split newline (TrimSpace outTotal)))).

(** The index of the last field that ends in a percent sign. *)
Fixpoint cap_index (fields : list string) (i : nat) : option nat :=
  match fields with
  | [] => None
  | f :: rest =>
      match cap_index rest (S i) with
      | Some j => Some j
      | None => if HasSuffix f "%" then Some i else None
      end
  end.
Definition kilobytes (field : string) : option Z :=
  match ParseInt field with Ok t => Some (wrap64 (t * 1024)) | Err _ => None end.
(** The two attempts: three columns before the capacity, else the fifth
    column from the end. *)
Definition df_fields (fields : list string) : option Z :=
  let first := match cap_index fields 0 with
               | Some i => if bool_decide (3 ≤ i)%nat
                           then kilobytes (default ""%string (fields !! (i - 3)%nat)) else None
               | None => None
               end in
  match first with
  | Some t => Some t
  | None => if bool_decide (5 ≤ length fields)%nat
            then kilobytes (default ""%string (fields !! (length fields - 5)%nat)) else None
  end.
Definition df_total (outTotal : string) : option Z :=
  let targetLine := df_line outTotal in
  if String.eqb targetLine "" then None else df_fields (Fields targetLine).

(** Blocks times block size from the first two fields. *)
Definition stat_fields (fields : list string) : option Z :=
  match fields with
  | b :: ssz :: _ =>
      match ParseInt b, ParseInt ssz with
      | Ok b, Ok ssz => Some (wrap64 (b * ssz))
      | _, _ => None
      end
  | _ => None
  end.
(** The last line of the output of [stat -f]. *)
Definition stat_total (outStat : string) : option Z :=
  if String.eqb (TrimSpace outStat) "" then None
  else stat_fields (Fields (default ""%string (last (Split newline (TrimSpace outStat))))).

Example df_ex : df_total
  ("Filesystem     1024-blocks    Used Available Capacity Mounted on" +:+ nl +:+
   "/dev/sda1         41152736 8324216  30714980      22% /" +:+ nl) = Some 42140401664.
Proof. vm_compute. reflexivity. Qed.
(** A mount point with a blank and a percent sign moves the column. *)
Example df_percent_mount : df_total "/dev/sdb1 100 40 60 40% /mnt/my 50%" = Some (60 * 1024).
Proof. vm_compute. reflexivity. Qed.

(** ** Data *)

Module DiskUsageData.
Record DiskUsageData : Type := mkDiskUsageData { DirectorySize : Z; DiskUsage : float64 }.
End DiskUsageData.
Notation DiskUsageData := DiskUsageData.DiskUsageData.

Module UserDiskUsageData.
Record UserDiskUsageData : Type := mkUserDiskUsageData {
  UserID : Z; Username : string; DirectorySize : Z; DiskUsage : float64; HomeDirectory : string
}.
End UserDiskUsageData.
Notation UserDiskUsageData := UserDiskUsageData.UserDiskUsageData.

Section DiskUsage.
Context {S C F : Type} `{FileHost S C F} {K : Type} {KV : Kv K}.
Variable usage_codec : codec DiskUsageData.
Variable lib_text : error → string.
Variable cfg_BasePath : string.
Variables has_manager has_redis : bool.

Notation W := (fworld S K).
Notation run_cmd := (executeSSHCommand lib_text has_manager).

Definition usage_key (userID : Z) (p : string) : string :=
  "disk:usage:" +:+ Itoa userID +:+ ":" +:+ p.

(** A nil Redis repository panics. *)
Definition SetDiskUsageCache (userID : Z) (p : string) (data : DiskUsageData) : M W (result unit) :=
  match marshal usage_codec data with
  | Err e => mret (Err e)
  | Ok jsonData =>
      if negb has_redis then mret (Err (ErrPanic "nil pointer dereference"))
      else on_redis (kv_Set (usage_key userID p) jsonData (25 * 3600 * second))
  end.
Definition GetDiskUsageCache (userID : Z) (p : string) : M W (result (option DiskUsageData)) :=
  if negb has_redis then mret (Err (ErrPanic "nil pointer dereference"))
  else
    r ← on_redis (kv_Get (usage_key userID p));
    mret (match r with
          | Err e => Err e
          | Ok v => if String.eqb v "" then Ok None
                    else match unmarshal usage_codec v with Ok d => Ok (Some d) | Err e => Err e end
          end).

(** ** The usage of a directory *)

Definition awk1 : string := " | awk '{print $1}'".
Definition quiet : string := " 2>/dev/null".
Definition denied : string := "Permission denied".
Definition stat_cmd (safePath : string) : string :=
  concat_strings ["stat -f -c "; dquote; "%b %S"; dquote; " "; safePath; " || stat -f "; dquote;
                  "%b %S"; dquote; " "; safePath].

(** The size by [du]: the steps of [GetDiskUsage] up to the total. *)
Definition usage_size (userID : Z) (safePath : string) (isRootMode : bool) : M W (result Z) :=
  o ← run_cmd userID ("du -sb " +:+ safePath +:+ quiet +:+ awk1) isRootMode;
  match o with
  | Err err =>
      if Contains (err_Error lib_text err) denied
      then mret (Err (NewWithErr CodeForbidden "权限不足，无法访问该目录" err))
      else
        o2 ← run_cmd userID ("du -sk " +:+ safePath +:+ quiet +:+ awk1) isRootMode;
        let failed := Err (NewWithErr CodeSSHCommandExecutionFailed
                             ("获取目录大小失败: " +:+ err_Error lib_text err +:+ ", output: ") err) in
        match o2 with
        | Err _ => mret failed
        | Ok out =>
            let kbStr := TrimSpace out in
            if String.eqb kbStr "" then mret failed
            else match ParseInt (first_field kbStr (last_line kbStr)) with
                 | Ok kb => mret (Ok (wrap64 (kb * 1024)))
                 | Err _ => mret (Ok 0)
                 end
        end
  | Ok output =>
      sizeStr ← (if String.eqb (TrimSpace output) "" then
                   d ← run_cmd userID ("du -sb " +:+ safePath +:+ quiet) isRootMode;
                   mret (match d with Ok out => TrimSpace out | Err _ => ""%string end)
                 else mret (TrimSpace output));
      if String.eqb sizeStr "" then mret (Ok 0)
      else
        let f := first_field sizeStr (last_line sizeStr) in
        match ParseInt f with
        | Ok sVal => mret (Ok sVal)
        | Err e => mret (Err (NewWithErr CodeInternalError ("解析目录大小数据失败: " +:+ f) e))
        end
  end.

(** The size of the file system: SFTP, else [df]; 0 when unknown. *)
Definition vfs_total (userID : Z) (resolvedPath : string) (isRootMode : bool) : M W Z :=
  c ← getSftpClient has_manager userID isRootMode;
  match c with
  | Err _ => mret 0
  | Ok client =>
      v ← on_host (fh_StatVFS client resolvedPath);
      mret (match v with
            | Ok (blocks, bsize) => wrap64 (wrap64 blocks * wrap64 bsize)
            | Err _ => 0
            end)
  end.
Definition df_or (userID : Z) (safePath : string) (isRootMode : bool) (totalBytes : Z)
  : M W (option Z) :=
  if totalBytes =? 0 then
    o ← run_cmd userID ("df -kP " +:+ safePath) isRootMode;
    mret (match o with Ok out => df_total out | Err _ => None end)
  else mret (Some totalBytes).
Definition stat_or (userID : Z) (safePath : string) (isRootMode : bool) (totalBytes : Z) : M W Z :=
  if totalBytes =? 0 then
    o ← run_cmd userID (stat_cmd safePath) isRootMode;
    mret (match o with Ok out => default 0 (stat_total out) | Err _ => 0 end)
  else mret totalBytes.

(** The record that is cached and returned. *)
Definition usage_data (size totalBytes : Z) : DiskUsageData :=
  DiskUsageData.mkDiskUsageData size (percent size totalBytes).

Definition GetDiskUsage (userID : Z) (p : string) (isRootMode : bool)
  : M W (result DiskUsageData) :=
  if negb has_redis then mret (Err (ErrPanic "nil pointer dereference"))
  else
    cached ← GetDiskUsageCache userID p;
    match cached with
    | Ok (Some data) => mret (Ok data)
    | _ =>
        r ← resolvePath cfg_BasePath has_manager userID p isRootMode;
        match r with
        | Err e => mret (Err e)
        | Ok resolvedPath =>
            let safePath := shell_quote resolvedPath in
            sz ← usage_size userID safePath isRootMode;
            match sz with
            | Err errDu => mret (Err errDu)
            | Ok size =>
                t1 ← vfs_total userID resolvedPath isRootMode;
                t2 ← df_or userID safePath isRootMode t1;
                totalBytes ← stat_or userID safePath isRootMode (default 0 t2);
                let data := usage_data size totalBytes in
                _ ← SetDiskUsageCache userID p data;
                mret (Ok data)
            end
        end
    end.

(** ** Size on request *)

Definition calc_size (userID : Z) (quotedPath : string) (isRootMode : bool) : M W (result Z) :=
  o ← run_cmd userID ("du -sb " +:+ quotedPath +:+ awk1) isRootMode;
  match o with
  | Err err =>
      if Contains (err_Error lib_text err) denied
      then mret (Err (NewWithErr CodeForbidden "权限不足，无法访问该文件或目录" err))
      else
        o2 ← run_cmd userID ("du -sk " +:+ quotedPath +:+ awk1) isRootMode;
        match o2 with
        | Err e => mret (Err (NewWithErr CodeSSHCommandExecutionFailed
                                ("计算大小失败: " +:+ err_Error lib_text e) e))
        | Ok out =>
            let kbStr := TrimSpace out in
            match ParseInt kbStr with
            | Err e => mret (Err (NewWithErr CodeInternalError ("解析大小数据失败: " +:+ kbStr) e))
            | Ok kb => mret (Ok (wrap64 (kb * 1024)))
            end
        end
  | Ok out =>
      sizeStr ← (if String.eqb (TrimSpace out) "" then
                   d ← run_cmd userID ("du -sb " +:+ quotedPath) isRootMode;
                   mret (match d with Ok o => TrimSpace o | Err _ => ""%string end)
                 else mret (TrimSpace out));
      if String.eqb sizeStr "" then mret (Ok 0)
      else
        let f := first_field sizeStr sizeStr in
        match ParseInt f with
        | Ok b => mret (Ok b)
        | Err e => mret (Err (NewWithErr CodeInternalError ("解析大小数据失败: " +:+ f) e))
        end
  end.

(** The share: the last fallback runs only while the total is still 0, and a
    total that is not positive gives 0. *)
Definition CalculateSize (userID : Z) (p : string) (isRootMode : bool)
  : M W (result (Z * string * float64)) :=
  r ← resolvePath cfg_BasePath has_manager userID p isRootMode;
  match r with
  | Err e => mret (Err e)
  | Ok resolvedPath =>
      let quotedPath := shell_quote resolvedPath in
      sz ← calc_size userID quotedPath isRootMode;
      match sz with
      | Err e => mret (Err e)
      | Ok bytes =>
          t1 ← vfs_total userID resolvedPath isRootMode;
          t2 ← df_or userID quotedPath isRootMode t1;
          total ← stat_or userID quotedPath isRootMode (default 0 t2);
          mret (Ok (bytes, formatFileSize bytes, percent bytes total))
      end
  end.
End DiskUsage.

(** ** The usage of all users *)

(** What the operations over the root session need besides: the session of
    user 0 (its client may be nil), and the users in the order of
    [userRepo.List]. *)
Class RootHost (S C : Type) := {
  rh_GetSession : M S (result (option C));
  rh_DeleteSession : M S unit;
  rh_GetOrCreateSession : M S (result (option C));
  rh_ListUsers : M S (result (list User))
}.

Section AllUsers.
Context {S C F : Type} `{FileHost S C F} `{!RootHost S C} {K : Type} {KV : Kv K}.
Variable usage_codec : codec DiskUsageData.
Variable cfg_BasePath : string.
(** The session manager and the user repository are not nil.  Redis is
    configured: with a nil repository the operations panic at the first use of
    the cache. *)
Variables has_manager has_users : bool.

Notation W := (fworld S K).

(** [ExecuteCommandWithStatus] with an error that is dropped when the exit
    code is 0. *)
Definition status_cmd (c : C) (cmd : string) : M W (string * bool) :=
  x ← on_host (fh_ExecuteCommandWithStatus c cmd);
  let '(output, exitCode, err) := x in
  mret (output, match err with Some _ => exitCode =? 0 | None => true end).

(** The root session: one that answers the health check, else a new one. *)
Definition root_session : M W (result (option C)) :=
  g ← on_host rh_GetSession;
  session ← match g with
            | Ok (Some c) =>
                o ← on_host (fh_ExecuteCommand c "echo 'health_check'");
                if match o with Ok out => String.eqb (TrimSpace out) "health_check" | Err _ => false end
                then mret (Some (Some c))
                else (_ ← on_host rh_DeleteSession; mret None)
            | Ok None => mret (Some None)
            | Err _ => mret None
            end;
  match session with
  | Some c => mret (Ok c)
  | None =>
      n ← on_host rh_GetOrCreateSession;
      mret (match n with
            | Err e => Err (NewWithErr CodeInternalError "获取root会话失败" e)
            | Ok c => Ok c
            end)
  end.

(** The size from [du], 0 when its output is blank or not a number. *)
Definition root_size (output : string) : Z :=
  let sizeStr := TrimSpace output in
  if String.eqb sizeStr "" then 0
  else match ParseInt (first_field sizeStr sizeStr) with Ok s => s | Err _ => 0 end.
(** The second of at least four fields, when it is positive. *)
Definition root_df (output : string) (fine : bool) : Z :=
  if fine && negb (String.eqb (TrimSpace output) "") then
    match Fields (TrimSpace output) with
    | _ :: f1 :: _ :: _ :: _ => match ParseInt f1 with Ok t => if 0 <? t then t else 0 | Err _ => 0 end
    | _ => 0
    end
  else 0.
Definition root_stat (output : string) (fine : bool) : Z :=
  if fine && negb (String.eqb (TrimSpace output) "")
  then default 0 (stat_fields (Fields (TrimSpace output))) else 0.

(** The total by stat when df gave none. *)
Definition root_total (c : C) (safePath : string) (totalBytes : Z) : M W Z :=
  if totalBytes =? 0
  then st ← status_cmd c (stat_cmd safePath); mret (root_stat st.1 st.2)
  else mret totalBytes.

Definition calculateDiskUsageWithRoot (username homeDir : string) : M W (result DiskUsageData) :=
  if negb has_manager then mret (Err (New CodeInternalError "SSH会话管理器未初始化"))
  else
    s ← root_session;
    match s with
    | Err e => mret (Err e)
    | Ok None => mret (Err (New CodeInternalError "root SSH 会话不可用"))
    | Ok (Some c) =>
        let safePath := shell_quote homeDir in
        _ ← on_host (fh_ExecuteCommand c "echo 'ssh_working'");
        x ← on_host (fh_ExecuteCommandWithStatus c
                       ("test -d " +:+ safePath +:+ " && echo 'exists' || echo 'not_exists'"));
        let '(checkOutput, _, checkErr) := x in
        match checkErr with
        | Some e => mret (Err (NewWithErr CodeSSHCommandExecutionFailed "检查目录失败" e))
        | None =>
            if negb (String.eqb (TrimSpace checkOutput) "exists")
            then mret (Err (ErrBiz CodeFileNotFound ("用户目录不存在: " +:+ homeDir) None))
            else
              _ ← on_host (fh_ExecuteCommand c "echo 'test_output'");
              du ← status_cmd c ("du -sb " +:+ safePath +:+ awk1);
              let size := root_size du.1 in
              df ← status_cmd c ("df -B1 " +:+ safePath +:+ " | tail -n 1");
              let t1 := root_df df.1 df.2 in
              totalBytes ← root_total c safePath t1;
              mret (Ok (usage_data size totalBytes))
        end
    end.

Definition home_of (u : User) : string := path_Join (base_path cfg_BasePath) (User.Username u).

(** A user that fails is skipped. *)
Definition refresh_user (u : User) : M W unit :=
  if String.eqb (User.Username u) "" then mret tt
  else
    d ← calculateDiskUsageWithRoot (User.Username u) (home_of u);
    match d with
    | Err _ => mret tt
    | Ok data => _ ← SetDiskUsageCache usage_codec true (User.ID u) (home_of u) data; mret tt
    end.
Definition CalculateAllUsersDiskUsage : M W (result unit) :=
  if negb has_users then mret (Err (New CodeInternalError "userRepo 未初始化"))
  else
    l ← on_host rh_ListUsers;
    match l with
    | Err e => mret (Err (NewWithErr CodeInternalError "获取用户列表失败" e))
    | Ok users => _ ← for_each users refresh_user; mret (Ok tt)
    end.

Definition usage_row (u : User) (size : Z) (usage : float64) : UserDiskUsageData :=
  UserDiskUsageData.mkUserDiskUsageData (User.ID u) (User.Username u) size usage (home_of u).
Definition row_of (u : User) (d : DiskUsageData) : UserDiskUsageData :=
  usage_row u (DiskUsageData.DirectorySize d) (DiskUsageData.DiskUsage d).

(** The row of a user: the cached data, else computed and cached, else 0. *)
Definition user_row (u : User) : M W UserDiskUsageData :=
  c ← GetDiskUsageCache usage_codec true (User.ID u) (home_of u);
  match c with
  | Ok (Some data) => mret (row_of u data)
  | _ =>
      d ← calculateDiskUsageWithRoot (User.Username u) (home_of u);
      match d with
      | Err _ => mret (usage_row u 0 0)
      | Ok data =>
          _ ← SetDiskUsageCache usage_codec true (User.ID u) (home_of u) data;
          mret (row_of u data)
      end
  end.
Definition named (u : User) : bool := negb (String.eqb (User.Username u) "").
Definition GetAllUsersDiskUsage : M W (result (list UserDiskUsageData)) :=
  if negb has_users then mret (Err (New CodeInternalError "userRepo 未初始化"))
  else
    l ← on_host rh_ListUsers;
    match l with
    | Err e => mret (Err (NewWithErr CodeInternalError "获取用户列表失败" e))
    | Ok users => rows ← for_collect (List.filter named users) user_row; mret (Ok rows)
    end.

(** The list of disk usages has one row for every user with a name, in the
    order of the users, with the user's id and home directory, whatever fails
    on the way: a user whose usage cannot be computed is not left out. *)
Theorem GetAllUsersDiskUsage_rows w w1 users w' r
  (Hconf : has_users = true)
  (Husers : on_host rh_ListUsers w = (w1, Ok users))
  (Hrun : GetAllUsersDiskUsage w = (w', r)) :
  ∃ rows, r = Ok rows ∧
    ((λ x, (UserDiskUsageData.UserID x, UserDiskUsageData.HomeDirectory x)) <$> rows) =
    ((λ u, (User.ID u, home_of u)) <$> List.filter named users).
Proof.
  unfold GetAllUsersDiskUsage in Hrun. rewrite Hconf in Hrun. cbn [negb] in Hrun.
  open_bind Hrun as v a E. rewrite Husers in E. injection E as <- <-.
  open_bind Hrun as v rows E. injection Hrun as <- <-. exists rows. split; [done|]. clear Husers.
  revert w1 v rows E. induction (List.filter named users) as [|u l IH]; intros w1 v rows E.
  - by injection E as <- <-.
  - cbn in E. open_bind E as w2 x E1. open_bind E as w3 xs E2. injection E as <- <-.
    cbn. f_equal; [|by eapply IH]. unfold user_row in E1. open_bind E1 as w4 c Ec.
    assert (∀ w5 w6 y, (d ← calculateDiskUsageWithRoot (User.Username u) (home_of u);
      match d with
      | Err _ => mret (usage_row u 0 0)
      | Ok data =>
          _ ← SetDiskUsageCache usage_codec true (User.ID u) (home_of u) data;
          mret (row_of u data)
      end) w5 = (w6, y) → (UserDiskUsageData.UserID y, UserDiskUsageData.HomeDirectory y) =
                          (User.ID u, home_of u)) as Hcalc.
    { intros w5 w6 y E5. open_bind E5 as w7 [d|e] E7; [open_bind E5 as w8 z E8|]; by injection E5 as <- <-. }
    destruct c as [[d|]|e]; [by injection E1 as <- <-|by eapply Hcalc..].
Qed.
(** ** The cache *)

(** What was stored for a user and a path is read back. *)
Lemma usage_cache_roundtrip `{!KvLaws K} u p d (w w1 w2 : W) r
  (Hcodec : ∀ j, marshal usage_codec d = Ok j → j ≠ ""%string ∧ unmarshal usage_codec j = Ok d) :
  SetDiskUsageCache usage_codec true u p d w = (w1, Ok tt) →
  GetDiskUsageCache usage_codec true u p w1 = (w2, r) →
  r = Ok (Some d) ∨ ∃ e, r = Err e.
Proof.
  unfold SetDiskUsageCache, GetDiskUsageCache. cbn [negb].
  destruct (marshal usage_codec d) as [j|] eqn:Ej; [|by intros [= <-]].
  intros E1 E2. open_bind E2 as w3 [v|e] E3; [|right; injection E2 as <- <-; by eexists].
  unfold on_redis, lift in E1, E3. destruct (kv_Set _ _ _ _) as [k1 x1] eqn:Es.
  injection E1 as <- ->. cbn [fw_kv] in E3. destruct (kv_Get _ _) as [k2 x2] eqn:Eg in E3.
  injection E3 as <- ->. apply kv_Set_spec in Es. apply kv_Get_ok in Eg.
  cbn [is_ok] in Es. rewrite Es in Eg. cbn in Eg. rewrite lookup_insert_eq in Eg. injection Eg as <-.
  destruct (Hcodec j eq_refl) as [Hne Hj]. injection E2 as <- <-. left.
  destruct (String.eqb_spec j ""); [done|]. by rewrite Hj.
Qed.

(** The computed value of a user is what the next list shows, as long as
    Redis answers: the refresh and the list use the same key. *)
Lemma refresh_then_row `{!KvLaws K} u (w w1 w2 w3 : W) d r
  (Hcodec : ∀ j, marshal usage_codec d = Ok j → j ≠ ""%string ∧ unmarshal usage_codec j = Ok d)
  (Hset : SetDiskUsageCache usage_codec true (User.ID u) (home_of u) d w = (w1, Ok tt))
  (Hget : GetDiskUsageCache usage_codec true (User.ID u) (home_of u) w1 = (w2, Ok r))
  row (Hrow : user_row u w1 = (w3, row)) :
  row = row_of u d.
Proof.
  destruct (usage_cache_roundtrip _ _ _ _ _ _ _ Hcodec Hset Hget) as [[= ->]|[e ?]]; [|done].
  unfold user_row in Hrow. open_bind Hrow as w4 c Ec. rewrite Hget in Ec. injection Ec as <- <-.
  by injection Hrow as <- <-.
Qed.

End AllUsers.

(** ** The scheduler (disk_usage_scheduler.go) *)

(** [ds_cancelled]: the context is cancelled; [ds_loops]: main loops that
    run; [ds_first]: goroutines of the task at the start that are still to run
    it; [ds_busy]: [taskMu] is held. *)
Record DiskUsageScheduler : Type := mkDiskScheduler {
  ds_isRunning : bool; ds_cancelled : bool; ds_loops : nat; ds_first : nat; ds_busy : bool
}.
Definition NewDiskUsageScheduler : DiskUsageScheduler := mkDiskScheduler false false 0 0 false.
(** [Start] with the first lines of [run], which add the second goroutine. *)
Definition disk_Start (d : DiskUsageScheduler) : DiskUsageScheduler :=
  if ds_isRunning d then d
  else mkDiskScheduler true (ds_cancelled d) (S (ds_loops d)) (S (ds_first d)) (ds_busy d).
(** The loop's [select]: it ends when the context is cancelled. *)
Definition loop_sees_cancel (d : DiskUsageScheduler) : DiskUsageScheduler :=
  if ds_cancelled d then mkDiskScheduler (ds_isRunning d) true (pred (ds_loops d)) (ds_first d) (ds_busy d) else d.
(** [executeTask]: [TryLock], the task, [Unlock]; the flag says whether the
    task is run. *)
Definition begin_task (d : DiskUsageScheduler) : DiskUsageScheduler * bool :=
  if ds_busy d then (d, false)
  else (mkDiskScheduler (ds_isRunning d) (ds_cancelled d) (ds_loops d) (ds_first d) true, true).
Definition end_task (d : DiskUsageScheduler) : DiskUsageScheduler :=
  mkDiskScheduler (ds_isRunning d) (ds_cancelled d) (ds_loops d) (ds_first d) false.
(** The goroutine of the first run reaches [executeTask]. *)
Definition first_task (d : DiskUsageScheduler) : DiskUsageScheduler * bool :=
  begin_task (mkDiskScheduler (ds_isRunning d) (ds_cancelled d) (ds_loops d) (pred (ds_first d)) (ds_busy d)).

(** What [wg.Wait] waits for: a task that runs ends, the first one is run, the
    loop reaches its [select]. *)
Definition disk_done (d : DiskUsageScheduler) : bool :=
  negb (ds_busy d) && bool_decide (ds_first d = 0%nat) && bool_decide (ds_loops d = 0%nat).
Definition disk_turn (d : DiskUsageScheduler) : DiskUsageScheduler :=
  if ds_busy d then end_task d
  else match ds_first d with O => loop_sees_cancel d | _ => fst (first_task d) end.
(** [Stop]; [None] when the goroutines have not ended after [turns] turns. *)
Definition disk_Stop (turns : nat) (d : DiskUsageScheduler) : option DiskUsageScheduler :=
  if ds_isRunning d
  then wait_for disk_done disk_turn turns (mkDiskScheduler false true (ds_loops d) (ds_first d) (ds_busy d))
  else Some d.
(** Turns that are enough: the loops, the first task with its two steps, the
    task that runs. *)
Definition disk_left (d : DiskUsageScheduler) : nat :=
  ds_loops d + 2 * ds_first d + if ds_busy d then 1 else 0.

Lemma disk_Stop_ends d :
  ds_isRunning d = true →
  ∃ d', disk_Stop (disk_left d) d = Some d' ∧ ds_isRunning d' = false ∧
    (ds_loops d', ds_first d', ds_busy d') = (0, 0, false)%nat.
Proof.
  intros Hr. unfold disk_Stop. rewrite Hr.
  destruct (wait_for_ends disk_done disk_turn (λ x, ds_isRunning x = false ∧ ds_cancelled x = true) disk_left
    (disk_left d) (mkDiskScheduler false true (ds_loops d) (ds_first d) (ds_busy d))) as (d' & -> & Hd & Hn & _);
    [|done|done|].
  - intros [r c l f b] [Hr' Hc] Hd. cbn in Hr', Hc. subst r c. revert Hd.
    destruct b, f as [|f], l as [|l]; unfold disk_left, disk_done; cbn; intros; try done; (split; [done|lia]).
  - exists d'. split_and!; [done..|]. revert Hd. unfold disk_done.
    destruct d' as [r c l f b]; cbn. destruct b, f, l; cbn; done.
Qed.

(** The delay to the next run; [today] is three o'clock of the day of [now]. *)
Definition day : Z := 24 * 3600 * second.
Definition scheduleNext (now today : Z) : Z :=
  let next := if today <? now then today + day else today in
  dur_sub next now.

Lemma scheduleNext_range now today :
  today - 3 * 3600 * second ≤ now < today + 21 * 3600 * second →
  0 ≤ scheduleNext now today < day ∧
  (now + scheduleNext now today = today ∨ now + scheduleNext now today = today + day).
Proof.
  unfold scheduleNext, dur_sub, day, second, min_int64, max_int64. intros Hn.
  destruct (Z.ltb_spec today now); lia.
Qed.

(** A scheduler that was stopped cannot be started again: [Start] reports a
    running scheduler whose loop ends at once. *)
Example restart_dies :
  (λ d, (ds_isRunning d, ds_loops d)) ∘ loop_sees_cancel ∘ disk_Start <$>
    disk_Stop 3 (disk_Start NewDiskUsageScheduler) = Some (true, 0%nat).
Proof. reflexivity. Qed.

(** ** Witness *)

Definition demo_users : list User :=
  [User.mkUser 7 "ann" "" "" "" "" "" 1 1 0 0 []; User.mkUser 8 "" "" "" "" "" "" 1 1 0 0 []].
#[local] Instance demo_root : RootHost (list string) unit := {|
  rh_GetSession s := (s, Err (ErrMsg "SSH会话不存在"));
  rh_DeleteSession s := (s, tt);
  rh_GetOrCreateSession s := (s, Ok (Some tt));
  rh_ListUsers s := (s, Ok demo_users)
|}.
Definition demo_usage_codec : codec DiskUsageData := mkCodec _ (λ _, Ok "x"%string) (λ _, Err (ErrExt 0)).

Lemma GetAllUsersDiskUsage_rows_witness :
  let '(w', r) := GetAllUsersDiskUsage demo_usage_codec "/home" true true demo_fworld in
  ∃ rows, r = Ok rows ∧
    ((λ x, (UserDiskUsageData.UserID x, UserDiskUsageData.HomeDirectory x)) <$> rows) =
    [(7, "/home/ann"%string)].
Proof.
  destruct (GetAllUsersDiskUsage demo_usage_codec "/home" true true demo_fworld) as [w' r] eqn:E.
  assert (on_host rh_ListUsers demo_fworld = (demo_fworld, Ok demo_users)) as Hu by reflexivity.
  exact (GetAllUsersDiskUsage_rows demo_usage_codec "/home" true true demo_fworld demo_fworld
           demo_users w' r eq_refl Hu E).
Defined.
