(* ===== verification/Terminal.v ===== *)
(** * The web terminal (internal/service/terminal_service.go)

    A terminal is a PTY on the server, shared by the WebSocket clients of a
    user and a mode.  Wrappers are shared pointers: the service maps a key
    "userID:isRoot" to a reference into a heap of wrappers.  The PTY, the JSON
    encoding and the clock are not under src/: their answers are arguments.
    Bytes are integers from 0 to 255. *)

From S2P Require Import Prelude GoStrings Float64 Errors Entity External WsPool SshSessions Exec GoPath.

Open Scope Z_scope.

Definition bytes : Type := list Z.

Definition terminalOutputBufferLimit : Z := Z.shiftl 2 20.

(** ** Cutting the output between characters *)

(** The number of bytes a character takes, from its first byte; 0 for bytes
    that begin no character of two to four bytes. *)
Definition utf8_need (b : Z) : Z :=
  if Z.land b 224 =? 192 then 2
  else if Z.land b 240 =? 224 then 3
  else if Z.land b 248 =? 240 then 4
  else 0.

(** The loop over the last three bytes, last first: [i] bytes were looked
    at; the result is how many bytes to keep back. *)
Fixpoint cut_loop (fuel : nat) (i : Z) (rev_data : bytes) : Z :=
  match fuel, rev_data with
  | S k, b :: rest =>
      if Z.land b 128 =? 0 then 0
      else if Z.land b 192 =? 192 then (if i + 1 <? utf8_need b then i + 1 else 0)
      else cut_loop k (i + 1) rest
  | _, _ => 0
  end.
Definition keep_back (data : bytes) : nat := Z.to_nat (cut_loop 3 0 (reverse data)).

(** [toSend] and the new remainder. *)
Definition utf8_cut (data : bytes) : bytes * bytes :=
  let cut := (length data - keep_back data)%nat in (take cut data, drop cut data).

(** ** Wrappers *)

(** [Session] and [stdinWriter] are set and cleared together: [pty].  The two
    last fields record what reached the PTY: the bytes written to its input
    and the sizes it was given. *)
Record sshSessionWrapper : Type := mkWrapper {
  sw_ID : string;
  sw_Key : string;
  sw_pty : option positive;
  sw_LastActive : Z;
  sw_clients : gset positive;
  sw_outputBuffer : bytes;
  sw_utf8Remainder : bytes;
  sw_maxBufferSize : Z;
  sw_closed : bool;
  sw_input : bytes;
  sw_sizes : list (Z * Z)
}.

Definition appendOutputLocked (now : Z) (data : bytes) (sw : sshSessionWrapper) : sshSessionWrapper :=
  let buf := sw_outputBuffer sw ++ data in
  let limit := if sw_maxBufferSize sw <=? 0 then terminalOutputBufferLimit else sw_maxBufferSize sw in
  let buf' := if limit <? Z.of_nat (length buf) then drop (length buf - Z.to_nat limit) buf else buf in
  mkWrapper (sw_ID sw) (sw_Key sw) (sw_pty sw) now (sw_clients sw) buf' (sw_utf8Remainder sw) limit
    (sw_closed sw) (sw_input sw) (sw_sizes sw).

Definition set_remainder (r : bytes) (sw : sshSessionWrapper) : sshSessionWrapper :=
  mkWrapper (sw_ID sw) (sw_Key sw) (sw_pty sw) (sw_LastActive sw) (sw_clients sw)
    (sw_outputBuffer sw) r (sw_maxBufferSize sw) (sw_closed sw) (sw_input sw) (sw_sizes sw).

(** The part of [Write] under the lock: the bytes to send, if any. *)
Definition write_output (now : Z) (p : bytes) (sw : sshSessionWrapper) : sshSessionWrapper * bytes :=
  let '(toSend, rem) := utf8_cut (sw_utf8Remainder sw ++ p) in
  let sw := set_remainder rem sw in
  match toSend with
  | [] => (sw, [])
  | _ => (appendOutputLocked now toSend sw, toSend)
  end.

Definition set_clients (now : Z) (cs : gset positive) (sw : sshSessionWrapper) : sshSessionWrapper :=
  mkWrapper (sw_ID sw) (sw_Key sw) (sw_pty sw) now cs (sw_outputBuffer sw) (sw_utf8Remainder sw)
    (sw_maxBufferSize sw) (sw_closed sw) (sw_input sw) (sw_sizes sw).

(** The second component is the output so far, for the new client. *)
Definition addClient (now : Z) (c : positive) (sw : sshSessionWrapper) : sshSessionWrapper * bytes :=
  if sw_closed sw then (sw, []) else (set_clients now ({[c]} ∪ sw_clients sw) sw, sw_outputBuffer sw).
Definition removeClient (now : Z) (c : positive) (sw : sshSessionWrapper) : sshSessionWrapper :=
  set_clients now (sw_clients sw ∖ {[c]}) sw.
(** [closeAllClients]: the clients to close. *)
Definition closeAllClients (sw : sshSessionWrapper) : sshSessionWrapper * list positive :=
  if sw_closed sw then (sw, [])
  else (set_clients (sw_LastActive sw) ∅ sw, elements (sw_clients sw)).

Definition no_terminal : error := New CodeNotFound "终端会话不存在".

(** [answer]: what the PTY says to the size or to the bytes. *)
Definition resize (now cols rows : Z) (answer : result unit) (sw : sshSessionWrapper)
  : sshSessionWrapper * result unit :=
  match sw_closed sw, sw_pty sw with
  | false, Some _ =>
      (mkWrapper (sw_ID sw) (sw_Key sw) (sw_pty sw) now (sw_clients sw) (sw_outputBuffer sw)
         (sw_utf8Remainder sw) (sw_maxBufferSize sw) (sw_closed sw) (sw_input sw)
         (if is_ok answer then sw_sizes sw ++ [(cols, rows)] else sw_sizes sw), answer)
  | _, _ => (sw, Err no_terminal)
  end.
Definition writeInput (now : Z) (data : bytes) (answer : result unit) (sw : sshSessionWrapper)
  : sshSessionWrapper * result unit :=
  match sw_closed sw, sw_pty sw with
  | false, Some _ =>
      match answer with
      | Err e => (sw, Err e)
      | Ok _ =>
          (mkWrapper (sw_ID sw) (sw_Key sw) (sw_pty sw) now (sw_clients sw) (sw_outputBuffer sw)
             (sw_utf8Remainder sw) (sw_maxBufferSize sw) (sw_closed sw) (sw_input sw ++ data)
             (sw_sizes sw), Ok tt)
      end
  | _, _ => (sw, Err no_terminal)
  end.

(** [close]: the clients that were bound; a second call does nothing. *)
Definition close_wrapper (sw : sshSessionWrapper) : sshSessionWrapper * list positive :=
  if sw_closed sw then (sw, [])
  else (mkWrapper (sw_ID sw) (sw_Key sw) None (sw_LastActive sw) ∅ [] [] (sw_maxBufferSize sw) true
          (sw_input sw) (sw_sizes sw), elements (sw_clients sw)).

(** ** The SSH client *)

(** [getSSHClient] of the terminal: a session that answers, else recovery. *)
Definition terminal_getSSHClient {S C : Type} `{Remote S C} (has_manager : bool) (userID : Z)
  (isRoot : bool) : M S (result C) :=
  if negb has_manager then mret (Err (New CodeInternalError "SSH会话管理器未初始化"))
  else
    g ← rm_GetSession userID isRoot;
    live ← match g with
           | Ok (Some c) =>
               p ← rm_ExecuteCommand c "echo 1"; mret (if is_ok p then Some c else None)
           | _ => mret None
           end;
    match live with
    | Some c => mret (Ok c)
    | None =>
        e ← rm_EnsureSSHSessionByType userID isRoot;
        match e with
        | Err e => mret (Err (NewWithErr CodeInternalError "恢复SSH会话失败" e))
        | Ok _ =>
            g2 ← rm_GetSession userID isRoot;
            match g2 with
            | Err e => mret (Err (NewWithErr CodeInternalError "获取SSH会话失败" e))
            | Ok None => mret (Err (New CodeInternalError "SSH客户端不可用"))
            | Ok (Some c) => mret (Ok c)
            end
        end
    end.

(** ** The service *)

Section Terminal.
Context {msg : Type}.
(** [terminalOutputMessage]: the JSON text, [None] when it cannot be made. *)
Variable terminalOutputMessage : bytes → option msg.

Record terminalService : Type := mkTerminal {
  t_pool : @ConnectionPool msg;
  t_sessions : gmap string positive;
  t_store : gmap positive sshSessionWrapper
}.

(** [safeSendTerminalMessage]: a panic of the channel is recovered. *)
Definition safeSendTerminalMessage (m : option msg) (c : positive) (p : @ConnectionPool msg)
  : @ConnectionPool msg :=
  match m with
  | None => p
  | Some m => match send m c p with Ok p' => p' | Err _ => p end
  end.
(** [client.Close()] of a terminal client; its metadata is not nil. *)
Definition close_client (c : positive) (p : @ConnectionPool msg) : @ConnectionPool msg :=
  match Close c p with Ok p' => p' | Err _ => p end.

Definition set_store (h : gmap positive sshSessionWrapper) (t : terminalService) : terminalService :=
  mkTerminal (t_pool t) (t_sessions t) h.
Definition set_pool (p : @ConnectionPool msg) (t : terminalService) : terminalService :=
  mkTerminal p (t_sessions t) (t_store t).
Definition drop_key (k : string) (t : terminalService) : terminalService :=
  mkTerminal (t_pool t) (delete k (t_sessions t)) (t_store t).

(** Run an operation of a wrapper through its reference. *)
Definition on_wrapper {A : Type} (r : positive) (f : sshSessionWrapper → sshSessionWrapper * A)
  (none : A) (t : terminalService) : terminalService * A :=
  match t_store t !! r with
  | None => (t, none)
  | Some sw => let '(sw', a) := f sw in (set_store (<[r := sw']> (t_store t)) t, a)
  end.

(** [TerminalBroadcastWriter.Write]: the output reaches the clients that were
    bound while the lock was held. *)
Definition Write (now : Z) (r : positive) (p : bytes) (t : terminalService) : terminalService :=
  match t_store t !! r with
  | None => t
  | Some sw =>
      let '(sw', toSend) := write_output now p sw in
      let t' := set_store (<[r := sw']> (t_store t)) t in
      match toSend with
      | [] => t'
      | _ => set_pool (foldr (safeSendTerminalMessage (terminalOutputMessage toSend)) (t_pool t')
                         (elements (sw_clients sw'))) t'
      end
  end.

(** [sw.close(closeClients)] through a reference. *)
Definition close_ref (r : positive) (closeClients : bool) (t : terminalService) : terminalService :=
  let '(t', clients) := on_wrapper r close_wrapper [] t in
  if closeClients then set_pool (foldr close_client (t_pool t') clients) t' else t'.

Definition terminalSessionKey (userID : Z) (isRoot : bool) : string := getSessionKey userID isRoot.

(** What the functions that close terminals do while they hold [s.mu]: the entry
    leaves the table.  The lock is released before the wrapper is closed;
    [TerminalConc] lets the others run in between. *)
Definition take_key (key : string) (t : terminalService) : terminalService * option positive :=
  match t_sessions t !! key with
  | None => (t, None)
  | Some r => (drop_key key t, Some r)
  end.
Definition take_keys (P : string → bool) (t : terminalService) : terminalService * list positive :=
  (mkTerminal (t_pool t) (filter (λ x, P x.1 = false) (t_sessions t)) (t_store t),
   (map_to_list (filter (λ x, P x.1 = true) (t_sessions t))).*2).

Definition closeTerminalSession (userID : Z) (isRoot closeClients : bool) (t : terminalService)
  : terminalService :=
  let key := terminalSessionKey userID isRoot in
  match take_key key t with
  | (t', None) => t'
  | (t', Some r) => close_ref r closeClients t'
  end.

(** Only the expected wrapper is closed. *)
Definition closeTerminalSessionByKey (key : string) (expected : positive) (closeClients : bool)
  (t : terminalService) : terminalService :=
  match t_sessions t !! key with
  | None => t
  | Some r => if bool_decide (r = expected) then close_ref r closeClients (take_key key t).1 else t
  end.

(** Close the terminals whose key satisfies a test. *)
Definition close_keys (P : string → bool) (t : terminalService) : terminalService :=
  let '(t', sessionsToClose) := take_keys P t in foldr (λ r, close_ref r true) t' sessionsToClose.
Definition CloseUserTerminals (userID : Z) (t : terminalService) : terminalService :=
  close_keys (λ key, HasPrefix key (Itoa userID +:+ ":")) t.
Definition CloseAllTerminals (t : terminalService) : terminalService := close_keys (λ _, true) t.

(** One tick of [cleanupIdleSessions]: the keys that are idle now, then each
    of them is closed, whatever wrapper it has by then. *)
Definition idle_timeout : Z := 30 * 60 * 1000000000.
Definition idle (now : Z) (t : terminalService) (r : positive) : bool :=
  match t_store t !! r with
  | Some sw => idle_timeout <? dur_sub now (sw_LastActive sw)
  | None => false
  end.
Definition idle_keys (now : Z) (t : terminalService) : list string :=
  (map_to_list (filter (λ x, idle now t x.2 = true) (t_sessions t))).*1.
Definition close_key (key : string) (t : terminalService) : terminalService :=
  match take_key key t with
  | (t', None) => t'
  | (t', Some r) => close_ref r true t'
  end.
Definition cleanup_idle_tick (now : Z) (t : terminalService) : terminalService :=
  foldr close_key t (idle_keys now t).

Definition ResizeTerminal (now userID : Z) (isRoot : bool) (cols rows : Z) (answer : result unit)
  (t : terminalService) : terminalService * result unit :=
  match t_sessions t !! terminalSessionKey userID isRoot with
  | None => (t, Err no_terminal)
  | Some r => on_wrapper r (resize now cols rows answer) (Err no_terminal) t
  end.

(** [getOrCreateTerminalSession]; [client] is the answer of [getSSHClient] and
    [created] that of [NewTerminalSession], which are asked when there is no
    open wrapper; [id_time] is the clock in the identifier. *)
Definition is_open (t : terminalService) (r : positive) : bool :=
  match t_store t !! r with Some sw => negb (sw_closed sw) | None => false end.
Definition new_wrapper (userID : Z) (isRoot : bool) (id_time now : Z) (pty : positive)
  : sshSessionWrapper :=
  mkWrapper (Itoa userID +:+ ":" +:+ (if isRoot then "true" else "false") +:+ ":" +:+ Itoa id_time)
    (terminalSessionKey userID isRoot) (Some pty) now ∅ [] [] terminalOutputBufferLimit false [] [].
Definition getOrCreateTerminalSession (userID : Z) (isRoot : bool) (id_time now : Z)
  (client : result unit) (created : result positive) (t : terminalService)
  : terminalService * result positive :=
  let key := terminalSessionKey userID isRoot in
  let fresh_one (t : terminalService) :=
    match client with
    | Err e => (t, Err e)
    | Ok _ =>
        match created with
        | Err e => (t, Err e)
        | Ok pty =>
            let r := fresh (dom (t_store t)) in
            (mkTerminal (t_pool t) (<[key := r]> (t_sessions t))
               (<[r := new_wrapper userID isRoot id_time now pty]> (t_store t)), Ok r)
        end
    end in
  match t_sessions t !! key with
  | Some r => if is_open t r then (t, Ok r) else fresh_one (drop_key key t)
  | None => fresh_one t
  end.
(** ** Connections *)

(** An inbound text that is a JSON object with a type. *)
Record inboundMsg : Type := mkInbound { im_Type : string; im_Data : bytes; im_Cols : Z; im_Rows : Z }.
Inductive inbound : Type :=
  | InResize (cols rows : Z)
  | InClose
  | InInput (data : bytes)
  | InNothing.
(** [parsed]: the answer of [json.Unmarshal]. *)
Definition inbound_of (parsed : option inboundMsg) (data : bytes) : inbound :=
  match parsed with
  | None => InInput data
  | Some m =>
      if String.eqb (im_Type m) "" then InInput data
      else if String.eqb (im_Type m) "resize" then
        (if (0 <? im_Cols m) && (0 <? im_Rows m) then InResize (im_Cols m) (im_Rows m) else InNothing)
      else if String.eqb (im_Type m) "close" then InClose
      else if String.eqb (im_Type m) "input" then InInput (im_Data m)
      else InNothing
  end.

(** The variables the message handler shares with [HandleTerminalConnection]. *)
Record connection : Type := mkConnection {
  c_userID : Z; c_isRoot : bool; c_client : positive;
  c_sw : option positive; c_pendingInput : bytes; c_pendingResize : option (Z * Z)
}.
Definition set_pending (i : bytes) (s : option (Z * Z)) (c : connection) : connection :=
  mkConnection (c_userID c) (c_isRoot c) (c_client c) (c_sw c) i s.

(** [messageHandler]; [answer] is what the PTY says. *)
Definition messageHandler (now : Z) (answer : result unit) (m : inbound) (c : connection)
  (t : terminalService) : terminalService * connection * result unit :=
  match m with
  | InNothing => (t, c, Ok tt)
  | InResize cols rows =>
      match c_sw c with
      | None => (t, set_pending (c_pendingInput c) (Some (cols, rows)) c, Ok tt)
      | Some r => ((on_wrapper r (resize now cols rows answer) (Err no_terminal) t).1, c, Ok tt)
      end
  | InClose => (closeTerminalSession (c_userID c) (c_isRoot c) false t, c,
                Err (ErrMsg "terminal closed by user"))
  | InInput data =>
      match c_sw c with
      | None => (t, set_pending (c_pendingInput c ++ data) (c_pendingResize c) c, Ok tt)
      | Some r =>
          let '(t', res) := on_wrapper r (writeInput now data answer) (Err no_terminal) t in
          (t', c, res)
      end
  end.

(** The first part of [HandleTerminalConnection]: the old terminal of the
    user and the mode is closed and the client is registered. *)
Definition terminal_metadata (userID created : Z) : SessionMetadata :=
  SessionMetadata.mkSessionMetadata userID "terminal" "user" created.
Definition conn_open (userID : Z) (isRoot : bool) (ensured : result unit) (created : Z)
  (t : terminalService) : terminalService * result connection :=
  match ensured with
  | Err e => (t, Err (NewWithErr CodeInternalError "无法建立SSH会话" e))
  | Ok _ =>
      let t' := closeTerminalSession userID isRoot true t in
      let '(p, c) := Add userID (Some (terminal_metadata userID created)) (t_pool t') in
      (set_pool p t', Ok (mkConnection userID isRoot c None [] None))
  end.

(** The part under [initMu] after the terminal exists: what came before is
    applied, first the size, then the input. *)
Definition conn_init (now : Z) (size_answer input_answer : result unit) (r : positive)
  (c : connection) (t : terminalService) : terminalService * connection :=
  let t1 := match c_pendingResize c with
            | None => t
            | Some (cols, rows) => (on_wrapper r (resize now cols rows size_answer) (Err no_terminal) t).1
            end in
  let t2 := match c_pendingInput c with
            | [] => t1
            | data => (on_wrapper r (writeInput now data input_answer) (Err no_terminal) t1).1
            end in
  (t2, mkConnection (c_userID c) (c_isRoot c) (c_client c) (Some r) [] None).

(** The end: the client is bound and its screen is cleared; the output that
    [addClient] returns is not used. *)
Definition clear_screen : bytes := [27; 91; 50; 74; 27; 91; 72].
Definition conn_bind (now : Z) (r : positive) (c : connection) (t : terminalService) : terminalService :=
  let t1 := (on_wrapper r (addClient now (c_client c)) [] t).1 in
  set_pool (safeSendTerminalMessage (terminalOutputMessage clear_screen) (c_client c) (t_pool t1)) t1.
(** When there is no terminal the client is closed. *)
Definition conn_fail (c : connection) (t : terminalService) : terminalService :=
  set_pool (close_client (c_client c) (t_pool t)) t.
(** The goroutine that waits for the end of the client. *)
Definition conn_done (now : Z) (r : positive) (c : connection) (t : terminalService) : terminalService :=
  (on_wrapper r (λ sw, (removeClient now (c_client c) sw, tt)) tt t).1.

End Terminal.

(** ** Output *)

Definition is_cont (b : Z) : Prop := Z.land b 192 = 128.
(** A character of one to four bytes. *)
Inductive whole_char : bytes → Prop :=
  | char_ascii b : Z.land b 128 = 0 → whole_char [b]
  | char_multi b cs : utf8_need b = 1 + Z.of_nat (length cs) → cs ≠ [] → Forall is_cont cs →
      whole_char (b :: cs).
Definition text (l : bytes) : Prop := ∃ chars, Forall whole_char chars ∧ l = concat chars.
(** The beginning of a character. *)
Definition partial (l : bytes) : Prop :=
  l = [] ∨ ∃ b cs, l = b :: cs ∧ Z.of_nat (length l) < utf8_need b ∧ Forall is_cont cs.

Lemma cont_bits b : is_cont b → (Z.land b 128 =? 0) = false ∧ (Z.land b 192 =? 192) = false.
Proof.
  unfold is_cont. intros H. split; [|by rewrite H].
  replace (Z.land b 128) with (Z.land (Z.land b 192) 128) by by rewrite <- Z.land_assoc.
  by rewrite H.
Qed.

Lemma lead_bits b :
  0 < utf8_need b → utf8_need b ≤ 4 ∧ (Z.land b 128 =? 0) = false ∧ (Z.land b 192 =? 192) = true.
Proof.
  unfold utf8_need. intros H.
  assert (∀ m v, Z.land b m = v → Z.land v 128 = 128 → Z.land m 192 = 192 → Z.land v 192 = 192 →
    Z.land m 128 = 128 → (Z.land b 128 =? 0) = false ∧ (Z.land b 192 =? 192) = true) as G.
  { intros m v Hv H1 H2 H3 H4. split.
    - rewrite <- H4, Z.land_assoc, Hv, H1. done.
    - rewrite <- H2, Z.land_assoc, Hv, H2, H3. done. }
  destruct (Z.eqb_spec (Z.land b 224) 192) as [E|_]; [split; [lia|by eapply G]|].
  destruct (Z.eqb_spec (Z.land b 240) 224) as [E|_]; [split; [lia|by eapply G]|].
  destruct (Z.eqb_spec (Z.land b 248) 240) as [E|_]; [split; [lia|by eapply G]|]. lia.
Qed.

Lemma cut_loop_conts cs rest k i :
  Forall is_cont cs → cut_loop (length cs + k) i (cs ++ rest) = cut_loop k (i + Z.of_nat (length cs)) rest.
Proof.
  intros H. revert i. induction H as [|b cs Hb Hcs IH]; intros i.
  - cbn. by rewrite Z.add_0_r.
  - destruct (cont_bits b Hb) as [E1 E2]. cbn [length Nat.add app cut_loop]. rewrite E1, E2, IH.
    f_equal. lia.
Qed.

Lemma keep_back_partial a b cs :
  Z.of_nat (length (b :: cs)) < utf8_need b → Forall is_cont cs →
  keep_back (a ++ b :: cs) = length (b :: cs).
Proof.
  intros Hlt Hcs. unfold keep_back. destruct (lead_bits b ltac:(cbn in Hlt; lia)) as (H4 & E1 & E2).
  rewrite reverse_app, reverse_cons, <- app_assoc. cbn [length app] in *.
  replace 3%nat with (length (reverse cs) + (3 - length cs))%nat by (rewrite length_reverse; lia).
  rewrite cut_loop_conts by by apply Forall_reverse. rewrite length_reverse.
  destruct (3 - length cs)%nat as [|k] eqn:Ek; [lia|]. cbn [cut_loop]. rewrite E1, E2.
  destruct (Z.ltb_spec (0 + Z.of_nat (length cs) + 1) (utf8_need b)); lia.
Qed.

Lemma keep_back_text a : text a → keep_back a = 0%nat.
Proof.
  intros (chars & Hc & ->). unfold keep_back.
  destruct chars as [|c chars _] using rev_ind; [done|].
  apply Forall_app in Hc as [_ Hc]. apply Forall_cons in Hc as [Hc _].
  rewrite concat_app. cbn [concat]. rewrite app_nil_r, reverse_app.
  inversion Hc as [b Hb|b cs Hn Hne Hcs]; subst.
  - cbn. by rewrite Hb.
  - rewrite reverse_cons, <- app_assoc. cbn [app].
    destruct (lead_bits b ltac:(lia)) as (H4 & E1 & E2).
    destruct (decide (length cs = 3%nat)) as [E3|E3].
    + replace 3%nat with (length (reverse cs) + 0)%nat by (rewrite length_reverse; lia).
      by rewrite cut_loop_conts by by apply Forall_reverse.
    + replace 3%nat with (length (reverse cs) + (3 - length cs))%nat by (rewrite length_reverse; lia).
      rewrite cut_loop_conts by by apply Forall_reverse. rewrite length_reverse.
      destruct (3 - length cs)%nat as [|k] eqn:Ek; [lia|]. cbn [cut_loop]. rewrite E1, E2.
      destruct (Z.ltb_spec (0 + Z.of_nat (length cs) + 1) (utf8_need b)); [lia|done].
Qed.

(** Whole characters are sent, the beginning of the next one is kept back. *)
Lemma utf8_cut_text a r : text a → partial r → utf8_cut (a ++ r) = (a, r).
Proof.
  intros Ha Hr. unfold utf8_cut. destruct Hr as [->|(b & cs & -> & Hlt & Hcs)].
  - rewrite app_nil_r, keep_back_text, Nat.sub_0_r by done. by rewrite take_ge, drop_ge by done.
  - rewrite keep_back_partial by done. rewrite length_app, Nat.add_sub.
    by rewrite take_app_length, drop_app_length.
Qed.

Lemma whole_char_prefix c a b x :
  whole_char c → c ++ x = a ++ b → (∃ y, a = c ++ y ∧ x = y ++ b) ∨ partial a.
Proof.
  intros Hc Heq. apply app_eq_inv in Heq as [(y & -> & ->)|(y & -> & ->)].
  - destruct y as [|z y]; [left; exists []; by rewrite !app_nil_r|]. right.
    destruct a as [|h a]; [by left|]. right. exists h, a. split; [done|].
    inversion Hc as [? ? E|? ? Hn Hne Hcs E]; subst.
    + destruct a; done.
    + apply Forall_app in Hcs as [? ?]. split; [|done]. rewrite Hn, length_app. cbn. lia.
  - left. by exists y.
Qed.

Lemma text_split a b : text (a ++ b) → ∃ t r, a = t ++ r ∧ text t ∧ partial r.
Proof.
  intros (chars & Hc & Heq). revert a Heq. induction Hc as [|c chars Hc Hcs IH]; intros a Heq.
  - apply app_nil in Heq as [-> ->]. exists [], []. split; [done|]. split; [by exists []|by left].
  - cbn in Heq. symmetry in Heq. destruct (whole_char_prefix c a b _ Hc Heq) as [(y & -> & Hy)|Hp].
    + destruct (IH y (eq_sym Hy)) as (t & r & -> & (ts & Hts & ->) & Hr).
      exists (c ++ concat ts), r. rewrite app_assoc. split; [done|]. split; [|done].
      exists (c :: ts). split; [by constructor|done].
    + exists [], a. split; [done|]. split; [by exists []|done].
Qed.

Lemma whole_char_head c d x y : whole_char c → whole_char d → c ++ x = d ++ y → c = d.
Proof.
  assert (∀ b, Z.land b 128 = 0 → 0 < utf8_need b → False) as Hexcl.
  { intros b H0 Hn. destruct (lead_bits b Hn) as (_ & E & _). by rewrite H0 in E. }
  intros Hc Hd Heq. inversion Hc as [b Hb E|b cs Hn Hne Hcs E]; inversion Hd as [b' Hb' E'|b' cs' Hn' Hne' Hcs' E'];
    subst; cbn in Heq; injection Heq as <- Heq; try done.
  - exfalso. apply (Hexcl b); [done|lia].
  - exfalso. apply (Hexcl b); [done|lia].
  - f_equal. apply (app_inj_1 cs cs' x y); [lia|done].
Qed.

Lemma text_cancel t x : text t → text (t ++ x) → text x.
Proof.
  intros (chars & Hc & ->). induction Hc as [|c chars Hc Hcs IH]; [done|].
  cbn. rewrite <- app_assoc. intros (chars' & Hc' & Heq). apply IH.
  destruct Hc' as [|d ds Hd Hds]; cbn in Heq; [by inversion Hc; subst|].
  assert (c = d) as -> by by eapply whole_char_head. apply app_inv_head in Heq. by exists ds.
Qed.

(** Writes one after the other: the chunks sent. *)
Fixpoint writes (now : Z) (ps : list bytes) (sw : sshSessionWrapper) : sshSessionWrapper * list bytes :=
  match ps with
  | [] => (sw, [])
  | p :: ps' =>
      let '(sw1, sent) := write_output now p sw in
      let '(sw2, rest) := writes now ps' sw1 in
      (sw2, sent :: rest)
  end.

Lemma write_output_cut now p sw sw' sent :
  write_output now p sw = (sw', sent) →
  utf8_cut (sw_utf8Remainder sw ++ p) = (sent, sw_utf8Remainder sw') ∧
  sw_pty sw' = sw_pty sw ∧ sw_closed sw' = sw_closed sw ∧ sw_clients sw' = sw_clients sw.
Proof.
  unfold write_output. destruct (utf8_cut _) as [s r] eqn:E.
  destruct s as [|b s]; intros [= <- <-]; done.
Qed.

Lemma utf8_cut_app data s r : utf8_cut data = (s, r) → s ++ r = data.
Proof. unfold utf8_cut. intros [= <- <-]. apply take_drop. Qed.

Lemma cut_loop_range fuel i l : 0 ≤ i → 0 ≤ cut_loop fuel i l ≤ i + Z.of_nat fuel.
Proof.
  revert i l. induction fuel as [|k IH]; intros i l Hi; [cbn; lia|].
  destruct l as [|b l]; [cbn; lia|]. cbn [cut_loop]. repeat case_match; try lia.
  specialize (IH (i + 1) l). lia.
Qed.

Lemma utf8_cut_rem data s r : utf8_cut data = (s, r) → (length r ≤ 3)%nat.
Proof.
  assert (keep_back data ≤ 3)%nat.
  { unfold keep_back. pose proof (cut_loop_range 3 0 (reverse data) ltac:(lia)). lia. }
  unfold utf8_cut. intros E. injection E as <- <-. rewrite length_drop. lia.
Qed.

Lemma writes_text now ps sw sw' sent :
  writes now ps sw = (sw', sent) → partial (sw_utf8Remainder sw) →
  text (sw_utf8Remainder sw ++ concat ps) → Forall text sent ∧ sw_utf8Remainder sw' = [].
Proof.
  revert sw sw' sent. induction ps as [|p ps IH]; intros sw sw' sent E Hp Ht; cbn [writes] in E.
  - injection E as <- <-. split; [constructor|]. rewrite app_nil_r in Ht.
    assert (utf8_cut (sw_utf8Remainder sw) = (sw_utf8Remainder sw, [])) as E1.
    { rewrite <- (app_nil_r (sw_utf8Remainder sw)) at 1. apply utf8_cut_text; [done|by left]. }
    pose proof (utf8_cut_text [] _ ltac:(by exists []) Hp) as E2. cbn in E2. congruence.
  - destruct (write_output now p sw) as [sw1 s1] eqn:E1. destruct (writes now ps sw1) as [sw2 rest] eqn:E2.
    injection E as <- <-. apply write_output_cut in E1 as [Ec _].
    cbn in Ht. rewrite app_assoc in Ht. destruct (text_split _ _ Ht) as (t & r & Etr & Htt & Hr).
    rewrite Etr in Ec, Ht. rewrite utf8_cut_text in Ec by done. injection Ec as <- Er.
    rewrite <- app_assoc in Ht. apply text_cancel in Ht; [|done]. rewrite Er in Hr, Ht.
    destruct (IH sw1 sw2 rest E2 Hr Ht) as [Hrest Hrem]. split; [by constructor|done].
Qed.

(** C23: Nothing of the terminal output is lost, repeated or reordered by the
    cutting at character borders: the chunks sent to the clients followed by
    the bytes kept back are the bytes written, at most three bytes are kept
    back, and when the output is UTF-8 text, in whatever pieces it arrives,
    every chunk consists of whole characters and at its end nothing is left. *)
Theorem terminal_output_exact now ps sw sw' sent
  (Hrun : writes now ps sw = (sw', sent)) (Hrem : (length (sw_utf8Remainder sw) ≤ 3)%nat) :
  concat sent ++ sw_utf8Remainder sw' = sw_utf8Remainder sw ++ concat ps ∧
  (length (sw_utf8Remainder sw') ≤ 3)%nat ∧
  (sw_utf8Remainder sw = [] → text (concat ps) → Forall text sent ∧ sw_utf8Remainder sw' = []).
Proof.
  split; [|split].
  - clear Hrem. revert sw sw' sent Hrun. induction ps as [|p ps IH]; intros sw sw' sent E; cbn [writes] in E.
    + injection E as <- <-. cbn. by rewrite app_nil_r.
    + destruct (write_output now p sw) as [sw1 s1] eqn:E1.
      destruct (writes now ps sw1) as [sw2 rest] eqn:E2. injection E as <- <-.
      apply write_output_cut in E1 as [Ec _]. apply utf8_cut_app in Ec.
      cbn. rewrite <- app_assoc, (IH _ _ _ E2), !app_assoc, Ec. done.
  - revert sw sw' sent Hrun Hrem. induction ps as [|p ps IH]; intros sw sw' sent E Hr; cbn [writes] in E.
    + by injection E as <- <-.
    + destruct (write_output now p sw) as [sw1 s1] eqn:E1.
      destruct (writes now ps sw1) as [sw2 rest] eqn:E2. injection E as <- <-.
      apply write_output_cut in E1 as [Ec _]. apply utf8_cut_rem in Ec. by eapply IH.
  - intros Hnil Ht. apply (writes_text now ps sw); [done|left; done|by rewrite Hnil].
Qed.

(** ** The output buffer *)

Definition lastn {A : Type} (n : nat) (l : list A) : list A := drop (length l - n) l.

Lemma lastn_lastn {A} n (l x : list A) : lastn n (lastn n l ++ x) = lastn n (l ++ x).
Proof.
  unfold lastn. rewrite !length_app, length_drop.
  destruct (decide (length l ≤ n)%nat) as [Hle|Hgt].
  - replace (length l - n)%nat with 0%nat by lia. rewrite drop_0. f_equal. lia.
  - destruct (decide (length l + length x - n ≤ length l)%nat) as [H1|H1].
    + rewrite (drop_app_le l) by lia. rewrite drop_app_le by (rewrite length_drop; lia).
      rewrite drop_drop. do 2 f_equal. lia.
    + rewrite (drop_app_ge l) by lia. rewrite drop_app_ge by (rewrite length_drop; lia).
      rewrite length_drop. f_equal. lia.
Qed.

Definition limit_ok (sw : sshSessionWrapper) : Prop := 0 < sw_maxBufferSize sw.

Lemma write_output_buffer now p sw sw' sent :
  limit_ok sw → (Z.of_nat (length (sw_outputBuffer sw)) ≤ sw_maxBufferSize sw) →
  write_output now p sw = (sw', sent) →
  sw_maxBufferSize sw' = sw_maxBufferSize sw ∧
  sw_outputBuffer sw' = lastn (Z.to_nat (sw_maxBufferSize sw)) (sw_outputBuffer sw ++ sent).
Proof.
  unfold limit_ok, write_output. intros Hl Hb. destruct (utf8_cut _) as [s r] eqn:E.
  destruct s as [|b s]; intros [= <- <-].
  - split; [done|]. cbn. rewrite app_nil_r. unfold lastn.
    replace (length _ - _)%nat with 0%nat by lia. done.
  - unfold appendOutputLocked. cbn [sw_maxBufferSize sw_outputBuffer set_remainder].
    destruct (Z.leb_spec (sw_maxBufferSize sw) 0); [lia|]. split; [done|]. unfold lastn.
    destruct (Z.ltb_spec (sw_maxBufferSize sw) (Z.of_nat (length (sw_outputBuffer sw ++ b :: s)))); [done|].
    replace (length _ - _)%nat with 0%nat by lia. done.
Qed.

(** The output buffer of a terminal holds the most recent output and never more
    than its limit of 2 MB, however much is written. *)
Theorem output_buffer_recent now ps sw sw' sent
  (Hrun : writes now ps sw = (sw', sent)) (Hlim : sw_maxBufferSize sw = terminalOutputBufferLimit)
  (Hbuf : Z.of_nat (length (sw_outputBuffer sw)) ≤ terminalOutputBufferLimit) :
  sw_outputBuffer sw' = lastn (Z.to_nat terminalOutputBufferLimit) (sw_outputBuffer sw ++ concat sent) ∧
  Z.of_nat (length (sw_outputBuffer sw')) ≤ terminalOutputBufferLimit.
Proof.
  assert (0 < terminalOutputBufferLimit) as Hpos by done.
  assert (sw_outputBuffer sw' = lastn (Z.to_nat terminalOutputBufferLimit) (sw_outputBuffer sw ++ concat sent))
    as Heq; [|rewrite Heq; split; [done|]; unfold lastn; rewrite length_drop; lia].
  revert sw sw' sent Hrun Hlim Hbuf. induction ps as [|p ps IH]; intros sw sw' sent E Hlim Hbuf; cbn [writes] in E.
  - injection E as <- <-. cbn. rewrite app_nil_r. unfold lastn.
    replace (length _ - _)%nat with 0%nat by lia. done.
  - destruct (write_output now p sw) as [sw1 s1] eqn:E1.
    destruct (writes now ps sw1) as [sw2 rest] eqn:E2. injection E as <- <-.
    apply write_output_buffer in E1 as [Hm Ho]; [|unfold limit_ok; lia|lia].
    rewrite Hlim in Hm, Ho. rewrite (IH _ _ _ E2); [|done|].
    + rewrite Ho, lastn_lastn. cbn. by rewrite app_assoc.
    + rewrite Ho. unfold lastn. rewrite length_drop. lia.
Qed.

(** ** The table of terminals *)

(** A wrapper: its buffers are bounded, an open one has its PTY, a closed one
    has neither PTY nor clients. *)
Definition entry_ok (sw : sshSessionWrapper) : Prop :=
  sw_maxBufferSize sw = terminalOutputBufferLimit ∧
  Z.of_nat (length (sw_outputBuffer sw)) ≤ terminalOutputBufferLimit ∧
  (length (sw_utf8Remainder sw) ≤ 3)%nat ∧
  (sw_closed sw = true → sw_pty sw = None ∧ sw_clients sw = ∅) ∧
  (sw_closed sw = false → sw_pty sw ≠ None).

Lemma limit_pos : 0 < terminalOutputBufferLimit.
Proof. done. Qed.

Lemma entry_write now p sw sw' sent :
  entry_ok sw → write_output now p sw = (sw', sent) →
  entry_ok sw' ∧ sw_Key sw' = sw_Key sw ∧ sw_closed sw' = sw_closed sw.
Proof.
  intros (Hm & Hb & Hr & Hc & Ho) E. pose proof limit_pos as Hpos.
  assert (sw_Key sw' = sw_Key sw) as Hk.
  { unfold write_output in E. destruct (utf8_cut _) as [[|b s] r]; by injection E as <- <-. }
  pose proof (write_output_cut _ _ _ _ _ E) as (Ecut & Hp & Hcl & Hcs).
  apply write_output_buffer in E as [Hm' Ho']; [|unfold limit_ok; lia|lia].
  unfold entry_ok. rewrite Hm', Hp, Hcl, Hcs, Ho'. split_and!; try done.
  - unfold lastn. rewrite length_drop. lia.
  - by apply utf8_cut_rem in Ecut.
Qed.

Section Table.
Context {msg : Type}.
Variable encode : bytes → option msg.
Notation T := (terminalService (msg := msg)).

(** Every key leads to a wrapper of that key, and every open wrapper is under
    its key, except those in [R]. *)
Definition wf_but (R : positive → Prop) (t : T) : Prop :=
  (∀ key r, t_sessions t !! key = Some r → ∃ sw, t_store t !! r = Some sw ∧ sw_Key sw = key) ∧
  (∀ r sw, t_store t !! r = Some sw →
     entry_ok sw ∧ (sw_closed sw = false → ¬ R r → t_sessions t !! sw_Key sw = Some r)).
Definition terminals_wf : T → Prop := wf_but (λ _, False).

Lemma wf_pool R p t : wf_but R t → wf_but R (set_pool p t).
Proof. done. Qed.

Lemma wf_weaken (R R' : positive → Prop) t : (∀ r, R r → R' r) → wf_but R t → wf_but R' t.
Proof. intros HR [H1 H2]. split; [done|]. intros r sw Hr. destruct (H2 r sw Hr). naive_solver. Qed.

Lemma wf_entry (R : positive → Prop) t r sw sw' :
  wf_but R t → t_store t !! r = Some sw → entry_ok sw' → sw_Key sw' = sw_Key sw →
  (sw_closed sw' = false → sw_closed sw = false ∧ ¬ R r) ∨ sw_closed sw' = sw_closed sw →
  wf_but (λ x, R x ∧ (x = r → sw_closed sw' = sw_closed sw)) (set_store (<[r := sw']> (t_store t)) t).
Proof.
  intros [H1 H2] Hr He Hk Hc. split; cbn.
  - intros key r' Hl. destruct (H1 key r' Hl) as (x & Hx & Hkx).
    destruct (decide (r = r')) as [<-|Hne].
    + exists sw'. rewrite lookup_insert_eq. split; [done|]. congruence.
    + exists x. by rewrite lookup_insert_ne.
  - intros r' x Hx. destruct (decide (r = r')) as [<-|Hne].
    + rewrite lookup_insert_eq in Hx. injection Hx as <-. split; [done|]. intros Hcl Hn.
      destruct (H2 r sw Hr) as [_ Hin]. rewrite Hk. destruct Hc as [Hc|Hc].
      * destruct (Hc Hcl). by apply Hin.
      * apply Hin; [congruence|]. intros HR. apply Hn. by split.
    + rewrite lookup_insert_ne in Hx by done. destruct (H2 r' x Hx) as [He' Hin]. split; [done|].
      intros Hcl Hn. apply Hin; [done|]. intros HR. apply Hn. split; [done|]. by intros ->.
Qed.

(** An operation that keeps key and status of a wrapper. *)
Lemma wf_on_wrapper {A} (f : sshSessionWrapper → sshSessionWrapper * A) r none (t t' : T) a :
  (∀ sw, entry_ok sw →
     entry_ok (f sw).1 ∧ sw_Key (f sw).1 = sw_Key sw ∧ sw_closed (f sw).1 = sw_closed sw) →
  terminals_wf t → on_wrapper r f none t = (t', a) → terminals_wf t'.
Proof.
  intros Hf Hw E. unfold on_wrapper in E. destruct (t_store t !! r) as [sw|] eqn:Hr; [|by injection E as <- <-].
  destruct (Hf sw (proj1 (proj2 Hw r sw Hr))) as (He & Hk & Hc).
  destruct (f sw) as [sw' a'] eqn:Ef. cbn in He, Hk, Hc. injection E as <- <-.
  eapply wf_weaken; [|eapply wf_entry; eauto]. cbn. tauto.
Qed.

Lemma wf_close_ref (R : positive → Prop) r b t :
  wf_but (λ x, x = r ∨ R x) t → (∀ key, t_sessions t !! key ≠ Some r) → wf_but R (close_ref r b t).
Proof.
  intros Hw Hout. unfold close_ref, on_wrapper.
  assert (∀ t', wf_but R t' → wf_but R (if b then set_pool (foldr close_client (t_pool t') []) t' else t'))
    as Hdone by (by destruct b).
  destruct (t_store t !! r) as [sw|] eqn:Hr.
  2:{ apply Hdone. split; [apply Hw|]. intros r' x Hx. destruct (proj2 Hw r' x Hx) as [? Hin].
      split; [done|]. intros Hc Hn. apply Hin; [done|]. intros [->|?]; [congruence|done]. }
  destruct (close_wrapper sw) as [sw' cs] eqn:Ec.
  assert (entry_ok sw' ∧ sw_Key sw' = sw_Key sw ∧ sw_closed sw' = true) as (He & Hk & Hc).
  { destruct (proj2 Hw r sw Hr) as [Hent _]. unfold close_wrapper in Ec.
    destruct (sw_closed sw) eqn:Es; injection Ec as <- <-; [done|].
    destruct Hent as (Hm & _). unfold entry_ok. cbn. split_and!; done || lia. }
  assert (wf_but R (set_store (<[r := sw']> (t_store t)) t)) as Hwf; [|by destruct b].
  destruct Hw as [H1 H2]. split; cbn.
  - intros key r' Hl. destruct (H1 key r' Hl) as (x & Hx & Hkx). exists x.
    rewrite lookup_insert_ne; [done|]. intros <-. by apply (Hout key).
  - intros r' x Hx. destruct (decide (r = r')) as [<-|Hne].
    + rewrite lookup_insert_eq in Hx. injection Hx as <-. split; [done|]. congruence.
    + rewrite lookup_insert_ne in Hx by done. destruct (H2 r' x Hx) as [? Hin]. split; [done|].
      intros Hcx Hn. apply Hin; [done|]. intros [->|?]; done.
Qed.

Lemma close_ref_sessions r b (t : T) : t_sessions (close_ref r b t) = t_sessions t.
Proof.
  unfold close_ref, on_wrapper. destruct (t_store t !! r) as [sw|]; [|by destruct b].
  destruct (close_wrapper sw) as [sw' cs]. by destruct b.
Qed.

Lemma sessions_inj t key key' r :
  terminals_wf t → t_sessions t !! key = Some r → t_sessions t !! key' = Some r → key = key'.
Proof.
  intros [H1 _] Hk Hk'. destruct (H1 _ _ Hk) as (x & Hx & <-). destruct (H1 _ _ Hk') as (y & Hy & <-).
  congruence.
Qed.

Lemma wf_close_at key r b (t : T) :
  terminals_wf t → t_sessions t !! key = Some r → terminals_wf (close_ref r b (drop_key key t)).
Proof.
  intros Hw Hk. apply wf_close_ref.
  - destruct Hw as [H1 H2]. split; cbn.
    + intros key' r' Hl. apply lookup_delete_Some in Hl as [_ Hl]. by apply H1.
    + intros r' sw Hr. destruct (H2 r' sw Hr) as [He Hin]. split; [done|]. intros Hc Hn.
      specialize (Hin Hc ltac:(tauto)). rewrite lookup_delete_ne; [done|]. intros ->.
      rewrite Hin in Hk. injection Hk as ->. tauto.
  - intros key' Hl. cbn in Hl. apply lookup_delete_Some in Hl as [Hne Hl].
    by apply Hne, (sessions_inj t _ _ r Hw).
Qed.

Lemma wf_close_list l (R : positive → Prop) (t : T) :
  wf_but (λ x, x ∈ l ∨ R x) t → (∀ key r, t_sessions t !! key = Some r → r ∉ l) →
  wf_but R (foldr (λ r, close_ref r true) t l) ∧
  t_sessions (foldr (λ r, close_ref r true) t l) = t_sessions t.
Proof.
  revert R. induction l as [|r l IH]; intros R Hw Hout; cbn.
  - split; [|done]. eapply wf_weaken; [|exact Hw]. intros x [?%elem_of_nil|?]; done.
  - destruct (IH (λ x, x = r ∨ R x)) as [Hw' Hs].
    + eapply wf_weaken; [|exact Hw]. intros x [[->|?]%elem_of_cons|?]; tauto.
    + intros key r' Hl Hin. apply (Hout key r' Hl). by right.
    + split; [|by rewrite close_ref_sessions].
      apply wf_close_ref; [done|]. rewrite Hs. intros key Hl. apply (Hout key r Hl). by left.
Qed.

Lemma wf_close_keys P (t : T) :
  terminals_wf t → terminals_wf (close_keys P t) ∧
  t_sessions (close_keys P t) = filter (λ x, P x.1 = false) (t_sessions t).
Proof.
  intros Hw. unfold close_keys. apply wf_close_list.
  - destruct Hw as [H1 H2]. split; cbn.
    + intros key r Hl. apply map_lookup_filter_Some in Hl as [Hl _]. by apply H1.
    + intros r sw Hr. destruct (H2 r sw Hr) as [He Hin]. split; [done|]. intros Hc Hn.
      specialize (Hin Hc ltac:(tauto)). apply map_lookup_filter_Some. split; [done|]. cbn.
      destruct (P (sw_Key sw)) eqn:EP; [|done]. exfalso. apply Hn. left.
      apply list_elem_of_fmap. exists (sw_Key sw, r). split; [done|]. apply elem_of_map_to_list.
      by apply map_lookup_filter_Some.
  - cbn. intros key r Hl Hin. apply map_lookup_filter_Some in Hl as [Hl HP].
    apply list_elem_of_fmap in Hin as ([key' r'] & -> & Hin%elem_of_map_to_list).
    apply map_lookup_filter_Some in Hin as [Hl' HP']. cbn in *.
    rewrite (sessions_inj t key key' r' Hw Hl Hl') in HP. congruence.
Qed.

Lemma wf_close_key key (t : T) : terminals_wf t → terminals_wf (close_key key t).
Proof.
  intros Hw. unfold close_key, take_key. destruct (t_sessions t !! key) as [r|] eqn:Hk; [|done].
  by apply wf_close_at.
Qed.
Lemma wf_closeTerminalSession u root b (t : T) :
  terminals_wf t → terminals_wf (closeTerminalSession u root b t).
Proof.
  intros Hw. unfold closeTerminalSession, take_key.
  destruct (t_sessions t !! _) as [r|] eqn:Hk; [|done]. by apply wf_close_at.
Qed.

Lemma wf_getOrCreate u root idt now cl cr (t t' : T) res :
  terminals_wf t → getOrCreateTerminalSession u root idt now cl cr t = (t', res) →
  terminals_wf t' ∧
  (∀ r, res = Ok r → t_sessions t' !! terminalSessionKey u root = Some r ∧ is_open t' r = true).
Proof.
  intros Hw. unfold getOrCreateTerminalSession. set (key := terminalSessionKey u root).
  assert (∀ t0 : T, terminals_wf t0 → t_sessions t0 !! key = None →
    (match cl with
     | Err e => (t0, Err e)
     | Ok _ =>
         match cr with
         | Err e => (t0, Err e)
         | Ok pty =>
             let r := fresh (dom (t_store t0)) in
             (mkTerminal (t_pool t0) (<[key := r]> (t_sessions t0))
                (<[r := new_wrapper u root idt now pty]> (t_store t0)), Ok r)
         end
     end) = (t', res) → terminals_wf t' ∧
    (∀ r, res = Ok r → t_sessions t' !! key = Some r ∧ is_open t' r = true)) as Hfresh.
  { intros t0 Hw0 Hno. destruct cl as [|e]; [|by intros [= <- <-]].
    destruct cr as [pty|e]; [|by intros [= <- <-]]. intros [= <- <-].
    set (r := fresh (dom (t_store t0))).
    assert (t_store t0 !! r = None) as Hr by (apply not_elem_of_dom, is_fresh).
    split; [|intros ? [= <-]; cbn; unfold is_open; cbn; by rewrite !lookup_insert_eq].
    destruct Hw0 as [H1 H2]. split; cbn.
    - intros key' r' Hl. destruct (decide (key = key')) as [<-|Hne].
      + rewrite lookup_insert_eq in Hl. injection Hl as <-. rewrite lookup_insert_eq. by eexists.
      + rewrite lookup_insert_ne in Hl by done. destruct (H1 _ _ Hl) as (x & Hx & Hk).
        exists x. rewrite lookup_insert_ne by congruence. done.
    - intros r' x Hx. destruct (decide (r = r')) as [<-|Hne].
      + rewrite lookup_insert_eq in Hx. injection Hx as <-. split.
        * pose proof limit_pos. unfold entry_ok. cbn. split_and!; done || lia.
        * intros _ _. by rewrite lookup_insert_eq.
      + rewrite lookup_insert_ne in Hx by done. destruct (H2 r' x Hx) as [He Hin].
        split; [done|]. intros Hc _. specialize (Hin Hc ltac:(tauto)).
        rewrite lookup_insert_ne; [done|]. intros Heq. congruence. }
  destruct (t_sessions t !! key) as [r|] eqn:Hk; [|by apply Hfresh].
  destruct (is_open t r) eqn:Ho.
  { intros [= <- <-]. split; [done|]. by intros ? [= <-]. }
  apply Hfresh; [|apply lookup_delete_eq]. destruct Hw as [H1 H2]. split; cbn.
  - intros key' r' [_ Hl]%lookup_delete_Some. by apply H1.
  - intros r' sw Hr. destruct (H2 r' sw Hr) as [He Hin]. split; [done|]. intros Hc Hn.
    specialize (Hin Hc Hn). rewrite lookup_delete_ne; [done|]. intros Hkey. rewrite <- Hkey, Hk in Hin.
    injection Hin as ->. unfold is_open in Ho. rewrite Hr in Ho. by rewrite Hc in Ho.
Qed.

(** What may happen to the service: connections in their steps, messages,
    output of a PTY, its end, the idle sweep, the requests to resize and close. *)
Inductive terminal_step : T → T → Prop :=
  | ts_open u root e n t t' r : conn_open u root e n t = (t', r) → terminal_step t t'
  | ts_create u root i n cl cr t t' r :
      getOrCreateTerminalSession u root i n cl cr t = (t', r) → terminal_step t t'
  | ts_message n a m c t t' c' r : messageHandler n a m c t = (t', c', r) → terminal_step t t'
  | ts_init n a b r c t t' c' : conn_init n a b r c t = (t', c') → terminal_step t t'
  | ts_bind n r c t : terminal_step t (conn_bind encode n r c t)
  | ts_fail c t : terminal_step t (conn_fail c t)
  | ts_done n r c t : terminal_step t (conn_done n r c t)
  | ts_write n r p t : terminal_step t (Write encode n r p t)
  | ts_exit key r t : terminal_step t (closeTerminalSessionByKey key r true t)
  | ts_resize n u root c r a t t' x : ResizeTerminal n u root c r a t = (t', x) → terminal_step t t'
  | ts_user u t : terminal_step t (CloseUserTerminals u t)
  | ts_all t : terminal_step t (CloseAllTerminals t)
  | ts_idle key t : terminal_step t (close_key key t).

Lemma entry_resize n c r a sw :
  entry_ok sw → entry_ok (resize n c r a sw).1 ∧ sw_Key (resize n c r a sw).1 = sw_Key sw ∧
  sw_closed (resize n c r a sw).1 = sw_closed sw.
Proof.
  intros He. unfold resize. destruct (sw_closed sw) eqn:E, (sw_pty sw) eqn:E'; [by cbn; rewrite E..| |by cbn; rewrite E].
  unfold entry_ok in *. cbn. by rewrite E, E' in *.
Qed.
Lemma entry_input n d a sw :
  entry_ok sw → entry_ok (writeInput n d a sw).1 ∧ sw_Key (writeInput n d a sw).1 = sw_Key sw ∧
  sw_closed (writeInput n d a sw).1 = sw_closed sw.
Proof.
  intros He. unfold writeInput. destruct (sw_closed sw) eqn:E, (sw_pty sw) eqn:E'; [by cbn; rewrite E..| |by cbn; rewrite E].
  destruct a; [|by cbn; rewrite E]. unfold entry_ok in *. cbn. by rewrite E, E' in *.
Qed.
Lemma entry_add n c sw :
  entry_ok sw → entry_ok (addClient n c sw).1 ∧ sw_Key (addClient n c sw).1 = sw_Key sw ∧
  sw_closed (addClient n c sw).1 = sw_closed sw.
Proof.
  intros He. unfold addClient. destruct (sw_closed sw) eqn:E; cbn; [done|].
  unfold entry_ok in *. cbn. rewrite E in *. destruct He as (? & ? & ? & _ & ?). by split_and!.
Qed.
Lemma entry_remove n c sw :
  entry_ok sw → entry_ok (removeClient n c sw) ∧ sw_Key (removeClient n c sw) = sw_Key sw ∧
  sw_closed (removeClient n c sw) = sw_closed sw.
Proof.
  intros (? & ? & ? & Hc & ?). unfold removeClient, entry_ok. cbn. split_and!; try done.
  intros Hcl. destruct (Hc Hcl) as [-> ->]. set_solver.
Qed.

Lemma wf_step t t' : terminal_step t t' → terminals_wf t → terminals_wf t'.
Proof.
  assert (∀ (f : sshSessionWrapper → sshSessionWrapper * result unit) r (t0 : T),
    (∀ sw, entry_ok sw →
       entry_ok (f sw).1 ∧ sw_Key (f sw).1 = sw_Key sw ∧ sw_closed (f sw).1 = sw_closed sw) →
    terminals_wf t0 → terminals_wf (on_wrapper r f (Err no_terminal) t0).1) as Hop.
  { intros f r t0 Hf Hw. destruct (on_wrapper r f _ t0) as [t1 a] eqn:E. by eapply wf_on_wrapper. }
  intros Hs Hw. destruct Hs.
  - unfold conn_open in H. destruct e; [|by injection H as <- <-].
    destruct (Add u _ _) as [p c]. injection H as <- <-. by apply wf_pool, wf_closeTerminalSession.
  - by eapply wf_getOrCreate in H as [? _].
  - destruct m as [cols rows| |data|]; cbn in H.
    + destruct (c_sw c) as [r'|]; injection H as <- <- <-; [|done]. apply Hop; [|done].
      intros. by apply entry_resize.
    + injection H as <- <- <-. by apply wf_closeTerminalSession.
    + destruct (c_sw c) as [r'|]; [|by injection H as <- <- <-].
      destruct (on_wrapper r' _ _ t) as [t1 a1] eqn:E. injection H as <- <- <-.
      eapply wf_on_wrapper; [|done|exact E]. intros. by apply entry_input.
    + by injection H as <- <- <-.
  - unfold conn_init in H. injection H as <- <-.
    assert (∀ t0 : T, terminals_wf t0 → terminals_wf
      match c_pendingInput c with
      | [] => t0
      | data => (on_wrapper r (writeInput n data b) (Err no_terminal) t0).1
      end) as Hin.
    { intros t0 Hw0. destruct (c_pendingInput c) as [|x l]; [done|]. apply Hop; [|done].
      intros. by apply entry_input. }
    apply Hin. destruct (c_pendingResize c) as [[cols rows]|]; [|done]. apply Hop; [|done].
    intros. by apply entry_resize.
  - unfold conn_bind. apply wf_pool. destruct (on_wrapper r _ _ t) as [t1 a] eqn:E.
    eapply wf_on_wrapper; [|done|exact E]. intros. by apply entry_add.
  - done.
  - unfold conn_done. destruct (on_wrapper r _ _ t) as [t1 a] eqn:E.
    eapply wf_on_wrapper; [|done|exact E]. intros. by apply entry_remove.
  - unfold Write. destruct (t_store t !! r) as [sw|] eqn:Hr; [|done].
    destruct (write_output n p sw) as [sw' s] eqn:E.
    assert (terminals_wf (set_store (<[r := sw']> (t_store t)) t)) as Hw'.
    { destruct (entry_write _ _ _ _ _ (proj1 (proj2 Hw r sw Hr)) E) as (He & Hk & Hc).
      eapply wf_weaken; [|eapply wf_entry; eauto]. cbn. tauto. }
    by destruct s.
  - unfold closeTerminalSessionByKey, take_key. destruct (t_sessions t !! key) as [x|] eqn:Hk; [|done].
    case_bool_decide; [|done]. by apply wf_close_at.
  - unfold ResizeTerminal in H. destruct (t_sessions t !! _) as [y|]; [|by injection H as <- <-].
    eapply wf_on_wrapper; [|done|exact H]. intros. by apply entry_resize.
  - by apply wf_close_keys.
  - by apply wf_close_keys.
  - by apply wf_close_key.
Qed.

Lemma wf_reachable p t : rtc terminal_step (mkTerminal p ∅ ∅) t → terminals_wf t.
Proof.
  assert (∀ a b, rtc terminal_step a b → terminals_wf a → terminals_wf b) as Hind.
  { intros a b Hs. induction Hs as [|x y z Hxy _ IH]; [done|]. intros Hx. apply IH. by eapply wf_step. }
  intros Hs. apply (Hind _ _ Hs). split; cbn; intros *; rewrite lookup_empty; discriminate.
Qed.

(** In every state the terminal service reaches, with any interleaving of
    connections, messages, output, ends of shells and sweeps, each key leads to
    a terminal of that key, each terminal that is not closed has its PTY and is
    found under its key (no PTY is leaked), a closed one has neither PTY nor
    clients, and the buffered output is bounded. *)
Theorem terminals_no_leak p t
  (Hreach : rtc terminal_step (mkTerminal p ∅ ∅) t) :
  (∀ key r, t_sessions t !! key = Some r → ∃ sw, t_store t !! r = Some sw ∧ sw_Key sw = key) ∧
  (∀ r sw, t_store t !! r = Some sw →
     (sw_closed sw = false → sw_pty sw ≠ None ∧ t_sessions t !! sw_Key sw = Some r) ∧
     (sw_closed sw = true → sw_pty sw = None ∧ sw_clients sw = ∅) ∧
     Z.of_nat (length (sw_outputBuffer sw)) ≤ terminalOutputBufferLimit ∧
     (length (sw_utf8Remainder sw) ≤ 3)%nat).
Proof.
  destruct (wf_reachable p t Hreach) as [H1 H2]. split; [done|].
  intros r sw Hr. destruct (H2 r sw Hr) as [(_ & Hb & Hre & Hc & Ho) Hin].
  split_and!; try done. intros Hcl. split; [by apply Ho|]. apply Hin; tauto.
Qed.

Lemma Split_colon_key u x : Split colon (Itoa u +:+ ":" +:+ x) = Itoa u :: Split colon x.
Proof.
  change (Itoa u +:+ ":" +:+ x) with (Itoa u +:+ String colon x).
  apply Split_app, Itoa_no_colon.
Qed.

Lemma key_prefix u v root :
  HasPrefix (terminalSessionKey v root) (Itoa u +:+ ":") = bool_decide (v = u).
Proof.
  unfold terminalSessionKey, getSessionKey.
  change (String colon ?x) with (":" +:+ x). case_bool_decide as Hvu.
  - subst. apply HasPrefix_app. eexists. by rewrite sapp_assoc.
  - apply not_true_is_false. intros [r Hr]%HasPrefix_app. rewrite sapp_assoc in Hr.
    apply (f_equal (Split colon)) in Hr. rewrite !Split_colon_key in Hr.
    injection Hr as Hr _. by apply Itoa_inj in Hr.
Qed.

(** [CloseUserTerminals] removes and closes exactly the terminals of the user,
    in both modes; terminals of other users, also those whose number begins
    with the same digits, stay. *)
Theorem CloseUserTerminals_exact p t u
  (Hreach : rtc terminal_step (mkTerminal p ∅ ∅) t) :
  (∀ v root, t_sessions (CloseUserTerminals u t) !! terminalSessionKey v root =
     if bool_decide (v = u) then None else t_sessions t !! terminalSessionKey v root) ∧
  (∀ r sw root, t_store (CloseUserTerminals u t) !! r = Some sw →
     sw_Key sw = terminalSessionKey u root → sw_closed sw = true ∧ sw_pty sw = None).
Proof.
  pose proof (wf_reachable p t Hreach) as Hw.
  destruct (wf_close_keys (λ key, HasPrefix key (Itoa u +:+ ":")) t Hw) as [Hw' Hs].
  assert (∀ v root, t_sessions (CloseUserTerminals u t) !! terminalSessionKey v root =
     if bool_decide (v = u) then None else t_sessions t !! terminalSessionKey v root) as Hl.
  { intros v root. unfold CloseUserTerminals. rewrite Hs. pose proof (key_prefix u v root) as Hp.
    destruct (decide (v = u)) as [Hvu|Hvu];
      [rewrite bool_decide_true in Hp |- * by done|rewrite bool_decide_false in Hp |- * by done].
    - apply map_lookup_filter_None. right. intros r _ Hf. cbn [fst] in Hf. rewrite Hp in Hf. discriminate.
    - destruct (t_sessions t !! terminalSessionKey v root) as [r|] eqn:E.
      + by apply map_lookup_filter_Some.
      + apply map_lookup_filter_None. by left. }
  split; [done|]. intros r sw root Hr Hk. destruct (proj2 Hw' r sw Hr) as [He Hin].
  destruct (sw_closed sw) eqn:Hc.
  - destruct He as (_ & _ & _ & Hcl & _). rewrite Hc in Hcl. destruct (Hcl eq_refl). done.
  - exfalso. specialize (Hin eq_refl ltac:(tauto)). rewrite Hk in Hin.
    unfold CloseUserTerminals in Hl. rewrite Hl, bool_decide_true in Hin; done.
Qed.

(** ** Input *)

(** Input messages of one connection, while the PTY accepts them. *)
Fixpoint feed (now : Z) (ms : list bytes) (c : connection) (t : T) : T * connection :=
  match ms with
  | [] => (t, c)
  | m :: ms' => let '(t', c', _) := messageHandler now (Ok tt) (InInput m) c t in feed now ms' c' t'
  end.

Lemma feed_pending now ms c t :
  c_sw c = None →
  feed now ms c t = (t, set_pending (c_pendingInput c ++ concat ms) (c_pendingResize c) c).
Proof.
  revert c. induction ms as [|m ms IH]; intros c Hc; cbn.
  - rewrite app_nil_r. by destruct c.
  - rewrite Hc. cbn. rewrite IH by done. cbn. by rewrite <- app_assoc.
Qed.

Definition input_of (t : T) (r : positive) : option bytes := sw_input <$> t_store t !! r.
Definition live (t : T) (r : positive) : Prop :=
  ∃ sw, t_store t !! r = Some sw ∧ sw_closed sw = false ∧ sw_pty sw ≠ None.

Lemma write_live now data r t t' a :
  live t r → on_wrapper r (writeInput now data (Ok tt)) (Err no_terminal) t = (t', a) →
  a = Ok tt ∧ live t' r ∧ input_of t' r = (λ i, i ++ data) <$> input_of t r.
Proof.
  intros (sw & Hr & Hc & Hp) E. unfold on_wrapper in E. rewrite Hr in E.
  unfold writeInput in E. rewrite Hc in E. destruct (sw_pty sw) as [pty|] eqn:Epty; [|done].
  injection E as <- <-. unfold live, input_of. cbn. rewrite Hr, !lookup_insert_eq. cbn.
  split; [done|]. split; [|done]. eexists. split; [done|]. by rewrite ?Hc.
Qed.

Lemma feed_live now ms c r t t' c' :
  c_sw c = Some r → live t r → feed now ms c t = (t', c') →
  c' = c ∧ live t' r ∧ input_of t' r = (λ i, i ++ concat ms) <$> input_of t r.
Proof.
  intros Hc. revert t. induction ms as [|m ms IH]; intros t Hl E; cbn in E.
  - injection E as <- <-. split; [done|]. split; [done|]. destruct (input_of t r); [|done].
    cbn. by rewrite app_nil_r.
  - rewrite Hc in E. destruct (on_wrapper r _ _ t) as [t1 a] eqn:E1.
    destruct (write_live _ _ _ _ _ _ Hl E1) as (_ & Hl1 & Hi1).
    destruct (IH t1 Hl1 E) as (-> & Hl2 & Hi2). split; [done|]. split; [done|].
    rewrite Hi2, Hi1. destruct (input_of t r); [|done]. cbn. by rewrite <- app_assoc.
Qed.

(** Keystrokes reach the shell in the order they were typed: what the client
    sends before the terminal is ready is kept and written first, what it sends
    afterwards follows, and nothing is lost or written twice, as long as the
    PTY accepts input. *)
Theorem terminal_input_order now pre post c r t t1 c1 t2 c2 t3 c3
  (Hnew : c_sw c = None) (Hnone : c_pendingInput c = []) (Hlive : live t r)
  (Hpre : feed now pre c t = (t1, c1))
  (Hinit : conn_init now (Ok tt) (Ok tt) r c1 t1 = (t2, c2))
  (Hpost : feed now post c2 t2 = (t3, c3)) :
  input_of t3 r = (λ i, i ++ concat pre ++ concat post) <$> input_of t r.
Proof.
  rewrite feed_pending in Hpre by done. injection Hpre as <- <-. rewrite Hnone in Hinit. cbn in Hinit.
  unfold conn_init in Hinit. cbn in Hinit.
  assert (∀ t0 : T, live t0 r → input_of t0 r = input_of t r →
    ∀ t2', (match concat pre with
            | [] => t0
            | data => (on_wrapper r (writeInput now data (Ok tt)) (Err no_terminal) t0).1
            end) = t2' →
    live t2' r ∧ input_of t2' r = (λ i, i ++ concat pre) <$> input_of t r) as Hw.
  { intros t0 Hl0 Hi0 t2' <-. destruct (concat pre) as [|x l].
    - split; [done|]. rewrite Hi0. destruct (input_of t r); [|done]. cbn. by rewrite app_nil_r.
    - destruct (on_wrapper r _ _ t0) as [t4 a] eqn:E4. cbn.
      destruct (write_live _ _ _ _ _ _ Hl0 E4) as (_ & ? & Hi4). by rewrite Hi4, Hi0. }
  injection Hinit as Ht2 <-.
  assert (live t2 r ∧ input_of t2 r = (λ i, i ++ concat pre) <$> input_of t r) as [Hl2 Hi2].
  { destruct (c_pendingResize c) as [[cols rows]|]; [|by eapply Hw].
    eapply (Hw (on_wrapper r (resize now cols rows (Ok tt)) (Err no_terminal) t).1); [| |exact Ht2].
    - destruct Hlive as (sw & Hr & Hc & Hp). unfold on_wrapper. rewrite Hr. unfold resize.
      rewrite Hc. destruct (sw_pty sw) as [y|] eqn:Ey; [|done]. eexists. cbn. by rewrite lookup_insert_eq.
    - destruct Hlive as (sw & Hr & Hc & Hp). unfold on_wrapper, input_of. rewrite Hr. unfold resize.
      rewrite Hc. destruct (sw_pty sw) as [y|] eqn:Ey; [|done]. cbn. by rewrite lookup_insert_eq. }
  apply (feed_live now post _ r t2 t3 c3) in Hpost as (_ & _ & ->); [|done..].
  rewrite Hi2. destruct (input_of t r); [|done]. cbn. by rewrite <- app_assoc.
Qed.

End Table.

(** ** Examples and witnesses *)

(** Messages are the bytes they carry. *)
Notation T0 := (terminalService (msg := bytes)).
Definition demo_service : T0 := mkTerminal NewConnectionPool ∅ ∅.
Definition demo_connect : T0 * result connection := conn_open 7 false (Ok tt) 0 demo_service.
Definition demo_conn : connection := mkConnection 7 false 1 None [] None.
Definition demo_created : T0 :=
  (getOrCreateTerminalSession 7 false 0 0 (Ok tt) (Ok 1%positive) demo_connect.1).1.

(** What the shell prints before the client is bound is in the buffer, and the
    client never gets it: [addClient] returns it and nobody sends it. *)
Example early_output_lost :
  let t := conn_bind Some 2 1 demo_conn (Write Some 1 1 [36; 32] demo_created) in
  (sw_outputBuffer <$> t_store t !! 1%positive) = Some [36; 32] ∧
  (Client.Send <$> heap (t_pool t) !! 1%positive) = Some [clear_screen].
Proof. split; vm_compute; reflexivity. Qed.

(** The sweep remembers keys, not terminals: a terminal that was opened under
    the key after the keys were collected is closed though it is new. *)
Example sweep_closes_fresh_terminal :
  let late := 31 * 60 * 1000000000 in
  let keys := idle_keys late demo_created in
  let t1 := (conn_open 7 false (Ok tt) late demo_created).1 in
  let t2 := (getOrCreateTerminalSession 7 false late late (Ok tt) (Ok 2%positive) t1).1 in
  let t3 := foldr close_key t2 keys in
  (sw_LastActive <$> t_store t2 !! 2%positive) = Some late ∧
  (sw_closed <$> t_store t3 !! 2%positive) = Some true.
Proof. split; vm_compute; reflexivity. Qed.

Definition demo_wrapper : sshSessionWrapper := new_wrapper 7 false 0 0 1.

(** Three bytes of one character in two writes. *)
Lemma terminal_output_exact_witness :
  ∃ sw' sent, writes 0 [[228; 189]; [160; 36]] demo_wrapper = (sw', sent) ∧
    concat sent ++ sw_utf8Remainder sw' = [228; 189; 160; 36] ∧
    sent = [[]; [228; 189; 160; 36]].
Proof.
  destruct (writes 0 [[228; 189]; [160; 36]] demo_wrapper) as [sw' sent] eqn:E.
  exists sw', sent. split; [done|]. split; [|vm_compute in E; congruence].
  apply (proj1 (terminal_output_exact 0 [[228; 189]; [160; 36]] demo_wrapper sw' sent E ltac:(cbn; lia))).
Defined.

Lemma output_buffer_recent_witness :
  ∃ sw' sent, writes 0 [[36]; [32]] demo_wrapper = (sw', sent) ∧
    Z.of_nat (length (sw_outputBuffer sw')) ≤ terminalOutputBufferLimit.
Proof.
  destruct (writes 0 [[36]; [32]] demo_wrapper) as [sw' sent] eqn:E. exists sw', sent. split; [done|].
  apply (proj2 (output_buffer_recent 0 [[36]; [32]] demo_wrapper sw' sent E eq_refl ltac:(done))).
Defined.

Lemma demo_reachable : rtc (terminal_step Some) demo_service demo_created.
Proof.
  apply rtc_l with demo_connect.1.
  { apply (ts_open _ 7 false (Ok tt) 0 _ _ demo_connect.2). apply surjective_pairing. }
  apply rtc_once. eapply (ts_create _ 7 false 0 0 (Ok tt) (Ok 1%positive)). apply surjective_pairing.
Qed.

Lemma terminals_no_leak_witness :
  ∃ r sw, t_store demo_created !! r = Some sw ∧ sw_closed sw = false ∧
    t_sessions demo_created !! sw_Key sw = Some r.
Proof.
  destruct (terminals_no_leak Some NewConnectionPool demo_created demo_reachable) as [_ H].
  exists 1%positive, (new_wrapper 7 false 0 0 1). split; [vm_compute; reflexivity|]. split; [done|].
  apply (H 1%positive (new_wrapper 7 false 0 0 1)); [vm_compute; reflexivity|done].
Defined.

Lemma CloseUserTerminals_exact_witness :
  is_Some (t_sessions demo_created !! terminalSessionKey 7 false) ∧
  t_sessions (CloseUserTerminals 7 demo_created) !! terminalSessionKey 7 false = None.
Proof.
  split; [vm_compute; by eexists|].
  apply (proj1 (CloseUserTerminals_exact Some NewConnectionPool demo_created 7 demo_reachable) 7 false).
Defined.

Lemma terminal_input_order_witness :
  let '(t1, c1) := feed 0 [[108]; [115]] demo_conn demo_created in
  let '(t2, c2) := conn_init 0 (Ok tt) (Ok tt) 1 c1 t1 in
  let '(t3, _) := feed 0 [[10]] c2 t2 in
  input_of t3 1 = Some [108; 115; 10].
Proof.
  destruct (feed 0 [[108]; [115]] demo_conn demo_created) as [t1 c1] eqn:E1.
  destruct (conn_init 0 (Ok tt) (Ok tt) 1 c1 t1) as [t2 c2] eqn:E2.
  destruct (feed 0 [[10]] c2 t2) as [t3 c3] eqn:E3.
  refine (terminal_input_order 0 [[108]; [115]] [[10]] demo_conn 1 demo_created t1 c1 t2 c2 t3 c3
            eq_refl eq_refl _ E1 E2 E3).
  exists (new_wrapper 7 false 0 0 1). split; [vm_compute; reflexivity|]. by split.
Defined.
