(* ===== verification/TerminalConc.v ===== *)
(** * Terminals while others run in between

    The functions of internal/service/terminal_service.go that close terminals
    take them out of the table under [s.mu], release it, mark the wrapper as
    closed under [sw.mu], release that too, and only then close the PTY and the
    connections.  Here each of these is a step of its own, and everything else
    the service does may come in between: [closer] is a goroutine on its way
    through a list of terminals.  The PTYs that are open on the host are counted. *)

From S2P Require Import Prelude GoStrings Errors Entity External MemBackend WsPool SshSessions Exec Terminal.

Open Scope Z_scope.

Section Closers.
Context {msg : Type}.
Variable encode : bytes → option msg.
Notation T := (@terminalService msg).

(** A goroutine that closes the terminals [todo], which are out of the table:
    before [sw.close] of the first one, or after [sw.mu.Unlock] of one whose
    [session] and [clients] it has taken. *)
Inductive closer : Type :=
  | Detached (todo : list positive) (closeClients : bool)
  | Unlocked (session : option positive) (clients : list positive) (todo : list positive) (closeClients : bool).
Definition todo_of (c : closer) : list positive := match c with Detached l _ | Unlocked _ _ l _ => l end.
Definition session_of (c : closer) : option positive := match c with Detached _ _ => None | Unlocked p _ _ _ => p end.

(** The service, the open PTYs, the goroutines that close. *)
Record tsys : Type := mkTsys { y_service : T; y_ptys : gset positive; y_closers : gmap nat closer }.

(** [sw.close] under [sw.mu]: what the goroutine takes with it. *)
Definition close_locked (r : positive) (t : T) : T * (option positive * list positive) :=
  on_wrapper r (λ sw, ((close_wrapper sw).1, (if sw_closed sw then None else sw_pty sw, (close_wrapper sw).2)))
    (None, []) t.
(** [sw.close] after [sw.mu.Unlock]: the session, then the clients. *)
Definition close_unlocked (clients : list positive) (closeClients : bool) (t : T) : T :=
  if closeClients then set_pool (foldr close_client (t_pool t) clients) t else t.

(** With nothing in between the two are [close_ref]. *)
Lemma close_ref_halves r b t :
  close_ref r b t = let '(t', (_, clients)) := close_locked r t in close_unlocked clients b t'.
Proof.
  unfold close_ref, close_locked, close_unlocked, on_wrapper. destruct (t_store t !! r) as [sw|]; [|done].
  by destruct (close_wrapper sw).
Qed.

(** The PTYs after [getOrCreateTerminalSession]: one more when it made a wrapper. *)
Definition ptys_after (t t' : T) (created : result positive) (ptys : gset positive) : gset positive :=
  match created with
  | Ok pty => if decide (dom (t_store t') = dom (t_store t)) then ptys else {[pty]} ∪ ptys
  | Err _ => ptys
  end.

(** A request to close the terminal is the step [fs_detach]. *)
Definition closes (m : inbound) : bool := match m with InClose => true | _ => false end.

Inductive fine_step (s : tsys) : tsys → Prop :=
  (** [closeTerminalSession], [closeTerminalSessionByKey] and the sweep of idle terminals: one key *)
  | fs_detach i key b t r :
      y_closers s !! i = None → take_key key (y_service s) = (t, Some r) →
      fine_step s (mkTsys t (y_ptys s) (<[i := Detached [r] b]> (y_closers s)))
  (** [CloseUserTerminals] and [CloseAllTerminals] *)
  | fs_detach_all i P t l :
      y_closers s !! i = None → take_keys P (y_service s) = (t, l) →
      fine_step s (mkTsys t (y_ptys s) (<[i := Detached l true]> (y_closers s)))
  | fs_close i r todo b t pty cs :
      y_closers s !! i = Some (Detached (r :: todo) b) → close_locked r (y_service s) = (t, (pty, cs)) →
      fine_step s (mkTsys t (y_ptys s) (<[i := Unlocked pty cs todo b]> (y_closers s)))
  | fs_finish i pty cs todo b :
      y_closers s !! i = Some (Unlocked pty cs todo b) →
      fine_step s (mkTsys (close_unlocked cs b (y_service s))
        (y_ptys s ∖ from_option (λ p, {[p]}) ∅ pty) (<[i := Detached todo b]> (y_closers s)))
  | fs_return i b :
      y_closers s !! i = Some (Detached [] b) →
      fine_step s (mkTsys (y_service s) (y_ptys s) (delete i (y_closers s)))
  (** the host gives out PTYs that are not open *)
  | fs_create u root i n cl cr t x :
      (∀ pty, cr = Ok pty → pty ∉ y_ptys s) →
      getOrCreateTerminalSession u root i n cl cr (y_service s) = (t, x) →
      fine_step s (mkTsys t (ptys_after (y_service s) t cr (y_ptys s)) (y_closers s))
  | fs_add u md p c :
      Add u md (t_pool (y_service s)) = (p, c) →
      fine_step s (mkTsys (set_pool p (y_service s)) (y_ptys s) (y_closers s))
  | fs_message n a m c t c' x :
      closes m = false → messageHandler n a m c (y_service s) = (t, c', x) →
      fine_step s (mkTsys t (y_ptys s) (y_closers s))
  | fs_init n a b r c t c' :
      conn_init n a b r c (y_service s) = (t, c') → fine_step s (mkTsys t (y_ptys s) (y_closers s))
  | fs_bind n r c : fine_step s (mkTsys (conn_bind encode n r c (y_service s)) (y_ptys s) (y_closers s))
  | fs_fail c : fine_step s (mkTsys (conn_fail c (y_service s)) (y_ptys s) (y_closers s))
  | fs_done n r c : fine_step s (mkTsys (conn_done n r c (y_service s)) (y_ptys s) (y_closers s))
  | fs_write n r p : fine_step s (mkTsys (Write encode n r p (y_service s)) (y_ptys s) (y_closers s))
  | fs_resize n u root c r a t x :
      ResizeTerminal n u root c r a (y_service s) = (t, x) → fine_step s (mkTsys t (y_ptys s) (y_closers s)).
Definition fine_start (p : @ConnectionPool msg) : tsys := mkTsys (mkTerminal p ∅ ∅) ∅ ∅.

(** ** The invariant *)

(** A terminal that some goroutine is going to close. *)
Definition doomed (s : tsys) (r : positive) : Prop := ∃ i c, y_closers s !! i = Some c ∧ r ∈ todo_of c.
(** Who has a PTY in hand: a wrapper, or a goroutine that is about to close it. *)
Definition holds (s : tsys) (h : positive + nat) (p : positive) : Prop :=
  match h with
  | inl r => ∃ sw, t_store (y_service s) !! r = Some sw ∧ sw_pty sw = Some p
  | inr i => ∃ c, y_closers s !! i = Some c ∧ session_of c = Some p
  end.

Record fine_ok (s : tsys) : Prop := {
  ok_keys key r : t_sessions (y_service s) !! key = Some r →
    ∃ sw, t_store (y_service s) !! r = Some sw ∧ sw_Key sw = key ∧ sw_closed sw = false;
  ok_entry r sw : t_store (y_service s) !! r = Some sw → entry_ok sw ∧
    (sw_closed sw = false → t_sessions (y_service s) !! sw_Key sw = Some r ∨ doomed s r);
  ok_doomed r : doomed s r →
    is_Some (t_store (y_service s) !! r) ∧ ∀ key, t_sessions (y_service s) !! key ≠ Some r;
  ok_holds p : p ∈ y_ptys s ↔ ∃ h, holds s h p;
  ok_unique h h' p : holds s h p → holds s h' p → h = h'
}.

(** Steps that leave the table, the stored wrappers' keys, statuses and PTYs. *)
Definition same_terminals (t t' : T) : Prop :=
  t_sessions t' = t_sessions t ∧
  ∀ r, match t_store t !! r, t_store t' !! r with
       | Some sw, Some sw' =>
           (entry_ok sw → entry_ok sw') ∧ sw_Key sw' = sw_Key sw ∧ sw_closed sw' = sw_closed sw ∧ sw_pty sw' = sw_pty sw
       | None, None => True
       | _, _ => False
       end.
Lemma same_refl t : same_terminals t t.
Proof. split; [done|]. intros r. by destruct (t_store t !! r). Qed.
Lemma same_trans t1 t2 t3 : same_terminals t1 t2 → same_terminals t2 t3 → same_terminals t1 t3.
Proof.
  intros [S1 H1] [S2 H2]. split; [congruence|]. intros r. specialize (H1 r). specialize (H2 r).
  destruct (t_store t1 !! r), (t_store t2 !! r), (t_store t3 !! r); try done.
  destruct H1 as (? & ? & ? & ?), H2 as (? & ? & ? & ?). split_and!; [tauto|congruence..].
Qed.
Lemma same_pool p t : same_terminals t (set_pool p t).
Proof. split; [done|]. intros r. cbn. by destruct (t_store t !! r). Qed.

Lemma same_back t t' r sw' :
  same_terminals t t' → t_store t' !! r = Some sw' →
  ∃ sw, t_store t !! r = Some sw ∧ (entry_ok sw → entry_ok sw') ∧ sw_Key sw' = sw_Key sw ∧
    sw_closed sw' = sw_closed sw ∧ sw_pty sw' = sw_pty sw.
Proof. intros [_ H] Hr. specialize (H r). rewrite Hr in H. destruct (t_store t !! r) as [sw|]; [eauto|done]. Qed.
Lemma same_forth t t' r sw :
  same_terminals t t' → t_store t !! r = Some sw →
  ∃ sw', t_store t' !! r = Some sw' ∧ (entry_ok sw → entry_ok sw') ∧ sw_Key sw' = sw_Key sw ∧
    sw_closed sw' = sw_closed sw ∧ sw_pty sw' = sw_pty sw.
Proof. intros [_ H] Hr. specialize (H r). rewrite Hr in H. destruct (t_store t' !! r) as [sw'|]; [eauto|done]. Qed.

Lemma ok_same t ptys cl t' :
  fine_ok (mkTsys t ptys cl) → same_terminals t t' → fine_ok (mkTsys t' ptys cl).
Proof.
  intros [K E D Ho U] Hs. pose proof (proj1 Hs) as Hse. cbn in *.
  assert (∀ h p, holds (mkTsys t' ptys cl) h p ↔ holds (mkTsys t ptys cl) h p) as Hh.
  { intros [r|i] p; [|done]. cbn. split; intros (sw & Hr & Hp).
    - destruct (same_back _ _ _ _ Hs Hr) as (sw0 & ? & _ & _ & _ & Hp0). exists sw0. by rewrite <- Hp0.
    - destruct (same_forth _ _ _ _ Hs Hr) as (sw0 & ? & _ & _ & _ & Hp0). exists sw0. by rewrite Hp0. }
  split; cbn.
  - intros key r Hk. rewrite Hse in Hk. destruct (K key r Hk) as (sw & Hr & Hkey & Hc).
    destruct (same_forth _ _ _ _ Hs Hr) as (sw0 & ? & _ & Hk0 & Hc0 & _). exists sw0. split_and!; congruence.
  - intros r sw Hr. destruct (same_back _ _ _ _ Hs Hr) as (sw0 & Hr0 & He & Hk & Hc & _).
    destruct (E r sw0 Hr0) as [He0 Hin]. split; [by apply He|]. rewrite Hse, Hk, Hc. exact Hin.
  - intros r Hd. rewrite Hse. destruct (D r Hd) as [[sw Hr] Hn]. split; [|done].
    destruct (same_forth _ _ _ _ Hs Hr) as (sw0 & ? & _). by exists sw0.
  - intros p. rewrite Ho. by setoid_rewrite Hh.
  - intros h h' p H1%Hh H2%Hh. by eapply U.
Qed.

(** An operation of a wrapper that keeps key, status and PTY. *)
Definition gentle {A} (f : sshSessionWrapper → sshSessionWrapper * A) : Prop :=
  ∀ sw, (entry_ok sw → entry_ok (f sw).1) ∧ sw_Key (f sw).1 = sw_Key sw ∧ sw_closed (f sw).1 = sw_closed sw ∧
    sw_pty (f sw).1 = sw_pty sw.
Lemma same_on_wrapper {A} (f : sshSessionWrapper → sshSessionWrapper * A) r none t t' a :
  gentle f → on_wrapper r f none t = (t', a) → same_terminals t t'.
Proof.
  intros Hf E. unfold on_wrapper in E. destruct (t_store t !! r) as [sw|] eqn:Hr; [|injection E as <- _; apply same_refl].
  specialize (Hf sw). destruct (f sw) as [sw' a']. injection E as <- _. split; [done|]. intros r'. cbn in *.
  destruct (decide (r = r')) as [<-|Hne]; [by rewrite Hr, lookup_insert_eq|].
  rewrite lookup_insert_ne by done. by destruct (t_store t !! r').
Qed.
Lemma same_on_wrapper_1 {A} (f : sshSessionWrapper → sshSessionWrapper * A) r none t :
  gentle f → same_terminals t (on_wrapper r f none t).1.
Proof. intros Hf. eapply same_on_wrapper; [exact Hf|apply surjective_pairing]. Qed.
Lemma gentle_resize n c r a : gentle (resize n c r a).
Proof.
  intros sw. split; [intros He; by apply entry_resize|]. unfold resize.
  destruct (sw_closed sw) eqn:E, (sw_pty sw) eqn:E'; cbn; by rewrite ?E, ?E'.
Qed.
Lemma gentle_input n d a : gentle (writeInput n d a).
Proof.
  intros sw. split; [intros He; by apply entry_input|]. unfold writeInput.
  destruct (sw_closed sw) eqn:E, (sw_pty sw) eqn:E', a; cbn; by rewrite ?E, ?E'.
Qed.
Lemma gentle_add n c : gentle (addClient n c).
Proof. intros sw. split; [intros He; by apply entry_add|]. unfold addClient. by destruct (sw_closed sw) eqn:E. Qed.
Lemma gentle_remove n c : gentle (λ sw, (removeClient n c sw, tt)).
Proof. intros sw. split; [intros He; by apply entry_remove|]. done. Qed.
Lemma gentle_write n p : gentle (write_output n p).
Proof.
  intros sw. destruct (write_output n p sw) as [sw' s] eqn:E. cbn. split; [intros He; by eapply entry_write|].
  pose proof (write_output_cut _ _ _ _ _ E) as (_ & Hp & Hc & _). split_and!; [|done|done].
  unfold write_output in E. destruct (utf8_cut _) as [[|b l] r]; by injection E as <- <-.
Qed.

(** ** The steps *)

(** The goroutine [i], which has no PTY in hand, has another list to close. *)
Lemma holds_detached t ptys cl i l b h p :
  (∀ c, cl !! i = Some c → session_of c = None) →
  holds (mkTsys t ptys (<[i := Detached l b]> cl)) h p ↔ holds (mkTsys t ptys cl) h p.
Proof.
  intros Hi. destruct h as [r|j]; [done|]. cbn. destruct (decide (i = j)) as [<-|Hne].
  - rewrite lookup_insert_eq. split; [by intros (c & [= <-] & [=])|]. intros (c & Hc & Hs). by rewrite (Hi c Hc) in Hs.
  - by rewrite lookup_insert_ne.
Qed.

(** Terminals leave the table and become the list of a new goroutine. *)
Lemma ok_take s i t l b :
  fine_ok s → y_closers s !! i = None → t_store t = t_store (y_service s) →
  (∀ key r, t_sessions t !! key = Some r → t_sessions (y_service s) !! key = Some r ∧ r ∉ l) →
  (∀ key r, t_sessions (y_service s) !! key = Some r → t_sessions t !! key = Some r ∨ r ∈ l) →
  (∀ r, r ∈ l → ∃ key, t_sessions (y_service s) !! key = Some r) →
  fine_ok (mkTsys t (y_ptys s) (<[i := Detached l b]> (y_closers s))).
Proof.
  destruct s as [t0 ptys cl]. cbn. intros [K E D Ho U] Hi Hst Hsub Hsup Hl. cbn in *.
  assert (∀ h p, holds (mkTsys t ptys (<[i := Detached l b]> cl)) h p ↔ holds (mkTsys t0 ptys cl) h p) as Hh.
  { intros h p. rewrite holds_detached by (intros c; by rewrite Hi). destruct h; cbn; by rewrite ?Hst. }
  split; cbn.
  - intros key r Hk. rewrite Hst. apply K. by apply Hsub.
  - intros r sw Hr. rewrite Hst in Hr. destruct (E r sw Hr) as [He Hin]. split; [done|]. intros Hc.
    destruct (Hin Hc) as [Hk|(j & c & Hj & Hr')].
    + destruct (Hsup _ _ Hk) as [?|Hin']; [by left|right]. exists i, (Detached l b). cbn. by rewrite lookup_insert_eq.
    + right. cbn in Hj. exists j, c. cbn. split; [|done]. rewrite lookup_insert_ne; [done|congruence].
  - intros r (j & c & Hj & Hr). cbn in Hj. rewrite Hst. destruct (decide (i = j)) as [<-|Hne].
    + rewrite lookup_insert_eq in Hj. injection Hj as <-. cbn in Hr. split.
      * destruct (Hl r Hr) as [key Hk]. destruct (K key r Hk) as (sw & ? & _). by exists sw.
      * intros key Hk. by destruct (Hsub key r Hk).
    + rewrite lookup_insert_ne in Hj by done. destruct (D r) as [? Hn]; [by exists j, c|]. split; [done|].
      intros key Hk. destruct (Hsub key r Hk) as [Hk' _]. by apply (Hn key).
  - intros p. rewrite Ho. by setoid_rewrite Hh.
  - intros h h' p H1%Hh H2%Hh. by eapply U.
Qed.
Lemma ok_detach s i key b t r :
  fine_ok s → y_closers s !! i = None → take_key key (y_service s) = (t, Some r) →
  fine_ok (mkTsys t (y_ptys s) (<[i := Detached [r] b]> (y_closers s))).
Proof.
  intros Hok Hi E. unfold take_key in E. destruct (t_sessions (y_service s) !! key) as [r0|] eqn:Hk; [|done].
  injection E as <- <-. apply ok_take; cbn; [done..| | |].
  - intros key' r [Hne Hl]%lookup_delete_Some. split; [done|]. intros ->%list_elem_of_singleton.
    destruct (ok_keys s Hok _ _ Hk) as (x & Hx & <- & _), (ok_keys s Hok _ _ Hl) as (y & Hy & <- & _). congruence.
  - intros key' r Hl. destruct (decide (key = key')) as [<-|Hne]; [right|left; by rewrite lookup_delete_ne].
    rewrite Hk in Hl. injection Hl as <-. by apply list_elem_of_singleton.
  - intros r ->%list_elem_of_singleton. by exists key.
Qed.
Lemma ok_detach_all s i P t l :
  fine_ok s → y_closers s !! i = None → take_keys P (y_service s) = (t, l) →
  fine_ok (mkTsys t (y_ptys s) (<[i := Detached l true]> (y_closers s))).
Proof.
  intros Hok Hi [= <- <-]. apply ok_take; cbn; [done..| | |].
  - intros key r [Hl HP]%map_lookup_filter_Some. split; [done|]. intros Hin.
    apply list_elem_of_fmap in Hin as ([key' r'] & -> & Hin%elem_of_map_to_list).
    apply map_lookup_filter_Some in Hin as [Hl' HP']. cbn in *.
    destruct (ok_keys s Hok _ _ Hl) as (x & Hx & <- & _), (ok_keys s Hok _ _ Hl') as (y & Hy & <- & _). congruence.
  - intros key r Hl. destruct (P key) eqn:HP; [right|left; by apply map_lookup_filter_Some].
    apply list_elem_of_fmap. exists (key, r). split; [done|]. apply elem_of_map_to_list.
    by apply map_lookup_filter_Some.
  - intros r ([key r'] & -> & Hin%elem_of_map_to_list)%list_elem_of_fmap.
    apply map_lookup_filter_Some in Hin as [Hl _]. by exists key.
Qed.

(** A wrapper that is doomed is closed: its PTY goes to the goroutine. *)
Lemma ok_close_open t ptys cl i r todo b sw :
  fine_ok (mkTsys t ptys cl) → cl !! i = Some (Detached (r :: todo) b) → t_store t !! r = Some sw → sw_closed sw = false →
  fine_ok (mkTsys (set_store (<[r := (close_wrapper sw).1]> (t_store t)) t) ptys
             (<[i := Unlocked (sw_pty sw) (close_wrapper sw).2 todo b]> cl)).
Proof.
  intros [K E D Ho U] Hi Hr Hc. cbn in *.
  assert (doomed (mkTsys t ptys cl) r) as Hdr by (exists i, (Detached (r :: todo) b); split; [done|by left]).
  destruct (E r sw Hr) as [(Hm & _ & _ & _ & Hp) _]. unfold close_wrapper. rewrite Hc. cbn.
  set (sw' := mkWrapper _ _ _ _ _ _ _ _ _ _ _). set (s' := mkTsys _ _ _).
  assert (∀ x, doomed s' x → doomed (mkTsys t ptys cl) x) as Hsub.
  { intros x (j & c & Hj & Hx). cbn in Hj. destruct (decide (i = j)) as [<-|Hne].
    - rewrite lookup_insert_eq in Hj. injection Hj as <-. exists i, (Detached (r :: todo) b). split; [done|by right].
    - rewrite lookup_insert_ne in Hj by done. by exists j, c. }
  assert (∀ p h, holds s' h p ↔ h = inr i ∧ sw_pty sw = Some p ∨ h ≠ inl r ∧ h ≠ inr i ∧ holds (mkTsys t ptys cl) h p) as Hh.
  { intros p [x|j]; cbn.
    - destruct (decide (r = x)) as [<-|Hne]; [rewrite lookup_insert_eq|rewrite lookup_insert_ne by done].
      + split; [by intros (? & [= <-] & ?)|naive_solver].
      + split; [intros ?; right; split_and!; [congruence|done|done]|naive_solver].
    - destruct (decide (i = j)) as [<-|Hne]; [rewrite lookup_insert_eq|rewrite lookup_insert_ne by done].
      + split; [intros (? & [= <-] & ?); by left|]. intros [[_ ?]|(_ & ? & _)]; [eauto|done].
      + split; [intros ?; right; split_and!; [done|congruence|done]|naive_solver]. }
  assert (∀ p, sw_pty sw = Some p ↔ holds (mkTsys t ptys cl) (inl r) p) as Hr'.
  { intros p. cbn. rewrite Hr. naive_solver. }
  assert (∀ p, ¬ holds (mkTsys t ptys cl) (inr i) p) as Hi' by (cbn; rewrite Hi; naive_solver).
  split; cbn.
  - intros key x Hk. destruct (K key x Hk) as (y & Hy & ?). exists y. rewrite lookup_insert_ne; [done|].
    intros <-. destruct (D r Hdr) as [_ Hn]. by apply (Hn key).
  - intros x y Hx. destruct (decide (r = x)) as [<-|Hne].
    + rewrite lookup_insert_eq in Hx. injection Hx as <-. split; [|done]. pose proof limit_pos.
      unfold entry_ok. cbn. split_and!; [done|lia|lia|done|done].
    + rewrite lookup_insert_ne in Hx by done. destruct (E x y Hx) as [He Hin]. split; [done|]. intros Hcl.
      destruct (Hin Hcl) as [?|(j & c & Hj & Hx')]; [by left|right]. cbn in Hj.
      destruct (decide (i = j)) as [<-|Hij].
      * rewrite Hi in Hj. injection Hj as <-. apply elem_of_cons in Hx' as [->|Hx']; [done|].
        eexists i, _. cbn. rewrite lookup_insert_eq. split; [done|exact Hx'].
      * exists j, c. cbn. by rewrite lookup_insert_ne.
  - intros x Hd%Hsub. destruct (D x Hd) as [? Hn]. split; [|done].
    destruct (decide (r = x)) as [<-|Hne]; [by rewrite lookup_insert_eq|by rewrite lookup_insert_ne].
  - intros p. rewrite Ho. split.
    + intros [h Hp']. destruct (decide (h = inl r)) as [->|Hne].
      * exists (inr i). apply Hh. left. split; [done|]. by apply Hr'.
      * exists h. apply Hh. right. split_and!; [done| |done]. intros ->. by apply Hi' in Hp'.
    + intros [h [[-> Hp']|(_ & _ & Hp')]%Hh]; [exists (inl r); by apply Hr'|by exists h].
  - intros h h' p [[-> H1]|(N1 & N1' & H1)]%Hh [[-> H2]|(N2 & N2' & H2)]%Hh; [done|..|by eapply U].
    + exfalso. apply N2. symmetry. eapply U; [by apply Hr'|exact H2].
    + exfalso. apply N1. symmetry. eapply U; [by apply Hr'|exact H1].
Qed.

(** Going on to the rest of the list with no PTY in hand. *)
Lemma ok_next t ptys cl i c c' :
  fine_ok (mkTsys t ptys cl) → cl !! i = Some c → session_of c = None → session_of c' = None →
  (∀ r sw, r ∈ todo_of c → t_store t !! r = Some sw → sw_closed sw = false → r ∈ todo_of c') →
  (∀ r, r ∈ todo_of c' → r ∈ todo_of c) →
  fine_ok (mkTsys t ptys (<[i := c']> cl)).
Proof.
  intros [K E D Ho U] Hi Hs Hs' Hfwd Hbwd. cbn in *.
  assert (∀ h p, holds (mkTsys t ptys (<[i := c']> cl)) h p ↔ holds (mkTsys t ptys cl) h p) as Hh.
  { intros [x|j] p; [done|]. cbn. destruct (decide (i = j)) as [<-|Hne]; [|by rewrite lookup_insert_ne].
    rewrite lookup_insert_eq, Hi. naive_solver. }
  split; cbn; [done| | |by intros p; rewrite Ho; setoid_rewrite Hh|by intros h h' p H1%Hh H2%Hh; eapply U].
  - intros r sw Hr. destruct (E r sw Hr) as [He Hin]. split; [done|]. intros Hc.
    destruct (Hin Hc) as [?|(j & x & Hj & Hx)]; [by left|right]. cbn in Hj.
    destruct (decide (i = j)) as [<-|Hne].
    + rewrite Hi in Hj. injection Hj as <-. exists i, c'. cbn. rewrite lookup_insert_eq. split; [done|by eapply Hfwd].
    + exists j, x. cbn. by rewrite lookup_insert_ne.
  - intros r (j & x & Hj & Hx). cbn in Hj. apply D. destruct (decide (i = j)) as [<-|Hne].
    + rewrite lookup_insert_eq in Hj. injection Hj as <-. exists i, c. split; [done|by apply Hbwd].
    + rewrite lookup_insert_ne in Hj by done. by exists j, x.
Qed.

Lemma ok_close s i r todo b t pty cs :
  fine_ok s → y_closers s !! i = Some (Detached (r :: todo) b) → close_locked r (y_service s) = (t, (pty, cs)) →
  fine_ok (mkTsys t (y_ptys s) (<[i := Unlocked pty cs todo b]> (y_closers s))).
Proof.
  destruct s as [t0 ptys cl]. cbn. intros Hok Hi E. unfold close_locked, on_wrapper in E.
  destruct (t_store t0 !! r) as [sw|] eqn:Hr.
  2:{ injection E as <- <- <-. eapply ok_next; [done|exact Hi|done|done| |by intros; right].
      intros x sw [->|Hx]%elem_of_cons; [by rewrite Hr|done]. }
  injection E as <- <- <-. destruct (sw_closed sw) eqn:Hc; [|by apply ok_close_open].
  assert (close_wrapper sw = (sw, [])) as -> by (unfold close_wrapper; by rewrite Hc). cbn.
  assert (set_store (<[r := sw]> (t_store t0)) t0 = t0) as ->
    by (destruct t0; unfold set_store; cbn in *; by rewrite insert_id).
  eapply ok_next; [done|exact Hi|done|done| |by intros; right].
  intros x sw' [->|Hx]%elem_of_cons Hx'; [|done]. congruence.
Qed.

Lemma ok_finish s i pty cs todo b :
  fine_ok s → y_closers s !! i = Some (Unlocked pty cs todo b) →
  fine_ok (mkTsys (close_unlocked cs b (y_service s)) (y_ptys s ∖ from_option (λ p, {[p]}) ∅ pty)
             (<[i := Detached todo b]> (y_closers s))).
Proof.
  destruct s as [t ptys cl]. cbn. intros Hok Hi.
  eapply ok_same; [|unfold close_unlocked; destruct b; [apply same_pool|apply same_refl]].
  destruct Hok as [K E D Ho U]. cbn in *. set (s' := mkTsys _ _ _).
  assert (∀ x, doomed s' x ↔ doomed (mkTsys t ptys cl) x) as Hd.
  { intros x. split; intros (j & c & Hj & Hx); cbn in Hj; (destruct (decide (i = j)) as [<-|Hne]).
    - rewrite lookup_insert_eq in Hj. injection Hj as <-. by exists i, (Unlocked pty cs todo b).
    - rewrite lookup_insert_ne in Hj by done. by exists j, c.
    - rewrite Hi in Hj. injection Hj as <-. exists i, (Detached todo b). cbn. by rewrite lookup_insert_eq.
    - exists j, c. cbn. by rewrite lookup_insert_ne. }
  assert (∀ h p, holds s' h p ↔ h ≠ inr i ∧ holds (mkTsys t ptys cl) h p) as Hh.
  { intros [x|j] p; cbn; [naive_solver|]. destruct (decide (i = j)) as [<-|Hne].
    - rewrite lookup_insert_eq. split; [by intros (c & [= <-] & [=])|naive_solver].
    - rewrite lookup_insert_ne by done. naive_solver. }
  split; cbn; [done| | | |].
  - intros r sw Hr. destruct (E r sw Hr) as [He Hin]. split; [done|]. rewrite Hd. exact Hin.
  - intros r Hx%Hd. by apply D.
  - intros p. rewrite elem_of_difference, Ho. setoid_rewrite Hh. split.
    + intros [[h Hp] Hn]. exists h. split; [|done]. intros ->. destruct Hp as (c & Hc & Hs). cbn in Hc.
      rewrite Hi in Hc. injection Hc as <-. cbn in Hs. subst pty. cbn in Hn. set_solver.
    + intros [h [Hne Hp]]. split; [by exists h|]. destruct pty as [p'|]; cbn; [|set_solver].
      intros ->%elem_of_singleton. apply Hne. eapply U; [exact Hp|]. cbn. rewrite Hi. eauto.
  - intros h h' p [_ H1]%Hh [_ H2]%Hh. by eapply U.
Qed.

Lemma ok_return s i b :
  fine_ok s → y_closers s !! i = Some (Detached [] b) →
  fine_ok (mkTsys (y_service s) (y_ptys s) (delete i (y_closers s))).
Proof.
  destruct s as [t ptys cl]. cbn. intros [K E D Ho U] Hi. cbn in *.
  assert (∀ j c, cl !! j = Some c → (∃ r, r ∈ todo_of c) ∨ (∃ p, session_of c = Some p) → delete i cl !! j = Some c) as Hj.
  { intros j c Hc Hx. rewrite lookup_delete_ne; [done|]. intros <-. rewrite Hi in Hc. injection Hc as <-. cbn in Hx.
    destruct Hx as [[r Hr]|[p Hp]]; [by apply not_elem_of_nil in Hr|done]. }
  assert (∀ h p, holds (mkTsys t ptys (delete i cl)) h p ↔ holds (mkTsys t ptys cl) h p) as Hh.
  { intros [x|j] p; [done|]. cbn. split; intros (c & Hc & Hs); exists c; [by apply lookup_delete_Some in Hc as [_ ?]|].
    split; [apply Hj; eauto|done]. }
  split; cbn; [done| | |by intros p; rewrite Ho; setoid_rewrite Hh|by intros h h' p H1%Hh H2%Hh; eapply U].
  - intros r sw Hr. destruct (E r sw Hr) as [He Hin]. split; [done|]. intros Hc.
    destruct (Hin Hc) as [?|(j & c & Hjc & Hx)]; [by left|right]. exists j, c. split; [|done]. apply Hj; eauto.
  - intros r (j & c & Hjc & Hx). cbn in Hjc. apply D. exists j, c. by apply lookup_delete_Some in Hjc as [_ ?].
Qed.

(** A new terminal with a PTY that was not open. *)
Lemma ok_new t ptys cl u root idt now pty :
  fine_ok (mkTsys t ptys cl) → t_sessions t !! terminalSessionKey u root = None → pty ∉ ptys →
  let r := fresh (dom (t_store t)) in
  fine_ok (mkTsys (mkTerminal (t_pool t) (<[terminalSessionKey u root := r]> (t_sessions t))
                     (<[r := new_wrapper u root idt now pty]> (t_store t))) ({[pty]} ∪ ptys) cl).
Proof.
  intros [K E D Ho U] Hno Hp r. cbn in *. set (key := terminalSessionKey u root) in *.
  assert (t_store t !! r = None) as Hr by (apply not_elem_of_dom, is_fresh). set (s' := mkTsys _ _ _).
  assert (∀ h p, holds s' h p ↔ h = inl r ∧ p = pty ∨ h ≠ inl r ∧ holds (mkTsys t ptys cl) h p) as Hh.
  { intros [x|j] p; cbn; [|naive_solver]. destruct (decide (r = x)) as [<-|Hne].
    - rewrite lookup_insert_eq. naive_solver.
    - rewrite lookup_insert_ne by done. naive_solver. }
  assert (∀ p, ¬ holds (mkTsys t ptys cl) (inl r) p) as Hr' by (cbn; rewrite Hr; naive_solver).
  assert (∀ h, ¬ holds (mkTsys t ptys cl) h pty) as Hp' by (intros h Hh'; apply Hp, Ho; eauto).
  assert (∀ x, doomed s' x ↔ doomed (mkTsys t ptys cl) x) as Hd by done.
  split; cbn.
  - intros key' x [[<- <-]|[Hne Hk]]%lookup_insert_Some; [rewrite lookup_insert_eq; by eexists|].
    destruct (K key' x Hk) as (sw & Hx & ?). exists sw. rewrite lookup_insert_ne; [done|congruence].
  - intros x sw [[<- <-]|[Hne Hx]]%lookup_insert_Some.
    + split; [|intros _; left; cbn; by rewrite lookup_insert_eq]. pose proof limit_pos.
      unfold entry_ok. cbn. split_and!; [done|lia|lia|done|done].
    + destruct (E x sw Hx) as [He Hin]. split; [done|]. intros Hc. destruct (Hin Hc) as [Hk|?]; [left|by right].
      rewrite lookup_insert_ne; [done|]. intros Heq. by rewrite <- Heq, Hno in Hk.
  - intros x Hx%Hd. destruct (D x Hx) as [[sw Hsw] Hn].
    assert (r ≠ x) as Hne by congruence. split; [by rewrite lookup_insert_ne|].
    intros key' [[_ ?]|[_ Hk]]%lookup_insert_Some; [done|]. by apply (Hn key').
  - intros p. rewrite elem_of_union, elem_of_singleton, Ho. setoid_rewrite Hh. split.
    + intros [->|[h Hh']]; [exists (inl r); by left|]. exists h. right. split; [|done]. intros ->. by apply Hr' in Hh'.
    + intros [h [[_ ->]|[_ ?]]]; [by left|right; eauto].
  - intros h h' p [[-> ->]|[N1 H1]]%Hh [[-> H2]|[N2 H2]]%Hh; [done| | |by eapply U].
    + by apply Hp' in H2.
    + subst. by apply Hp' in H1.
Qed.

Lemma ok_create s u root i n cl cr t x :
  fine_ok s → (∀ pty, cr = Ok pty → pty ∉ y_ptys s) →
  getOrCreateTerminalSession u root i n cl cr (y_service s) = (t, x) →
  fine_ok (mkTsys t (ptys_after (y_service s) t cr (y_ptys s)) (y_closers s)).
Proof.
  destruct s as [t0 ptys clo]. cbn. intros Hok Hp E. unfold getOrCreateTerminalSession in E.
  assert (∀ t', t' = t0 → fine_ok (mkTsys t' (ptys_after t0 t' cr ptys) clo)) as Hsame.
  { intros t' ->. unfold ptys_after. destruct cr; [|done]. by rewrite decide_True. }
  destruct (t_sessions t0 !! terminalSessionKey u root) as [r|] eqn:Hk.
  { destruct (ok_keys _ Hok _ _ Hk) as (sw & Hr & _ & Hc). unfold is_open in E. cbn in Hr. rewrite Hr, Hc in E.
    injection E as <- _. by apply Hsame. }
  destruct cl as [u0|e]; [|injection E as <- _; by apply Hsame].
  destruct cr as [pty|e]; injection E as <- _; [|by apply Hsame].
  unfold ptys_after. cbn. rewrite decide_False; [by apply ok_new; [..|apply Hp]|].
  rewrite dom_insert_L. pose proof (is_fresh (dom (t_store t0))) as Hf. set_solver.
Qed.

Lemma gentle_steps s t :
  fine_ok s → same_terminals (y_service s) t → fine_ok (mkTsys t (y_ptys s) (y_closers s)).
Proof. destruct s. apply ok_same. Qed.

Lemma same_message n a m c (t t' : T) c' x :
  closes m = false → messageHandler n a m c t = (t', c', x) → same_terminals t t'.
Proof.
  intros Hm E. destruct m as [cols rows| |data|]; [|done|..]; cbn in E; [| |by injection E as <- _ _; apply same_refl].
  - destruct (c_sw c); injection E as <- _ _; [apply same_on_wrapper_1, gentle_resize|apply same_refl].
  - destruct (c_sw c) as [r|]; [|injection E as <- _ _; apply same_refl].
    destruct (on_wrapper r _ _ t) as [t1 y] eqn:E1. injection E as <- _ _.
    eapply same_on_wrapper; [apply gentle_input|exact E1].
Qed.
Lemma same_init n a b r c (t t' : T) c' : conn_init n a b r c t = (t', c') → same_terminals t t'.
Proof.
  unfold conn_init. intros [= <- _]. apply same_trans with
    (match c_pendingResize c with
     | None => t
     | Some (cols, rows) => (on_wrapper r (resize n cols rows a) (Err no_terminal) t).1
     end).
  - destruct (c_pendingResize c) as [[cols rows]|]; [apply same_on_wrapper_1, gentle_resize|apply same_refl].
  - destruct (c_pendingInput c); [apply same_refl|apply same_on_wrapper_1, gentle_input].
Qed.
Lemma same_write n r p (t : T) : same_terminals t (Write encode n r p t).
Proof.
  unfold Write. destruct (t_store t !! r) as [sw|] eqn:Hr; [|apply same_refl].
  assert (same_terminals t (set_store (<[r := (write_output n p sw).1]> (t_store t)) t)) as Hs.
  { pose proof (same_on_wrapper_1 (write_output n p) r [] t (gentle_write n p)) as Hs. unfold on_wrapper in Hs.
    rewrite Hr in Hs. by destruct (write_output n p sw). }
  destruct (write_output n p sw) as [sw' [|x l]]; [done|]. eapply same_trans; [exact Hs|apply same_pool].
Qed.

Lemma fine_step_ok s s' : fine_step s s' → fine_ok s → fine_ok s'.
Proof.
  intros Hs Hok. destruct Hs.
  - by apply ok_detach with key.
  - by apply ok_detach_all with P.
  - by eapply ok_close.
  - by eapply ok_finish.
  - by eapply ok_return.
  - by eapply ok_create.
  - apply gentle_steps; [done|apply same_pool].
  - apply gentle_steps; [done|by eapply same_message].
  - apply gentle_steps; [done|by eapply same_init].
  - apply gentle_steps; [done|]. unfold conn_bind. cbv zeta.
    eapply same_trans; [|apply same_pool]. apply same_on_wrapper_1, gentle_add.
  - apply gentle_steps; [done|apply same_pool].
  - apply gentle_steps; [done|]. apply (same_on_wrapper_1 _ r tt), gentle_remove.
  - apply gentle_steps; [done|apply same_write].
  - apply gentle_steps; [done|]. unfold ResizeTerminal in H.
    destruct (t_sessions (y_service s) !! _) as [y|]; [|injection H as <- _; apply same_refl].
    eapply same_on_wrapper; [apply gentle_resize|exact H].
Qed.

Lemma fine_reachable_ok p s : rtc fine_step (fine_start p) s → fine_ok s.
Proof.
  intros Hr. assert (fine_ok (fine_start p)) as H0.
  { split; cbn; try (intros *; rewrite lookup_empty; discriminate).
    - intros r (i & c & Hi & _). cbn in Hi. by rewrite lookup_empty in Hi.
    - intros q. split; [set_solver|]. intros ([r|i] & c & Hc & _); cbn in Hc; by rewrite lookup_empty in Hc.
    - intros [r|i] h' q (c & Hc & _); cbn in Hc; by rewrite lookup_empty in Hc. }
  induction Hr as [|x y z Hxy _ IH]; [done|]. apply IH. by eapply fine_step_ok.
Qed.

(** C24: No PTY is lost.  In every interleaving of connections, messages, output,
    ends of shells, sweeps and requests to close, where a goroutine that closes
    terminals gives way after taking them out of the table and again after
    marking each as closed: a key leads to an open terminal of that key; an open
    terminal has a PTY that is open on the host and is found under its key, or a
    goroutine has it on its list to close; a closed one has neither PTY nor
    clients; and each PTY that is open on the host belongs to one open terminal,
    or a goroutine has it in hand to close it.  So once the goroutines that close
    terminals are done every open PTY is that of a terminal of the table. *)
Theorem ptys_accounted p s
  (Hreach : rtc fine_step (fine_start p) s) :
  (∀ key r, t_sessions (y_service s) !! key = Some r →
     ∃ sw, t_store (y_service s) !! r = Some sw ∧ sw_Key sw = key ∧ sw_closed sw = false) ∧
  (∀ r sw, t_store (y_service s) !! r = Some sw →
     (sw_closed sw = false → (∃ pty, sw_pty sw = Some pty ∧ pty ∈ y_ptys s) ∧
        (t_sessions (y_service s) !! sw_Key sw = Some r ∨ doomed s r)) ∧
     (sw_closed sw = true → sw_pty sw = None ∧ sw_clients sw = ∅)) ∧
  (∀ pty, pty ∈ y_ptys s → ∃ h, holds s h pty ∧ ∀ h', holds s h' pty → h' = h) ∧
  (y_closers s = ∅ → ∀ pty, pty ∈ y_ptys s →
     ∃ r sw, t_store (y_service s) !! r = Some sw ∧ sw_pty sw = Some pty ∧
       t_sessions (y_service s) !! sw_Key sw = Some r).
Proof.
  destruct (fine_reachable_ok p s Hreach) as [K E D Ho U]. split_and!; [done| | |].
  - intros r sw Hr. destruct (E r sw Hr) as [(_ & _ & _ & Hc & Hop) Hin]. split; [|done].
    intros Hcl. split; [|by apply Hin]. destruct (sw_pty sw) as [pty|] eqn:Hp; [|by destruct (Hop Hcl)].
    exists pty. split; [done|]. apply Ho. exists (inl r). by exists sw.
  - intros pty [h Hh]%Ho. exists h. split; [done|]. intros h' Hh'. by eapply U.
  - intros Hn pty [[r|i] Hh]%Ho.
    + destruct Hh as (sw & Hr & Hp). exists r, sw. split_and!; [done..|].
      destruct (E r sw Hr) as [(_ & _ & _ & Hc & _) Hin]. destruct (sw_closed sw); [by destruct (Hc eq_refl); congruence|].
      destruct (Hin eq_refl) as [?|(j & c & Hj & _)]; [done|]. by rewrite Hn, lookup_empty in Hj.
    + destruct Hh as (c & Hc & _). by rewrite Hn, lookup_empty in Hc.
Qed.
End Closers.
Arguments tsys : clear implicits.

(** ** A run *)

(** The terminal of user 7 is made; a goroutine takes it out of the table; before
    it closes it, a new one is made under the same key; then the old one is
    closed. *)
Definition fine_key : string := terminalSessionKey 7 false.
Definition make (pty : positive) (s : tsys bytes) : tsys bytes :=
  let t := (getOrCreateTerminalSession 7 false 0 0 (Ok tt) (Ok pty) (y_service s)).1 in
  mkTsys t (ptys_after (y_service s) t (Ok pty) (y_ptys s)) (y_closers s).
Definition fine1 : tsys bytes := make 1 (fine_start NewConnectionPool).
Definition fine2 : tsys bytes :=
  mkTsys (take_key fine_key (y_service fine1)).1 (y_ptys fine1) (<[O := Detached [1%positive] true]> (y_closers fine1)).
Definition fine3 : tsys bytes := make 2 fine2.
Definition fine4 : tsys bytes :=
  mkTsys (close_locked 1 (y_service fine3)).1 (y_ptys fine3)
    (<[O := Unlocked (Some 1%positive) [] [] true]> (y_closers fine3)).
Definition fine5 : tsys bytes :=
  mkTsys (close_unlocked [] true (y_service fine4)) (y_ptys fine4 ∖ {[1%positive]}) (<[O := Detached [] true]> (y_closers fine4)).
Definition fine6 : tsys bytes := mkTsys (y_service fine5) (y_ptys fine5) (delete O (y_closers fine5)).

Lemma fine_run : rtc (fine_step Some) (fine_start NewConnectionPool) fine6.
Proof.
  eapply (rtc_l _ _ fine1).
  { eapply (fs_create _ _ 7 false 0 0 (Ok tt) (Ok 1%positive)); [intros pty _; cbn; set_solver|apply surjective_pairing]. }
  eapply (rtc_l _ _ fine2). { apply (fs_detach _ _ O fine_key); [|vm_compute]; reflexivity. }
  eapply (rtc_l _ _ fine3).
  { eapply (fs_create _ _ 7 false 0 0 (Ok tt) (Ok 2%positive)); [|apply surjective_pairing].
    intros pty [= <-]. apply (bool_decide_unpack _). vm_compute. done. }
  eapply (rtc_l _ _ fine4). { eapply (fs_close _ _ O 1%positive [] true); [|vm_compute]; reflexivity. }
  eapply (rtc_l _ _ fine5). { eapply (fs_finish _ _ O (Some 1%positive) [] [] true). vm_compute. reflexivity. }
  apply rtc_once. eapply (fs_return _ _ O true). vm_compute. reflexivity.
Qed.

Lemma ptys_accounted_witness :
  size (y_ptys fine4) = 2%nat ∧ size (y_ptys fine6) = 1%nat ∧
  ∃ r sw, t_store (y_service fine6) !! r = Some sw ∧ sw_pty sw = Some 2%positive ∧
    t_sessions (y_service fine6) !! sw_Key sw = Some r.
Proof.
  split; [vm_compute; reflexivity|]. split; [vm_compute; reflexivity|].
  destruct (ptys_accounted Some NewConnectionPool fine6 fine_run) as (_ & _ & _ & H).
  apply H; [vm_compute; reflexivity|]. apply (bool_decide_unpack _). vm_compute. done.
Defined.
