(* ===== verification/Users.v ===== *)
(** * Users and their accounts on the server

    internal/service/user_service.go, admin_service.go, the rest of
    internal/repository/user_repository.go and pkg/utils/validator.go:
    registration with an e-mail code, accounts created by an administrator,
    passwords, profiles.  Each user has a row in the database and an account
    on the server, which the service manages by shell commands as root. *)

From S2P Require Import Prelude GoStrings Float64 Errors Entity External MemBackend Access SshSessions SessionRepo MenuService Auth GoPath Shell.

Open Scope Z_scope.

(** ** Passwords (pkg/utils/validator.go) *)

Definition byte_in (lo hi : Z) (l : list Z) : bool :=
  match l with b :: _ => (lo <=? b) && (b <=? hi) | [] => false end.
Definition cont_at (n : nat) (l : list Z) : bool := byte_in 128 191 (drop n l).
(** Bytes of the first rune; an invalid byte counts as one rune. *)
Definition rune_width (l : list Z) : nat :=
  match l with
  | [] => 0%nat
  | b :: r =>
      if b <? 128 then 1%nat
      else if (194 <=? b) && (b <=? 223) then (if cont_at 0 r then 2%nat else 1%nat)
      else if (224 <=? b) && (b <=? 239) then
        let lo := if b =? 224 then 160 else 128 in
        let hi := if b =? 237 then 159 else 191 in
        if byte_in lo hi r && cont_at 1 r then 3%nat else 1%nat
      else if (240 <=? b) && (b <=? 244) then
        let lo := if b =? 240 then 144 else 128 in
        let hi := if b =? 244 then 143 else 191 in
        if byte_in lo hi r && cont_at 1 r && cont_at 2 r then 4%nat else 1%nat
      else 1%nat
  end.
Fixpoint rune_count (fuel : nat) (l : list Z) : Z :=
  match fuel, l with
  | S k, _ :: _ => 1 + rune_count k (drop (rune_width l) l)
  | _, _ => 0
  end.
(** [utf8.RuneCountInString]: every rune has at least one byte. *)
Definition RuneCountInString (s : string) : Z :=
  let l := (λ c, Z.of_N (Ascii.N_of_ascii c)) <$> String.list_ascii_of_string s in
  rune_count (length l) l.

Definition ValidatePassword (pwd : string) : result unit :=
  if Contains pwd " " then Err (ErrMsg "密码不能包含空格")
  else
    let length := RuneCountInString pwd in
    if (length <? 6) || (18 <? length) then Err (ErrMsg "密码长度必须在6-18位之间") else Ok tt.

Example validate_ex : (ValidatePassword "secret", ValidatePassword "密码密码密码", is_ok (ValidatePassword "pass"))
  = (Ok tt, Ok tt, false).
Proof. vm_compute. reflexivity. Qed.

(** A valid password has six to eighteen characters and no space. *)
Lemma ValidatePassword_ok pwd :
  ValidatePassword pwd = Ok tt → 6 ≤ RuneCountInString pwd ≤ 18 ∧ Contains pwd " " = false.
Proof.
  unfold ValidatePassword. destruct (Contains pwd " "); [done|].
  destruct (Z.ltb_spec (RuneCountInString pwd) 6); [done|].
  destruct (Z.ltb_spec 18 (RuneCountInString pwd)); [done|]. by split.
Qed.

(** ** Requests *)

Module RegisterRequest.
Record RegisterRequest : Type := mkRegisterRequest {
  Username : string; Password : string; ConfirmPassword : string; Email : string;
  EmailCaptcha : string
}.
End RegisterRequest.
Notation RegisterRequest := RegisterRequest.RegisterRequest.

Module CreateRequest.
Record CreateRequest : Type := mkCreateRequest {
  Username : string; Password : string; ConfirmPassword : string; Email : string;
  RealName : string; Phone : string; Status : Z; Roles : option (list string)
}.
End CreateRequest.
Notation CreateRequest := CreateRequest.CreateRequest.

Module AdminUpdateUserRequest.
Record AdminUpdateUserRequest : Type := mkAdminUpdateUserRequest {
  Email : string; RealName : string; Phone : string; Status : option Z; Password : string;
  ConfirmPassword : string; Priority : option Z; MultiTraining : option Z; CrossServer : option Z;
  Roles : option (list string)
}.
End AdminUpdateUserRequest.
Notation AdminUpdateUserRequest := AdminUpdateUserRequest.AdminUpdateUserRequest.

(** ** Rows *)

(** The columns of a user row, with the roles left to the join table. *)
Definition set_Password (p : string) (u : User) : User :=
  User.mkUser (User.ID u) (User.Username u) p (User.RealName u) (User.Phone u) (User.Avatar u)
    (User.Email u) (User.Status u) (User.Priority u) (User.MultiTraining u) (User.CrossServer u)
    (User.Roles u).
Definition set_Avatar (a : string) (u : User) : User :=
  User.mkUser (User.ID u) (User.Username u) (User.Password u) (User.RealName u) (User.Phone u) a
    (User.Email u) (User.Status u) (User.Priority u) (User.MultiTraining u) (User.CrossServer u)
    (User.Roles u).
Definition set_contact (real phone email : string) (u : User) : User :=
  User.mkUser (User.ID u) (User.Username u) (User.Password u) real phone (User.Avatar u) email
    (User.Status u) (User.Priority u) (User.MultiTraining u) (User.CrossServer u) (User.Roles u).
Definition set_rights (st pr mt cs : Z) (u : User) : User :=
  User.mkUser (User.ID u) (User.Username u) (User.Password u) (User.RealName u) (User.Phone u)
    (User.Avatar u) (User.Email u) st pr mt cs (User.Roles u).
(** The password and the last three fields of an administrator's update. *)
Definition set_password_rights (p : string) (req : AdminUpdateUserRequest) (u : User) : User :=
  set_rights (User.Status u) (default (User.Priority u) (AdminUpdateUserRequest.Priority req))
    (default (User.MultiTraining u) (AdminUpdateUserRequest.MultiTraining req))
    (default (User.CrossServer u) (AdminUpdateUserRequest.CrossServer req)) (set_Password p u).
Definition set_users (l : list User) (v : access) : access :=
  mkAccess l (a_roles v) (a_perms v) (a_menus v) (a_user_roles v) (a_role_perms v) (a_role_menus v).

(** gorm inserts the default of a column for a zero value. *)
Definition user_defaults (u : User) : User :=
  set_rights (if User.Status u =? 0 then 1 else User.Status u)
    (if User.Priority u =? 0 then 1 else User.Priority u) (User.MultiTraining u) (User.CrossServer u) u.

(** [db.Create] of a user: the id the database gives. *)
Class UserDb (S : Type) := {
  ud_create : User → M S (result Z)
}.
Class UserDbLaws (S : Type) `{Sql S access} `{UserDb S} : Prop := {
  ud_create_ok u s s' k :
    ud_create u s = (s', Ok k) →
    k ∉ User.ID <$> a_users (sql_view s) ∧
    sql_view s' = set_users (a_users (sql_view s) ++ [with_roles [] (User.set_id k (user_defaults u))])
                    (sql_view s);
  ud_create_err u s s' e : ud_create u s = (s', Err e) → sql_view s' = sql_view s
}.

(** The server: connecting as root, running a command (its output comes with
    an error too), and the local disk with the avatars. *)
Class Vm (H C : Type) := {
  vm_NewClient : DialConfig → M H (result C);
  vm_Exec : C → string → M H (string * option error);
  vm_RemoveFile : string → M H (result unit)
}.

(** The database, Redis, the server. *)
Record user_world (S K H : Type) : Type := mkUserWorld { uw_db : S; uw_kv : K; uw_vm : H }.
Arguments mkUserWorld {S K H}.
Arguments uw_db {S K H}.
Arguments uw_kv {S K H}.
Arguments uw_vm {S K H}.

(** ** Commands *)

Definition id_command (username : string) : string := "id -u " +:+ username.
Definition useradd_command (username : string) : string := "useradd -m -s /bin/bash " +:+ username.
Definition userdel_command (username : string) : string := "userdel -r " +:+ username.
Definition echo_password (username password : string) : string :=
  "echo '" +:+ username +:+ ":" +:+ ReplaceAll password squote "'\''" +:+ "'".
Definition passwd_command (username password : string) : string :=
  echo_password username password +:+ " | chpasswd".

Section Users.
Context {S : Type} {Q : Sql S access} {U : UserDb S} {K : Type} {KV : Kv K} {H C : Type} {V : Vm H C}.
Variable col_eq : string → string → bool.
(** [name LIKE '%text%']; the creation time of a row. *)
Variable col_like : string → string → bool.
Variable created : User → Z.
Variable base64_decode : string → result bytes.
Variable md5 : bytes → bytes.
Variable cbc_decrypt : bytes → bytes → bytes → bytes.
Variables aes_secret env1 env2 : string.
Variable bcrypt_hash : string → result string.
Variable bcrypt_compare : string → string → result unit.
(** [sshConfig]; [None] is nil. *)
Variable sshConfig : option Config.

Notation W := (user_world S K H).
Definition u_db {A} : M S A → M W A := lift uw_db (λ s w, mkUserWorld s (uw_kv w) (uw_vm w)).
Definition u_kv {A} : M K A → M W A := lift uw_kv (λ k w, mkUserWorld (uw_db w) k (uw_vm w)).
Definition u_vm {A} : M H A → M W A := lift uw_vm (λ h w, mkUserWorld (uw_db w) (uw_kv w) h).
Definition decrypt (s : string) : result string :=
  DecryptIfCryptoJS base64_decode md5 cbc_decrypt aes_secret env1 env2 s.

(** ** Repository *)

Definition exists_user (p : User → bool) : M S (result bool) :=
  r ← sql_count (λ v, List.filter p (a_users v));
  mret (match r with Err e => Err e | Ok count => Ok (0 <? count) end).
Definition ExistsByUsername (username : string) : M S (result bool) :=
  exists_user (λ u, col_eq (User.Username u) username).
Definition ExistsByEmail (email : string) : M S (result bool) :=
  exists_user (λ u, col_eq (User.Email u) email).
Definition user_Create (u : User) : M S (result Z) := ud_create u.
(** The listed columns of the row with the id. *)
Definition user_Update (u : User) : M S (result unit) :=
  sql_exec (λ v, set_users ((λ x, if User.ID x =? User.ID u then with_roles (User.Roles x) u else x)
                              <$> a_users v) v).
Definition user_Delete (id : Z) : M S (result unit) :=
  sql_exec (λ v, set_users (List.filter (λ x, negb (User.ID x =? id)) (a_users v)) v).

Definition list_filter (username email : string) (status : option Z) (u : User) : bool :=
  (String.eqb username "" || col_like (User.Username u) username) &&
  (String.eqb email "" || col_like (User.Email u) email) &&
  match status with Some s => User.Status u =? s | None => true end.
Definition newest_first (a b : User) : Prop := created b ≤ created a.
#[local] Instance newest_first_dec a b : Decision (newest_first a b).
Proof. unfold newest_first. apply _. Defined.
Definition list_page (offset limit : Z) (p : User → bool) (v : access) : list User :=
  let l := merge_sort newest_first (List.filter p (a_users v)) in
  (λ u, with_roles (roles_of (User.ID u) v) u) <$>
    (if 0 <? limit then limit_offset limit offset l else l).
Definition user_List (offset limit : Z) (username email : string) (status : option Z)
  : M S (result (list User * Z)) :=
  c ← sql_count (λ v, List.filter (list_filter username email status) (a_users v));
  match c with
  | Err e => mret (Err e)
  | Ok total =>
      if total =? 0 then mret (Ok ([], 0))
      else
        l ← sql_find (list_page offset limit (list_filter username email status));
        match l with
        | Err e => mret (Err e)
        | Ok users => mret (Ok (users, total))
        end
  end.

(** ** Accounts on the server *)

Definition vm_config (c : Config) : DialConfig :=
  DialConfig.mkDialConfig (Config.ServerHost c) (Config.RootUsername c) (Config.RootPassword c)
    (Config.Timeout c) (Config.PrivateKeyPath c) (Config.PrivateKeyPassphrase c).
(** The server is used when it is configured. *)
Definition vm_used : option Config :=
  match sshConfig with
  | Some c => if negb (String.eqb (Config.ServerHost c) "") && negb (String.eqb (Config.PrivateKeyPath c) "")
              then Some c else None
  | None => None
  end.
Definition failed (what out : string) (e : error) : error :=
  ErrWrap (what +:+ " failed: " +:+ out +:+ ", error") e.

Definition set_vm_password (c : C) (username password : string) : M H (result unit) :=
  x ← vm_Exec c (passwd_command username password);
  mret (match x with (out, Some e) => Err (failed "chpasswd" out e) | (_, None) => Ok tt end).
Definition createVMUser (cfg : Config) (username password : string) : M H (result unit) :=
  n ← vm_NewClient (vm_config cfg);
  match n with
  | Err e => mret (Err (ErrWrap "connect to vm failed" e))
  | Ok client =>
      i ← vm_Exec client (id_command username);
      match i with
      | (_, None) => mret (Ok tt)
      | (_, Some _) =>
          a ← vm_Exec client (useradd_command username);
          match a with
          | (out, Some e) => mret (Err (failed "useradd" out e))
          | (_, None) => set_vm_password client username password
          end
      end
  end.
Definition updateVMPassword (cfg : Config) (username password : string) : M H (result unit) :=
  n ← vm_NewClient (vm_config cfg);
  match n with
  | Err e => mret (Err (ErrWrap "connect to vm failed" e))
  | Ok client => set_vm_password client username password
  end.
Definition deleteVMUser (cfg : Config) (username : string) : M H (result unit) :=
  n ← vm_NewClient (vm_config cfg);
  match n with
  | Err e => mret (Err (ErrWrap "connect to vm failed" e))
  | Ok client =>
      i ← vm_Exec client (id_command username);
      match i with
      | (_, Some e) => mret (Err e)
      | (_, None) =>
          d ← vm_Exec client (userdel_command username);
          mret (match d with (out, Some e) => Err (failed "userdel" out e) | (_, None) => Ok tt end)
      end
  end.
Definition on_server (f : Config → M H (result unit)) : M W (result unit) :=
  match vm_used with None => mret (Ok tt) | Some c => u_vm (f c) end.

(** ** Registration *)

Definition email_key (email : string) : string := "email_code:" +:+ email.
(** The code that was sent by mail. *)
Definition check_code (email code : string) : M K (result unit) :=
  r ← kv_Get (email_key email);
  mret (match r with
        | Err ErrRedisNil => Err (New CodeInvalidParam "验证码已过期或未发送，请重新获取")
        | Err e => Err (NewWithErr CodeInternalError "获取验证码缓存失败" e)
        | Ok cacheCode =>
            if negb (String.eqb code cacheCode)
            then Err (New CodeInvalidParam "验证码输入错误，请重新核对") else Ok tt
        end).
(** Neither the name nor the address is taken. *)
Definition check_free (username email : string) : M W (result unit) :=
  a ← u_db (ExistsByUsername username);
  match a with
  | Err e => mret (Err e)
  | Ok true => mret (Err ErrUserAlreadyExists)
  | Ok false =>
      b ← u_db (ExistsByEmail email);
      mret (match b with
            | Err e => Err e
            | Ok true => Err (New CodeUserAlreadyExists "邮箱已被注册")
            | Ok false => Ok tt
            end)
  end.
(** The account on the server; when that fails the row is deleted again. *)
Definition create_account (id : Z) (username pwd : string) : M W (result unit) :=
  v ← on_server (λ c, createVMUser c username pwd);
  match v with
  | Ok _ => mret (Ok tt)
  | Err e => _ ← u_db (user_Delete id);
             mret (Err (NewWithErr CodeInternalError "创建虚拟机用户失败" e))
  end.

Definition Register (req : RegisterRequest) : M W (result unit) :=
  f ← check_free (RegisterRequest.Username req) (RegisterRequest.Email req);
  match f with
  | Err e => mret (Err e)
  | Ok _ =>
      k ← u_kv (check_code (RegisterRequest.Email req) (RegisterRequest.EmailCaptcha req));
      match k with
      | Err e => mret (Err e)
      | Ok _ =>
          _ ← u_kv (kv_Del (email_key (RegisterRequest.Email req)));
          match decrypt (RegisterRequest.Password req) with
          | Err e => mret (Err e)
          | Ok pwd =>
              match ValidatePassword pwd with
              | Err e => mret (Err e)
              | Ok _ =>
                  match bcrypt_hash pwd with
                  | Err e => mret (Err e)
                  | Ok hashed =>
                      n ← u_db (user_Create (User.mkUser 0 (RegisterRequest.Username req) hashed
                                  "" "" "" (RegisterRequest.Email req) 1 0 0 0 []));
                      match n with
                      | Err e => mret (Err e)
                      | Ok id =>
                          r ← u_db (AssignRoleByName col_eq id "user");
                          match r with
                          | Err e => mret (Err e)
                          | Ok _ => create_account id (RegisterRequest.Username req) pwd
                          end
                      end
                  end
              end
          end
      end
  end.
(** ** Accounts managed by an administrator *)

(** The message of [ValidatePassword] becomes that of a parameter error. *)
Definition validated (pwd : string) : result unit :=
  match ValidatePassword pwd with
  | Ok _ => Ok tt
  | Err e => Err (New CodeInvalidParam (error_text e))
  end.
(** The two passwords of a request, decrypted and compared. *)
Definition confirmed (p1 p2 : string) : result string :=
  match decrypt p1 with
  | Err e => Err e
  | Ok pwd =>
      match decrypt p2 with
      | Err e => Err e
      | Ok confirmPwd =>
          if negb (String.eqb pwd confirmPwd)
          then Err (New CodeInvalidParam "两次输入的密码不一致")
          else match validated pwd with Err e => Err e | Ok _ => Ok pwd end
      end
  end.

Definition CreateUser (req : CreateRequest) : M W (result unit) :=
  f ← check_free (CreateRequest.Username req) (CreateRequest.Email req);
  match f with
  | Err e => mret (Err e)
  | Ok _ =>
      match confirmed (CreateRequest.Password req) (CreateRequest.ConfirmPassword req) with
      | Err e => mret (Err e)
      | Ok pwd =>
          match bcrypt_hash pwd with
          | Err e => mret (Err e)
          | Ok hashed =>
              n ← u_db (user_Create (User.mkUser 0 (CreateRequest.Username req) hashed
                          (CreateRequest.RealName req) (CreateRequest.Phone req) ""
                          (CreateRequest.Email req) (CreateRequest.Status req) 0 0 0 []));
              match n with
              | Err e => mret (Err e)
              | Ok id =>
                  r ← match CreateRequest.Roles req with
                      | Some (_ :: _ as names) => u_db (ReplaceRolesByNames col_eq id names)
                      | _ => u_db (AssignRoleByName col_eq id "user")
                      end;
                  match r with
                  | Err e => mret (Err e)
                  | Ok _ => create_account id (CreateRequest.Username req) pwd
                  end
              end
          end
      end
  end.

Definition DeleteUser (id : Z) : M W (result unit) :=
  u ← u_db (FindByID id);
  match u with
  | Err e => mret (Err e)
  | Ok None => mret (Err ErrUserNotFound)
  | Ok (Some user) =>
      v ← on_server (λ c, deleteVMUser c (User.Username user));
      match v with
      | Err e => mret (Err (NewWithErr CodeInternalError "删除虚拟机用户失败" e))
      | Ok _ =>
          c ← u_db (ClearRoles id);
          match c with
          | Err e => mret (Err e)
          | Ok _ => u_db (user_Delete id)
          end
      end
  end.

(** The address of a request, unless another user has it. *)
Definition free_email (id : Z) (email : string) : M W (result unit) :=
  if String.eqb email "" then mret (Ok tt)
  else
    x ← u_db (FindByEmail col_eq email);
    mret (match x with
          | Err e => Err e
          | Ok (Some existing) =>
              if negb (User.ID existing =? id)
              then Err (New CodeUserAlreadyExists "邮箱已被注册") else Ok tt
          | Ok None => Ok tt
          end).
Definition or_else (new old : string) : string := if String.eqb new "" then old else new.

(** First the server, then the row: the hash that is stored. *)
Definition new_password (username p1 p2 : string) : M W (result string) :=
  match confirmed p1 p2 with
  | Err e => mret (Err e)
  | Ok pwd =>
      match bcrypt_hash pwd with
      | Err e => mret (Err e)
      | Ok hashed =>
          v ← on_server (λ c, updateVMPassword c username pwd);
          mret (match v with
                | Err e => Err (NewWithErr CodeInternalError "同步虚拟机密码失败，请稍后重试" e)
                | Ok _ => Ok hashed
                end)
      end
  end.

Definition AdminUpdateUser (id : Z) (req : AdminUpdateUserRequest) : M W (result unit) :=
  u ← u_db (FindByID id);
  match u with
  | Err e => mret (Err e)
  | Ok None => mret (Err ErrUserNotFound)
  | Ok (Some user) =>
      e ← free_email id (AdminUpdateUserRequest.Email req);
      match e with
      | Err e => mret (Err e)
      | Ok _ =>
          let user := set_contact (or_else (AdminUpdateUserRequest.RealName req) (User.RealName user))
                        (or_else (AdminUpdateUserRequest.Phone req) (User.Phone user))
                        (or_else (AdminUpdateUserRequest.Email req) (User.Email user)) user in
          let user := set_rights (default (User.Status user) (AdminUpdateUserRequest.Status req))
                        (User.Priority user) (User.MultiTraining user) (User.CrossServer user) user in
          p ← (if String.eqb (AdminUpdateUserRequest.Password req) "" then mret (Ok (User.Password user))
               else new_password (User.Username user) (AdminUpdateUserRequest.Password req)
                      (AdminUpdateUserRequest.ConfirmPassword req));
          match p with
          | Err e => mret (Err e)
          | Ok password =>
              let user := set_password_rights password req user in
              r ← match AdminUpdateUserRequest.Roles req with
                  | Some names => u_db (ReplaceRolesByNames col_eq id names)
                  | None => mret (Ok tt)
                  end;
              match r with
              | Err e => mret (Err e)
              | Ok _ => u_db (user_Update user)
              end
          end
      end
  end.

(** ** The user's own account *)

Definition GetUserByID (id : Z) : M W (result User) :=
  u ← u_db (FindByID id);
  mret (match u with Err e => Err e | Ok None => Err ErrUserNotFound | Ok (Some user) => Ok user end).
Definition GetUserByUsername (username : string) : M W (result User) :=
  u ← u_db (FindByUsername col_eq username);
  mret (match u with Err e => Err e | Ok None => Err ErrUserNotFound | Ok (Some user) => Ok user end).

(** The old picture is removed first; a failure of that is logged. *)
Definition UpdateAvatar (id : Z) (avatarPath : string) : M W (result unit) :=
  g ← GetUserByID id;
  match g with
  | Err e => mret (Err e)
  | Ok user =>
      _ ← (if negb (String.eqb (User.Avatar user) "") && negb (String.eqb (User.Avatar user) avatarPath)
           then u_vm (vm_RemoveFile (User.Avatar user)) else mret (Ok tt));
      u_db (user_Update (set_Avatar avatarPath user))
  end.

(** A new password that was not confirmed by a second one. *)
Definition change_to (username new : string) : M W (result string) :=
  match decrypt new with
  | Err e => mret (Err e)
  | Ok newPwd =>
      match ValidatePassword newPwd with
      | Err e => mret (Err e)
      | Ok _ =>
          match bcrypt_hash newPwd with
          | Err e => mret (Err e)
          | Ok hashed =>
              v ← on_server (λ c, updateVMPassword c username newPwd);
              mret (match v with
                    | Err e => Err (NewWithErr CodeInternalError "同步虚拟机密码失败，请稍后重试" e)
                    | Ok _ => Ok hashed
                    end)
          end
      end
  end.
Definition ChangePassword (id : Z) (old new : string) : M W (result unit) :=
  g ← GetUserByID id;
  match g with
  | Err e => mret (Err e)
  | Ok user =>
      match decrypt old with
      | Err e => mret (Err e)
      | Ok oldPwd =>
          match bcrypt_compare (User.Password user) oldPwd with
          | Err _ => mret (Err ErrInvalidCredentials)
          | Ok _ =>
              h ← change_to (User.Username user) new;
              match h with
              | Err e => mret (Err e)
              | Ok hashed => u_db (user_Update (set_Password hashed user))
              end
          end
      end
  end.
Definition ResetPassword (email code new : string) : M W (result unit) :=
  k ← u_kv (check_code email code);
  match k with
  | Err e => mret (Err e)
  | Ok _ =>
      x ← u_db (FindByEmail col_eq email);
      match x with
      | Err e => mret (Err e)
      | Ok None => mret (Err (New CodeUserNotFound "该邮箱未注册用户"))
      | Ok (Some user) =>
          h ← change_to (User.Username user) new;
          match h with
          | Err e => mret (Err e)
          | Ok hashed =>
              u ← u_db (user_Update (set_Password hashed user));
              match u with
              | Err e => mret (Err e)
              | Ok _ => _ ← u_kv (kv_Del (email_key email)); mret (Ok tt)
              end
          end
      end
  end.

(** A page of users: [math.Ceil(float64(total) / float64(pageSize))] is exact
    for the totals of a table. *)
Definition page_total (total size : Z) : Z := (total + size - 1) / size.
(** The value [strconv.Atoi] returns next to its error: the nearest [int] for
    a number out of range, else 0. *)
Definition atoi_value (s : string) : Z :=
  match Atoi s with
  | Ok v => v
  | Err ErrRange => if HasPrefix s "-" then min_int64 else max_int64
  | Err _ => 0
  end.
Definition ListUsers (page0 size0 : Z) (username email status : string)
  : M W (result (list UserResponse * (Z * Z * Z * Z))) :=
  let page := if page0 <? 1 then 1 else page0 in
  let size := if size0 <? 1 then 10 else size0 in
  let size := if 100 <? size then 100 else size in
  let st := if String.eqb status "" then None else Some (atoi_value status) in
  l ← u_db (user_List (wrap64 ((page - 1) * size)) size username email st);
  mret (match l with
        | Err e => Err e
        | Ok (users, total) =>
            Ok (GetUserResponse <$> users, (total, page, size, page_total total size))
        end).

Definition UpdateProfile (id : Z) (real phone email : string) : M W (result unit) :=
  g ← GetUserByID id;
  match g with
  | Err e => mret (Err e)
  | Ok user =>
      e ← free_email id email;
      match e with
      | Err e => mret (Err e)
      | Ok _ => u_db (user_Update (set_contact (or_else real (User.RealName user))
                        (or_else phone (User.Phone user)) (or_else email (User.Email user)) user))
      end
  end.

End Users.

(** * Properties *)

(** ** Commands *)

(** Characters of a plain word. *)
Definition plain_char (c : Ascii.ascii) : bool :=
  negb (Ascii.eqb c squote) && negb (Ascii.eqb c backslash) && negb (is_blank c) && negb (is_special c).

Lemma lex_plain u cur :
  all_chars plain_char u = true →
  sh_lex Plain (Some cur) u = Some [cur +:+ u].
Proof.
  revert cur. induction u as [|c u IH]; intros cur Hu; [by rewrite sapp_nil_r|].
  cbn in Hu. apply andb_true_iff in Hu as [Hc Hu]. unfold plain_char in Hc.
  rewrite !andb_true_iff, !negb_true_iff in Hc. destruct Hc as [[[H1 H2] H3] H4].
  cbn [sh_lex]. rewrite H1, H2, H3, H4. unfold snoc. cbn [default]. rewrite IH by done.
  by rewrite sapp_assoc.
Qed.

Lemma lex_plain_word u :
  all_chars plain_char u = true → u ≠ ""%string → sh_lex Plain None u = Some [u].
Proof.
  intros Hu Hne. destruct u as [|c u]; [done|].
  cbn in Hu. apply andb_true_iff in Hu as [Hc Hu]. unfold plain_char in Hc.
  rewrite !andb_true_iff, !negb_true_iff in Hc. destruct Hc as [[[H1 H2] H3] H4].
  cbn [sh_lex]. rewrite H1, H2, H3, H4. unfold snoc. cbn [default].
  rewrite lex_plain by done. done.
Qed.

Lemma lex_quoted_plain u cur rest :
  all_chars (λ c, negb (Ascii.eqb c squote)) u = true →
  sh_lex Quoted (Some cur) (u +:+ rest) = sh_lex Quoted (Some (cur +:+ u)) rest.
Proof.
  revert cur. induction u as [|c u IH]; intros cur Hu; [by rewrite sapp_nil_r|].
  cbn in Hu. apply andb_true_iff in Hu as [Hc Hu]. apply negb_true_iff in Hc.
  rewrite sapp_cons. cbn [sh_lex]. rewrite Hc. unfold snoc. cbn [default].
  rewrite IH by done. by rewrite sapp_assoc.
Qed.

(** The commands that manage accounts do what they are meant to for a user
    name of plain characters: each is one command with exactly the name as its
    last word, and the text given to [chpasswd] is "name:password" for every
    password, whatever bytes it has. *)
Theorem account_commands_words username password
  (Hplain : all_chars plain_char username = true) (Hne : username ≠ ""%string) :
  sh_words (id_command username) = Some ["id"; "-u"; username]%string ∧
  sh_words (useradd_command username) = Some ["useradd"; "-m"; "-s"; "/bin/bash"; username]%string ∧
  sh_words (userdel_command username) = Some ["userdel"; "-r"; username]%string ∧
  sh_words (echo_password username password) = Some ["echo"; username +:+ ":" +:+ password]%string.
Proof.
  unfold sh_words, id_command, useradd_command, userdel_command, echo_password. split_and!.
  - change (flush (Some "id"%string) <$> (flush (Some "-u"%string) <$> sh_lex Plain None username) =
            Some ["id"; "-u"; username]%string). by rewrite lex_plain_word.
  - change (flush (Some "useradd"%string) <$> (flush (Some "-m"%string) <$> (flush (Some "-s"%string) <$>
              (flush (Some "/bin/bash"%string) <$> sh_lex Plain None username))) =
            Some ["useradd"; "-m"; "-s"; "/bin/bash"; username]%string). by rewrite lex_plain_word.
  - change (flush (Some "userdel"%string) <$> (flush (Some "-r"%string) <$> sh_lex Plain None username) =
            Some ["userdel"; "-r"; username]%string). by rewrite lex_plain_word.
  - change (flush (Some "echo"%string) <$>
              sh_lex Quoted (Some "") (username +:+ ":" +:+ ReplaceAll password squote "'\''" +:+ "'") =
            Some ["echo"; username +:+ ":" +:+ password]%string).
    rewrite lex_quoted_plain.
    2:{ eapply all_chars_impl; [|exact Hplain]. unfold plain_char. intros c. by destruct (Ascii.eqb c squote). }
    change (flush (Some "echo"%string) <$>
              sh_lex Quoted (Some (("" +:+ username) +:+ ":"))
                (ReplaceAll password squote "'\''" +:+ "'" +:+ "") =
            Some ["echo"; username +:+ ":" +:+ password]%string).
    rewrite lex_quoted. cbn. by rewrite sapp_assoc.
Qed.

(** The service checks the length of a user name only: one with an operator in
    it would not be one command any more, and the rest would run as root.  What
    keeps such names out is the check of the controllers, see [AccountCtl]. *)
Example username_injection :
  sh_words (id_command "x;reboot") = None ∧ sh_words (useradd_command "x;reboot") = None.
Proof. split; reflexivity. Qed.

(** [chpasswd] reads one account per line.  A valid password may hold a line
    break, and then sets the password of another account, also that of root. *)
Example password_injection :
  let pwd := "pw1" +:+ String newline "root:abc123" in
  ValidatePassword pwd = Ok tt ∧
  (Split newline <$> ((λ l, default ""%string (l !! 1%nat)) <$> sh_words (echo_password "ann" pwd))) =
    Some ["ann:pw1"; "root:abc123"]%string.
Proof. split; vm_compute; reflexivity. Qed.

Section Props.
Context {S : Type} {Q : Sql S access} {L : SqlLaws S access} {U : UserDb S} {UL : UserDbLaws S}.
Context {K : Type} {KV : Kv K} {KL : KvLaws K} {H C : Type} {V : Vm H C}.
Variable col_eq : string → string → bool.
Variable base64_decode : string → result bytes.
Variable md5 : bytes → bytes.
Variable cbc_decrypt : bytes → bytes → bytes → bytes.
Variables aes_secret env1 env2 : string.
Variable bcrypt_hash : string → result string.
Variable bcrypt_compare : string → string → result unit.
Variable sshConfig : option Config.
Notation W := (user_world S K H).
Notation decrypt := (decrypt base64_decode md5 cbc_decrypt aes_secret env1 env2).
Notation Register := (Register col_eq base64_decode md5 cbc_decrypt aes_secret env1 env2 bcrypt_hash sshConfig).

Definition tables (w : W) : access := sql_view (uw_db w).
Definition rows (w : W) : list User := a_users (tables w).

Lemma kv_tables {A} (c : M K A) : keeps tables (u_kv (S := S) (H := H) c).
Proof. by apply keeps_lift. Qed.
Lemma vm_tables {A} (c : M H A) : keeps tables (u_vm (S := S) (K := K) c).
Proof. by apply keeps_lift. Qed.
Lemma db_kv {A} (c : M S A) : keeps uw_kv (u_db (K := K) (H := H) c).
Proof. by apply keeps_lift. Qed.

Lemma u_db_inv {A} (c : M S A) (w w' : W) a :
  u_db c w = (w', a) →
  ∃ s, c (uw_db w) = (s, a) ∧ w' = mkUserWorld s (uw_kv w) (uw_vm w).
Proof. unfold u_db, lift. destruct (c (uw_db w)) as [s x]. intros [= <- <-]. by exists s. Qed.
Lemma u_kv_inv {A} (c : M K A) (w w' : W) a :
  u_kv c w = (w', a) →
  ∃ k, c (uw_kv w) = (k, a) ∧ w' = mkUserWorld (uw_db w) k (uw_vm w).
Proof. unfold u_kv, lift. destruct (c (uw_kv w)) as [s x]. intros [= <- <-]. by exists s. Qed.

Lemma exists_user_spec p s s' r :
  exists_user p s = (s', r) →
  sql_view s' = sql_view s ∧ (r = Ok false → ∀ u, u ∈ a_users (sql_view s) → p u = false).
Proof.
  unfold exists_user. intros E. open_bind E as s1 [n|e] E1; injection E as <- <-.
  - split; [by eapply sql_count_view|]. intros [= Hn]. apply sql_count_ok in E1.
    intros u Hu. destruct (p u) eqn:Hp; [|done].
    assert (u ∈ List.filter p (a_users (sql_view s))) as Hin by (apply list_elem_of_In, filter_In; split; [by apply list_elem_of_In|done]).
    destruct (List.filter p (a_users (sql_view s))) as [|y l]; [by apply elem_of_nil in Hin|].
    cbn in E1. rewrite E1 in Hn. destruct (Z.ltb_spec 0 (Z.pos (Pos.of_succ_nat (length l)))); [done|lia].
  - split; [by eapply sql_count_view|done].
Qed.

Lemma check_free_spec username email w w' r :
  check_free col_eq username email w = (w', r) →
  tables w' = tables w ∧ uw_kv w' = uw_kv w ∧
  (r = Ok tt → ∀ u, u ∈ rows w → col_eq (User.Username u) username = false ∧
                                  col_eq (User.Email u) email = false).
Proof.
  unfold check_free. intros E. open_bind E as w1 a E1.
  assert (tables w1 = tables w ∧ uw_kv w1 = uw_kv w ∧
    (a = Ok false → ∀ u, u ∈ rows w → col_eq (User.Username u) username = false)) as (Ht & Hk & Hu).
  { apply u_db_inv in E1 as (s1 & E1 & ->). by apply exists_user_spec in E1 as [? ?]. }
  destruct a as [[|]|e]; [by injection E as <- <-| |by injection E as <- <-].
  open_bind E as w2 b E2. injection E as <- <-.
  assert (tables w2 = tables w1 ∧ uw_kv w2 = uw_kv w1 ∧
    (b = Ok false → ∀ u, u ∈ rows w1 → col_eq (User.Email u) email = false)) as (Ht2 & Hk2 & Hu2).
  { apply u_db_inv in E2 as (s2 & E2 & ->). by apply exists_user_spec in E2 as [? ?]. }
  split_and!; [congruence|congruence|]. destruct b as [[|]|e]; [done| |done].
  intros _ u Hin. split; [by apply Hu|]. apply Hu2; [done|]. unfold rows in *. by rewrite Ht.
Qed.

Lemma AssignRole_spec id name s s' r :
  AssignRoleByName col_eq id name s = (s', r) →
  a_users (sql_view s') = a_users (sql_view s) ∧
  (r = Ok tt → ∃ role, role ∈ a_roles (sql_view s) ∧ col_eq (Role.Slug role) name = true ∧
     joined (a_user_roles (sql_view s')) id (Role.ID role) = true).
Proof.
  unfold AssignRoleByName. intros E. open_bind E as s1 [role|e] E1.
  2:{ injection E as <- <-. apply sql_first_view in E1. by rewrite E1. }
  pose proof (sql_first_ok _ _ _ _ E1) as Hin. apply sql_first_view in E1.
  apply list_elem_of_In, filter_In in Hin as [Hin Hslug]. apply list_elem_of_In in Hin.
  apply sql_exec_spec in E. rewrite E1 in E.
  split; [rewrite E; destruct (is_ok r); [by case_match|done]|].
  intros ->. cbn [is_ok] in E. exists role. split; [done|]. split; [done|]. rewrite E.
  destruct (joined (a_user_roles (sql_view s)) id (Role.ID role)) eqn:Ej; [done|]. cbn.
  unfold joined. rewrite existsb_app. cbn. by rewrite !Z.eqb_refl, orb_true_r.
Qed.

Lemma filter_all {A} (p : A → bool) l : (∀ x, x ∈ l → p x = true) → List.filter p l = l.
Proof.
  induction l as [|x l IH]; intros Hp; [done|]. cbn. rewrite (Hp x) by by left.
  rewrite IH; [done|]. intros y Hy. apply Hp. by right.
Qed.

(** The row a registration adds. *)
Definition registered_row (id : Z) (username hashed email : string) : User :=
  with_roles [] (User.set_id id (user_defaults (User.mkUser 0 username hashed "" "" "" email 1 0 0 0 []))).

Lemma on_server_tables f : keeps tables (on_server (S := S) (K := K) sshConfig f).
Proof. unfold on_server. case_match; [apply vm_tables|apply keeps_ret]. Qed.

(** The account on the server exists, or the row is gone, or its deletion
    failed. *)
Lemma create_account_spec id username pwd w w' r :
  create_account sshConfig id username pwd w = (w', r) →
  match r with
  | Ok _ => tables w' = tables w
  | Err _ => (rows w' = List.filter (λ x, negb (User.ID x =? id)) (rows w)) ∨
             (rows w' = rows w ∧ ∃ s e, user_Delete id s = (uw_db w', Err e))
  end.
Proof.
  unfold create_account. intros E. open_bind E as w1 v E1.
  apply (on_server_tables _) in E1. destruct v as [u|e]; [by injection E as <- <-|].
  open_bind E as w2 d E2. injection E as <- <-. apply u_db_inv in E2 as (s & E2 & ->).
  pose proof E2 as E3. apply sql_exec_spec in E3. unfold rows, tables in *. cbn.
  destruct d as [u|e']; cbn in E3; rewrite E3, E1; [by left|right].
  split; [done|]. by exists (uw_db w1), e'.
Qed.

Notation row_of req id hashed :=
  (registered_row id (RegisterRequest.Username req) hashed (RegisterRequest.Email req)).

(** What holds once the name, the address and the code were accepted. *)
Definition accepted (req : RegisterRequest) (w : W) : Prop :=
  (∀ u, u ∈ rows w → col_eq (User.Username u) (RegisterRequest.Username req) = false ∧
                     col_eq (User.Email u) (RegisterRequest.Email req) = false) ∧
  kv_str (kv_view (uw_kv w)) !! email_key (RegisterRequest.Email req) =
    Some (RegisterRequest.EmailCaptcha req).
(** What a registration that returns leaves behind. *)
Definition registered (req : RegisterRequest) (w w' : W) : Prop :=
  ∃ pwd hashed id role,
    decrypt (RegisterRequest.Password req) = Ok pwd ∧ ValidatePassword pwd = Ok tt ∧
    bcrypt_hash pwd = Ok hashed ∧ id ∉ User.ID <$> rows w ∧
    rows w' = rows w ++ [row_of req id hashed] ∧
    role ∈ a_roles (tables w) ∧ col_eq (Role.Slug role) "user" = true ∧
    joined (a_user_roles (tables w')) id (Role.ID role) = true.
(** A failed registration changed no row, or left the new one because giving
    it its role, or deleting it again, was the last statement and failed. *)
Definition not_registered (req : RegisterRequest) (w w' : W) : Prop :=
  rows w' = rows w ∨
  ∃ id hashed, rows w' = rows w ++ [row_of req id hashed] ∧
    ((∃ s e, AssignRoleByName col_eq id "user" s = (uw_db w', Err e)) ∨
     (∃ s e, user_Delete id s = (uw_db w', Err e))).

Lemma check_code_spec email code k k' r :
  check_code email code k = (k', r) → r = Ok tt →
  kv_str (kv_view k) !! email_key email = Some code.
Proof.
  unfold check_code. intros E. open_bind E as k1 a E1. injection E as <- <-.
  destruct a as [c|[]]; try done. apply kv_Get_ok in E1. rewrite E1.
  destruct (String.eqb_spec code c) as [->|]; done.
Qed.

Lemma fresh_row_deleted id (l : list User) u :
  id ∉ User.ID <$> l → User.ID u = id →
  List.filter (λ x, negb (User.ID x =? id)) (l ++ [u]) = l.
Proof.
  intros Hid Hu. rewrite List.filter_app. cbn. rewrite Hu, Z.eqb_refl. cbn. rewrite app_nil_r.
  apply filter_all. intros x Hx. apply negb_true_iff, Z.eqb_neq. intros <-.
  apply Hid. by apply list_elem_of_fmap_2.
Qed.

(** From the new row on. *)
Lemma Register_tail req pwd hashed w w1 w' n r :
  u_db (user_Create (User.mkUser 0 (RegisterRequest.Username req) hashed "" "" ""
                       (RegisterRequest.Email req) 1 0 0 0 [])) w = (w1, n) →
  match n with
  | Err e => mret (Err e)
  | Ok id => r ← u_db (AssignRoleByName col_eq id "user");
             match r with
             | Err e => mret (Err e)
             | Ok _ => create_account sshConfig id (RegisterRequest.Username req) pwd
             end
  end w1 = (w', r) →
  decrypt (RegisterRequest.Password req) = Ok pwd → ValidatePassword pwd = Ok tt →
  bcrypt_hash pwd = Ok hashed →
  match r with Ok _ => registered req w w' | Err _ => not_registered req w w' end.
Proof.
  intros E1 E Hd Hv Hh. apply u_db_inv in E1 as (s1 & E1 & ->). destruct n as [id|e].
  2:{ injection E as <- <-. left. apply ud_create_err in E1. unfold rows, tables. cbn. by rewrite E1. }
  apply ud_create_ok in E1 as [Hid Hrow]. open_bind E as w2 a E2.
  apply u_db_inv in E2 as (s2 & E2 & ->). cbn in E2. pose proof E2 as E3.
  apply AssignRole_spec in E2 as [Hu Hr]. rewrite Hrow in Hu, Hr. cbn in Hu, Hr. destruct a as [[]|e].
  2:{ injection E as <- <-. right. exists id, hashed. split; [done|]. left.
      by exists s1, e. }
  destruct (Hr eq_refl) as (role & Hin & Hslug & Hj). apply create_account_spec in E. destruct r as [[]|e].
  - exists pwd, hashed, id, role. unfold rows, tables in *. cbn in E. rewrite E. done.
  - unfold rows, tables in *. cbn in E. rewrite Hu in E. destruct E as [E|(E & HE)].
    + left. unfold rows, tables. rewrite E. by apply fresh_row_deleted.
    + right. exists id, hashed. split; [done|]. by right.
Qed.

Lemma not_registered_same req w w' : tables w' = tables w → not_registered req w w'.
Proof. intros Ht. left. unfold rows. by rewrite Ht. Qed.

Lemma Register_cases req w w' r :
  Register req w = (w', r) →
  match r with
  | Ok _ => accepted req w ∧ registered req w w'
  | Err _ => not_registered req w w'
  end.
Proof.
  unfold Users.Register. intros E. open_bind E as w1 f E1.
  apply check_free_spec in E1 as (Ht1 & Hk1 & Hfree). destruct f as [[]|e].
  2:{ injection E as <- <-. by apply not_registered_same. }
  open_bind E as w2 k E2. apply u_kv_inv in E2 as (k2 & E2 & ->).
  pose proof (check_code_spec _ _ _ _ _ E2) as Hcode.
  destruct k as [[]|e]; [|injection E as <- <-; by apply not_registered_same].
  specialize (Hcode eq_refl). rewrite Hk1 in Hcode. open_bind E as w3 d E3.
  apply u_kv_inv in E3 as (k3 & _ & ->). cbn in E.
  destruct (decrypt _) as [pwd|] eqn:Hd; [|injection E as <- <-; by apply not_registered_same].
  destruct (ValidatePassword pwd) as [[]|] eqn:Hv; [|injection E as <- <-; by apply not_registered_same].
  destruct (bcrypt_hash pwd) as [hashed|] eqn:Hh; [|injection E as <- <-; by apply not_registered_same].
  open_bind E as w4 n E4. eapply Register_tail in E4; [|exact E|done..].
  assert (∀ P, registered req (mkUserWorld (uw_db w1) k3 (uw_vm w1)) P → registered req w P) as HR.
  { intros P. unfold registered, rows, tables in *. cbn. by rewrite Ht1. }
  assert (∀ P, not_registered req (mkUserWorld (uw_db w1) k3 (uw_vm w1)) P → not_registered req w P) as HN.
  { intros P. unfold not_registered, rows, tables in *. cbn. by rewrite Ht1. }
  destruct r as [[]|e']; [|by apply HN]. split; [|by apply HR]. split; [by apply Hfree|done].
Qed.

(** Registration.  When [Register] returns without an error, the name and the
    address were free, the code was the one stored for the address, the
    password was valid, and exactly one row was added, with a new id, the
    bcrypt hash of the password and the role "user".  When it returns an
    error, no row was added, except that the new one stays behind when giving
    it its role or deleting it again failed. *)
Theorem Register_spec req w w' r (E : Register req w = (w', r)) :
  match r with
  | Ok _ => accepted req w ∧ registered req w w'
  | Err _ => not_registered req w w'
  end.
Proof. exact (Register_cases _ _ _ _ E). Qed.

(** ** Passwords *)

(** [find_user] under the lift of the services. *)
Lemma find_user_db p (w w' : W) r :
  u_db (find_user p) w = (w', r) →
  tables w' = tables w ∧ uw_kv w' = uw_kv w ∧
  (∀ u, r = Ok (Some u) → ∃ u0, u0 ∈ rows w ∧ p u0 = true ∧ u = with_roles (User.Roles u) u0).
Proof.
  intros E. apply u_db_inv in E as (s & E & ->). apply find_user_post in E as (Hv & Hu & _).
  split; [done|]. split; [done|]. intros u ->. destruct (Hu _ eq_refl) as (u0 & ? & ? & ? & _). by exists u0.
Qed.

(** The password of one row replaced. *)
Definition password_set (id : Z) (hashed : string) (w w' : W) : Prop :=
  tables w' = set_users ((λ x, if User.ID x =? id then set_Password hashed x else x) <$> rows w) (tables w).
(** Ids are a primary key. *)
Definition ids_unique (w : W) : Prop :=
  ∀ x y, x ∈ rows w → y ∈ rows w → User.ID x = User.ID y → x = y.

Lemma update_password u0 hashed user (w w' : W) r :
  ids_unique w → u0 ∈ rows w → user = with_roles (User.Roles user) u0 →
  u_db (user_Update (set_Password hashed user)) w = (w', r) →
  match r with
  | Ok _ => password_set (User.ID u0) hashed w w'
  | Err _ => tables w' = tables w
  end.
Proof.
  intros Huniq Hin Hu E. apply u_db_inv in E as (s & E & ->). apply sql_exec_spec in E.
  destruct r as [[]|e]; unfold password_set, tables in *; cbn in *; [|done]. rewrite E. f_equal.
  apply Forall_fmap_ext_1, Forall_forall. intros x Hx. rewrite Hu. cbn.
  destruct (Z.eqb_spec (User.ID x) (User.ID u0)) as [He|]; [|done].
  rewrite (Huniq x u0 Hx Hin He). by destruct u0.
Qed.

Lemma change_to_spec username new (w w' : W) r :
  change_to base64_decode md5 cbc_decrypt aes_secret env1 env2 bcrypt_hash sshConfig username new w = (w', r) →
  tables w' = tables w ∧ uw_kv w' = uw_kv w ∧
  (∀ hashed, r = Ok hashed → ∃ pwd, decrypt new = Ok pwd ∧ ValidatePassword pwd = Ok tt ∧
                                     bcrypt_hash pwd = Ok hashed).
Proof.
  unfold change_to. intros E. destruct (decrypt new) as [pwd|] eqn:Hd; [|by injection E as <- <-].
  destruct (ValidatePassword pwd) as [[]|] eqn:Hv; [|by injection E as <- <-].
  destruct (bcrypt_hash pwd) as [h|] eqn:Hh; [|by injection E as <- <-].
  open_bind E as w1 v E1. pose proof (on_server_tables _ _ _ _ E1) as Ht. injection E as <- <-.
  split; [done|]. split; [|intros hashed; destruct v; [|done]; intros [= <-]; by exists pwd].
  unfold on_server in E1. case_match; [|by injection E1 as <- _].
  by apply (keeps_lift (λ w : W, uw_kv w) uw_vm) in E1.
Qed.

(** A stored password changed to that of a request: the user it belongs to
    satisfies [p], the new password is valid, and only this row changed. *)
Definition password_changed (p : User → Prop) (new : string) (w w' : W) : Prop :=
  ∃ u pwd hashed, u ∈ rows w ∧ p u ∧ decrypt new = Ok pwd ∧ ValidatePassword pwd = Ok tt ∧
    bcrypt_hash pwd = Ok hashed ∧ password_set (User.ID u) hashed w w'.

Lemma password_changed_tables p new (w1 w w' : W) :
  tables w1 = tables w → password_changed p new w1 w' → password_changed p new w w'.
Proof.
  intros Ht (u & pwd & hashed & Hu). exists u, pwd, hashed.
  unfold password_set, rows in *. by rewrite Ht in Hu.
Qed.

Notation change_to' := (change_to base64_decode md5 cbc_decrypt aes_secret env1 env2 bcrypt_hash sshConfig).

(** The last steps of both operations. *)
Lemma change_tail p u0 user new (w w1 w' : W) h r :
  ids_unique w → u0 ∈ rows w → p u0 → user = with_roles (User.Roles user) u0 →
  change_to' (User.Username user) new w = (w1, h) →
  match h with
  | Err e => mret (Err e)
  | Ok hashed => u_db (user_Update (set_Password hashed user))
  end w1 = (w', r) →
  match r with
  | Ok _ => password_changed p new w w'
  | Err _ => tables w' = tables w
  end.
Proof.
  intros Huniq Hin Hp Hu E1 E. apply change_to_spec in E1 as (Ht & _ & Hh). destruct h as [hashed|e].
  2:{ by injection E as <- <-. }
  destruct (Hh _ eq_refl) as (pwd & ? & ? & ?).
  assert (ids_unique w1) as Hq by (unfold ids_unique, rows in *; by rewrite Ht).
  eapply update_password in E; [|exact Hq|unfold rows in *; rewrite Ht; exact Hin|exact Hu].
  destruct r; [|congruence]. apply (password_changed_tables _ _ w1); [done|].
  exists u0, pwd, hashed. unfold rows. by rewrite Ht.
Qed.

Lemma ChangePassword_cases id old new (w w' : W) r :
  ids_unique w →
  ChangePassword base64_decode md5 cbc_decrypt aes_secret env1 env2 bcrypt_hash bcrypt_compare sshConfig
    id old new w = (w', r) →
  match r with
  | Ok _ => password_changed (λ u, User.ID u = id ∧ ∃ pwd, decrypt old = Ok pwd ∧
                                 bcrypt_compare (User.Password u) pwd = Ok tt) new w w'
  | Err _ => tables w' = tables w
  end.
Proof.
  unfold ChangePassword, GetUserByID. intros Huniq E. open_bind E as w1 g E1. open_bind E1 as w0 f E0.
  injection E1 as <- <-. apply find_user_db in E0 as (Ht & _ & Hu).
  destruct f as [[user|]|e]; [|by injection E as <- <-..]. destruct (Hu _ eq_refl) as (u0 & Hin & Hid & Heq).
  destruct (decrypt old) as [oldPwd|] eqn:Hd; [|by injection E as <- <-].
  destruct (bcrypt_compare _ oldPwd) as [[]|] eqn:Hc; [|by injection E as <- <-].
  open_bind E as w2 h E2. apply Z.eqb_eq in Hid.
  assert (ids_unique w0) as Hq by (unfold ids_unique, rows in *; by rewrite Ht).
  eapply (change_tail (λ u, User.ID u = id ∧ ∃ pwd, Ok oldPwd = Ok pwd ∧ bcrypt_compare (User.Password u) pwd = Ok tt))
    in E; [|exact Hq|unfold rows in *; rewrite Ht; exact Hin| |exact Heq|exact E2].
  - destruct r; [|congruence]. by apply (password_changed_tables _ _ w0).
  - split; [done|]. exists oldPwd. split; [done|]. by rewrite Heq in Hc.
Qed.

Lemma ResetPassword_cases email code new (w w' : W) r :
  ids_unique w →
  ResetPassword col_eq base64_decode md5 cbc_decrypt aes_secret env1 env2 bcrypt_hash sshConfig
    email code new w = (w', r) →
  match r with
  | Ok _ => kv_str (kv_view (uw_kv w)) !! email_key email = Some code ∧
            password_changed (λ u, col_eq (User.Email u) email = true) new w w'
  | Err _ => tables w' = tables w
  end.
Proof.
  unfold ResetPassword. intros Huniq E. open_bind E as w1 k E1. apply u_kv_inv in E1 as (k1 & E1 & ->).
  pose proof (check_code_spec _ _ _ _ _ E1) as Hcode. destruct k as [[]|e]; [|by injection E as <- <-].
  specialize (Hcode eq_refl). open_bind E as w2 f E2. apply find_user_db in E2 as (Ht & _ & Hu).
  change (tables w2 = tables w) in Ht. destruct f as [[user|]|e]; [|by injection E as <- <-..].
  destruct (Hu _ eq_refl) as (u0 & Hin & Hid & Heq). change (u0 ∈ rows w) in Hin.
  open_bind E as w3 h E3. destruct h as [hashed|e].
  2:{ injection E as <- <-. apply change_to_spec in E3 as [H3 _]. congruence. }
  open_bind E as w4 u E4. assert (ids_unique w2) as Hq by (unfold ids_unique, rows in *; by rewrite Ht).
  eapply (change_tail (λ u, col_eq (User.Email u) email = true) _ _ _ _ _ _ (Ok hashed))
    in E4; [|exact Hq|unfold rows in *; rewrite Ht; exact Hin|done|exact Heq|exact E3].
  destruct u as [x|e]; [|by injection E as <- <-; rewrite E4].
  open_bind E as w5 d E5. injection E as <- <-. apply u_kv_inv in E5 as (k5 & _ & ->).
  split; [done|]. by apply (password_changed_tables _ _ w2).
Qed.

(** A stored password changes only for its owner.  When [ChangePassword] or
    [ResetPassword] succeeds, the old password matched the stored hash, or
    the code was the one stored for the address; the new password is valid,
    and exactly that user's hash was replaced.  When one fails, no row of the
    database changed. *)
Theorem password_change_safe (w : W) (Huniq : ids_unique w) :
  (∀ id old new w' r,
     ChangePassword base64_decode md5 cbc_decrypt aes_secret env1 env2 bcrypt_hash bcrypt_compare sshConfig
       id old new w = (w', r) →
     match r with
     | Ok _ => password_changed (λ u, User.ID u = id ∧ ∃ pwd, decrypt old = Ok pwd ∧
                                    bcrypt_compare (User.Password u) pwd = Ok tt) new w w'
     | Err _ => tables w' = tables w
     end) ∧
  (∀ email code new w' r,
     ResetPassword col_eq base64_decode md5 cbc_decrypt aes_secret env1 env2 bcrypt_hash sshConfig
       email code new w = (w', r) →
     match r with
     | Ok _ => kv_str (kv_view (uw_kv w)) !! email_key email = Some code ∧
               password_changed (λ u, col_eq (User.Email u) email = true) new w w'
     | Err _ => tables w' = tables w
     end).
Proof.
  split; [intros; by eapply ChangePassword_cases|intros; by eapply ResetPassword_cases].
Qed.

End Props.

(** ** An example *)

Lemma account_commands_words_witness :
  sh_words (userdel_command "ann") = Some ["userdel"; "-r"; "ann"]%string ∧
  sh_words (echo_password "ann" "it's") = Some ["echo"; "ann:it's"]%string.
Proof.
  destruct (account_commands_words "ann" "it's") as (_ & _ & Hd & He); [reflexivity|discriminate|].
  split; [exact Hd|exact He].
Defined.

#[export] Instance mem_user_db : UserDb access := {
  ud_create u v :=
    let k := next_id (R := User) (a_users v) in
    (set_users (a_users v ++ [with_roles [] (User.set_id k (user_defaults u))]) v, Ok k)
}.
#[export] Instance mem_user_db_laws : UserDbLaws access.
Proof.
  split; intros *; cbn; [|by intros [=]]. intros [= <- <-]. split; [|done].
  exact (proj2 (next_id_fresh (R := User) (a_users s))).
Qed.

(** A server on which the account "bad" cannot be made; it records the
    commands it ran. *)
#[local] Instance demo_vm : Vm (list string) unit := {|
  vm_NewClient _ l := (l, Ok tt);
  vm_Exec _ c l := (l ++ [c], ("", if HasPrefix c "id " || HasSuffix c " bad" then Some (ErrExt 1) else None));
  vm_RemoveFile _ l := (l, Ok tt)
|}.
Definition demo_roles : access :=
  mkAccess [User.mkUser 1 "ann" "#old123" "" "" "" "ann@x" 1 1 0 0 []] [demo_role 1 1 "user"] [] [] [(1, 1)] [] [].
Definition demo_accounts : user_world access kview (list string) :=
  mkUserWorld demo_roles
    (put_str (email_key "ann@x") "42" (put_str (email_key "bob@x") "77" (mkKview ∅ ∅))) [].
Definition demo_hash (p : string) : result string := Ok ("#" +:+ p).
Definition demo_compare (h p : string) : result unit :=
  if String.eqb h ("#" +:+ p) then Ok tt else Err (ErrExt 3).
Definition demo_host : option Config := Some (Config.mkConfig "host" "root" "" "/key" "" 0 0).
Definition demo_register (name : string) :=
  Register (C := unit) String.eqb (λ _, Err ErrSyntax) demo_md5 (λ _ _ c, c) "" "" "" demo_hash demo_host
    (RegisterRequest.mkRegisterRequest name "secret" "secret" "bob@x" "77") demo_accounts.

(** Bob registers and gets the second row; a name the server refuses leaves
    the table as it was. *)
Lemma Register_spec_witness :
  (∃ id hashed, rows (demo_register "bob").1 =
     rows demo_accounts ++ [registered_row id "bob" hashed "bob@x"]) ∧
  rows (demo_register "bad").1 = rows demo_accounts.
Proof.
  split.
  - destruct (Register_spec (C := unit) String.eqb (λ _, Err ErrSyntax) demo_md5 (λ _ _ c, c) "" "" "" demo_hash
      demo_host (RegisterRequest.mkRegisterRequest "bob" "secret" "secret" "bob@x" "77") demo_accounts
      (demo_register "bob").1 (Ok tt)) as (_ & pwd & hashed & id & role & _ & _ & _ & _ & Hr & _);
      [vm_compute; reflexivity|].
    exists id, hashed. exact Hr.
  - assert (not_registered String.eqb (RegisterRequest.mkRegisterRequest "bad" "secret" "secret" "bob@x" "77")
      demo_accounts (demo_register "bad").1) as Hn.
    { refine (Register_spec (C := unit) String.eqb (λ _, Err ErrSyntax) demo_md5 (λ _ _ c, c) "" "" "" demo_hash
        demo_host (RegisterRequest.mkRegisterRequest "bad" "secret" "secret" "bob@x" "77") demo_accounts
        (demo_register "bad").1 (Err (default ErrSyntax (match (demo_register "bad").2 with Err e => Some e | _ => None end))) _).
      vm_compute. reflexivity. }
    destruct Hn as [Hn|(id & hashed & Hn & _)]; [exact Hn|].
    exfalso. apply (f_equal length) in Hn. vm_compute in Hn. discriminate.
Defined.

Definition demo_change (id : Z) (old new : string) :=
  ChangePassword (C := unit) (λ _, Err ErrSyntax) demo_md5 (λ _ _ c, c) "" "" "" demo_hash demo_compare demo_host
    id old new demo_accounts.
Definition demo_reset (email code new : string) :=
  ResetPassword (C := unit) String.eqb (λ _, Err ErrSyntax) demo_md5 (λ _ _ c, c) "" "" "" demo_hash demo_host
    email code new demo_accounts.

(** A wrong old password changes nothing; the right code sets a new one. *)
Lemma password_change_safe_witness :
  tables (demo_change 1 "wrong" "new123").1 = tables demo_accounts ∧
  password_changed (λ _, Err ErrSyntax) demo_md5 (λ _ _ c, c) "" "" "" demo_hash
    (λ u, User.Email u =? "ann@x" = true)%string "new123" demo_accounts (demo_reset "ann@x" "42" "new123").1.
Proof.
  destruct (password_change_safe (C := unit) String.eqb (λ _, Err ErrSyntax) demo_md5 (λ _ _ c, c) "" "" ""
    demo_hash demo_compare demo_host demo_accounts) as [Hc Hr].
  { intros x y Hx Hy _. apply list_elem_of_singleton in Hx, Hy. congruence. }
  split.
  - apply (Hc 1 "wrong"%string "new123"%string _ (Err ErrInvalidCredentials)). vm_compute. reflexivity.
  - apply (Hr "ann@x"%string "42"%string "new123"%string _ (Ok tt)). vm_compute. reflexivity.
Defined.
