(* ===== verification/Roles.v ===== *)
(** * Roles and API permissions

    internal/service/role_service.go, api_service.go, the rest of
    internal/repository/role_repository.go and api_repository.go: the
    administration of admin_roles and admin_permissions, and the page that
    shows the menus and permissions of a role.  The tables are those of
    [Access]. *)

From S2P Require Import Prelude GoStrings Errors Entity External MemBackend Access MenuService.

Open Scope Z_scope.

(** ** Requests and responses *)

Module CreateRoleRequest.
Record CreateRoleRequest : Type := mkCreateRoleRequest {
  Name : string; Status : option Z; Slug : string
}.
End CreateRoleRequest.
Notation CreateRoleRequest := CreateRoleRequest.CreateRoleRequest.

Module UpdateRoleRequest.
Record UpdateRoleRequest : Type := mkUpdateRoleRequest {
  ID : Z; Name : string; Status : option Z; Slug : string
}.
End UpdateRoleRequest.
Notation UpdateRoleRequest := UpdateRoleRequest.UpdateRoleRequest.

Module CreateAPIRequest.
Record CreateAPIRequest : Type := mkCreateAPIRequest {
  Name : string; Category : string; Slug : string; Status : option Z; HTTPMethod : string;
  HTTPPath : string; Sort : Z
}.
End CreateAPIRequest.
Notation CreateAPIRequest := CreateAPIRequest.CreateAPIRequest.

Module UpdateAPIRequest.
Record UpdateAPIRequest : Type := mkUpdateAPIRequest {
  ID : Z; Name : string; Category : string; Slug : string; Type_ : string; Status : option Z;
  HTTPMethod : string; HTTPPath : string; Sort : option Z
}.
End UpdateAPIRequest.
Notation UpdateAPIRequest := UpdateAPIRequest.UpdateAPIRequest.

Module ApiPermissionRes.
Record ApiPermissionRes : Type := mkApiPermissionRes {
  ID : Z; Name : string; Slug : string; Checked : bool
}.
End ApiPermissionRes.
Notation ApiPermissionRes := ApiPermissionRes.ApiPermissionRes.

Record ApiPermissionGroupRes : Type := mkApiPermissionGroupRes {
  ag_Category : string; ag_List : list ApiPermissionRes
}.

(** ** Columns of [Updates] *)

(** [updated_at] is in the map too; the rows here have no such field. *)
Inductive role_col : Type :=
  | RoleName (v : string)
  | RoleSlug (v : string)
  | RoleStatus (v : Z)
  | RoleUpdatedAt (v : Z).
Definition set_role_col (c : role_col) (r : Role) : Role :=
  match c with
  | RoleName v => Role.mkRole (Role.ID r) v (Role.Status r) (Role.Slug r) (Role.Permissions r) (Role.Menus r)
  | RoleSlug v => Role.mkRole (Role.ID r) (Role.Name r) (Role.Status r) v (Role.Permissions r) (Role.Menus r)
  | RoleStatus v => Role.mkRole (Role.ID r) (Role.Name r) v (Role.Slug r) (Role.Permissions r) (Role.Menus r)
  | RoleUpdatedAt _ => r
  end.

Inductive api_col : Type :=
  | ApiName (v : string)
  | ApiCategory (v : string)
  | ApiSlug (v : string)
  | ApiStatus (v : Z)
  | ApiMethod (v : string)
  | ApiPath (v : string)
  | ApiSort (v : Z)
  | ApiUpdatedAt (v : Z).
Definition set_api_col (c : api_col) (p : Permission) : Permission :=
  let 'Permission.mkPermission i n ca sl ty st me pa so := p in
  match c with
  | ApiName v => Permission.mkPermission i v ca sl ty st me pa so
  | ApiCategory v => Permission.mkPermission i n v sl ty st me pa so
  | ApiSlug v => Permission.mkPermission i n ca v ty st me pa so
  | ApiStatus v => Permission.mkPermission i n ca sl ty v me pa so
  | ApiMethod v => Permission.mkPermission i n ca sl ty st v pa so
  | ApiPath v => Permission.mkPermission i n ca sl ty st me v so
  | ApiSort v => Permission.mkPermission i n ca sl ty st me pa v
  | ApiUpdatedAt _ => p
  end.

Definition role_set_id (k : Z) (r : Role) : Role :=
  Role.mkRole k (Role.Name r) (Role.Status r) (Role.Slug r) (Role.Permissions r) (Role.Menus r).
Definition api_set_id (k : Z) (p : Permission) : Permission :=
  Permission.mkPermission k (Permission.Name p) (Permission.Category p) (Permission.Slug p) (Permission.Type_ p)
    (Permission.Status p) (Permission.HttpMethod p) (Permission.HttpPath p) (Permission.Sort p).

Definition set_roles (l : list Role) (v : access) : access :=
  mkAccess (a_users v) l (a_perms v) (a_menus v) (a_user_roles v) (a_role_perms v) (a_role_menus v).
Definition set_perms (l : list Permission) (v : access) : access :=
  mkAccess (a_users v) (a_roles v) l (a_menus v) (a_user_roles v) (a_role_perms v) (a_role_menus v).

(** One of the tables of [access]: its rows, and how a row is updated. *)
Class Rows (R : Type) := {
  rw_get : access → list R;
  rw_put : list R → access → access;
  rw_id : R → Z;
  rw_set_id : Z → R → R;
  rw_get_put l v : rw_get (rw_put l v) = l;
  rw_set_id_id k r : rw_id (rw_set_id k r) = k
}.
#[export] Instance role_rows : Rows Role :=
  { rw_get := a_roles; rw_put := set_roles; rw_id := Role.ID; rw_set_id := role_set_id;
    rw_get_put _ _ := eq_refl; rw_set_id_id _ _ := eq_refl }.
#[export] Instance api_rows : Rows Permission :=
  { rw_get := a_perms; rw_put := set_perms; rw_id := Permission.ID; rw_set_id := api_set_id;
    rw_get_put _ _ := eq_refl; rw_set_id_id _ _ := eq_refl }.

(** [db.Create] of a row: it gets a new id, or nothing is written. *)
Class Creates (S R : Type) := { row_create : R → M S (result unit) }.
Class CreatesLaws (S R : Type) `{Sql S access} `{Rows R} `{Creates S R} : Prop :=
  row_create_spec x s s' r :
    row_create x s = (s', r) →
    match r with
    | Ok _ => ∃ k, k ∉ rw_id <$> rw_get (sql_view s) ∧
                sql_view s' = rw_put (rw_get (sql_view s) ++ [rw_set_id k x]) (sql_view s)
    | Err _ => sql_view s' = sql_view s
    end.

Section Repository.
Context {S : Type} {Q : Sql S access} {R : Type} {T : Rows R}.

Definition row_GetByID (id : Z) : M S (result (option R)) :=
  r ← sql_first (λ v, List.filter (λ x, rw_id x =? id) (rw_get v));
  mret (match r with Err e => nil_if_missing e | Ok x => Ok (Some x) end).
Definition row_exists (p : R → bool) : M S (result bool) :=
  r ← sql_count (λ v, List.filter p (rw_get v));
  mret (match r with Err e => Err e | Ok count => Ok (0 <? count) end).
Definition row_update (id : Z) (f : R → R) : M S (result unit) :=
  sql_exec (λ v, rw_put ((λ x, if rw_id x =? id then f x else x) <$> rw_get v) v).
Definition row_delete (p : R → bool) : M S (result unit) :=
  sql_exec (λ v, rw_put (List.filter (λ x, negb (p x)) (rw_get v)) v).
Definition row_page (le : R → R → bool) (p : R → bool) (offset limit : Z)
  : M S (result (list R * Z)) :=
  c ← sql_count (λ v, List.filter p (rw_get v));
  match c with
  | Err e => mret (Err e)
  | Ok total =>
      l ← sql_find (λ v, limit_offset limit offset (merge_sort (brel le) (List.filter p (rw_get v))));
      mret (match l with Err e => Err e | Ok rows => Ok (rows, total) end)
  end.
End Repository.

(** The page of a request, as both services make it. *)
Definition clamp_page (page size : Z) : Z * Z :=
  (if page <=? 0 then 1 else page, if (size <=? 0) || (100 <? size) then 10 else size).
Definition page_offset (page size : Z) : Z := wrap64 (wrap64 (page - 1) * size).

Section Service.
Context {S : Type} {Q : Sql S access} {CR : Creates S Role} {CA : Creates S Permission}.
Variable col_eq : string → string → bool.
Variable col_like : string → string → bool.
(** The order of the collation, and the creation time of a role. *)
Variable col_le : string → string → bool.
Variable created : Role → Z.
(** The two [strings.Contains] tests on the text of a driver error. *)
Variable is_duplicate : error → bool.

(** ** Roles: repository *)

Definition GetRoleByID (id : Z) : M S (result (option Role)) := row_GetByID id.
Definition role_filter (name : string) (status : option Z) (r : Role) : bool :=
  (String.eqb name "" || col_like (Role.Name r) name) &&
  match status with Some s => Role.Status r =? s | None => true end.
Definition roles_PageList (offset limit : Z) (name : string) (status : option Z)
  : M S (result (list Role * Z)) :=
  row_page (λ a b, created b <=? created a) (role_filter name status) offset limit.
Definition role_Create (r : Role) : M S (result unit) := row_create r.
Definition role_Update (id : Z) (updates : list role_col) : M S (result unit) :=
  row_update id (λ r, foldl (λ r c, set_role_col c r) r updates).
Definition role_Delete (id : Z) : M S (result unit) := row_delete (λ r : Role, Role.ID r =? id).
Definition role_BatchDelete (ids : list Z) : M S (result unit) :=
  row_delete (λ r : Role, existsb (Z.eqb (Role.ID r)) ids).
Definition role_ExistsByName (name : string) : M S (result bool) :=
  row_exists (λ r, col_eq (Role.Name r) name).
(** As it is written: the name column. *)
Definition role_ExistsBySlug (slug : string) : M S (result bool) :=
  row_exists (λ r, col_eq (Role.Name r) slug).
Definition role_ExistsByNameExcludingID (name : string) (excludeID : Z) : M S (result bool) :=
  row_exists (λ r, col_eq (Role.Name r) name && negb (Role.ID r =? excludeID)).
Definition role_ExistsBySlugExcludingID (slug : string) (excludeID : Z) : M S (result bool) :=
  row_exists (λ r, col_eq (Role.Slug r) slug && negb (Role.ID r =? excludeID)).
Definition ListAll : M S (result (list Role)) :=
  sql_find (λ v, merge_sort (brel (λ a b, Role.ID a <=? Role.ID b)) (a_roles v)).

(** ** Roles: service *)

Definition RolePageList (page0 size0 : Z) (name : string) (status : option Z)
  : M S (result (list Role * Z)) :=
  let '(page, size) := clamp_page page0 size0 in
  roles_PageList (page_offset page size) size name status.

(** The end of both [Create]s. *)
Definition created_or (what : string) (r : result unit) : result unit :=
  match r with
  | Ok _ => Ok tt
  | Err e => if is_duplicate e then Err (NewDefault CodeResourceAlreadyExists)
             else Err (NewWithErr CodeInternalError what e)
  end.
Definition CreateRole (req : CreateRoleRequest) : M S (result unit) :=
  if String.eqb (CreateRoleRequest.Name req) "" then mret (Err (NewDefault CodeMissingParam))
  else
    n ← role_ExistsByName (CreateRoleRequest.Name req);
    match n with
    | Err e => mret (Err (NewWithErr CodeInternalError "检查角色名是否重复失败" e))
    | Ok true => mret (Err (New CodeResourceAlreadyExists "角色已存在"))
    | Ok false =>
        if String.eqb (CreateRoleRequest.Slug req) "" then mret (Err (NewDefault CodeMissingParam))
        else
          s ← role_ExistsBySlug (CreateRoleRequest.Slug req);
          match s with
          | Err e => mret (Err (NewWithErr CodeInternalError "检查角色标识是否重复失败" e))
          | Ok true => mret (Err (New CodeResourceAlreadyExists "角色标识已存在"))
          | Ok false =>
              match CreateRoleRequest.Status req with
              | None => mret (Err (ErrPanic "nil pointer dereference"))
              | Some st =>
                  r ← role_Create (Role.mkRole 0 (CreateRoleRequest.Name req) st (CreateRoleRequest.Slug req) [] []);
                  mret (created_or "创建角色失败!" r)
              end
          end
    end.

(** A column that is checked when it changes: the check [ex] looks at the
    other rows. *)
Definition checked_col {C} (new old : string) (ex : M S (result bool)) (failed taken : string) (col : C)
  : M S (result (list C)) :=
  if negb (String.eqb new "") && negb (String.eqb new old) then
    x ← ex;
    mret (match x with
          | Err e => Err (NewWithErr CodeInternalError failed e)
          | Ok true => Err (New CodeResourceAlreadyExists taken)
          | Ok false => Ok [col]
          end)
  else mret (Ok []).
(** A column that is set when the request has it. *)
Definition set_if {C} (v : string) (col : string → C) : list C :=
  if String.eqb v "" then [] else [col v].
Definition set_opt {C} (v : option Z) (col : Z → C) : list C :=
  match v with Some v => [col v] | None => [] end.

(** [now] is what [time.Now] returns. *)
Definition UpdateRole (now : Z) (req : UpdateRoleRequest) : M S (result unit) :=
  g ← GetRoleByID (UpdateRoleRequest.ID req);
  match g with
  | Err e => mret (Err (NewWithErr CodeInternalError "查询角色失败" e))
  | Ok None => mret (Err (New CodeResourceNotFound "角色不存在"))
  | Ok (Some existing) =>
      n ← checked_col (UpdateRoleRequest.Name req) (Role.Name existing)
            (role_ExistsByNameExcludingID (UpdateRoleRequest.Name req) (UpdateRoleRequest.ID req))
            "校验角色名失败" "角色名已存在" (RoleName (UpdateRoleRequest.Name req));
      match n with
      | Err e => mret (Err e)
      | Ok nc =>
          s ← checked_col (UpdateRoleRequest.Slug req) (Role.Slug existing)
                (role_ExistsBySlugExcludingID (UpdateRoleRequest.Slug req) (UpdateRoleRequest.ID req))
                "校验角色标识失败" "角色标识已存在" (RoleSlug (UpdateRoleRequest.Slug req));
          match s with
          | Err e => mret (Err e)
          | Ok sc =>
              match nc ++ sc ++ set_opt (UpdateRoleRequest.Status req) RoleStatus with
              | [] => mret (Ok tt)
              | updates =>
                  x ← role_Update (UpdateRoleRequest.ID req) (updates ++ [RoleUpdatedAt now]);
                  mret (match x with
                        | Err e => Err (NewWithErr CodeInternalError "更新角色失败!" e)
                        | Ok _ => Ok tt
                        end)
              end
          end
      end
  end.

(** The check of [Delete] and [BatchDelete] that a row is there. *)
Definition missing {R} (what none : string) (g : result (option R)) : option error :=
  match g with
  | Err e => Some (NewWithErr CodeInternalError what e)
  | Ok None => Some (New CodeResourceNotFound none)
  | Ok (Some _) => None
  end.
Definition role_missing (id : Z) : M S (option error) :=
  g ← GetRoleByID id; mret (missing "查询角色信息失败" "角色不存在" g).
Definition DeleteRole (id : Z) : M S (result unit) :=
  r ← role_missing id;
  match r with Some e => mret (Err e) | None => role_Delete id end.
Definition BatchDeleteRoles (ids : list Z) : M S (result unit) :=
  match ids with
  | [] => mret (Err (NewDefault CodeMissingParam))
  | _ =>
      r ← for_ret ids role_missing;
      match r with Some e => mret (Err e) | None => role_BatchDelete ids end
  end.

(** ** APIs: repository *)

Definition GetAPIByID (id : Z) : M S (result (option Permission)) := row_GetByID id.
Definition api_filter (httpPath : string) (status : option Z) (p : Permission) : bool :=
  (String.eqb httpPath "" || col_like (Permission.HttpPath p) httpPath) &&
  match status with Some s => Permission.Status p =? s | None => true end.
(** [ORDER BY category, sort]. *)
Definition api_le (a b : Permission) : bool :=
  col_le (Permission.Category a) (Permission.Category b) &&
  (negb (col_le (Permission.Category b) (Permission.Category a)) || (Permission.Sort a <=? Permission.Sort b)).
Definition apis_PageList (offset limit : Z) (httpPath : string) (status : option Z)
  : M S (result (list Permission * Z)) :=
  row_page api_le (api_filter httpPath status) offset limit.
Definition api_Create (p : Permission) : M S (result unit) := row_create p.
Definition api_Update (id : Z) (updates : list api_col) : M S (result unit) :=
  row_update id (λ p, foldl (λ p c, set_api_col c p) p updates).
Definition api_Delete (id : Z) : M S (result unit) := row_delete (λ p : Permission, Permission.ID p =? id).
Definition api_BatchDelete (ids : list Z) : M S (result unit) :=
  row_delete (λ p : Permission, existsb (Z.eqb (Permission.ID p)) ids).
Definition api_ExistsBySlug (slug : string) : M S (result bool) :=
  row_exists (λ p, col_eq (Permission.Slug p) slug).
Definition api_ExistsBySlugExcludingID (slug : string) (excludeID : Z) : M S (result bool) :=
  row_exists (λ p, col_eq (Permission.Slug p) slug && negb (Permission.ID p =? excludeID)).
Definition ExistsByMethodAndPath (method path : string) : M S (result bool) :=
  row_exists (λ p, col_eq (Permission.HttpMethod p) method && col_eq (Permission.HttpPath p) path).

(** ** APIs: service *)

Definition APIPageList (page0 size0 : Z) (httpPath : string) (status : option Z)
  : M S (result (list Permission * Z)) :=
  let '(page, size) := clamp_page page0 size0 in
  apis_PageList (page_offset page size) size httpPath status.

Definition CreateAPI (req : CreateAPIRequest) : M S (result unit) :=
  if String.eqb (CreateAPIRequest.Name req) "" || String.eqb (CreateAPIRequest.Slug req) "" ||
     String.eqb (CreateAPIRequest.HTTPMethod req) ""
  then mret (Err (NewDefault CodeMissingParam))
  else if negb (HasPrefix (CreateAPIRequest.HTTPPath req) "/api") then
    mret (Err (New CodeInvalidParam "路径必须以/api开头"))
  else
    x ← api_ExistsBySlug (CreateAPIRequest.Slug req);
    match x with
    | Err e => mret (Err (NewWithErr CodeInternalError "检查API标识是否重复失败" e))
    | Ok true => mret (Err (New CodeResourceAlreadyExists "API标识已存在"))
    | Ok false =>
        match CreateAPIRequest.Status req with
        | None => mret (Err (ErrPanic "nil pointer dereference"))
        | Some st =>
            r ← api_Create (Permission.mkPermission 0 (CreateAPIRequest.Name req) (CreateAPIRequest.Category req)
                              (CreateAPIRequest.Slug req) "" st (CreateAPIRequest.HTTPMethod req)
                              (CreateAPIRequest.HTTPPath req) (CreateAPIRequest.Sort req));
            mret (created_or "创建API失败!" r)
        end
    end.

Definition UpdateAPI (now : Z) (req : UpdateAPIRequest) : M S (result unit) :=
  g ← GetAPIByID (UpdateAPIRequest.ID req);
  match g with
  | Err e => mret (Err (NewWithErr CodeInternalError "查询API信息失败" e))
  | Ok None => mret (Err (New CodeResourceNotFound "API不存在"))
  | Ok (Some existingAPI) =>
      s ← checked_col (UpdateAPIRequest.Slug req) (Permission.Slug existingAPI)
            (api_ExistsBySlugExcludingID (UpdateAPIRequest.Slug req) (UpdateAPIRequest.ID req))
            "校验API标识失败" "API标识已存在" (ApiSlug (UpdateAPIRequest.Slug req));
      match s with
      | Err e => mret (Err e)
      | Ok sc =>
          match sc ++ set_if (UpdateAPIRequest.Name req) ApiName ++
                set_if (UpdateAPIRequest.Category req) ApiCategory ++
                set_opt (UpdateAPIRequest.Status req) ApiStatus ++
                set_if (UpdateAPIRequest.HTTPMethod req) ApiMethod ++
                set_if (UpdateAPIRequest.HTTPPath req) ApiPath ++
                set_opt (UpdateAPIRequest.Sort req) ApiSort with
          | [] => mret (Ok tt)
          | updates =>
              x ← api_Update (UpdateAPIRequest.ID req) (updates ++ [ApiUpdatedAt now]);
              mret (match x with
                    | Err e => Err (NewWithErr CodeInternalError "更新API失败" e)
                    | Ok _ => Ok tt
                    end)
          end
      end
  end.

Definition api_missing (id : Z) : M S (option error) :=
  g ← GetAPIByID id; mret (missing "查询API信息失败" "API不存在" g).
Definition DeleteAPI (id : Z) : M S (result unit) :=
  r ← api_missing id;
  match r with Some e => mret (Err e) | None => api_Delete id end.
Definition BatchDeleteAPIs (ids : list Z) : M S (result unit) :=
  match ids with
  | [] => mret (Err (NewDefault CodeMissingParam))
  | _ =>
      r ← for_ret ids api_missing;
      match r with Some e => mret (Err e) | None => api_BatchDelete ids end
  end.
End Service.

(** ** The permissions of a role *)

(** The menu tree of the page: nodes behind pointers, as in [BuildMenuTree];
    the address of a node is the id of its menu. *)
Record role_node : Type := mkRoleNode { rn_ID : Z; rn_Title : string; rn_Checked : bool; rn_Children : list Z }.
Notation role_heap := (gmap Z role_node).

Definition new_role_node (checked : Z → bool) (m : Menu) : role_node :=
  mkRoleNode (Menu.ID m) (Menu.Title m) (checked (Menu.ID m)) [].
Definition nodeMap (checked : Z → bool) (menus : list Menu) : role_heap :=
  foldl (λ h m, <[Menu.ID m := new_role_node checked m]> h) ∅ menus.
Definition role_link (st : role_heap * list Z) (m : Menu) : role_heap * list Z :=
  let '(h, roots) := st in
  if Menu.ParentID m =? 0 then (h, roots ++ [Menu.ID m])
  else match h !! Menu.ParentID m with
       | Some p => (<[Menu.ParentID m :=
                      mkRoleNode (rn_ID p) (rn_Title p) (rn_Checked p) (rn_Children p ++ [Menu.ID m])]> h, roots)
       | None => (h, roots)
       end.
Definition buildMenuTree (menus : list Menu) (checked : Z → bool) : role_heap * list Z :=
  foldl role_link (nodeMap checked menus, []) menus.

(** The titles of the leaves of the first two levels. *)
Definition title_at (h : role_heap) (k : Z) : string := default ""%string (rn_Title <$> h !! k).
Definition extractCategoryOrder (menuTree : role_heap * list Z) : list string :=
  let '(h, roots) := menuTree in
  concat (map (λ k, match default [] (rn_Children <$> h !! k) with
                    | [] => [title_at h k]
                    | children => title_at h <$> children
                    end) roots).

Definition api_res (checked : Z → bool) (p : Permission) : ApiPermissionRes :=
  ApiPermissionRes.mkApiPermissionRes (Permission.ID p) (Permission.Name p) (Permission.Slug p)
    (checked (Permission.ID p)).
Definition groupMap (checked : Z → bool) (perms : list Permission) : gmap string (list ApiPermissionRes) :=
  foldl (λ g p, <[Permission.Category p := default [] (g !! Permission.Category p) ++ [api_res checked p]]> g)
    ∅ perms.
(** The loop over [categoryOrder]: a group is taken once. *)
Fixpoint take_groups (order : list string) (g : gmap string (list ApiPermissionRes))
  : list ApiPermissionGroupRes * gmap string (list ApiPermissionRes) :=
  match order with
  | [] => ([], g)
  | cat :: rest =>
      match g !! cat with
      | Some l => let '(res, g') := take_groups rest (delete cat g) in (mkApiPermissionGroupRes cat l :: res, g')
      | None => take_groups rest g
      end
  end.

Section Page.
Context {S : Type} {Q : Sql S access}.
(** [range] over a map: Go does not fix the order. *)
Variable range : gmap string (list ApiPermissionRes) → list (string * list ApiPermissionRes).

Definition buildApiPermissions (perms : list Permission) (checked : Z → bool) (categoryOrder : list string)
  : list ApiPermissionGroupRes :=
  let '(res, rest) := take_groups categoryOrder (groupMap checked perms) in
  res ++ ((λ x, mkApiPermissionGroupRes x.1 x.2) <$> range rest).

Definition api_sort_asc (a b : Permission) : bool := Permission.Sort a <=? Permission.Sort b.
(** The second column of the rows of a role in a join table.  The error of
    this query is not looked at: then the list is empty. *)
Definition scan_ids (roleID : Z) (t : access → list (Z * Z)) : M S (list Z) :=
  r ← sql_find (λ v, snd <$> List.filter (λ x : Z * Z, x.1 =? roleID) (t v));
  mret (match r with Ok l => l | Err _ => [] end).
Definition repo_GetRolePermissionByID (roleID : Z)
  : M S (result (list Menu * list Permission * list Z * list Z)) :=
  m ← sql_find (λ v, merge_sort (brel sort_asc) (List.filter (λ m, Menu.Status m =? 1) (a_menus v)));
  match m with
  | Err e => mret (Err e)
  | Ok menus =>
      p ← sql_find (λ v, merge_sort (brel api_sort_asc) (List.filter (λ p, Permission.Status p =? 1) (a_perms v)));
      match p with
      | Err e => mret (Err e)
      | Ok perms =>
          menuIDs ← scan_ids roleID a_role_menus;
          permIDs ← scan_ids roleID a_role_perms;
          mret (Ok (menus, perms, menuIDs, permIDs))
      end
  end.
Definition in_ids (l : list Z) (i : Z) : bool := existsb (Z.eqb i) l.
Definition GetRolePermissionByID (roleID : Z)
  : M S (result ((role_heap * list Z) * list ApiPermissionGroupRes)) :=
  r ← repo_GetRolePermissionByID roleID;
  mret (match r with
        | Err e => Err e
        | Ok (menus, permissions, menuIDs, permIDs) =>
            let menuTree := buildMenuTree menus (in_ids menuIDs) in
            let apiGroups := buildApiPermissions permissions (in_ids permIDs) (extractCategoryOrder menuTree) in
            Ok (menuTree, apiGroups)
        end).
End Page.

(** * Properties *)

(** ** The menu tree *)

Definition relabel (checked : Z → bool) (n : hnode) : role_node :=
  mkRoleNode (MenuTreeNode.ID (h_data n)) (MenuTreeNode.Title (h_data n))
    (checked (MenuTreeNode.ID (h_data n))) (h_children n).

Lemma nodeMap_relabel checked menus : nodeMap checked menus = relabel checked <$> menuMap menus.
Proof.
  unfold nodeMap, menuMap. rewrite <- (fmap_empty (M := gmap Z) (relabel checked)) at 1.
  generalize (∅ : gmap Z hnode). induction menus as [|m menus IH]; intros h; [done|].
  cbn. rewrite <- IH. by rewrite fmap_insert.
Qed.

(** The menu tree of the permission page is that of the menu service: the
    nodes and their links are those [BuildMenuTree] makes, in the same order,
    with the title kept and the box checked where the role has the menu. *)
Theorem buildMenuTree_equiv menus checked :
  buildMenuTree menus checked =
  (relabel checked <$> (BuildMenuTree menus).1, (BuildMenuTree menus).2).
Proof.
  unfold buildMenuTree, BuildMenuTree. rewrite nodeMap_relabel.
  generalize (@nil Z). generalize (menuMap menus). induction menus as [|m menus IH]; intros h roots; [done|].
  cbn [foldl]. unfold role_link at 2, link at 2 4.
  destruct (Menu.ParentID m =? 0); [apply IH|]. rewrite lookup_fmap.
  destruct (h !! Menu.ParentID m) as [p|]; cbn; [|apply IH]. rewrite <- IH. by rewrite fmap_insert.
Qed.

(** ** The groups of permissions *)

(** The permissions of a category, in the order of the query. *)
Definition of_category (checked : Z → bool) (perms : list Permission) (cat : string) : list ApiPermissionRes :=
  api_res checked <$> List.filter (λ p, String.eqb (Permission.Category p) cat) perms.

Lemma groupMap_lookup checked perms cat :
  groupMap checked perms !! cat =
  match of_category checked perms cat with [] => None | l => Some l end.
Proof.
  induction perms as [|p perms IH] using rev_ind; [done|]. unfold groupMap in *. rewrite foldl_app. cbn.
  unfold of_category in *. rewrite List.filter_app, fmap_app. cbn.
  destruct (String.eqb_spec (Permission.Category p) cat) as [<-|Hne].
  - rewrite lookup_insert_eq, IH. cbn. by destruct (api_res checked <$> _).
  - rewrite lookup_insert_ne by done. rewrite IH. cbn. by rewrite app_nil_r.
Qed.

Lemma take_groups_spec order g res g' :
  take_groups order g = (res, g') →
  Forall (λ x, g !! ag_Category x = Some (ag_List x)) res ∧
  NoDup (ag_Category <$> res) ∧ ag_Category <$> res `sublist_of` order ∧
  (∀ cat, g' !! cat = if decide (cat ∈ order) then None else g !! cat) ∧
  (∀ cat, is_Some (g !! cat) → cat ∈ order → cat ∈ ag_Category <$> res).
Proof.
  revert g res g'. induction order as [|c order IH]; intros g res g' E; cbn in E.
  { injection E as <- <-. split_and!; [constructor|constructor|constructor| |].
    - intros cat. by rewrite decide_False by apply not_elem_of_nil.
    - intros cat _ H. by apply elem_of_nil in H. }
  destruct (g !! c) as [l|] eqn:Hc.
  - destruct (take_groups order (delete c g)) as [res0 g0] eqn:E0. injection E as <- <-.
    apply IH in E0 as (Hf & Hn & Hs & Hg & Hi). split_and!; cbn.
    + constructor; [done|]. eapply Forall_impl; [exact Hf|]. intros x Hx. cbn in Hx.
      by apply lookup_delete_Some in Hx as [_ ?].
    + constructor; [|done]. intros (x & -> & Hx)%list_elem_of_fmap. rewrite Forall_forall in Hf.
      apply Hf in Hx. by rewrite lookup_delete_eq in Hx.
    + by constructor.
    + intros cat. rewrite Hg. destruct (decide (cat = c)) as [->|Hne].
      * rewrite lookup_delete_eq, (decide_True (P := c ∈ c :: order)) by by left. by case_decide.
      * rewrite lookup_delete_ne by done. repeat case_decide; set_solver.
    + intros cat Hs' Hin. destruct (decide (cat = c)) as [->|Hne]; [by left|]. right.
      apply Hi; [by rewrite lookup_delete_ne|]. set_solver.
  - apply IH in E as (Hf & Hn & Hs & Hg & Hi). split_and!; [done|done|by constructor| |].
    + intros cat. rewrite Hg. destruct (decide (cat = c)) as [->|Hne]; [|repeat case_decide; set_solver].
      rewrite (decide_True (P := c ∈ c :: order)) by by left. by case_decide.
    + intros cat Hs' Hin. apply Hi; [done|]. destruct (decide (cat = c)) as [->|Hne]; [|set_solver].
      rewrite Hc in Hs'. by destruct Hs'.
Qed.

Section PageProps.
Context {S : Type} {Q : Sql S access} {L : SqlLaws S access}.
Variable range : gmap string (list ApiPermissionRes) → list (string * list ApiPermissionRes).
Hypothesis range_all : ∀ g, range g ≡ₚ map_to_list g.

(** The groups of a list of permissions: each category once with all of its
    permissions in order, those of [order] first. *)
Record grouped (checked : Z → bool) (perms : list Permission) (order : list string)
  (groups : list ApiPermissionGroupRes) : Prop := {
  gr_unique : NoDup (ag_Category <$> groups);
  gr_list : Forall (λ x, ag_List x = of_category checked perms (ag_Category x) ∧ ag_List x ≠ []) groups;
  gr_all : ∀ p, p ∈ perms → Permission.Category p ∈ ag_Category <$> groups;
  gr_order : ∃ first rest, groups = first ++ rest ∧ ag_Category <$> first `sublist_of` order ∧
    Forall (λ x, ag_Category x ∉ order) rest
}.

Lemma groupMap_Some checked perms cat l :
  groupMap checked perms !! cat = Some l → l = of_category checked perms cat ∧ l ≠ [].
Proof. rewrite groupMap_lookup. destruct (of_category _ _ _); [done|]. by intros [= <-]. Qed.

Lemma groupMap_has checked perms p :
  p ∈ perms → is_Some (groupMap checked perms !! Permission.Category p).
Proof.
  intros Hp. rewrite groupMap_lookup. unfold of_category.
  assert (p ∈ List.filter (λ q, String.eqb (Permission.Category q) (Permission.Category p)) perms) as Hin.
  { apply list_elem_of_In, filter_In. split; [by apply list_elem_of_In|apply String.eqb_refl]. }
  destruct (List.filter _ perms); [by apply elem_of_nil in Hin|by eexists].
Qed.

Lemma buildApiPermissions_grouped perms checked order :
  grouped checked perms order (buildApiPermissions range perms checked order).
Proof.
  unfold buildApiPermissions. destruct (take_groups order _) as [res g] eqn:E.
  apply take_groups_spec in E as (Hf & Hn & Hs & Hg & Hi).
  set (rest := (λ x, mkApiPermissionGroupRes x.1 x.2) <$> range g).
  assert (∀ x, x ∈ rest → g !! ag_Category x = Some (ag_List x)) as Hrest.
  { intros ? ([c l] & -> & Hx)%list_elem_of_fmap. rewrite range_all in Hx. by apply elem_of_map_to_list in Hx. }
  assert (∀ x, x ∈ rest → ag_Category x ∉ order ∧ groupMap checked perms !! ag_Category x = Some (ag_List x)) as Hr.
  { intros x Hx%Hrest. rewrite Hg in Hx. by case_decide. }
  assert (ag_Category <$> rest ≡ₚ (map_to_list g).*1) as Hcat.
  { unfold rest. rewrite <- list_fmap_compose, range_all. done. }
  split.
  - rewrite fmap_app. apply NoDup_app. split_and!; [done| |rewrite Hcat; apply NoDup_fst_map_to_list].
    intros c Hc (x & -> & Hx)%list_elem_of_fmap. apply Hr in Hx as [Hx _]. apply Hx.
    eapply sublist_subseteq; [exact Hs|done].
  - apply Forall_app. split; [eapply Forall_impl; [exact Hf|]; intros x Hx; by apply groupMap_Some in Hx|].
    apply Forall_forall. intros x [_ Hx]%Hr. by apply groupMap_Some in Hx.
  - intros p Hp. apply (groupMap_has checked) in Hp. rewrite fmap_app, elem_of_app.
    destruct (decide (Permission.Category p ∈ order)) as [Ho|Ho]; [left; by apply Hi|right].
    rewrite Hcat. destruct Hp as [l Hl]. apply list_elem_of_fmap. exists (Permission.Category p, l).
    split; [done|]. apply elem_of_map_to_list. rewrite Hg. by rewrite decide_False.
  - exists res, rest. split_and!; [done|done|]. apply Forall_forall. intros x Hx. by apply Hr.
Qed.

Lemma scan_ids_spec roleID t s s' l :
  scan_ids roleID t s = (s', l) →
  sql_view s' = sql_view s ∧ (l ≠ [] → ∀ i, in_ids l i = joined (t (sql_view s)) roleID i) ∧
  (reliable S access → ∀ i, in_ids l i = joined (t (sql_view s)) roleID i).
Proof.
  unfold scan_ids. intros E. open_bind E as s1 r E1. injection E as <- <-.
  pose proof (sql_find_view _ _ _ _ E1) as Hv. destruct r as [ids|e].
  2:{ split; [done|]. split; [done|]. intros (Hrel & _).
      specialize (Hrel _ (λ v, snd <$> List.filter (λ x : Z * Z, x.1 =? roleID) (t v)) s).
      by rewrite E1 in Hrel. }
  apply sql_find_ok in E1. split; [done|].
  enough (∀ i, in_ids ids i = joined (t (sql_view s)) roleID i) as Hi by done. intros i.
  apply eq_true_iff_eq. unfold in_ids, joined. rewrite !existsb_exists. split.
  - intros (k & Hk & ->%Z.eqb_eq). apply list_elem_of_In in Hk. rewrite E1 in Hk.
    apply list_elem_of_fmap in Hk as ([a b] & -> & Hx). apply list_elem_of_In, filter_In in Hx as [Hx Ha].
    exists (a, b). split; [done|]. cbn in *. by rewrite Ha, Z.eqb_refl.
  - intros ([a b] & Hx & [Ha Hb]%andb_prop). cbn in *. apply Z.eqb_eq in Hb as ->. exists i.
    split; [|apply Z.eqb_refl]. apply list_elem_of_In. rewrite E1. apply list_elem_of_fmap. exists (a, i).
    split; [done|]. apply list_elem_of_In, filter_In. done.
Qed.

(** The permission page of a role.  When the query succeeds the tables are
    unchanged and the API groups hold every enabled permission, each category
    exactly once with its permissions in the order of the query, categories
    with a menu before the others; on a database that answers, a box is
    checked exactly when the role has the permission. *)
Theorem GetRolePermissionByID_groups roleID s s' tree groups
  (E : GetRolePermissionByID range roleID s = (s', Ok (tree, groups))) :
  sql_view s' = sql_view s ∧
  ∃ perms checked,
    perms ≡ₚ List.filter (λ p, Permission.Status p =? 1) (a_perms (sql_view s)) ∧
    grouped checked perms (extractCategoryOrder tree) groups ∧
    (reliable S access → ∀ i, checked i = joined (a_role_perms (sql_view s)) roleID i).
Proof.
  unfold GetRolePermissionByID, repo_GetRolePermissionByID in E. open_bind E as s0 a E0.
  open_bind E0 as s1 m E1. destruct m as [menus|e]; [|injection E0 as <- <-; by injection E].
  pose proof (sql_find_view _ _ _ _ E1) as Hv1. open_bind E0 as s2 p E2.
  destruct p as [perms|e]; [|injection E0 as <- <-; by injection E].
  pose proof (sql_find_view _ _ _ _ E2) as Hv2. apply sql_find_ok in E2.
  open_bind E0 as s3 mi E3. open_bind E0 as s4 pi E4. injection E0 as <- <-. injection E as <- <- <-.
  apply scan_ids_spec in E3 as (Hv3 & _). apply scan_ids_spec in E4 as (Hv4 & _ & Hc).
  split; [congruence|]. exists perms, (in_ids pi). split_and!.
  - by rewrite E2, merge_sort_Permutation, Hv1.
  - apply buildApiPermissions_grouped.
  - intros Hr i. rewrite Hc by done. by rewrite Hv3, Hv2, Hv1.
Qed.
End PageProps.

(** ** Unique names and slugs *)

Section Unique.
Context {S : Type} {Q : Sql S access} {L : SqlLaws S access} {R : Type} {T : Rows R}.
Variable col_eq : string → string → bool.
Hypothesis col_eq_sym : ∀ a b, col_eq a b = col_eq b a.
Variable key : R → string.

(** Rows the database takes for equal in the column are one row. *)
Definition unique_by (rows : list R) : Prop :=
  ∀ a b, a ∈ rows → b ∈ rows → col_eq (key a) (key b) = true → rw_id a = rw_id b.

Lemma unique_by_filter (p : R → bool) rows : unique_by rows → unique_by (List.filter p rows).
Proof.
  intros Hu a b. rewrite !list_elem_of_In, !List.filter_In, <- !list_elem_of_In.
  intros [? _] [? _]. by apply Hu.
Qed.

Lemma unique_by_add rows x :
  (∀ y, y ∈ rows → col_eq (key y) (key x) = false) → unique_by rows → unique_by (rows ++ [x]).
Proof.
  intros Hx Hu a b. rewrite !elem_of_app, !list_elem_of_singleton.
  intros [Ha| ->] [Hb| ->]; [by apply Hu|by rewrite Hx|by rewrite col_eq_sym, Hx|done].
Qed.

Lemma unique_by_update rows id (f : R → R) :
  (∀ x, rw_id (f x) = rw_id x) →
  (∀ x, x ∈ rows → key (f x) = key x ∨
     ∀ y, y ∈ rows → rw_id y ≠ id → col_eq (key y) (key (f x)) = false) →
  unique_by rows → unique_by ((λ x, if rw_id x =? id then f x else x) <$> rows).
Proof.
  intros Hid Hf Hu.
  assert (∀ a b, a ∈ rows → b ∈ rows → rw_id a = id → rw_id b ≠ id →
            col_eq (key b) (key (f a)) = true → False) as Hx.
  { intros a b Ha Hb Ea Eb E. destruct (Hf a Ha) as [Hk|Hk]; [|by rewrite Hk in E].
    rewrite Hk in E. apply Eb. rewrite <- Ea. by apply Hu. }
  intros ? ? (a & -> & Ha)%list_elem_of_fmap (b & -> & Hb)%list_elem_of_fmap.
  destruct (Z.eqb_spec (rw_id a) id) as [Ea|Ea], (Z.eqb_spec (rw_id b) id) as [Eb|Eb];
    rewrite ?Hid; [congruence| | |by apply Hu].
  - rewrite col_eq_sym. intros E. by destruct (Hx a b).
  - intros E. by destruct (Hx b a).
Qed.

Lemma row_exists_spec (p : R → bool) s s' r :
  row_exists p s = (s', r) →
  sql_view s' = sql_view s ∧ (r = Ok false → ∀ x, x ∈ rw_get (sql_view s) → p x = false).
Proof.
  unfold row_exists. intros E. open_bind E as s1 c E1. injection E as <- <-.
  pose proof (sql_count_view _ _ _ _ E1) as Hv. split; [done|].
  destruct c as [n|]; [|done]. intros [= Hn]. apply sql_count_ok in E1.
  intros x Hx. destruct (p x) eqn:Hp; [|done]. exfalso.
  assert (x ∈ List.filter p (rw_get (sql_view s))) as Hin by (apply list_elem_of_In, filter_In; split; [by apply list_elem_of_In|done]).
  destruct (List.filter p (rw_get (sql_view s))) as [|y l]; [by apply elem_of_nil in Hin|].
  cbn in E1. apply Z.ltb_ge in Hn. lia.
Qed.

Lemma row_delete_unique (p : R → bool) s s' r :
  row_delete p s = (s', r) → unique_by (rw_get (sql_view s)) → unique_by (rw_get (sql_view s')).
Proof.
  unfold row_delete. intros E Hu. apply sql_exec_spec in E. rewrite E.
  destruct (is_ok r); [|done]. rewrite rw_get_put. by apply unique_by_filter.
Qed.

Lemma row_update_unique id (f : R → R) s s' r :
  row_update id f s = (s', r) → (∀ x, rw_id (f x) = rw_id x) →
  (∀ x, x ∈ rw_get (sql_view s) → key (f x) = key x ∨
     ∀ y, y ∈ rw_get (sql_view s) → rw_id y ≠ id → col_eq (key y) (key (f x)) = false) →
  unique_by (rw_get (sql_view s)) → unique_by (rw_get (sql_view s')).
Proof.
  unfold row_update. intros E ? ? ?. apply sql_exec_spec in E. rewrite E.
  destruct (is_ok r); [|done]. rewrite rw_get_put. by apply unique_by_update.
Qed.

Lemma row_create_unique `{!Creates S R, !CreatesLaws S R} x s s' r :
  row_create x s = (s', r) → (∀ k, key (rw_set_id k x) = key x) →
  (∀ y, y ∈ rw_get (sql_view s) → col_eq (key y) (key x) = false) →
  unique_by (rw_get (sql_view s)) → unique_by (rw_get (sql_view s')).
Proof.
  intros E Hk Hx Hu. apply row_create_spec in E. destruct r as [u|e]; [|by rewrite E].
  destruct E as (k & _ & ->). rewrite rw_get_put. apply unique_by_add; [|done]. intros y Hy. rewrite Hk. by apply Hx.
Qed.

Lemma row_GetByID_view id s s' r : row_GetByID (R := R) id s = (s', r) → sql_view s' = sql_view s.
Proof.
  unfold row_GetByID. intros E. open_bind E as s1 x E1. injection E as <- <-. by eapply sql_first_view.
Qed.

Lemma checked_col_spec {C} new old (p : R → bool) failed taken (col : C) s s' r :
  checked_col new old (row_exists p) failed taken col s = (s', r) →
  sql_view s' = sql_view s ∧
  (∀ l, r = Ok l → l = [] ∨ l = [col] ∧ ∀ x, x ∈ rw_get (sql_view s) → p x = false).
Proof.
  unfold checked_col. case_match; intros E; [|injection E as <- <-; split; [done|]; intros l [= <-]; by left].
  open_bind E as s1 x E1. apply row_exists_spec in E1 as [Hv Hx]. injection E as <- <-. split; [done|].
  intros l Hl. destruct x as [[]|]; [done| |done]. injection Hl as <-. right. split; [done|]. by apply Hx.
Qed.
End Unique.

Section Invariant.
Context {S : Type} {Q : Sql S access} {L : SqlLaws S access}.
Context {CR : Creates S Role} {CA : Creates S Permission} {LR : CreatesLaws S Role} {LA : CreatesLaws S Permission}.
Variable col_eq : string → string → bool.
Hypothesis col_eq_sym : ∀ a b, col_eq a b = col_eq b a.
Variable is_duplicate : error → bool.

Notation names_unique v := (unique_by col_eq Role.Name (a_roles v)).
Notation apis_unique v := (unique_by col_eq Permission.Slug (a_perms v)).

(** The requests that change the two tables. *)
Inductive admin_op : Type :=
  | OpCreateRole (req : CreateRoleRequest)
  | OpUpdateRole (now : Z) (req : UpdateRoleRequest)
  | OpDeleteRole (id : Z)
  | OpBatchDeleteRoles (ids : list Z)
  | OpCreateAPI (req : CreateAPIRequest)
  | OpUpdateAPI (now : Z) (req : UpdateAPIRequest)
  | OpDeleteAPI (id : Z)
  | OpBatchDeleteAPIs (ids : list Z).
Definition run_admin (o : admin_op) : M S (result unit) :=
  match o with
  | OpCreateRole req => CreateRole col_eq is_duplicate req
  | OpUpdateRole now req => UpdateRole col_eq now req
  | OpDeleteRole id => DeleteRole id
  | OpBatchDeleteRoles ids => BatchDeleteRoles ids
  | OpCreateAPI req => CreateAPI col_eq is_duplicate req
  | OpUpdateAPI now req => UpdateAPI col_eq now req
  | OpDeleteAPI id => DeleteAPI id
  | OpBatchDeleteAPIs ids => BatchDeleteAPIs ids
  end.

Section Frame.
Context {R : Type} {T : Rows R} {CC : Creates S R} {LC : CreatesLaws S R} {X : Type}.
Variable f : access → X.
Hypothesis f_put : ∀ l v, f (rw_put l v) = f v.
Notation seen := (λ s, f (sql_view s)).

Lemma row_exists_keeps (p : R → bool) : keeps seen (row_exists p).
Proof. intros s s' r E. by apply row_exists_spec in E as [-> _]. Qed.
Lemma row_GetByID_keeps id : keeps seen (row_GetByID (R := R) id).
Proof. intros s s' r E. by apply row_GetByID_view in E as ->. Qed.
Lemma row_update_keeps id (g : R → R) : keeps seen (row_update id g).
Proof. intros s s' r E. apply sql_exec_spec in E. rewrite E. by destruct (is_ok r). Qed.
Lemma row_delete_keeps (p : R → bool) : keeps seen (row_delete p).
Proof. intros s s' r E. apply sql_exec_spec in E. rewrite E. by destruct (is_ok r). Qed.
Lemma row_create_keeps (x : R) : keeps seen (row_create x).
Proof. intros s s' r E. apply row_create_spec in E. destruct r; [destruct E as (k & _ & ->)|rewrite E]; done. Qed.
End Frame.
Hint Resolve row_exists_keeps row_GetByID_keeps row_update_keeps row_delete_keeps row_create_keeps : keeps.

Definition on_roles (o : admin_op) : bool :=
  match o with OpCreateRole _ | OpUpdateRole _ _ | OpDeleteRole _ | OpBatchDeleteRoles _ => true | _ => false end.

(** A request on one table leaves the other alone. *)
Lemma run_admin_other o s s' r :
  run_admin o s = (s', r) →
  if on_roles o then a_perms (sql_view s') = a_perms (sql_view s)
  else a_roles (sql_view s') = a_roles (sql_view s).
Proof.
  destruct o; cbn [on_roles run_admin]; intros E.
  1-4: refine ((_ : keeps (λ s, a_perms (sql_view s)) _) _ _ _ E).
  5-8: refine ((_ : keeps (λ s, a_roles (sql_view s)) _) _ _ _ E).
  all: unfold CreateRole, UpdateRole, DeleteRole, BatchDeleteRoles, CreateAPI, UpdateAPI, DeleteAPI,
    BatchDeleteAPIs, checked_col, role_missing, api_missing; solve_keeps.
Qed.

(** The columns of an update: the id stays, and the checked column is the old
    one or that of the map. *)
Lemma role_cols l r :
  Role.ID (foldl (λ r c, set_role_col c r) r l) = Role.ID r ∧
  (Role.Name (foldl (λ r c, set_role_col c r) r l) = Role.Name r ∨
   RoleName (Role.Name (foldl (λ r c, set_role_col c r) r l)) ∈ l).
Proof.
  revert r. induction l as [|c l IH]; intros r; cbn; [auto|].
  destruct (IH (set_role_col c r)) as [Hi [Hn|Hn]]; rewrite Hi; (split; [by destruct c|]); [|right; by right].
  rewrite Hn. destruct c; auto. right. by left.
Qed.
Lemma api_cols l p :
  Permission.ID (foldl (λ p c, set_api_col c p) p l) = Permission.ID p ∧
  (Permission.Slug (foldl (λ p c, set_api_col c p) p l) = Permission.Slug p ∨
   ApiSlug (Permission.Slug (foldl (λ p c, set_api_col c p) p l)) ∈ l).
Proof.
  revert p. induction l as [|c l IH]; intros p; cbn; [auto|].
  destruct (IH (set_api_col c p)) as [Hi [Hn|Hn]]; rewrite Hi; (split; [by destruct c, p|]); [|right; by right].
  rewrite Hn. destruct c, p; auto. right. by left.
Qed.

Lemma CreateRole_unique req s s' r :
  CreateRole col_eq is_duplicate req s = (s', r) → names_unique (sql_view s) → names_unique (sql_view s').
Proof.
  unfold CreateRole. intros E Hu. case_match; [by injection E as <- _|].
  open_bind E as s1 n E1. apply row_exists_spec in E1 as [Hv1 Hn]. rewrite <- Hv1 in Hu.
  destruct n as [[]|]; [by injection E as <- _| |by injection E as <- _]. specialize (Hn eq_refl).
  case_match; [by injection E as <- _|]. open_bind E as s2 n E2. apply row_exists_spec in E2 as [Hv2 _].
  rewrite <- Hv2 in Hu. destruct n as [[]|]; [by injection E as <- _| |by injection E as <- _].
  case_match; [|by injection E as <- _]. open_bind E as s3 x E3. injection E as <- _.
  eapply (row_create_unique col_eq col_eq_sym Role.Name) in E3; [done|done| |done].
  intros y. cbn. rewrite Hv2, Hv1. by apply Hn.
Qed.

Lemma CreateAPI_unique req s s' r :
  CreateAPI col_eq is_duplicate req s = (s', r) → apis_unique (sql_view s) → apis_unique (sql_view s').
Proof.
  unfold CreateAPI. intros E Hu. case_match; [by injection E as <- _|]. case_match; [by injection E as <- _|].
  open_bind E as s1 n E1. apply row_exists_spec in E1 as [Hv1 Hn]. rewrite <- Hv1 in Hu.
  destruct n as [[]|]; [by injection E as <- _| |by injection E as <- _]. specialize (Hn eq_refl).
  case_match; [|by injection E as <- _]. open_bind E as s3 x E3. injection E as <- _.
  eapply (row_create_unique col_eq col_eq_sym Permission.Slug) in E3; [done|done| |done].
  intros y. cbn. rewrite Hv1. by apply Hn.
Qed.

(** The last step of both updates. *)
Lemma finish_update {R : Type} {T : Rows R} (key : R → string) (f : R → R) id what s s' r :
  (x ← row_update id f; mret (match x with
                                | Err e => Err (NewWithErr CodeInternalError what e)
                                | Ok _ => Ok tt
                                end)) s = (s', r) →
  (∀ x, rw_id (f x) = rw_id x) →
  (∀ x, x ∈ rw_get (sql_view s) → key (f x) = key x ∨
     ∀ y, y ∈ rw_get (sql_view s) → rw_id y ≠ id → col_eq (key y) (key (f x)) = false) →
  unique_by col_eq key (rw_get (sql_view s)) → unique_by col_eq key (rw_get (sql_view s')).
Proof.
  intros E Hid Hf Hu. open_bind E as s1 x E1. injection E as <- _.
  by apply (row_update_unique col_eq col_eq_sym key) in E1.
Qed.

Lemma UpdateRole_unique now req s s' r :
  UpdateRole col_eq now req s = (s', r) → names_unique (sql_view s) → names_unique (sql_view s').
Proof.
  unfold UpdateRole. intros E Hu. open_bind E as s1 g E1. apply row_GetByID_view in E1. rewrite <- E1 in Hu.
  destruct g as [[ex|]|]; [|by injection E as <- _..]. open_bind E as s2 n E2.
  apply checked_col_spec in E2 as [Hv2 Hn]. rewrite <- Hv2 in Hu. destruct n as [nc|]; [|by injection E as <- _].
  open_bind E as s3 c E3. apply checked_col_spec in E3 as [Hv3 Hc]. rewrite <- Hv3 in Hu.
  destruct c as [sc|]; [|by injection E as <- _]. rewrite <- Hv2, <- Hv3 in Hn.
  set (cols := nc ++ sc ++ set_opt _ _) in E. assert (∀ v, RoleName v ∈ cols → RoleName v ∈ nc) as Hin.
  { intros v. unfold cols. rewrite !elem_of_app. intros [?|[Hs|Ho]]; [done| |by destruct (UpdateRoleRequest.Status req); set_solver].
    destruct (Hc _ eq_refl) as [->|[-> _]]; set_solver. }
  destruct cols as [|c0 cols]; [by injection E as <- _|].
  eapply (finish_update Role.Name) in E; [done|intros x; apply role_cols| |done].
  intros x Hx. destruct (role_cols ((c0 :: cols) ++ [RoleUpdatedAt now]) x) as [_ [Hk|Hk]]; [by left|right].
  apply elem_of_app in Hk as [Hk|Hk]; [|by apply list_elem_of_singleton in Hk].
  apply Hin in Hk. destruct (Hn _ eq_refl) as [->|[-> Hfree]]; [by apply elem_of_nil in Hk|].
  apply list_elem_of_singleton in Hk. injection Hk as Hk. intros y Hy Hid. cbn. cbn in Hk. rewrite Hk.
  specialize (Hfree y Hy). cbn in Hfree, Hid. apply andb_false_iff in Hfree as [?|Hf]; [done|].
  apply negb_false_iff, Z.eqb_eq in Hf. done.
Qed.

Lemma UpdateAPI_unique now req s s' r :
  UpdateAPI col_eq now req s = (s', r) → apis_unique (sql_view s) → apis_unique (sql_view s').
Proof.
  unfold UpdateAPI. intros E Hu. open_bind E as s1 g E1. apply row_GetByID_view in E1. rewrite <- E1 in Hu.
  destruct g as [[ex|]|]; [|by injection E as <- _..]. open_bind E as s2 n E2.
  apply checked_col_spec in E2 as [Hv2 Hn]. rewrite <- Hv2 in Hu, Hn. destruct n as [sc|]; [|by injection E as <- _].
  set (cols := sc ++ _) in E. assert (∀ v, ApiSlug v ∈ cols → ApiSlug v ∈ sc) as Hin.
  { intros v. unfold cols, set_if, set_opt. rewrite elem_of_app. intros [?|Ho]; [done|exfalso].
    repeat case_match; set_solver. }
  destruct cols as [|c0 cols]; [by injection E as <- _|].
  eapply (finish_update Permission.Slug) in E; [done|intros x; apply api_cols| |done].
  intros x Hx. destruct (api_cols ((c0 :: cols) ++ [ApiUpdatedAt now]) x) as [_ [Hk|Hk]]; [by left|right].
  apply elem_of_app in Hk as [Hk|Hk]; [|by apply list_elem_of_singleton in Hk].
  apply Hin in Hk. destruct (Hn _ eq_refl) as [->|[-> Hfree]]; [by apply elem_of_nil in Hk|].
  apply list_elem_of_singleton in Hk. injection Hk as Hk. intros y Hy Hid. cbn. cbn in Hk. rewrite Hk.
  specialize (Hfree y Hy). cbn in Hfree, Hid. apply andb_false_iff in Hfree as [?|Hf]; [done|].
  apply negb_false_iff, Z.eqb_eq in Hf. done.
Qed.

(** Both deletions: a check that keeps the tables, then at most one
    statement. *)
Lemma checked_delete_unique {R : Type} {T : Rows R} (key : R → string) (c : M S (option error)) p s s' r :
  keeps sql_view c →
  (x ← c; match x with Some e => mret (Err e) | None => row_delete (R := R) p end) s = (s', r) →
  unique_by col_eq key (rw_get (sql_view s)) → unique_by col_eq key (rw_get (sql_view s')).
Proof.
  intros Hc E Hu. open_bind E as s1 x E1. apply Hc in E1. destruct x; [injection E as <- _; by rewrite E1|].
  eapply row_delete_unique; [done|by rewrite E1].
Qed.

Lemma missing_view {R : Type} {T : Rows R} what none id :
  keeps sql_view (g ← row_GetByID (R := R) id; mret (missing what none g)).
Proof. intros s s' r E. open_bind E as s1 g E1. injection E as <- _. by apply row_GetByID_view in E1. Qed.

Lemma run_admin_unique o s s' r :
  run_admin o s = (s', r) →
  names_unique (sql_view s) ∧ apis_unique (sql_view s) → names_unique (sql_view s') ∧ apis_unique (sql_view s').
Proof.
  intros E [Hn Ha]. pose proof (run_admin_other _ _ _ _ E) as Ho. destruct o; cbn in Ho, E; rewrite Ho.
  - split; [by eapply CreateRole_unique|done].
  - split; [by eapply UpdateRole_unique|done].
  - split; [|done]. eapply (checked_delete_unique (T := role_rows) Role.Name _ _ s s' r); [|exact E|done]; apply missing_view.
  - split; [|done]. destruct ids; [by injection E as <- _|].
    eapply (checked_delete_unique (T := role_rows) Role.Name _ _ s s' r); [|exact E|done]; apply keeps_for_ret; intros; apply missing_view.
  - split; [done|by eapply CreateAPI_unique].
  - split; [done|by eapply UpdateAPI_unique].
  - split; [done|]. eapply (checked_delete_unique (T := api_rows) Permission.Slug _ _ s s' r); [|exact E|done]; apply missing_view.
  - split; [done|]. destruct ids; [by injection E as <- _|].
    eapply (checked_delete_unique (T := api_rows) Permission.Slug _ _ s s' r); [|exact E|done]; apply keeps_for_ret; intros; apply missing_view.
Qed.

(** Whatever requests on roles and APIs are served one after the other, with any
    failures of the database in between, no two roles come to share a name
    and no two APIs a slug, under the collation of the database. *)
Theorem admin_tables_stay_unique (ops : list admin_op) s
  (Hu : names_unique (sql_view s) ∧ apis_unique (sql_view s)) :
  names_unique (sql_view (for_collect ops run_admin s).1) ∧
  apis_unique (sql_view (for_collect ops run_admin s).1).
Proof.
  revert s Hu. induction ops as [|o ops IH]; intros s Hu; [done|].
  cbn [for_collect]. unfold mbind, M_bind, mret, M_ret.
  destruct (run_admin o s) as [w r] eqn:E. apply run_admin_unique in E; [|done].
  specialize (IH w E). by destruct (for_collect ops run_admin w).
Qed.

End Invariant.

(** ** An example *)

#[export] Instance mem_creates_role : Creates access Role := {
  row_create r v := (set_roles (a_roles v ++ [role_set_id (1 + foldr Z.max 0 (Role.ID <$> a_roles v)) r]) v, Ok tt)
}.
#[export] Instance mem_creates_api : Creates access Permission := {
  row_create p v := (set_perms (a_perms v ++ [api_set_id (1 + foldr Z.max 0 (Permission.ID <$> a_perms v)) p]) v, Ok tt)
}.
Lemma above_max (l : list Z) : 1 + foldr Z.max 0 l ∉ l.
Proof.
  assert (∀ i, i ∈ l → i ≤ foldr Z.max 0 l) as Hi.
  { induction l as [|x l IH]; intros i; [by intros ?%elem_of_nil|]. rewrite elem_of_cons. cbn.
    intros [->|H%IH]; lia. }
  intros H%Hi. lia.
Qed.
#[export] Instance mem_creates_role_laws : CreatesLaws access Role.
Proof. intros x s s' r [= <- <-]. exists (1 + foldr Z.max 0 (Role.ID <$> a_roles s)). split; [apply above_max|done]. Qed.
#[export] Instance mem_creates_api_laws : CreatesLaws access Permission.
Proof. intros x s s' r [= <- <-]. exists (1 + foldr Z.max 0 (Permission.ID <$> a_perms s)). split; [apply above_max|done]. Qed.

Definition demo_ops : list admin_op :=
  [OpCreateRole (CreateRoleRequest.mkCreateRoleRequest "guest" (Some 1) "g2");
   OpCreateRole (CreateRoleRequest.mkCreateRoleRequest "auditor" (Some 1) "audit");
   OpUpdateRole 0 (UpdateRoleRequest.mkUpdateRoleRequest 1 "auditor" None "");
   OpUpdateAPI 0 (UpdateAPIRequest.mkUpdateAPIRequest 1 "" "" "cloud:file:root:read" "" None "" "" None);
   OpDeleteRole 2].

Lemma demo_unique :
  unique_by String.eqb Role.Name (a_roles demo_access) ∧
  unique_by String.eqb Permission.Slug (a_perms demo_access).
Proof.
  split; intros a b; rewrite !list_elem_of_In; cbn; intros [<-|[<-|[]]] [<-|[<-|[]]]; cbn; done.
Qed.

(** Of five requests the first, the third and the fourth are refused. *)
Lemma admin_tables_stay_unique_witness :
  (is_ok <$> (for_collect demo_ops (run_admin (S := access) String.eqb (λ _, false)) demo_access).2) =
    [false; true; false; false; true] ∧
  unique_by String.eqb Role.Name
    (a_roles (for_collect demo_ops (run_admin (S := access) String.eqb (λ _, false)) demo_access).1).
Proof.
  split; [vm_compute; reflexivity|].
  destruct (admin_tables_stay_unique (S := access) String.eqb String.eqb_sym (λ _, false) demo_ops demo_access)
    as [Hn _]; [exact demo_unique|exact Hn].
Defined.

(** [Create] looks for the slug of the new role among the names: a slug that
    another role has passes the check. *)
Example role_slug_unchecked :
  let '(v, r) := CreateRole (S := access) String.eqb (λ _, false)
    (CreateRoleRequest.mkCreateRoleRequest "visitor" (Some 1) "guest")
    (set_roles [Role.mkRole 2 "Guests" 1 "guest" [] []] demo_access) in
  r = Ok tt ∧ Role.Slug <$> a_roles v = ["guest"; "guest"]%string.
Proof. vm_compute. split; reflexivity. Qed.

(** [Update] of an API does not look at its path. *)
Example api_path_unchecked :
  let '(v, r) := UpdateAPI (S := access) String.eqb 0
    (UpdateAPIRequest.mkUpdateAPIRequest 1 "" "" "" "" None "" "/x" None) demo_access in
  r = Ok tt ∧ Permission.HttpPath <$> a_perms v = ["/x"; "/api/v1/jobs"]%string.
Proof. vm_compute. split; reflexivity. Qed.

Definition demo_page_access : access :=
  mkAccess [] [demo_role 1 1 "operator"]
    [Permission.mkPermission 1 "list" "Jobs" "job:list" "" 1 "GET" "/api/v1/jobs" 1;
     Permission.mkPermission 2 "log" "Logs" "log:list" "" 1 "GET" "/api/v1/logs" 2;
     Permission.mkPermission 3 "new" "Jobs" "job:new" "" 1 "POST" "/api/v1/jobs" 3;
     Permission.mkPermission 4 "old" "Jobs" "job:old" "" 0 "POST" "/api/v1/old" 4]
    [Menu.mkMenu 1 0 0 0 "Jobs" "menu" 1 1 "" ""] [] [(1, 3)] [(1, 1)].
Definition demo_role_page :=
  GetRolePermissionByID (S := access) map_to_list 1 demo_page_access.
Definition demo_groups : list ApiPermissionGroupRes :=
  match demo_role_page.2 with Ok (_, g) => g | Err _ => [] end.

(** The category with a menu comes first; permission 3 is checked, the
    disabled permission 4 is not shown. *)
Lemma GetRolePermissionByID_groups_witness :
  ((λ g, (ag_Category g, (λ p, (ApiPermissionRes.ID p, ApiPermissionRes.Checked p)) <$> ag_List g)) <$> demo_groups)
    = [("Jobs", [(1, false); (3, true)]); ("Logs", [(2, false)])]%string ∧
  NoDup (ag_Category <$> demo_groups).
Proof.
  split; [vm_compute; reflexivity|].
  destruct (GetRolePermissionByID_groups (S := access) map_to_list (λ g, reflexivity _) 1 demo_page_access
    demo_role_page.1 (buildMenuTree (a_menus demo_page_access) (in_ids [1])) demo_groups)
    as (_ & perms & checked & _ & Hg & _); [vm_compute; reflexivity|].
  exact (gr_unique _ _ _ _ Hg).
Defined.
