(* ===== verification/QueueSpec.v ===== *)
(** * The waiting queue as an abstract priority queue

    What internal/service/queue_service.go promises to the services that use
    it: jobs are served by priority, and within a priority in the order of
    their arrival.  The specification is a list of jobs with their priorities
    in the order of service; the sorted set of Redis with its scores
    implements it.  [MoveBefore] breaks the order on purpose and has its own
    theorems in [Queue]. *)

From S2P Require Import Prelude GoStrings Float64 Entity External MemBackend Gpu JobRepo Queue.

Open Scope Z_scope.

(** ** Specification *)

(** Job and priority, the next one first. *)
Notation aqueue := (list (Z * Z)).

Fixpoint a_insert (x : Z * Z) (l : aqueue) : aqueue :=
  match l with
  | [] => [x]
  | y :: l' => if x.2 <=? y.2 then y :: a_insert x l' else x :: l
  end.
Definition a_remove (j : Z) (l : aqueue) : aqueue := List.filter (λ x, negb (x.1 =? j)) l.
Definition a_peek (l : aqueue) : option Z := fst <$> head l.
Fixpoint a_index (j : Z) (l : aqueue) : option Z :=
  match l with
  | [] => None
  | x :: l' => if x.1 =? j then Some 0 else Z.succ <$> a_index j l'
  end.

Inductive q_op : Type :=
  | QEnqueue (j p : Z)
  | QRemove (j : Z)
  | QPeek
  | QFront (j : Z).
Inductive q_ans : Type :=
  | ADone
  | AJob (j : option Z)
  | ACount (n : Z).

Definition spec_q (op : q_op) (l : aqueue) : aqueue * q_ans :=
  match op with
  | QEnqueue j p => (a_insert (j, p) (a_remove j l), ADone)
  | QRemove j => (a_remove j l, ADone)
  | QPeek => (l, AJob (a_peek l))
  | QFront j => (l, ACount (default (-1) (a_index j l)))
  end.

(** The answers a list of requests may get: those of the specification, or an
    error that leaves the queue as it was. *)
Fixpoint spec_trace (ops : list q_op) (l : aqueue) (rs : list (result q_ans)) (l' : aqueue) : Prop :=
  match ops, rs with
  | [], [] => l' = l
  | op :: ops, Ok a :: rs => a = (spec_q op l).2 ∧ spec_trace ops (spec_q op l).1 rs l'
  | _ :: ops, Err _ :: rs => spec_trace ops l rs l'
  | _, _ => False
  end.

(** Ids of jobs and priorities as the job service uses them. *)
Definition op_ok (op : q_op) : Prop :=
  match op with
  | QEnqueue j p => 0 < j ≤ max_int64 ∧ 0 ≤ p ≤ MaxPriority
  | _ => True
  end.

(** ** Implementation *)

Section Implementation.
Context `{B : Backend}.
Definition run_q (op : q_op) : M World (result q_ans) :=
  match op with
  | QEnqueue j p => r ← Enqueue j p; mret (match r with Ok _ => Ok ADone | Err e => Err e end)
  | QRemove j => r ← Remove j; mret (match r with Ok _ => Ok ADone | Err e => Err e end)
  | QPeek => r ← Peek; mret (match r with Ok o => Ok (AJob (Item.JobID <$> o)) | Err e => Err e end)
  | QFront j => r ← GetFrontCount j; mret (match r with Ok n => Ok (ACount n) | Err e => Err e end)
  end.
End Implementation.

(** ** Tickets *)

(** An entry with the sequence number it was given. *)
Notation ticket := (Z * Z * Z)%type.
Definition t_job (t : ticket) : Z := t.1.1.
Definition t_prio (t : ticket) : Z := t.1.2.
Definition t_seq (t : ticket) : Z := t.2.
Definition entry (t : ticket) : string * float64 := (Itoa (t_job t), enqueue_score (t_prio t) (t_seq t)).
Definition t_lt (a b : ticket) : Prop :=
  t_prio b < t_prio a ∨ t_prio a = t_prio b ∧ t_seq a < t_seq b.
Definition t_ok (n : Z) (t : ticket) : Prop :=
  0 < t_job t ≤ max_int64 ∧ 0 ≤ t_prio t ≤ MaxPriority ∧ 1 ≤ t_seq t ≤ n.

Fixpoint t_insert (x : ticket) (l : list ticket) : list ticket :=
  match l with
  | [] => [x]
  | y :: l' => if t_prio x <=? t_prio y then y :: t_insert x l' else x :: l
  end.
Definition t_remove (j : Z) (l : list ticket) : list ticket := List.filter (λ t, negb (t_job t =? j)) l.

Lemma t_insert_spec x l : fst <$> t_insert x l = a_insert x.1 (fst <$> l).
Proof.
  induction l as [|y l IH]; [done|]. cbn. unfold t_prio. destruct (x.1.2 <=? y.1.2); cbn; [by rewrite IH|done].
Qed.
Lemma t_remove_spec j l : fst <$> t_remove j l = a_remove j (fst <$> l).
Proof.
  unfold t_remove, a_remove in *. induction l as [|y l IH]; [done|].
  cbn. unfold t_job at 1. destruct (y.1.1 =? j); cbn; by rewrite IH.
Qed.
Lemma t_insert_perm x l : t_insert x l ≡ₚ x :: l.
Proof.
  induction l as [|y l IH]; [done|]. cbn. case_match; [|done]. rewrite IH. apply Permutation_swap.
Qed.
Lemma t_remove_elem j l t : t ∈ t_remove j l ↔ t ∈ l ∧ t_job t ≠ j.
Proof.
  unfold t_remove. rewrite !list_elem_of_In, filter_In, negb_true_iff, Z.eqb_neq. done.
Qed.

Lemma t_insert_sorted x l n :
  Forall (t_ok n) l → n < t_seq x → StronglySorted t_lt l → StronglySorted t_lt (t_insert x l).
Proof.
  intros Hok Hn HS. induction HS as [|y l HS IH HF]; cbn; [by repeat constructor|].
  apply Forall_cons in Hok as [Hy Hok]. destruct (Z.leb_spec (t_prio x) (t_prio y)) as [Hp|Hp].
  - constructor; [by apply IH|]. rewrite t_insert_perm. constructor; [|done].
    unfold t_lt. destruct Hy as (_ & _ & Hs). lia.
  - constructor; [by constructor|]. constructor; [by left|]. eapply Forall_impl; [exact HF|].
    unfold t_lt. intros z Hz. lia.
Qed.
Lemma t_remove_sorted j l : StronglySorted t_lt l → StronglySorted t_lt (t_remove j l).
Proof.
  induction 1 as [|y l HS IH HF]; cbn; [constructor|]. case_match; [|done]. constructor; [done|].
  apply Forall_forall. intros t [Ht _]%(t_remove_elem j l t). rewrite Forall_forall in HF. by apply HF.
Qed.

Lemma entry_sorted l n :
  n ≤ PriorityGap → Forall (t_ok n) l → StronglySorted t_lt l → StronglySorted zle (entry <$> l).
Proof.
  intros Hn Hok HS. induction HS as [|y l HS IH HF]; cbn; [constructor|].
  apply Forall_cons in Hok as [Hy Hok]. constructor; [by apply IH|]. apply Forall_fmap, Forall_forall.
  intros t Ht. rewrite Forall_forall in HF, Hok. specialize (HF t Ht). specialize (Hok t Ht). left. cbn.
  destruct Hy as (_ & ? & ?), Hok as (_ & ? & ?). apply enqueue_score_lt; [lia..|]. unfold t_lt in HF. lia.
Qed.

Lemma entry_NoDup l : NoDup (t_job <$> l) → NoDup (entry <$> l).*1.
Proof.
  intros H. rewrite <- list_fmap_compose. change (NoDup ((λ t, Itoa (t_job t)) <$> l)).
  rewrite (list_fmap_compose t_job Itoa). by apply NoDup_fmap_2; [apply _|].
Qed.

Section Refinement.
Context `{B : Backend} {BL : BackendLaws B}.

(** The queue in Redis holds exactly the entries of the list, with sequence
    numbers that were given out in the order of service. *)
Definition refines (l : aqueue) (w : World) : Prop :=
  ∃ t, l = fst <$> t ∧ queue_of w = list_to_map (entry <$> t) ∧
    StronglySorted t_lt t ∧ NoDup (t_job <$> t) ∧ Forall (t_ok (seq_of w)) t ∧ 0 ≤ seq_of w.

Lemma refines_order t w :
  queue_of w = list_to_map (entry <$> t) → StronglySorted t_lt t → NoDup (t_job <$> t) →
  Forall (t_ok (seq_of w)) t → seq_of w ≤ PriorityGap → zsort (queue_of w) = entry <$> t.
Proof.
  intros Hq HS Hnd Hok Hb. apply (StronglySorted_unique zle); [apply zsort_sorted|by eapply entry_sorted|].
  rewrite zsort_perm, Hq. apply map_to_list_to_map. by apply entry_NoDup.
Qed.

(** Redis without one of the entries. *)
Lemma remove_entry j t :
  NoDup (t_job <$> t) →
  delete (Itoa j) (list_to_map (entry <$> t) : gmap string float64) = list_to_map (entry <$> t_remove j t).
Proof.
  induction t as [|x t IH]; intros Hnd; cbn; [apply delete_empty|].
  apply NoDup_cons in Hnd as [Hx Hnd]. destruct (Z.eqb_spec (t_job x) j) as [<-|Hne]; cbn.
  - rewrite delete_insert_eq, IH by done. done.
  - rewrite delete_insert_ne by (intros E; apply Hne; by apply (inj Itoa)). by rewrite IH.
Qed.

Lemma remove_jobs j t : NoDup (t_job <$> t) → NoDup (t_job <$> t_remove j t) ∧ j ∉ t_job <$> t_remove j t.
Proof.
  intros Hnd. split.
  - eapply sublist_NoDup; [exact Hnd|]. apply fmap_sublist. clear. unfold t_remove.
    induction t as [|x t IH]; cbn; [constructor|]. case_match; by constructor.
  - intros (x & -> & Hx)%list_elem_of_fmap. by apply t_remove_elem in Hx as [_ ?].
Qed.

Lemma Enqueue_seq j p w w' r : Enqueue j p w = (w', r) → seq_of w ≤ seq_of w' ≤ seq_of w + 1.
Proof.
  unfold Enqueue, NextSeq. intros H. w_inv.
  - pose proof (rd_incr_ok _ _ _ _ E0) as Hn. apply rd_incr_spec in E0.
    apply repo_Add_post in H as (_ & Hs & _). unfold seq_of, redis_of in *. cbn in *. rewrite E0 in Hs.
    rewrite nget_nput in Hs. lia.
  - apply rd_incr_spec in E0. unfold seq_of, redis_of. cbn. rewrite E0. lia.
Qed.

Lemma t_ok_mono n n' t : n ≤ n' → t_ok n t → t_ok n' t.
Proof. unfold t_ok. lia. Qed.

Lemma refines_same l w w' :
  queue_of w' = queue_of w → seq_of w ≤ seq_of w' → refines l w → refines l w'.
Proof.
  intros Hq Hs (t & -> & Ht & HS & Hnd & Hok & H0). exists t. split_and!; [done|congruence|done|done| |lia].
  eapply Forall_impl; [exact Hok|]. intros x. by apply t_ok_mono.
Qed.

Lemma Enqueue_refines j p l w w' :
  refines l w → op_ok (QEnqueue j p) → Enqueue j p w = (w', Ok tt) →
  refines (a_insert (j, p) (a_remove j l)) w'.
Proof.
  intros (t & -> & Hq & HS & Hnd & Hok & H0) [Hj Hp] E. pose proof (Enqueue_seq _ _ _ _ _ E) as Hs.
  apply Enqueue_post in E as (_ & _ & Hseq & Hz). destruct (remove_jobs j t Hnd) as [Hnd' Hni].
  assert (Forall (t_ok (seq_of w)) (t_remove j t)) as Hok'.
  { apply Forall_forall. intros x [Hx _]%t_remove_elem. rewrite Forall_forall in Hok. by apply Hok. }
  exists (t_insert (j, p, seq_of w + 1) (t_remove j t)). split_and!.
  - by rewrite t_insert_spec, t_remove_spec.
  - rewrite (list_to_map_proper _ (entry <$> ((j, p, seq_of w + 1) :: t_remove j t))).
    + rewrite Hz, Hq. cbn. rewrite <- remove_entry by done. by rewrite insert_delete_eq.
    + apply entry_NoDup. rewrite t_insert_perm. by constructor.
    + by rewrite t_insert_perm.
  - eapply t_insert_sorted; [exact Hok'|cbn; lia|by apply t_remove_sorted].
  - rewrite t_insert_perm. by constructor.
  - rewrite t_insert_perm, Hseq. constructor; [unfold t_ok; cbn; lia|].
    eapply Forall_impl; [exact Hok'|]. intros x. apply t_ok_mono. lia.
  - lia.
Qed.

Lemma Remove_seq j w w' r : Remove j w = (w', r) → seq_of w' = seq_of w.
Proof.
  unfold Remove, repo_Remove. intros E. w_inv. apply rd_zrem_spec in E0. unfold seq_of, redis_of. cbn. rewrite E0.
  by destruct r.
Qed.

Lemma Remove_refines j l w w' r :
  refines l w → Remove j w = (w', r) → refines (if is_ok r then a_remove j l else l) w'.
Proof.
  intros HR E. pose proof (Remove_seq _ _ _ _ E) as Hs. apply Remove_post in E.
  destruct (is_ok r); [|by apply (refines_same l w); [done|lia|done]].
  destruct HR as (t & -> & Hq & HS & Hnd & Hok & H0). exists (t_remove j t). split_and!.
  - by rewrite t_remove_spec.
  - rewrite E, Hq. by apply remove_entry.
  - by apply t_remove_sorted.
  - by apply remove_jobs.
  - rewrite Hs. apply Forall_forall. intros x [Hx _]%t_remove_elem. rewrite Forall_forall in Hok. by apply Hok.
  - lia.
Qed.

Lemma Peek_keeps : keeps redis_of Peek.
Proof. unfold Peek. pose proof (proj1 repo_Peek_keeps). solve_keeps. Qed.

Lemma Peek_refines l w w' o :
  refines l w → seq_of w ≤ PriorityGap → Peek w = (w', Ok o) → Item.JobID <$> o = a_peek l.
Proof.
  intros (t & -> & Hq & HS & Hnd & Hok & _) Hb E. unfold Peek in E. open_bind E as w1 r E1.
  destruct r as [[i sc]|]; [|by injection E]. apply repo_Peek_ok in E1.
  rewrite (refines_order t) in E1 by done. destruct t as [|x t]; cbn in E1.
  { destruct E1 as [-> ->]. cbn in E. by injection E as _ <-. }
  apply Forall_cons in Hok as [(Hj & _) _]. destruct E1 as [E1 _]. rewrite Atoi_Itoa in E1.
  2:{ apply in_int64_spec. unfold min_int64. lia. }
  injection E1 as <-. destruct (Z.eqb_spec (t_job x) 0); [lia|]. by injection E as _ <-.
Qed.

Lemma rank_index j t : rank_of (Itoa j) (entry <$> t) = a_index j (fst <$> t).
Proof.
  induction t as [|x t IH]; [done|]. cbn. rewrite IH. unfold t_job. case_decide as Hj.
  - apply (inj Itoa) in Hj as ->. by rewrite Z.eqb_refl.
  - destruct (Z.eqb_spec x.1.1 j) as [<-|]; [done|]. done.
Qed.

Lemma GetFrontCount_keeps j : keeps redis_of (GetFrontCount j).
Proof. unfold GetFrontCount. solve_keeps. Qed.

Lemma GetFrontCount_refines j l w w' n :
  refines l w → seq_of w ≤ PriorityGap → GetFrontCount j w = (w', Ok n) → n = default (-1) (a_index j l).
Proof.
  intros (t & -> & Hq & HS & Hnd & Hok & _) Hb E. unfold GetFrontCount in E. open_bind E as w1 r E1.
  rewrite <- rank_index, <- (refines_order t w) by done. destruct r as [k|e].
  - injection E as <- <-. apply Rank_ok in E1. by rewrite E1.
  - destruct e; try (by injection E). injection E as <- <-. unfold Rank in E1. w_inv. apply rd_zrank_nil in E.
    destruct (rank_of (Itoa j) (zsort (queue_of w))) eqn:Er; [|done].
    assert (is_Some (queue_of w !! Itoa j)) as [x Hx] by (apply rank_of_is_Some; by rewrite Er).
    unfold queue_of, redis_of in Hx. congruence.
Qed.

Lemma redis_refines l w w' : redis_of w' = redis_of w → refines l w → refines l w'.
Proof. intros Hr. unfold refines, queue_of, seq_of. by rewrite Hr. Qed.

(** One request. *)
Lemma run_q_refines op l w w' r :
  refines l w → op_ok op → seq_of w < PriorityGap → run_q op w = (w', r) →
  match r with
  | Ok a => a = (spec_q op l).2 ∧ refines (spec_q op l).1 w'
  | Err _ => refines l w'
  end ∧ seq_of w' ≤ seq_of w + 1.
Proof.
  intros HR Hop Hb E. destruct op as [j p|j| |j]; cbn in E; open_bind E as w1 a E1; injection E as <- <-.
  - pose proof (Enqueue_seq _ _ _ _ _ E1) as Hs. split; [|lia]. destruct a as [[]|e].
    + split; [done|]. by eapply Enqueue_refines.
    + apply Enqueue_post in E1 as (_ & _ & Hq). by apply (refines_same l w); [|lia|].
  - split; [apply (Remove_refines j l) in E1; [|done]; by destruct a|]. apply Remove_seq in E1. lia.
  - pose proof (Peek_keeps _ _ _ E1) as Hk. split; [|unfold seq_of; rewrite Hk; lia]. destruct a as [o|e].
    + split; [cbn; f_equal; eapply Peek_refines; [exact HR|lia|exact E1]|by eapply redis_refines].
    + by eapply redis_refines.
  - pose proof (GetFrontCount_keeps _ _ _ _ E1) as Hk. split; [|unfold seq_of; rewrite Hk; lia]. destruct a as [n|e].
    + split; [cbn; f_equal; eapply GetFrontCount_refines; [exact HR|lia|exact E1]|by eapply redis_refines].
    + by eapply redis_refines.
Qed.

(** C3: The queue service refines the abstract priority queue.  Whatever sequence
    of enqueue, remove, peek and front-count requests is made, from a queue that
    represents a list, with positive ids and priorities from 0 to [MaxPriority],
    as long as at most 10^9 sequence numbers are used, every request that succeeds
    answers as the specification does on the list of waiting jobs, every
    request that fails leaves the list as it was, and the sorted set goes on
    representing the list. *)
Theorem queue_refines_spec (ops : list q_op) l w
  (HR : refines l w) (Hops : Forall op_ok ops) (Hb : seq_of w + Z.of_nat (length ops) ≤ PriorityGap) :
  ∃ l', spec_trace ops l (for_collect ops run_q w).2 l' ∧ refines l' (for_collect ops run_q w).1.
Proof.
  revert l w HR Hb. induction Hops as [|op ops Hop Hops IH]; intros l w HR Hb; [by exists l|].
  cbn [for_collect]. unfold mbind, M_bind, mret, M_ret. destruct (run_q op w) as [w1 r] eqn:E.
  cbn [length] in Hb. apply (run_q_refines op l) in E as [Hr Hs]; [|done|done|lia].
  assert (refines (if is_ok r then (spec_q op l).1 else l) w1) as HR1 by (destruct r; [by destruct Hr|done]).
  destruct (IH _ w1 HR1) as (l' & Ht & HR'); [lia|]. exists l'.
  destruct (for_collect ops run_q w1) as [w2 rs]. cbn in *. destruct r as [a|e]; cbn in Ht; [|done].
  destruct Hr as [-> _]. done.
Qed.
End Refinement.

(** ** An example *)

(** Jobs 1 to 4 wait; a job of high priority overtakes them, job 2 leaves, and
    job 1 comes again: the answers are those of the list. *)
Definition demo_requests : list q_op := [QEnqueue 9 JobPriorityHigh; QPeek; QRemove 2; QEnqueue 1 JobPriorityLow; QFront 1].
Definition demo_waiting : aqueue := (λ j, (j, JobPriorityLow)) <$> [1; 2; 3; 4].

Lemma demo_refines : refines demo_waiting demo_queue_world.
Proof.
  exists ((λ j, (j, JobPriorityLow, j)) <$> [1; 2; 3; 4]). split_and!; [done|vm_compute; reflexivity| | | |vm_compute; discriminate].
  - repeat (constructor; [|repeat constructor; right; vm_compute; done]). constructor.
  - by apply (bool_decide_unpack _).
  - change (seq_of demo_queue_world) with 4. cbn. unfold t_ok, t_job, t_prio, t_seq, max_int64, MaxPriority.
    repeat (constructor; [cbn; unfold JobPriorityLow; lia|]). constructor.
Qed.

Lemma queue_refines_spec_witness :
  (for_collect demo_requests run_q demo_queue_world).2 =
    [Ok ADone; Ok (AJob (Some 9)); Ok ADone; Ok ADone; Ok (ACount 3)] ∧
  ∃ l', spec_trace demo_requests demo_waiting (for_collect demo_requests run_q demo_queue_world).2 l' ∧
        refines l' (for_collect demo_requests run_q demo_queue_world).1.
Proof.
  split; [vm_compute; reflexivity|].
  apply (queue_refines_spec demo_requests demo_waiting demo_queue_world); [exact demo_refines| |].
  - repeat constructor; cbn; unfold max_int64, JobPriorityHigh, JobPriorityLow, MaxPriority; lia.
  - change (seq_of demo_queue_world) with 4. unfold PriorityGap. cbn. lia.
Defined.
