(* ===== verification/QueueConc.v ===== *)
(** * Submissions that overlap

    [Enqueue] of internal/service/queue_service.go is two Redis commands: the
    next sequence number, then the entry.  Several requests, on several servers,
    may be between the two at once.  Here every call is a thread and every
    command a step; removals by the scheduler and by users come in between, and
    so do the commands of others on the rest of Redis ([qs_other]). *)

From S2P Require Import Prelude GoStrings Float64 Entity External MemBackend Gpu JobRepo Queue QueueSpec.

Open Scope Z_scope.

Section Threads.
Context `{B : Backend}.

(** Where a call of [Enqueue] is: before [NextSeq]; with its number, before
    [Add]; returned, nil or an error of [Add]; returned with an error of
    [NextSeq]. *)
Inductive call_pc : Type :=
  | Calling
  | Numbered (seq : Z)
  | Returned (seq : Z) (ok : bool)
  | NoNumber.
(** The arguments; [c_after]: the calls that had returned when this one began. *)
Record call : Type := mkCall { c_job : Z; c_prio : Z; c_after : gset nat; c_pc : call_pc }.
Definition set_pc (pc : call_pc) (c : call) : call := mkCall (c_job c) (c_prio c) (c_after c) pc.
(** [q_gone]: the jobs of which a removal succeeded; [q_left]: the calls that had
    returned when a removal of their job succeeded. *)
Record qsys : Type := mkQsys { q_world : World; q_calls : gmap nat call; q_gone : gset Z; q_left : gset nat }.

Definition returned (c : call) : Prop := match c_pc c with Returned _ _ | NoNumber => True | _ => False end.
#[export] Instance returned_dec c : Decision (returned c).
Proof. unfold returned. destruct (c_pc c); apply _. Defined.
Definition returned_calls (m : gmap nat call) : gset nat := dom (filter (λ x, returned x.2) m).
Definition ended_calls (j : Z) (m : gmap nat call) : gset nat := dom (filter (λ x, c_job x.2 = j ∧ returned x.2) m).

(** The command a call sends next, and what the call becomes. *)
Definition command (c : call) : M World (option call) :=
  match c_pc c with
  | Calling =>
      r ← NextSeq;
      mret (Some (set_pc (match r with Err _ => NoNumber | Ok seq => Numbered seq end) c))
  | Numbered seq =>
      r ← repo_Add (c_job c) (enqueue_score (c_prio c) seq);
      mret (Some (set_pc (Returned seq (is_ok r)) c))
  | _ => mret None
  end.

(** A job is put into the queue by one call: its id is new. *)
Inductive qs_step (s : qsys) : qsys → Prop :=
  | qs_call i j p :
      q_calls s !! i = None → (∀ k c, q_calls s !! k = Some c → c_job c ≠ j) →
      0 < j ≤ max_int64 → 0 ≤ p ≤ MaxPriority →
      qs_step s (mkQsys (q_world s)
        (<[i := mkCall j p (returned_calls (q_calls s)) Calling]> (q_calls s)) (q_gone s) (q_left s))
  | qs_command i c w c' :
      q_calls s !! i = Some c → command c (q_world s) = (w, Some c') →
      qs_step s (mkQsys w (<[i := c']> (q_calls s)) (q_gone s) (q_left s))
  | qs_remove j w r :
      Remove j (q_world s) = (w, r) →
      qs_step s (if is_ok r
                 then mkQsys w (q_calls s) ({[j]} ∪ q_gone s) (ended_calls j (q_calls s) ∪ q_left s)
                 else mkQsys w (q_calls s) (q_gone s) (q_left s))
  | qs_other w :
      queue_of w = queue_of (q_world s) → seq_of w = seq_of (q_world s) →
      qs_step s (mkQsys w (q_calls s) (q_gone s) (q_left s)).
Definition qs_start (w : World) : qsys := mkQsys w ∅ ∅ ∅.
End Threads.

(** With nothing in between the two commands are [Enqueue]. *)
Lemma commands_are_Enqueue `{B : Backend} j p after w w' r :
  Enqueue j p w = (w', r) →
  match command (mkCall j p after Calling) w with
  | (w1, Some c1) =>
      match command c1 w1 with
      | (w2, Some c2) => w2 = w' ∧ ∃ n, c_pc c2 = Returned n (is_ok r)
      | (w2, None) => w2 = w' ∧ c_pc c1 = NoNumber ∧ is_ok r = false
      end
  | _ => False
  end.
Proof.
  unfold Enqueue, command. cbn. unfold mbind, M_bind. destruct (NextSeq w) as [w1 [n|e]]; cbn.
  - unfold mret, M_ret. cbn. destruct (repo_Add j (enqueue_score p n) w1) as [w2 x]. intros [= <- <-].
    split; [done|]. by exists n.
  - by intros [= <- <-].
Qed.

Section FirstCome.
Context `{B : Backend} {BL : BackendLaws B}.

Definition number_of (c : call) : option Z :=
  match c_pc c with Numbered n => Some n | Returned n _ => Some n | _ => None end.

(** Numbers are given out once, in the order of the calls that do not overlap. *)
Definition numbers_ok (s : qsys) : Prop :=
  (∀ i c, q_calls s !! i = Some c → 0 < c_job c ≤ max_int64 ∧ 0 ≤ c_prio c ≤ MaxPriority ∧
     ∀ n, number_of c = Some n → 1 ≤ n ≤ seq_of (q_world s)) ∧
  (∀ i k c c', q_calls s !! i = Some c → q_calls s !! k = Some c' → c_job c = c_job c' → i = k) ∧
  (∀ k c i n, q_calls s !! k = Some c → i ∈ c_after c → number_of c = Some n →
     ∃ c', q_calls s !! i = Some c' ∧ returned c' ∧ ∀ n', number_of c' = Some n' → n' < n) ∧
  (∀ k c i, q_calls s !! k = Some c → i ∈ c_after c → ∃ c', q_calls s !! i = Some c' ∧ returned c').

(** Every entry is that of a call that returned, and no entry of such a call is
    lost unless its job was removed. *)
Definition entries_ok (s : qsys) : Prop :=
  (∀ m sc, queue_of (q_world s) !! m = Some sc → ∃ i c n, q_calls s !! i = Some c ∧
     c_pc c = Returned n true ∧ m = Itoa (c_job c) ∧ sc = enqueue_score (c_prio c) n) ∧
  (∀ i c n, q_calls s !! i = Some c → c_pc c = Returned n true → c_job c ∉ q_gone s →
     queue_of (q_world s) !! Itoa (c_job c) = Some (enqueue_score (c_prio c) n)).

(** A job that was removed after its submission stays out of the queue. *)
Definition left_ok (s : qsys) : Prop :=
  ∀ i, i ∈ q_left s → ∃ c, q_calls s !! i = Some c ∧ returned c ∧ queue_of (q_world s) !! Itoa (c_job c) = None.

Definition qs_ok (s : qsys) : Prop := numbers_ok s ∧ entries_ok s ∧ left_ok s ∧ 0 ≤ seq_of (q_world s).

Lemma NextSeq_post w w' r :
  NextSeq w = (w', r) → queue_of w' = queue_of w ∧
  match r with Ok n => n = seq_of w + 1 ∧ seq_of w' = n | Err _ => seq_of w' = seq_of w end.
Proof.
  unfold NextSeq. intros H. w_inv. pose proof (rd_incr_spec _ _ _ _ E) as Hv.
  unfold queue_of, seq_of, redis_of. cbn. rewrite Hv. destruct r as [n|e]; [|done]. split; [done|].
  rewrite nget_nput. split; [|done]. by apply rd_incr_ok in E.
Qed.

Lemma returned_calls_elem (m : gmap nat call) i : i ∈ returned_calls m → ∃ c, m !! i = Some c ∧ returned c.
Proof.
  unfold returned_calls. intros [c Hc]%elem_of_dom. apply map_lookup_filter_Some in Hc as [? ?]. by exists c.
Qed.

Lemma numbers_upd s i c c' w g o :
  numbers_ok s → q_calls s !! i = Some c → ¬ returned c →
  c_job c' = c_job c → c_prio c' = c_prio c → c_after c' = c_after c →
  seq_of (q_world s) ≤ seq_of w → 0 ≤ seq_of (q_world s) →
  (∀ n, number_of c' = Some n → number_of c = Some n ∨ n = seq_of (q_world s) + 1 ∧ n ≤ seq_of w) →
  numbers_ok (mkQsys w (<[i := c']> (q_calls s)) g o).
Proof.
  intros (H1 & H2 & H3 & H4) Hi Hr Ej Ep Ea Hs H0 Hn.
  assert (∀ k d, <[i := c']> (q_calls s) !! k = Some d →
    ∃ d0, q_calls s !! k = Some d0 ∧ c_job d = c_job d0 ∧ c_prio d = c_prio d0 ∧ c_after d = c_after d0 ∧
      (k = i ∧ d = c' ∧ d0 = c ∨ k ≠ i ∧ d = d0)) as Hold.
  { intros k d Hk. destruct (decide (k = i)) as [->|Hne].
    - rewrite lookup_insert_eq in Hk. injection Hk as <-. exists c. split_and!; auto.
    - rewrite lookup_insert_ne in Hk by done. exists d. split_and!; auto. }
  assert (∀ k d0, q_calls s !! k = Some d0 → returned d0 → <[i := c']> (q_calls s) !! k = Some d0) as Hkeep.
  { intros k d0 Hk Hd. rewrite lookup_insert_ne; [done|]. intros <-. rewrite Hi in Hk. by injection Hk as <-. }
  split_and!; cbn.
  - intros k d (d0 & Hk & Ej' & Ep' & _ & Hd)%Hold. destruct (H1 k d0 Hk) as (B1 & B2 & B3).
    rewrite Ej', Ep'. split; [exact B1|]. split; [exact B2|]. intros n Hnn.
    destruct Hd as [(-> & -> & ->)|[_ ->]]; [destruct (Hn n Hnn) as [Hc|[-> ?]]|]; [|lia|].
    + specialize (B3 n Hc). lia.
    + specialize (B3 n Hnn). lia.
  - intros k l d e (d0 & Hk & -> & _)%Hold (e0 & Hl & -> & _)%Hold. by apply H2.
  - intros k d l n (d0 & Hk & _ & _ & -> & Hd)%Hold Hl Hnn.
    destruct Hd as [(-> & -> & ->)|[_ ->]]; [destruct (Hn n Hnn) as [Hc|[-> Hle]]|].
    + destruct (H3 _ _ _ _ Hk Hl Hc) as (x & Hx & Hxr & Hxn). exists x. split_and!; auto.
    + destruct (H4 _ _ _ Hk Hl) as (x & Hx & Hxr). exists x. split_and!; [auto..|].
      intros n' Hn'. destruct (H1 _ _ Hx) as (_ & _ & B3). specialize (B3 _ Hn'). lia.
    + destruct (H3 _ _ _ _ Hk Hl Hnn) as (x & Hx & Hxr & Hxn). exists x. split_and!; auto.
  - intros k d l (d0 & Hk & _ & _ & -> & _)%Hold Hl. destruct (H4 _ _ _ Hk Hl) as (x & Hx & Hxr). eauto.
Qed.

Lemma numbers_call s i j p :
  numbers_ok s → q_calls s !! i = None → (∀ k c, q_calls s !! k = Some c → c_job c ≠ j) →
  0 < j ≤ max_int64 → 0 ≤ p ≤ MaxPriority →
  numbers_ok (mkQsys (q_world s) (<[i := mkCall j p (returned_calls (q_calls s)) Calling]> (q_calls s)) (q_gone s) (q_left s)).
Proof.
  intros (H1 & H2 & H3 & H4) Hi Hj Bj Bp.
  assert (∀ k d, q_calls s !! k = Some d → <[i := mkCall j p (returned_calls (q_calls s)) Calling]> (q_calls s) !! k = Some d)
    as Hkeep by (intros k d Hk; rewrite lookup_insert_ne; [done|congruence]).
  split_and!; cbn.
  - intros k c [[<- <-]|[_ Hk]]%lookup_insert_Some; [|by apply (H1 k)].
    split; [exact Bj|]. split; [exact Bp|]. by intros n Hn.
  - intros k l c d [[<- <-]|[_ Hk]]%lookup_insert_Some [[<- <-]|[_ Hl]]%lookup_insert_Some He; [done| | |eauto].
    + by destruct (Hj _ _ Hl).
    + by destruct (Hj _ _ Hk).
  - intros k c l n [[<- <-]|[_ Hk]]%lookup_insert_Some Hl Hn; [done|].
    destruct (H3 _ _ _ _ Hk Hl Hn) as (x & Hx & ? & ?). eauto.
  - intros k c l [[<- <-]|[_ Hk]]%lookup_insert_Some Hl.
    + apply returned_calls_elem in Hl as (x & Hx & ?). eauto.
    + destruct (H4 _ _ _ Hk Hl) as (x & Hx & ?). eauto.
Qed.

(** Entries when the call [i], not yet returned, becomes [c']. *)
Lemma entries_upd s i c c' w :
  entries_ok s → numbers_ok s → q_calls s !! i = Some c → ¬ returned c → c_job c' = c_job c → c_prio c' = c_prio c →
  match c_pc c' with
  | Returned n true => queue_of w = <[Itoa (c_job c) := enqueue_score (c_prio c) n]> (queue_of (q_world s))
  | _ => queue_of w = queue_of (q_world s)
  end → entries_ok (mkQsys w (<[i := c']> (q_calls s)) (q_gone s) (q_left s)).
Proof.
  intros (H1 & H2) (_ & Hjobs & _) Hi Hr Ej Ep Hq.
  assert (∀ k d n b, q_calls s !! k = Some d → c_pc d = Returned n b → k ≠ i) as Hne.
  { intros k d n b Hk Hd ->. rewrite Hi in Hk. injection Hk as <-. apply Hr. unfold returned. by rewrite Hd. }
  split; cbn.
  - intros m sc Hm.
    assert (queue_of (q_world s) !! m = Some sc ∨ ∃ n, c_pc c' = Returned n true ∧ m = Itoa (c_job c) ∧
      sc = enqueue_score (c_prio c) n) as [Hold|(n & Hpc & -> & ->)].
    { destruct (c_pc c') as [|n|n [|]|]; rewrite Hq in Hm; auto.
      apply lookup_insert_Some in Hm as [[<- <-]|[_ Hm]]; eauto. }
    + destruct (H1 _ _ Hold) as (k & d & n & Hk & Hd & -> & ->). exists k, d, n.
      rewrite lookup_insert_ne by (intros ->; by eapply Hne). done.
    + exists i, c', n. rewrite lookup_insert_eq, Ej, Ep. done.
  - intros k d n [[<- <-]|[Hki Hk]]%lookup_insert_Some Hd Hg.
    + rewrite Hd in Hq. rewrite Hq, Ej, Ep. apply lookup_insert_eq.
    + specialize (H2 k d n Hk Hd Hg). destruct (c_pc c') as [|x|x [|]|]; rewrite Hq; try done.
      rewrite lookup_insert_ne; [done|]. intros He%(inj Itoa). apply Hki. symmetry. by eapply Hjobs.
Qed.

(** The same for the jobs that have left: the call that adds an entry is not one
    of theirs. *)
Lemma left_upd s i c c' w :
  left_ok s → numbers_ok s → q_calls s !! i = Some c → ¬ returned c →
  (queue_of w = queue_of (q_world s) ∨ ∃ x, queue_of w = <[Itoa (c_job c) := x]> (queue_of (q_world s))) →
  left_ok (mkQsys w (<[i := c']> (q_calls s)) (q_gone s) (q_left s)).
Proof.
  intros HL (_ & Hjobs & _) Hi Hr Hq k Hk. cbn in *. destruct (HL k Hk) as (d & Hd & Hret & Hn).
  assert (k ≠ i) as Hne by (intros ->; rewrite Hi in Hd; by injection Hd as <-).
  exists d. rewrite lookup_insert_ne by done. split; [done|]. split; [done|].
  destruct Hq as [->|[x ->]]; [done|]. rewrite lookup_insert_ne; [done|].
  intros He%(inj Itoa). apply Hne. by eapply Hjobs.
Qed.

Lemma ended_calls_elem j (m : gmap nat call) i :
  i ∈ ended_calls j m → ∃ c, m !! i = Some c ∧ c_job c = j ∧ returned c.
Proof.
  unfold ended_calls. intros [c Hc]%elem_of_dom. apply map_lookup_filter_Some in Hc as (? & ? & ?). by exists c.
Qed.

Lemma qs_remove_ok s j w r :
  qs_ok s → Remove j (q_world s) = (w, r) →
  qs_ok (if is_ok r
         then mkQsys w (q_calls s) ({[j]} ∪ q_gone s) (ended_calls j (q_calls s) ∪ q_left s)
         else mkQsys w (q_calls s) (q_gone s) (q_left s)).
Proof.
  intros (Hn & [E1 E2] & HL & H0) Hr. pose proof (Remove_seq _ _ _ _ Hr) as Hs. apply Remove_post in Hr.
  destruct (is_ok r).
  - split; [unfold numbers_ok; cbn; rewrite Hs; exact Hn|]. split; [split|split; [|cbn; lia]]; cbn.
    + intros m sc Hm. rewrite Hr in Hm. apply lookup_delete_Some in Hm as [_ Hm]. by apply E1.
    + intros i c n Hi Hc Hg. rewrite Hr, lookup_delete_ne by (intros ->%(inj Itoa); set_solver).
      apply (E2 i c n); set_solver.
    + intros i Hin. cbn in Hin |- *. apply elem_of_union in Hin as [(c & Hc & <- & Hret)%ended_calls_elem|Hi].
      * exists c. rewrite Hr, lookup_delete_eq. done.
      * destruct (HL i Hi) as (c & Hc & Hret & Hno). exists c. split; [done|]. split; [done|].
        rewrite Hr. apply lookup_delete_None. by right.
  - split; [unfold numbers_ok; cbn; rewrite Hs; exact Hn|].
    split; [split; cbn; rewrite Hr; done|]. split; [unfold left_ok; cbn; rewrite Hr; done|cbn; lia].
Qed.

Lemma qs_command_ok s i c w c' :
  qs_ok s → q_calls s !! i = Some c → command c (q_world s) = (w, Some c') →
  qs_ok (mkQsys w (<[i := c']> (q_calls s)) (q_gone s) (q_left s)).
Proof.
  intros (Hn & He & HL & H0) Hi Hc.
  unfold command in Hc. destruct (c_pc c) as [|n|n b|] eqn:Hpc; [| |by injection Hc..].
  - open_bind Hc as w1 r E. apply NextSeq_post in E as [Eq Es]. injection Hc as <- <-.
    assert (¬ returned c) as Hnr by (intros Hret; unfold returned in Hret; by rewrite Hpc in Hret).
    split; [|split; [|split; [|cbn; destruct r; lia]]].
    + eapply numbers_upd; [done|exact Hi|done|done|done|done|destruct r; lia|done|].
      intros n Hnum. unfold number_of in Hnum. destruct r as [m|e]; cbn in Hnum; [|done].
      injection Hnum as <-. right. lia.
    + eapply entries_upd; [done|done|exact Hi|done|done|done|]. cbn. by destruct r.
    + eapply left_upd; [done|done|exact Hi|done|by left].
  - open_bind Hc as w1 r E. apply repo_Add_post in E as (Eq & Es & _). injection Hc as <- <-.
    assert (¬ returned c) as Hnr by (intros Hret; unfold returned in Hret; by rewrite Hpc in Hret).
    split; [|split; [|split; [|cbn; lia]]].
    + eapply numbers_upd; [done|exact Hi|done|done|done|done|lia|done|].
      intros m Hnum. left. unfold number_of in *. cbn in Hnum. by rewrite Hpc.
    + eapply entries_upd; [done|done|exact Hi|done|done|done|]. cbn. by destruct (is_ok r).
    + eapply left_upd; [done|done|exact Hi|done|]. destruct (is_ok r); eauto.
Qed.

Lemma qs_step_ok s s' : qs_step s s' → qs_ok s → qs_ok s'.
Proof.
  intros [i j p Hi Hj Bj Bp|i c w c' Hi Hc|j w r Hr|w Hq Hs] Hok; [|by eapply qs_command_ok|by apply qs_remove_ok|];
    destruct Hok as (Hn & He & HL & H0).
  - split; [by apply numbers_call|]. destruct He as [E1 E2]. split; [split|split; [|done]]; cbn.
    + intros m sc Hm. destruct (E1 m sc Hm) as (k & c & n & Hk & ?). exists k, c, n.
      rewrite lookup_insert_ne; [done|congruence].
    + intros k c n [[<- <-]|[_ Hk]]%lookup_insert_Some Hc; [done|]. eauto.
    + intros k Hk. cbn in Hk |- *. destruct (HL k Hk) as (c & Hc & ?). exists c.
      rewrite lookup_insert_ne; [done|congruence].
  - split; [unfold numbers_ok; cbn; rewrite Hs; exact Hn|].
    destruct He as [E1 E2]. split; [split; cbn; rewrite Hq; done|].
    split; [unfold left_ok; cbn; rewrite Hq; done|cbn; lia].
Qed.

Lemma qs_reachable_ok w s :
  queue_of w = ∅ → 0 ≤ seq_of w → rtc qs_step (qs_start w) s → qs_ok s.
Proof.
  intros Hq H0 Hr. assert (qs_ok (qs_start w)) as Hok.
  { split; [split_and!; cbn; by intros *; rewrite lookup_empty|]. split; [|split; [intros i; cbn; set_solver|done]].
    split; cbn; [rewrite Hq|]; by intros *; rewrite lookup_empty. }
  clear Hq H0. induction Hr; eauto using qs_step_ok.
Qed.

(** One member comes out of the queue before another. *)
Definition served_before (a b : string) (q : gmap string float64) : Prop :=
  ∃ l1 l2 l3 x y, zsort q = l1 ++ (a, x) :: l2 ++ (b, y) :: l3.

Lemma sorted_before q a b x y :
  q !! a = Some x → q !! b = Some y → x < y → served_before a b q.
Proof.
  intros Ha%zsort_lookup Hb%zsort_lookup Hlt. pose proof (zsort_sorted q) as HS. unfold served_before.
  apply list_elem_of_split in Ha as (l1 & l2 & Hl). rewrite Hl in Hb, HS |- *.
  apply elem_of_app in Hb as [Hb|[Hb|Hb]%elem_of_cons].
  - exfalso. apply list_elem_of_split in Hb as (m1 & m2 & ->). rewrite <- app_assoc in HS.
    apply StronglySorted_app_1_r in HS. inversion HS as [|? ? _ HF]; subst.
    rewrite Forall_forall in HF. specialize (HF (a, x) ltac:(set_solver)). unfold zle in HF. cbn in HF.
    destruct HF as [?|[? _]]; lia.
  - injection Hb as <- <-. lia.
  - apply list_elem_of_split in Hb as (m1 & m2 & ->). by exists l1, m1, m2, x, y.
Qed.

(** C4: First come, first served, also when submissions overlap.  From an empty
    queue, for any number of calls of [Enqueue] on any number of servers, each
    for a new positive id with a priority of the range, interleaved command by
    command with each other and with removals, and with any failures, while at
    most 10^9 sequence numbers are used: every entry is that of a call that
    succeeded; a call that succeeded has its entry unless a removal of its job
    succeeded; a job whose removal succeeded after its submission had returned
    is out of the queue and stays out; and a job comes out before every job of a
    lower priority, and before every job of its priority whose submission began
    after its own had ended. *)
Theorem concurrent_first_come w s :
  queue_of w = ∅ → 0 ≤ seq_of w → rtc qs_step (qs_start w) s → seq_of (q_world s) ≤ PriorityGap →
  (∀ m, is_Some (queue_of (q_world s) !! m) →
     ∃ i c n, q_calls s !! i = Some c ∧ c_pc c = Returned n true ∧ m = Itoa (c_job c)) ∧
  (∀ i c n, q_calls s !! i = Some c → c_pc c = Returned n true → c_job c ∉ q_gone s →
     is_Some (queue_of (q_world s) !! Itoa (c_job c))) ∧
  (∀ i, i ∈ q_left s → ∃ c, q_calls s !! i = Some c ∧ queue_of (q_world s) !! Itoa (c_job c) = None) ∧
  (∀ i k c d, q_calls s !! i = Some c → q_calls s !! k = Some d →
     is_Some (queue_of (q_world s) !! Itoa (c_job c)) → is_Some (queue_of (q_world s) !! Itoa (c_job d)) →
     c_prio d < c_prio c ∨ c_prio c = c_prio d ∧ i ∈ c_after d →
     served_before (Itoa (c_job c)) (Itoa (c_job d)) (queue_of (q_world s))).
Proof.
  intros Hq H0 Hr Hb. destruct (qs_reachable_ok w s Hq H0 Hr) as ((N1 & N2 & N3 & _) & [E1 E2] & HL & _).
  split_and!.
  - intros m [sc Hm]. destruct (E1 m sc Hm) as (i & c & n & ? & ? & ? & _). eauto 10.
  - intros i c n Hi Hc Hg. rewrite (E2 i c n Hi Hc Hg). eauto.
  - intros i Hi. destruct (HL i Hi) as (c & ? & _ & ?). eauto.
  - intros i k c d Hi Hk [x Hx] [y Hy] Hord.
    assert (∀ i0 c0 z, q_calls s !! i0 = Some c0 → queue_of (q_world s) !! Itoa (c_job c0) = Some z →
      ∃ n, number_of c0 = Some n ∧ z = enqueue_score (c_prio c0) n) as Hnum.
    { intros i0 c0 z Hi0 Hz. destruct (E1 _ _ Hz) as (i1 & c1 & n & Hi1 & Hc1 & Hj%(inj Itoa) & ->).
      pose proof (N2 i0 i1 c0 c1 Hi0 Hi1 Hj) as <-. rewrite Hi0 in Hi1. injection Hi1 as <-.
      exists n. unfold number_of. by rewrite Hc1. }
    destruct (Hnum i c x Hi Hx) as (n & Hn & ->), (Hnum k d y Hk Hy) as (n' & Hn' & ->).
    destruct (N1 _ _ Hi) as (_ & Bp & Bn), (N1 _ _ Hk) as (_ & Bp' & Bn').
    specialize (Bn n Hn). specialize (Bn' n' Hn').
    eapply sorted_before; [exact Hx|exact Hy|]. apply enqueue_score_lt; [lia..|].
    destruct Hord as [?|[? Hin]]; [by left|right]. split; [done|].
    destruct (N3 k d i n' Hk Hin Hn') as (c2 & Hc2 & _ & Hlt). rewrite Hi in Hc2. injection Hc2 as <-. by apply Hlt.
Qed.
End FirstCome.

(** ** A concrete interleaving *)

(** Two submissions overlap: the second one gets its number first, the first
    one its entry; a third one begins after both; then job 12 is removed. *)
Definition fc_world : World :=
  mem_world [] [] [] [] (mkRview ∅ ∅ ∅) demo_script eq_refl eq_refl eq_refl eq_refl.
Definition fc_call (i : nat) (j p : Z) (s : qsys) : qsys :=
  mkQsys (q_world s) (<[i := mkCall j p (returned_calls (q_calls s)) Calling]> (q_calls s)) (q_gone s) (q_left s).
Definition fc_command (i : nat) (s : qsys) : qsys :=
  match q_calls s !! i with
  | Some c => match command c (q_world s) with
              | (w, Some c') => mkQsys w (<[i := c']> (q_calls s)) (q_gone s) (q_left s)
              | _ => s
              end
  | None => s
  end.
Definition fc1 : qsys := fc_call 1 11 1 (qs_start fc_world).
Definition fc2 : qsys := fc_call 2 12 1 fc1.
Definition fc3 : qsys := fc_command 2 fc2.
Definition fc4 : qsys := fc_command 1 fc3.
Definition fc5 : qsys := fc_command 1 fc4.
Definition fc6 : qsys := fc_command 2 fc5.
Definition fc7 : qsys := fc_call 3 13 1 fc6.
Definition fc8 : qsys := fc_command 3 fc7.
Definition fc9 : qsys := fc_command 3 fc8.
Definition fc_remove (j : Z) (s : qsys) : qsys :=
  mkQsys (fst (Remove j (q_world s))) (q_calls s) ({[j]} ∪ q_gone s) (ended_calls j (q_calls s) ∪ q_left s).
Definition fc10 : qsys := fc_remove 12 fc9.

Lemma fc_new (m : gmap nat call) j :
  forallb (λ x, negb (c_job x.2 =? j)) (map_to_list m) = true → ∀ k c, m !! k = Some c → c_job c ≠ j.
Proof.
  intros H k c Hk%elem_of_map_to_list He. rewrite forallb_forall in H.
  apply list_elem_of_In, H in Hk. cbn in Hk. by rewrite He, Z.eqb_refl in Hk.
Qed.

Lemma fc_called i j p s :
  q_calls s !! i = None → forallb (λ x, negb (c_job x.2 =? j)) (map_to_list (q_calls s)) = true →
  0 < j ≤ max_int64 → 0 ≤ p ≤ MaxPriority → qs_step s (fc_call i j p s).
Proof. intros. apply qs_call; [done| |done|done]. by apply fc_new. Qed.
Lemma fc_commanded i s c :
  q_calls s !! i = Some c → (∃ c', snd (command c (q_world s)) = Some c') → qs_step s (fc_command i s).
Proof.
  intros Hi [c' Hc]. unfold fc_command. rewrite Hi. destruct (command c (q_world s)) as [w x] eqn:E. cbn in Hc.
  subst x. by eapply qs_command.
Qed.
Lemma fc_removed j s : is_ok (snd (Remove j (q_world s))) = true → qs_step s (fc_remove j s).
Proof.
  intros Hok. destruct (Remove j (q_world s)) as [w r] eqn:E. pose proof (qs_remove s j w r E) as Hs.
  cbn in Hok. rewrite Hok in Hs. unfold fc_remove. by rewrite E.
Qed.

Ltac fc_bounds := vm_compute; split; congruence.
Lemma fc_step1 : rtc qs_step (qs_start fc_world) fc2.
Proof.
  eapply (rtc_l _ _ fc1); [|apply rtc_once].
  - apply (fc_called 1 11 1); [vm_compute; reflexivity..|fc_bounds|fc_bounds].
  - apply (fc_called 2 12 1); [vm_compute; reflexivity..|fc_bounds|fc_bounds].
Qed.
Ltac fc_next := eapply fc_commanded; [vm_compute; reflexivity|eexists; vm_compute; reflexivity].
Lemma fc_run : rtc qs_step (qs_start fc_world) fc10.
Proof.
  etrans; [exact fc_step1|].
  eapply (rtc_l _ _ fc3); [unfold fc3; fc_next|]. eapply (rtc_l _ _ fc4); [unfold fc4; fc_next|].
  eapply (rtc_l _ _ fc5); [unfold fc5; fc_next|]. eapply (rtc_l _ _ fc6); [unfold fc6; fc_next|].
  eapply (rtc_l _ _ fc7).
  { apply (fc_called 3 13 1); [vm_compute; reflexivity..|fc_bounds|fc_bounds]. }
  eapply (rtc_l _ _ fc8); [unfold fc8; fc_next|]. eapply (rtc_l _ _ fc9); [unfold fc9; fc_next|].
  apply rtc_once. apply fc_removed. vm_compute. reflexivity.
Qed.

Lemma concurrent_first_come_witness :
  fst <$> zsort (queue_of (q_world fc9)) = ["12"; "11"; "13"]%string ∧
  served_before (Itoa 11) (Itoa 13) (queue_of (q_world fc10)) ∧
  ∃ c, q_calls fc10 !! 2%nat = Some c ∧ queue_of (q_world fc10) !! Itoa (c_job c) = None.
Proof.
  split; [vm_compute; reflexivity|].
  assert (queue_of fc_world = ∅) as H1 by (vm_compute; reflexivity).
  assert (0 ≤ seq_of fc_world) as H2 by (vm_compute; discriminate).
  assert (seq_of (q_world fc10) ≤ PriorityGap) as H3 by (vm_compute; discriminate).
  destruct (concurrent_first_come fc_world fc10 H1 H2 fc_run H3) as (_ & _ & Hleft & Hfirst). split.
  - refine (Hfirst 1%nat 3%nat
      (mkCall 11 1 ∅ (Returned 2 true)) (mkCall 13 1 {[1%nat; 2%nat]} (Returned 3 true)) _ _ _ _ _).
    + vm_compute. reflexivity.
    + vm_compute. reflexivity.
    + vm_compute. eexists. reflexivity.
    + vm_compute. eexists. reflexivity.
    + right. split; [reflexivity|]. cbn. set_solver.
  - apply Hleft. vm_compute. reflexivity.
Defined.
