(* ===== verification/Liveness.v ===== *)
(** * Finished jobs give their cards back

    internal/service/scheduler_service.go: the monitor of a job ends once the
    process is gone, and then the cards are free and the job has an outcome.
    The theorem needs that the job and the card table can be written at that
    time; everything else may fail. *)

From S2P Require Import Prelude GoStrings Float64 Entity External MemBackend Gpu JobRepo Queue JobService Scheduler SchedulerSpec.

Open Scope Z_scope.

Section Liveness.
Context `{B : Backend} {BL : BackendLaws B}.
(** States of the two tables in which the updates of a monitor succeed. *)
Variables (jobs_up : TJ → Prop) (gpus_up : TG → Prop).
Hypothesis jobs_up_ok : ∀ id st now s, jobs_up s →
  is_ok (tbl_update (λ j, Job.ID j =? id) (status_update st now) s).2 = true.
Hypothesis gpus_up_ok : ∀ ids s, gpus_up s →
  is_ok (tbl_update (λ c, id_in ids (GpuCard.ID c)) (GpuCard.set_status GpuStatusIdle None) s).2 = true.

Lemma UpdateStatus_up id st w w' r :
  jobs_up (w_jobs w) → UpdateStatus id st w = (w', r) → is_ok r = true.
Proof.
  unfold UpdateStatus. intros Hu H. w_inv. specialize (jobs_up_ok id st a (w_jobs w) Hu).
  match goal with H : tbl_update _ _ _ = _ |- _ => by rewrite H in jobs_up_ok end.
Qed.

Lemma ReleaseCards_up ids w w' r :
  gpus_up (w_gpus w) → ReleaseCards ids w = (w', r) → is_ok r = true.
Proof.
  unfold ReleaseCards, Release. intros Hu H. destruct ids as [|i ids]; [by w_inv|].
  specialize (gpus_up_ok (i :: ids) (w_gpus w) Hu). open_bind H as w1 x E1.
  unfold on_gpus, lift in E1. destruct (tbl_update _ _ _) as [g y] in E1, gpus_up_ok. cbn in gpus_up_ok.
  injection E1 as <- <-. destruct y; [|done]. open_bind H as w2 z E2. by injection H as _ <-.
Qed.

(** The tables behind an operation of another service. *)
Definition tables (s : Sched) : TJ * TG := (w_jobs (sw s), w_gpus (sw s)).
Lemma on_env_tables {A} (c : M TE A) : keeps tables (on_world (on_env c)).
Proof. intros s s' a H. unfold on_world, on_env, lift in H. destruct (c _). by injection H as <- _. Qed.
Lemma on_redis_tables {A} (c : M TR A) : keeps tables (on_world (on_redis c)).
Proof. intros s s' a H. unfold on_world, on_redis, lift in H. destruct (c _). by injection H as <- _. Qed.
Lemma on_procs_tables {A} (c : M TP A) : keeps tables (on_world (on_procs c)).
Proof. intros s s' a H. unfold on_world, on_procs, lift in H. destruct (c _). by injection H as <- _. Qed.
Lemma UpdateStatus_gpus id st : keeps (λ s, w_gpus (sw s)) (on_world (UpdateStatus id st)).
Proof.
  intros s s' r H. apply on_world_inv in H as [H _]. unfold UpdateStatus in H. open_bind H as w1 n E1.
  unfold on_env, lift in E1. destruct (env_now _) in E1. injection E1 as E1 _.
  unfold on_jobs, lift in H. destruct (tbl_update _ _ _) in H. injection H as H _. by rewrite <- H, <- E1.
Qed.

(** The answers about the process: there for [k] more ticks, then gone. *)
Fixpoint gone_after (k : nat) (pid : Z) (e : TE) : Prop :=
  match k with
  | O => (env_PidExists pid e).2 = Ok false
  | S k' => (env_PidExists pid e).2 = Ok true ∧ gone_after k' pid (env_PidExists pid e).1
  end.

(** While the process is there a tick only looks at it. *)
Lemma tick_alive jp n s :
  (env_PidExists (wrap32 (JobProcess.pid jp)) (w_env (sw s))).2 = Ok true →
  monitor_tick jp n s =
    (put_sw (put_env (env_PidExists (wrap32 (JobProcess.pid jp)) (w_env (sw s))).1 (sw s)) s, Some 0).
Proof.
  intros Ha. unfold monitor_tick, monitor_check, on_world, on_env, lift, mbind, M_bind.
  destruct (env_PidExists _ _) as [e a]. cbn in Ha. by subst a.
Qed.

(** The tick at which the process is gone. *)
Lemma check_gone jp n s s' o :
  (env_PidExists (wrap32 (JobProcess.pid jp)) (w_env (sw s))).2 = Ok false →
  jobs_up (w_jobs (sw s)) → monitor_check jp n s = (s', o) →
  o = None ∧ w_gpus (sw s') = w_gpus (sw s) ∧ runningJobs s' = runningJobs s ∧
  ∃ st, is_outcome st ∧
    job_status (JobProcess.jobID jp) (sw s') = (λ _, st) <$> job_status (JobProcess.jobID jp) (sw s).
Proof.
  intros Hg Hu H. frame_fact (runningJobs (B := B)) H. unfold monitor_check in H. open_bind H as s1 r E1.
  pose proof (on_env_tables _ _ _ _ E1) as T1. s_frames E1.
  assert (r = Ok false) as ->.
  { unfold on_world, on_env, lift in E1. destruct (env_PidExists _ _). cbn in Hg. injection E1 as _ <-. done. }
  open_bind H as s2 a E2. pose proof (on_env_tables _ _ _ _ E2) as T2. s_frames E2.
  open_bind H as s3 e E3. pose proof (on_env_tables _ _ _ _ E3) as T3. s_frames E3.
  open_bind H as s4 u E4. injection H as <- <-. pose proof (UpdateStatus_gpus _ _ _ _ _ E4) as T4.
  apply on_world_inv in E4 as [E4 _]. unfold tables in T1, T2, T3.
  injection T1 as J1 G1. injection T2 as J2 G2. injection T3 as J3 G3.
  assert (jobs_up (w_jobs (sw s3))) as Hu3 by congruence. pose proof (UpdateStatus_up _ _ _ _ _ Hu3 E4) as Hok.
  split; [done|]. split; [cbn in T4; congruence|]. split; [done|].
  rewrite (UpdateStatus_status _ _ (JobProcess.jobID jp) _ _ _ E4), Hok, Z.eqb_refl. cbn.
  assert (job_status (JobProcess.jobID jp) (sw s3) = job_status (JobProcess.jobID jp) (sw s)) as ->
    by (apply job_status_jobs; unfold s_jobs in *; congruence).
  eexists. split; [|done]. unfold is_outcome. repeat case_match; auto.
Qed.

Lemma exit_frees jp s s' u :
  gpus_up (w_gpus (sw s)) → monitor_exit jp s = (s', u) →
  s_jobs s' = s_jobs s ∧ runningJobs s' = delete (JobProcess.pid jp) (runningJobs s) ∧
  s_gpus s' = assign (JobProcess.cardIDs jp) GpuStatusIdle None (s_gpus s).
Proof.
  intros Hu H. pose proof (monitor_exit_post _ _ _ _ H) as (Hj & Hr & _). split; [done|]. split; [done|].
  unfold monitor_exit in H. open_bind H as s0 x0 E0. injection E0 as <- _.
  open_bind H as s1 x1 E1. pose proof (on_redis_tables _ _ _ _ E1) as T1.
  open_bind H as s2 x2 E2. pose proof (on_env_tables _ _ _ _ E2) as T2.
  open_bind H as s3 x3 E3. pose proof (on_procs_tables _ _ _ _ E3) as T3.
  open_bind H as s4 x4 E4. assert (tables s4 = tables s3) as T4.
  { destruct x3 as [ps|]; [|by injection E4 as <- _]. refine ((_ : keeps tables (for_each ps _)) _ _ _ E4).
    apply keeps_for_each. intros p. apply keeps_bind; [apply on_procs_tables|]. intros. apply keeps_ret. }
  open_bind H as s5 x5 E5. injection H as <- _. apply on_world_inv in E5 as [E5 _].
  assert (tables s4 = tables s) as T by (rewrite T4, T3, T2, T1; done). unfold tables in T. injection T as TJ TG.
  rewrite <- TG in Hu. pose proof (ReleaseCards_up _ _ _ _ Hu E5) as Hok. apply ReleaseCards_post in E5.
  rewrite Hok in E5. unfold s_gpus, gpus_of in *. by rewrite E5, TG.
Qed.

Lemma tick_gone jp n s s' o :
  (env_PidExists (wrap32 (JobProcess.pid jp)) (w_env (sw s))).2 = Ok false →
  jobs_up (w_jobs (sw s)) → gpus_up (w_gpus (sw s)) → monitor_tick jp n s = (s', o) →
  o = None ∧ runningJobs s' = delete (JobProcess.pid jp) (runningJobs s) ∧
  s_gpus s' = assign (JobProcess.cardIDs jp) GpuStatusIdle None (s_gpus s) ∧
  ∃ st, is_outcome st ∧
    job_status (JobProcess.jobID jp) (sw s') = (λ _, st) <$> job_status (JobProcess.jobID jp) (sw s).
Proof.
  intros Hg Hj Hu H. unfold monitor_tick in H. open_bind H as s1 r E1.
  apply check_gone in E1 as (-> & G1 & R1 & st & Hst & J1); [|done|done].
  open_bind H as s2 u E2. injection H as <- <-. rewrite <- G1 in Hu.
  apply exit_frees in E2 as (J2 & R2 & G2); [|done]. split; [done|]. split; [congruence|].
  split; [rewrite G2; unfold s_gpus, gpus_of; by rewrite G1|]. exists st. split; [done|].
  rewrite (job_status_jobs _ (sw s1)) by done. done.
Qed.

(** C8: A job that ends gives its cards back.  If the process of a job is there
    for [k] more ticks of its monitor and then gone, the monitor returns at
    tick [k + 1]; the process is not tracked any more, its cards are idle, and
    a job with a row is completed or failed. *)
Theorem monitor_frees_cards (k : nat) jp n s
  (Hgone : gone_after k (wrap32 (JobProcess.pid jp)) (w_env (sw s)))
  (Hj : jobs_up (w_jobs (sw s))) (Hg : gpus_up (w_gpus (sw s))) :
  ∃ s', monitor_run (S k) jp n s = (s', None) ∧
    runningJobs s' = delete (JobProcess.pid jp) (runningJobs s) ∧
    s_gpus s' = assign (JobProcess.cardIDs jp) GpuStatusIdle None (s_gpus s) ∧
    ∃ st, is_outcome st ∧
      job_status (JobProcess.jobID jp) (sw s') = (λ _, st) <$> job_status (JobProcess.jobID jp) (sw s).
Proof.
  revert n s Hgone Hj Hg. induction k as [|k IH]; intros n s Hgone Hj Hg.
  - destruct (monitor_tick jp n s) as [s' o] eqn:E. pose proof E as E'.
    apply tick_gone in E as (-> & HR); [|done..]. exists s'. split; [|done].
    cbn [monitor_run]. unfold mbind, M_bind. by rewrite E'.
  - destruct Hgone as [Ha Hgone].
    change (monitor_run (S (S k)) jp n s) with
      (let '(v', r) := monitor_tick jp n s in
       match r with Some n' => monitor_run (S k) jp n' | None => mret None end v').
    rewrite (tick_alive _ _ _ Ha).
    edestruct (IH 0 (put_sw (put_env (env_PidExists (wrap32 (JobProcess.pid jp)) (w_env (sw s))).1 (sw s)) s))
      as (s' & E & HR & HG & HS); [exact Hgone|exact Hj|exact Hg|]. by exists s'.
Qed.
End Liveness.

(** ** An example *)

(** Tables in memory that are out of faults take every update. *)
Lemma mem_update_ok {R : Type} `{Row R} conflict p (f : R → R) (s : mem (rows (R := R))) :
  (∀ x, row_id (f x) = row_id x) → m_faults s = [] →
  is_ok (tbl_update (Table := mem_table conflict) p f s).2 = true.
Proof.
  intros Hf Hs. destruct s as [d fs]. cbn in Hs. subst fs.
  assert (pk_ok ((λ x, if p x then f x else x) <$> proj1_sig d)) as Hpk.
  { unfold pk_ok. rewrite <- list_fmap_compose.
    rewrite (Forall_fmap_ext_1 _ row_id); [exact (bool_decide_eq_true_1 _ (proj2_sig d))|].
    apply Forall_forall. intros x _. cbn. destruct (p x); [apply Hf|done]. }
  destruct (commit_ok _ d Hpk) as (d' & E & _). cbn. by rewrite E.
Qed.

(** Job 4 runs on the cards 1 and 2; its process is seen twice. *)
Definition running_world : World :=
  mem_world [sched_job 4 JobStatusRunning "1,2"] [demo_card 1 1 (Some 4); demo_card 2 1 (Some 4)] [] []
    (queue_view []) (mkScript 100 [Ok true; Ok true; Ok false] [Ok false] [] [] [Ok 0] [])
    eq_refl eq_refl eq_refl eq_refl.

Lemma monitor_frees_cards_witness :
  ∃ s', monitor_run 3 demo_jp 0 (NewScheduler running_world) = (s', None) ∧
    s_gpus s' = [demo_card 1 0 None; demo_card 2 0 None].
Proof.
  destruct (monitor_frees_cards (B := mem_backend) (λ s, m_faults s = []) (λ s, m_faults s = [])
    (λ id st now s, mem_update_ok _ _ (status_update st now) s (λ _, eq_refl))
    (λ ids s, mem_update_ok _ _ (GpuCard.set_status GpuStatusIdle None) s (λ _, eq_refl))
    2 demo_jp 0 (NewScheduler running_world)) as (s' & E & _ & G & _).
  - vm_compute. repeat split.
  - reflexivity.
  - reflexivity.
  - exists s'. split; [exact E|]. rewrite G. vm_compute. reflexivity.
Defined.
