(* ===== verification/SystemInfo.v ===== *)
(** * System information (internal/service/systemInfo_service.go,
      internal/repository/systemInfo_repository.go)

    What runs on the GPUs of the server, from [nvidia-smi] and the process
    table; the processes an administrator ends or retains; the checker that
    ends processes which run too long, and the cleaner of the retained set. *)

From S2P Require Import Prelude GoStrings Float64 Errors Entity External MemBackend JobRepo WsPool SessionRepo Exec GoPath Shell FileService.

Open Scope Z_scope.

(** ** The server: commands, process table, clock *)

(** [cmd.Output()] and [cmd.Run()]: the command was not found (an
    [*exec.Error]), failed otherwise, or ended with its output. *)
Inductive cmd_result : Type :=
  | CmdOk (out : string)
  | CmdNotStarted (e : error)
  | CmdFailed (e : error).

(** The fields read of gopsutil's [disk.UsageStat] and
    [mem.VirtualMemoryStat]. *)
Record UsageStat : Type := mkUsageStat {
  us_Total : Z; us_Used : Z; us_Free : Z; us_UsedPercent : float64
}.
Record VirtualMemoryStat : Type := mkVirtualMemoryStat {
  vm_Total : Z; vm_Available : Z; vm_UsedPercent : float64
}.

(** [P] is gopsutil's process handle.  Three of its readers are used with
    their value even when they fail, so they return both.  [sh_log] is the
    history of the commands that were run. *)
Class SysHost (H P : Type) := {
  sh_log : H → list (string * list string);
  sh_exec : string → list string → M H cmd_result;
  sh_now : M H Z;
  sh_NewProcess : Z → M H (result P);
  sh_Username : P → M H (string * option error);
  sh_CreateTime : P → M H (Z * option error);
  sh_Cmdline : P → M H (string * option error);
  sh_IsRunning : P → M H (result bool);
  sh_DiskUsage : string → M H (result UsageStat);
  sh_VirtualMemory : M H (result VirtualMemoryStat)
}.

(** Only [sh_exec] runs commands, one per call. *)
Class SysHostLaws (H P : Type) `{SysHost H P} : Prop := {
  sh_exec_log n args h h' r : sh_exec n args h = (h', r) → sh_log h' = sh_log h ++ [(n, args)];
  sh_now_log : keeps sh_log sh_now;
  sh_NewProcess_log pid : keeps sh_log (sh_NewProcess pid);
  sh_Username_log p : keeps sh_log (sh_Username p);
  sh_CreateTime_log p : keeps sh_log (sh_CreateTime p);
  sh_Cmdline_log p : keeps sh_log (sh_Cmdline p);
  sh_IsRunning_log p : keeps sh_log (sh_IsRunning p);
  sh_DiskUsage_log m : keeps sh_log (sh_DiskUsage m);
  sh_VirtualMemory_log : keeps sh_log sh_VirtualMemory
}.

(** ** Redis hashes and set membership *)

Class HashKv (K : Type) `{Kv K} := {
  kv_hash : K → gmap string (gmap string string);
  kv_SIsMember : string → string → M K (result bool);
  kv_HSet : string → gmap string string → M K (result unit);
  kv_HGetAll : string → M K (result (gmap string string))
}.
Definition hash_of {K} `{HashKv K} (k : string) (s : K) : gmap string string :=
  default ∅ (kv_hash s !! k).

Class HashKvLaws (K : Type) `{HashKv K} : Prop := {
  kv_SIsMember_hash k m : keeps kv_hash (kv_SIsMember k m);
  kv_SIsMember_view k m : keeps kv_view (kv_SIsMember k m);
  kv_SIsMember_ok k m s s' b :
    kv_SIsMember k m s = (s', Ok b) → b = bool_decide (m ∈ members k (kv_view s));
  kv_HSet_spec k fs s s' r :
    kv_HSet k fs s = (s', r) →
    kv_view s' = kv_view s ∧
    kv_hash s' = if is_ok r then <[k := fs ∪ hash_of k s]> (kv_hash s) else kv_hash s;
  kv_HGetAll_hash k : keeps kv_hash (kv_HGetAll k);
  kv_HGetAll_view k : keeps kv_view (kv_HGetAll k);
  kv_HGetAll_ok k s s' h : kv_HGetAll k s = (s', Ok h) → h = hash_of k s;
  kv_SAdd_hash k m : keeps kv_hash (kv_SAdd k m);
  kv_SRem_hash k m : keeps kv_hash (kv_SRem k m);
  kv_SMembers_hash k : keeps kv_hash (kv_SMembers k)
}.

(** ** Texts *)

(** [strings.Split] with a separator of several bytes: after a separator is
    found, the rest of its bytes are skipped. *)
Fixpoint split_str (sep : string) (skip : nat) (s : string) : list string :=
  match s with
  | EmptyString => [EmptyString]
  | String x r =>
      match skip with
      | Datatypes.S k => split_str sep k r
      | O => if String.prefix sep s then EmptyString :: split_str sep (String.length sep - 1) r
             else match split_str sep 0 r with
                  | [] => [String x EmptyString]
                  | h :: t => String x h :: t
                  end
      end
  end.
Definition SplitStr (sep s : string) : list string := split_str sep 0 s.

(** [strconv.ParseBool] and [strconv.FormatBool]. *)
Definition ParseBool (s : string) : result bool :=
  if bool_decide (s ∈ ["1"; "t"; "T"; "true"; "TRUE"; "True"]%string) then Ok true
  else if bool_decide (s ∈ ["0"; "f"; "F"; "false"; "FALSE"; "False"]%string) then Ok false
  else Err ErrSyntax.
Definition FormatBool (b : bool) : string := if b then "true" else "false".

Definition bytesToGB (bytes : Z) : string :=
  format_fixed 1 (f_div_const (f_of_int bytes) (2 ^ 30)) +:+ "GB".

Definition formatDuration (d : Z) : string :=
  let seconds := dur_seconds d in
  let hours := Z.quot seconds 3600 in
  let minutes := Z.quot (Z.rem seconds 3600) 60 in
  let secs := Z.rem seconds 60 in
  (if 0 <? hours then Itoa hours +:+ "h" else "") +:+
  (if (0 <? minutes) || (0 <? hours) then Itoa minutes +:+ "m" else "") +:+
  (Itoa secs +:+ "s").

Example split_str_ex : SplitStr ", " "0, Tesla, T4,x, , 7" = ["0"; "Tesla"; "T4,x"; ""; "7"]%string.
Proof. reflexivity. Qed.
Example gb_ex : (bytesToGB 1610612736, bytesToGB 0, bytesToGB 53687091) = ("1.5GB", "0.0GB", "0.0GB")%string.
Proof. vm_compute. reflexivity. Qed.
Example duration_text_ex :
  (formatDuration (3725 * 10 ^ 9), formatDuration (59 * 10 ^ 9), formatDuration (3600 * 10 ^ 9))
  = ("1h2m5s", "59s", "1h0m0s")%string.
Proof. vm_compute. reflexivity. Qed.

(** ** Data *)

Module ProcessInfo.
Record ProcessInfo : Type := mkProcessInfo {
  Username : string; PID : string; JobName : string; GPUname : string;
  StartTime : string; IsNormal : Z; Runtime : string; Command : string
}.
End ProcessInfo.
Notation ProcessInfo := ProcessInfo.ProcessInfo.

Module nvidiaSMIProcessInfo.
Record nvidiaSMIProcessInfo : Type := mknvidiaSMIProcessInfo {
  PID : Z; ProcessName : string; GPUName : string
}.
End nvidiaSMIProcessInfo.
Notation nvidiaSMIProcessInfo := nvidiaSMIProcessInfo.nvidiaSMIProcessInfo.

Module ProcessDuration.
Record ProcessDuration : Type := mkProcessDuration { PID : string; RunningDurationSecs : Z }.
End ProcessDuration.
Notation ProcessDuration := ProcessDuration.ProcessDuration.

Module SystemProcessInfo.
Record SystemProcessInfo : Type := mkSystemProcessInfo {
  Username : string; PID : string; JobName : string; GPUname : string;
  StartTime : string; IsNormal : Z; Runtime : string; Command : string
}.
End SystemProcessInfo.
Notation SystemProcessInfo := SystemProcessInfo.SystemProcessInfo.

Module ServerProcessInfo.
Record ServerProcessInfo : Type := mkServerProcessInfo {
  Username : string; PID : string; JobName : string; GPUname : string;
  StartTime : string; IsNormal : Z; Runtime : string; RunningDurationSecs : Z;
  Command : string; IsRetained : bool
}.
End ServerProcessInfo.
Notation ServerProcessInfo := ServerProcessInfo.ServerProcessInfo.

Module GPUInfoResponse.
Record GPUInfoResponse : Type := mkGPUInfoResponse {
  Index : Z; DeviceName : string; Temp : string; Util : string; MemUsed : string; MemTotal : string
}.
End GPUInfoResponse.
Notation GPUInfoResponse := GPUInfoResponse.GPUInfoResponse.

Module CpuInfoResponse.
Record CpuInfoResponse : Type := mkCpuInfoResponse {
  DeviceName : string; TotalCap : string; UseCap : string; RemainCap : string; Percentage : string
}.
End CpuInfoResponse.
Notation CpuInfoResponse := CpuInfoResponse.CpuInfoResponse.

Module ConfigResponse.
Record ConfigResponse : Type := mkConfigResponse {
  AutoTerminateEnabled : bool; MaxDurationMinutes : Z
}.
End ConfigResponse.
Notation ConfigResponse := ConfigResponse.ConfigResponse.

Module SystemInfosResponse.
Record SystemInfosResponse : Type := mkSystemInfosResponse {
  CpuList : list CpuInfoResponse; GpuList : list GPUInfoResponse;
  SystemProcesses : list SystemProcessInfo; ServerProcesses : list ServerProcessInfo
}.
End SystemInfosResponse.
Notation SystemInfosResponse := SystemInfosResponse.SystemInfosResponse.

Definition RedisKeyRetainedPIDs : string := "gpu_task:retained_pids".
Definition RedisKeyConfig : string := "gpu_task:config".
Definition DefaultAutoTerminateEnabled : bool := false.
Definition DefaultMaxDurationMinutes : Z := 3.

Section SystemInfo.
Context `{B : Backend} {K : Type} {KV : Kv K} {HK : HashKv K} {H P : Type} {SH : SysHost H P}.
(** [time.Unix(s, 0).Format("2006-01-02 15:04:05")] in the zone of the server. *)
Variable unix_format : Z → string.
(** [json.Marshal]. *)
Variable marshal_info : SystemInfosResponse → result string.

(** The job system with its process cache, the Redis repository, the server. *)
Record iworld : Type := mkIworld { iw_world : World; iw_kv : K; iw_host : H }.
Definition put_iworld (x : World) (w : iworld) : iworld := mkIworld x (iw_kv w) (iw_host w).
Definition put_ikv (x : K) (w : iworld) : iworld := mkIworld (iw_world w) x (iw_host w).
Definition put_ihost (x : H) (w : iworld) : iworld := mkIworld (iw_world w) (iw_kv w) x.
Definition on_world {A} : M World A → M iworld A := lift iw_world put_iworld.
Definition on_kv {A} : M K A → M iworld A := lift iw_kv put_ikv.
Definition on_host {A} : M H A → M iworld A := lift iw_host put_ihost.

(** ** Repository *)

Definition GetDiskInfo (mountPoint : string) : M iworld (result CpuInfoResponse) :=
  r ← on_host (sh_DiskUsage mountPoint);
  mret (match r with
        | Err e => Err (ErrWrap "获取磁盘信息失败" e)
        | Ok usage =>
            Ok (CpuInfoResponse.mkCpuInfoResponse (mountPoint +:+ "分区")
                  (bytesToGB (us_Total usage)) (bytesToGB (us_Used usage))
                  (bytesToGB (us_Free usage)) (format_fixed 1 (us_UsedPercent usage) +:+ "%"))
        end).

(** The subtraction is on [uint64]. *)
Definition GetMemoryInfo : M iworld (result CpuInfoResponse) :=
  r ← on_host sh_VirtualMemory;
  mret (match r with
        | Err e => Err (ErrWrap "获取内存信息失败" e)
        | Ok vm =>
            let total := vm_Total vm in
            let used := (total - vm_Available vm) mod 2 ^ 64 in
            Ok (CpuInfoResponse.mkCpuInfoResponse "内存" (bytesToGB total) (bytesToGB used)
                  (bytesToGB (vm_Available vm)) (format_fixed 1 (vm_UsedPercent vm) +:+ "%"))
        end).

Definition smi : string := "nvidia-smi".
Definition smi_format : string := "--format=csv,noheader,nounits".
Definition smi_failed (e : error) : error := ErrWrap "执行 nvidia-smi 命令失败" e.
Definition output_lines (output : string) : list string := Split newline (TrimSpace output).

(** One line of the card table; lines that do not fit are skipped. *)
Definition gpu_line (line : string) : option GPUInfoResponse :=
  if String.eqb (TrimSpace line) "" then None
  else match SplitStr ", " line with
  | f0 :: f1 :: f2 :: f3 :: f4 :: f5 :: _ =>
      match Atoi (TrimSpace f0) with
      | Err _ => None
      | Ok index =>
          Some (GPUInfoResponse.mkGPUInfoResponse index (Itoa index +:+ "-" +:+ TrimSpace f1)
                  (TrimSpace f2 +:+ "°C") (TrimSpace f3 +:+ "%") (TrimSpace f4 +:+ "MB")
                  (TrimSpace f5 +:+ "MB"))
      end
  | _ => None
  end.
Definition GetGPUInfo : M iworld (result (list GPUInfoResponse)) :=
  r ← on_host (sh_exec smi
        ["--query-gpu=index,name,temperature.gpu,utilization.gpu,memory.used,memory.total"%string;
         smi_format]);
  mret (match r with
        | CmdNotStarted _ => Ok []
        | CmdFailed e => Err (smi_failed e)
        | CmdOk output => Ok (omap gpu_line (output_lines output))
        end).

Definition apps_query : list string := ["--query-compute-apps=pid"%string; smi_format].
Definition pid_words (output : string) : list string :=
  List.filter (λ p, negb (String.eqb p "")) (TrimSpace <$> output_lines output).
Definition GetGPUPIDs : M iworld (result (gset string)) :=
  r ← on_host (sh_exec smi apps_query);
  mret (match r with
        | CmdNotStarted _ => Ok ∅
        | CmdFailed e => Err (smi_failed e)
        | CmdOk output => Ok (list_to_set (pid_words output))
        end).

(** [time.Since(time.Unix(createTime/1000, 0))]. *)
Definition since (createTime now : Z) : Z := dur_sub now (Z.quot createTime 1000 * 10 ^ 9).

(** One process; [None] where the loop continues. *)
Definition duration_of (pidStr : string) : M iworld (option ProcessDuration) :=
  match Atoi pidStr with
  | Err _ => mret None
  | Ok pid =>
      p ← on_host (sh_NewProcess (wrap32 pid));
      match p with
      | Err _ => mret None
      | Ok p =>
          t ← on_host (sh_CreateTime p);
          match t with
          | (_, Some _) => mret None
          | (createTime, None) =>
              now ← on_host sh_now;
              mret (Some (ProcessDuration.mkProcessDuration pidStr
                            (dur_seconds (since createTime now))))
          end
      end
  end.
Definition GetProcessDurations : M iworld (result (list ProcessDuration)) :=
  r ← on_host (sh_exec smi apps_query);
  match r with
  | CmdNotStarted _ => mret (Ok [])
  | CmdFailed e => mret (Err (smi_failed e))
  | CmdOk output => l ← for_collect (pid_words output) duration_of; mret (Ok (omap id l))
  end.

(** [gpuMap[busId]]: the last line of a bus id wins, the empty text stands
    for a missing one. *)
Definition index_line (line : string) : option (string * string) :=
  if String.eqb (TrimSpace line) "" then None
  else match SplitStr ", " line with
  | f0 :: f1 :: f2 :: _ => Some (TrimSpace f1, TrimSpace f0 +:+ "-" +:+ TrimSpace f2)
  | _ => None
  end.
Definition getGPUIndexMap : M iworld (gmap string string) :=
  r ← on_host (sh_exec smi ["--query-gpu=index,gpu_bus_id,name"%string; smi_format]);
  mret (match r with
        | CmdOk output =>
            foldl (λ m e, <[e.1 := e.2]> m) (∅ : gmap string string)
              (omap index_line (output_lines output))
        | _ => ∅
        end).

Definition app_line (gpuIndexMap : gmap string string) (line : string)
  : option nvidiaSMIProcessInfo :=
  if String.eqb line "" then None
  else match SplitStr ", " (TrimSpace line) with
  | pidStr :: busId :: processName :: _ =>
      match Atoi pidStr with
      | Err _ => None
      | Ok pid =>
          let displayName := default ""%string (gpuIndexMap !! busId) in
          Some (nvidiaSMIProcessInfo.mknvidiaSMIProcessInfo pid processName
                  (if String.eqb displayName "" then busId else displayName))
      end
  | _ => None
  end.
Definition getProcessInfoFromNvidiaSMI : M iworld (result (list nvidiaSMIProcessInfo)) :=
  r ← on_host (sh_exec smi ["--query-compute-apps=pid,gpu_bus_id,process_name"%string; smi_format]);
  match r with
  | CmdNotStarted e | CmdFailed e => mret (Err (smi_failed e))
  | CmdOk output =>
      gpuIndexMap ← getGPUIndexMap;
      mret (Ok (omap (app_line gpuIndexMap) (output_lines output)))
  end.

(** Failed reads leave the value they returned. *)
Definition getProcessDetails (pid : Z) (gpuName processName : string)
  : M iworld (result ProcessInfo) :=
  p ← on_host (sh_NewProcess (wrap32 pid));
  match p with
  | Err e => mret (Err e)
  | Ok p =>
      u ← on_host (sh_Username p);
      t ← on_host (sh_CreateTime p);
      c ← on_host (sh_Cmdline p);
      now ← on_host sh_now;
      running ← on_host (sh_IsRunning p);
      mret (Ok (ProcessInfo.mkProcessInfo u.1 (Itoa pid) processName gpuName
                  (unix_format (Z.quot t.1 1000))
                  (match running with Ok true => 1 | _ => 0 end)
                  (formatDuration (since t.1 now)) c.1))
  end.
Definition GetProcessInfo : M iworld (result (list ProcessInfo)) :=
  r ← getProcessInfoFromNvidiaSMI;
  match r with
  | Err e => mret (Err (ErrWrap "从 nvidia-smi 获取进程信息失败" e))
  | Ok processList =>
      l ← for_collect processList (λ i,
            r ← getProcessDetails (nvidiaSMIProcessInfo.PID i) (nvidiaSMIProcessInfo.GPUName i)
                  (nvidiaSMIProcessInfo.ProcessName i);
            mret (match r with Ok info => Some info | Err _ => None end));
      mret (Ok (omap id l))
  end.

(** ** Service *)

Definition kill_args (pid : Z) : list string := ["-9"%string; Itoa pid].
Definition terminateProcess (pid : Z) : M iworld (result unit) :=
  r ← on_host (sh_exec "kill" (kill_args pid));
  mret (match r with CmdOk _ => Ok tt | CmdNotStarted e | CmdFailed e => Err e end).

Definition isProcessInGPU (pid : Z) : M iworld (result bool) :=
  r ← GetGPUPIDs;
  mret (match r with Err e => Err e | Ok pids => Ok (bool_decide (Itoa pid ∈ pids)) end).

Definition TerminateProcess (pid : Z) : M iworld (result unit) :=
  r ← isProcessInGPU pid;
  match r with
  | Err _ => mret (Err (New CodeInternalError "检查进程状态失败"))
  | Ok false => mret (Err (New CodeBadRequest "进程不存在或不在 GPU 上运行"))
  | Ok true =>
      k ← terminateProcess pid;
      mret (match k with
            | Err _ => Err (New CodeInternalError "终止进程失败")
            | Ok _ => Ok tt
            end)
  end.

Definition RetainProcess (pid : Z) : M iworld (result unit) :=
  r ← isProcessInGPU pid;
  match r with
  | Err _ => mret (Err (New CodeInternalError "检查进程状态失败"))
  | Ok false => mret (Err (New CodeBadRequest "进程不存在或不在 GPU 上运行"))
  | Ok true =>
      a ← on_kv (kv_SAdd RedisKeyRetainedPIDs (Itoa pid));
      mret (match a with
            | Err _ => Err (New CodeInternalError "保留进程失败")
            | Ok _ => Ok tt
            end)
  end.

Definition CancelRetain (pid : Z) : M iworld (result unit) :=
  r ← on_kv (kv_SIsMember RedisKeyRetainedPIDs (Itoa pid));
  match r with
  | Err _ => mret (Err (New CodeInternalError "检查保留状态失败"))
  | Ok false => mret (Err (New CodeBadRequest "该进程未被保留"))
  | Ok true =>
      a ← on_kv (kv_SRem RedisKeyRetainedPIDs (Itoa pid));
      mret (match a with
            | Err _ => Err (New CodeInternalError "取消保留失败")
            | Ok _ => Ok tt
            end)
  end.

Definition key_enabled : string := "auto_terminate_enabled".
Definition key_minutes : string := "max_duration_minutes".

Definition config_response (config : gmap string string) : ConfigResponse :=
  ConfigResponse.mkConfigResponse
    (match ParseBool (default ""%string (config !! key_enabled)) with
     | Ok b => b
     | Err _ => DefaultAutoTerminateEnabled
     end)
    (match Atoi (default ""%string (config !! key_minutes)) with
     | Ok d => if d =? 0 then DefaultMaxDurationMinutes else d
     | Err _ => DefaultMaxDurationMinutes
     end).
Definition GetConfig : M iworld ConfigResponse :=
  r ← on_kv (kv_HGetAll RedisKeyConfig);
  mret (match r with
        | Err _ => ConfigResponse.mkConfigResponse DefaultAutoTerminateEnabled
                     DefaultMaxDurationMinutes
        | Ok config => config_response config
        end).

Definition config_fields (enabled : option bool) (duration : option Z) : gmap string string :=
  let fields : gmap string string :=
    match enabled with Some b => <[key_enabled := FormatBool b]> ∅ | None => ∅ end in
  match duration with Some d => <[key_minutes := Itoa d]> fields | None => fields end.
Definition UpdateConfig (enabled : option bool) (duration : option Z) : M iworld (result unit) :=
  let fields := config_fields enabled duration in
  if bool_decide (fields = ∅) then mret (Err (New CodeBadRequest "至少需要提供一个配置项"))
  else
    r ← on_kv (kv_HSet RedisKeyConfig fields);
    mret (match r with
          | Err _ => Err (New CodeInternalError "更新配置失败")
          | Ok _ => Ok tt
          end).

(** The handler of the HTTP request: a duration below one is refused. *)
Definition ctrl_UpdateConfig (enabled : option bool) (duration : option Z)
  : M iworld (result unit) :=
  match duration with
  | Some d => if d <? 1 then mret (Err (New CodeBadRequest "最大时长必须大于0"))
              else UpdateConfig enabled duration
  | None => UpdateConfig enabled duration
  end.

(** ** The checker *)

Definition conf_enabled (config : gmap string string) : bool :=
  match config !! key_enabled with
  | Some val => if String.eqb val "" then DefaultAutoTerminateEnabled
                else match ParseBool val with
                     | Ok parsed => parsed
                     | Err _ => DefaultAutoTerminateEnabled
                     end
  | None => DefaultAutoTerminateEnabled
  end.
Definition conf_minutes (config : gmap string string) : Z :=
  match config !! key_minutes with
  | Some val => if String.eqb val "" then DefaultMaxDurationMinutes
                else match Atoi val with
                     | Ok parsed => parsed
                     | Err _ => DefaultMaxDurationMinutes
                     end
  | None => DefaultMaxDurationMinutes
  end.
Definition conf_seconds (config : gmap string string) : Z := wrap64 (conf_minutes config * 60).

(** A failed read gives the empty set. *)
Definition system_pid_set : M iworld (gset string) :=
  r ← on_world GetAllPid;
  mret (match r with Ok (_, pids) => list_to_set (Itoa <$> pids) | Err _ => ∅ end).
Definition retained_pid_set : M iworld (gset string) :=
  r ← on_kv (kv_SMembers RedisKeyRetainedPIDs);
  mret (match r with Ok pids => list_to_set pids | Err _ => ∅ end).

(** The body of the loop over the processes. *)
Definition check_process (system retained : gset string) (maxSeconds : Z) (proc : ProcessDuration)
  : M iworld unit :=
  let pid := ProcessDuration.PID proc in
  if bool_decide (pid ∈ system) || bool_decide (pid ∈ retained) then mret tt
  else if maxSeconds <? ProcessDuration.RunningDurationSecs proc then
    match Atoi pid with
    | Err _ => mret tt
    | Ok pid => _ ← terminateProcess pid; mret tt
    end
  else mret tt.

Definition checkAndTerminate : M iworld unit :=
  r ← on_kv (kv_HGetAll RedisKeyConfig);
  match r with
  | Err _ => mret tt
  | Ok config =>
      if negb (conf_enabled config) then mret tt
      else
        d ← GetProcessDurations;
        match d with
        | Err _ => mret tt
        | Ok processDurations =>
            system ← system_pid_set;
            retained ← retained_pid_set;
            for_each processDurations (check_process system retained (conf_seconds config))
        end
  end.

(** ** The cleaner of the retained set *)

Definition isProcessRunning (pid : Z) : M iworld bool :=
  p ← on_host (sh_NewProcess (wrap32 pid));
  match p with
  | Err _ => mret false
  | Ok p => running ← on_host (sh_IsRunning p);
            mret (match running with Ok b => b | Err _ => false end)
  end.
Definition clean_one (pidStr : string) : M iworld unit :=
  match Atoi pidStr with
  | Err _ => mret tt
  | Ok pid =>
      running ← isProcessRunning pid;
      if (running : bool) then mret tt
      else _ ← on_kv (kv_SRem RedisKeyRetainedPIDs pidStr); mret tt
  end.
Definition cleanupRetainedTasks : M iworld unit :=
  r ← on_kv (kv_SMembers RedisKeyRetainedPIDs);
  match r with
  | Err _ => mret tt
  | Ok retainedPIDs => for_each retainedPIDs clean_one
  end.

(** ** Collection for the administrators *)

Definition as_system (p : ProcessInfo) : SystemProcessInfo :=
  SystemProcessInfo.mkSystemProcessInfo (ProcessInfo.Username p) (ProcessInfo.PID p)
    (ProcessInfo.JobName p) (ProcessInfo.GPUname p) (ProcessInfo.StartTime p)
    (ProcessInfo.IsNormal p) (ProcessInfo.Runtime p) (ProcessInfo.Command p).
Definition as_server (retained : gset string) (p : ProcessInfo) : ServerProcessInfo :=
  ServerProcessInfo.mkServerProcessInfo (ProcessInfo.Username p) (ProcessInfo.PID p)
    (ProcessInfo.JobName p) (ProcessInfo.GPUname p) (ProcessInfo.StartTime p)
    (ProcessInfo.IsNormal p) (ProcessInfo.Runtime p) 0 (ProcessInfo.Command p)
    (bool_decide (ProcessInfo.PID p ∈ retained)).
(** The loop that appends each process to one of the two lists. *)
Fixpoint classify (system retained : gset string) (l : list ProcessInfo)
  : list SystemProcessInfo * list ServerProcessInfo :=
  match l with
  | [] => ([], [])
  | p :: l' =>
      let '(sys, srv) := classify system retained l' in
      if bool_decide (ProcessInfo.PID p ∈ system) then (as_system p :: sys, srv)
      else (sys, as_server retained p :: srv)
  end.
Definition collectAndClassifyProcesses
  : M iworld (list SystemProcessInfo * list ServerProcessInfo) :=
  r ← GetProcessInfo;
  match r with
  | Err _ => mret ([], [])
  | Ok processInfos =>
      system ← system_pid_set;
      retained ← retained_pid_set;
      mret (classify system retained processInfos)
  end.

Definition opt_list {A} (r : result A) : list A := match r with Ok a => [a] | Err _ => [] end.
Definition collectSystemInfo : M iworld SystemInfosResponse :=
  diskHome ← GetDiskInfo "/home";
  diskMain ← GetDiskInfo "/";
  memoryInfo ← GetMemoryInfo;
  gpuInfo ← GetGPUInfo;
  procs ← collectAndClassifyProcesses;
  mret (SystemInfosResponse.mkSystemInfosResponse
          (opt_list diskHome ++ opt_list diskMain ++ opt_list memoryInfo)
          (match gpuInfo with Ok l => l | Err _ => [] end) procs.1 procs.2).

(** One tick of the pusher on the pool of connections. *)
Definition push_tick (p : ConnectionPool string)
  : M iworld (result (ConnectionPool string)) :=
  if IsHavingSystemInfoConnection p then
    info ← collectSystemInfo;
    mret (match marshal_info info with
          | Err _ => Ok p
          | Ok data => BroadcastToAdminsByType "systemInfo" data p
          end)
  else mret (Ok p).

Definition HandleSyMessage (userID now : Z) (p : ConnectionPool string)
  : ConnectionPool string :=
  fst (Add userID (Some (SessionMetadata.mkSessionMetadata userID "systemInfo" "admin" now)) p).
End SystemInfo.

(** ** What the operations change *)

Section SystemInfoProps.
Context `{B : Backend} {BL : BackendLaws B}.
Context {K : Type} {KV : Kv K} {KL : KvLaws K} {HK : HashKv K} {HKL : HashKvLaws K}.
Context {H P : Type} {SH : SysHost H P} {SHL : SysHostLaws H P}.
Variable unix_format : Z → string.

Notation W := (iworld (K := K) (H := H)).

Definition ilog (w : W) : list (string * list string) := sh_log (iw_host w).
Definition iset (w : W) : kview := kv_view (iw_kv w).
Definition ihash (w : W) : gmap string (gmap string string) := kv_hash (iw_kv w).
Definition iredis (w : W) : rview := redis_of (iw_world w).
Definition config_of (w : W) : gmap string string := hash_of RedisKeyConfig (iw_kv w).
Definition retained_of (w : W) : gset string := members RedisKeyRetainedPIDs (iset w).

(** The target of a kill command. *)
Definition kill_target (c : string * list string) : option string :=
  match c with
  | (n, [a; s]) => if String.eqb n "kill" && String.eqb a "-9" then Some s else None
  | _ => None
  end.
Definition killed (w : W) : list string := omap kill_target (ilog w).

Lemma keeps_log_world {A} (c : M World A) : keeps ilog (on_world c : M W A).
Proof. unfold on_world. by apply keeps_lift. Qed.
Lemma keeps_log_kv {A} (c : M K A) : keeps ilog (on_kv c : M W A).
Proof. unfold on_kv. by apply keeps_lift. Qed.
Lemma keeps_set_world {A} (c : M World A) : keeps iset (on_world c : M W A).
Proof. unfold on_world. by apply keeps_lift. Qed.
Lemma keeps_set_host {A} (c : M H A) : keeps iset (on_host c : M W A).
Proof. unfold on_host. by apply keeps_lift. Qed.
Lemma keeps_redis_kv {A} (c : M K A) : keeps iredis (on_kv c : M W A).
Proof. unfold on_kv. by apply keeps_lift. Qed.
Lemma keeps_redis_host {A} (c : M H A) : keeps iredis (on_host c : M W A).
Proof. unfold on_host. by apply keeps_lift. Qed.
Lemma keeps_log_host {A} (c : M H A) : keeps sh_log c → keeps ilog (on_host c : M W A).
Proof. intros Hc. unfold on_host. by apply (keeps_lift_in ilog sh_log). Qed.
Lemma keeps_set_kv {A} (c : M K A) : keeps kv_view c → keeps iset (on_kv c : M W A).
Proof. intros Hc. unfold on_kv. by apply (keeps_lift_in iset kv_view). Qed.

Lemma on_kv_inv {A} (c : M K A) (w w' : W) r :
  on_kv c w = (w', r) → ∃ k', c (iw_kv w) = (k', r) ∧ w' = put_ikv k' w.
Proof. unfold on_kv, lift. destruct (c _) as [k' r']. intros [= <- <-]. by exists k'. Qed.

Lemma keeps_world_host {A} (c : M H A) : keeps iw_world (on_host c : M W A).
Proof. unfold on_host. by apply keeps_lift. Qed.
Lemma keeps_kv_host {A} (c : M H A) : keeps iw_kv (on_host c : M W A).
Proof. unfold on_host. by apply keeps_lift. Qed.
Lemma keeps_kv_world {A} (c : M World A) : keeps iw_kv (on_world c : M W A).
Proof. unfold on_world. by apply keeps_lift. Qed.
Lemma keeps_set_SMembers k : keeps kv_view (kv_SMembers k).
Proof. intros s s' r E. by eapply kv_SMembers_view. Qed.
Lemma keeps_iredis_read {A} (c : M World A) : keeps redis_of c → keeps iredis (on_world c : M W A).
Proof. intros Hc. unfold on_world. by apply (keeps_lift_in iredis redis_of). Qed.
Lemma keeps_GetAllPid : keeps redis_of GetAllPid.
Proof. unfold GetAllPid. solve_keeps. Qed.

#[local] Hint Resolve keeps_world_host keeps_kv_host keeps_kv_world keeps_log_world keeps_log_kv keeps_set_world keeps_set_host keeps_redis_kv
  keeps_redis_host keeps_log_host keeps_set_kv keeps_set_SMembers keeps_iredis_read keeps_GetAllPid
  kv_HGetAll_view kv_SIsMember_view sh_now_log sh_NewProcess_log sh_Username_log sh_CreateTime_log
  sh_Cmdline_log sh_IsRunning_log sh_DiskUsage_log sh_VirtualMemory_log : keeps.

Lemma exec_log (n : string) (args : list string) (w w' : W) r :
  on_host (sh_exec n args) w = (w', r) → ilog w' = ilog w ++ [(n, args)].
Proof. unfold on_host. intros E. run_inv. unfold ilog. cbn. by eapply sh_exec_log. Qed.

Lemma exec_killed n args (w w' : W) r :
  on_host (sh_exec n args) w = (w', r) →
  killed w' = killed w ++ match kill_target (n, args) with Some s => [s] | None => [] end.
Proof.
  intros E%exec_log. unfold killed. by rewrite E, omap_app.
Qed.

Lemma keeps_killed {A} (c : M W A) : keeps ilog c → keeps killed c.
Proof. intros Hc w w' a E. unfold killed. by rewrite (Hc _ _ _ E). Qed.
Lemma keeps_query args : kill_target (smi, args) = None → keeps killed (on_host (sh_exec smi args) : M W _).
Proof. intros Hk w w' a E%exec_killed. by rewrite E, Hk, app_nil_r. Qed.
#[local] Hint Extern 1 (keeps killed (on_host (sh_exec smi _))) =>
  (apply keeps_query; reflexivity) : keeps.
#[local] Hint Extern 3 (keeps killed _) => (apply keeps_killed) : keeps.

Lemma keeps_duration_of p : keeps ilog (duration_of p : M W _).
Proof. unfold duration_of. solve_keeps. Qed.
#[local] Hint Resolve keeps_duration_of : keeps.
Lemma keeps_GetProcessDurations : keeps killed (GetProcessDurations : M W _).
Proof. unfold GetProcessDurations. solve_keeps. Qed.
Lemma keeps_GetGPUPIDs : keeps killed (GetGPUPIDs : M W _).
Proof. unfold GetGPUPIDs. solve_keeps. Qed.
Lemma keeps_isProcessInGPU pid : keeps killed (isProcessInGPU pid : M W _).
Proof. pose proof keeps_GetGPUPIDs. unfold isProcessInGPU. solve_keeps. Qed.
Lemma keeps_durations_world : keeps iw_world (GetProcessDurations : M W _).
Proof. unfold GetProcessDurations, duration_of. solve_keeps. Qed.
Lemma keeps_durations_kv : keeps iw_kv (GetProcessDurations : M W _).
Proof. unfold GetProcessDurations, duration_of. solve_keeps. Qed.
Lemma keeps_system_kv : keeps iw_kv (system_pid_set : M W _).
Proof. unfold system_pid_set. solve_keeps. Qed.
Lemma keeps_system_pid_set : keeps ilog (system_pid_set : M W _).
Proof. unfold system_pid_set. solve_keeps. Qed.
Lemma keeps_retained_pid_set : keeps ilog (retained_pid_set : M W _).
Proof. unfold retained_pid_set. solve_keeps. Qed.
#[local] Hint Resolve keeps_durations_world keeps_durations_kv keeps_system_kv keeps_GetProcessDurations keeps_isProcessInGPU keeps_system_pid_set
  keeps_retained_pid_set : keeps.

(** ** The checker *)

(** The processes a check ends, from what it read. *)
Definition to_kill (system retained : gset string) (maxSeconds : Z) (l : list ProcessDuration)
  : list Z :=
  omap (λ proc,
    let pid := ProcessDuration.PID proc in
    if bool_decide (pid ∈ system) || bool_decide (pid ∈ retained) then None
    else if maxSeconds <? ProcessDuration.RunningDurationSecs proc
         then match Atoi pid with Ok p => Some p | Err _ => None end
         else None) l.

Lemma terminateProcess_killed pid (w w' : W) r :
  terminateProcess pid w = (w', r) → killed w' = killed w ++ [Itoa pid].
Proof. unfold terminateProcess. intros E. run_inv. by apply exec_killed in E0. Qed.

Lemma check_process_killed sy re m proc (w w' : W) :
  check_process sy re m proc w = (w', tt) →
  killed w' = killed w ++ (Itoa <$> to_kill sy re m [proc]).
Proof.
  unfold check_process, to_kill. cbn. intros E.
  destruct (_ || _) eqn:Ex; [run_inv; by rewrite app_nil_r|].
  destruct (_ <? _); [|run_inv; by rewrite app_nil_r].
  destruct (Atoi _); run_inv; [|by rewrite app_nil_r].
  by eapply terminateProcess_killed.
Qed.

Lemma check_loop_killed sy re m l (w w' : W) :
  for_each l (check_process sy re m) w = (w', tt) →
  killed w' = killed w ++ (Itoa <$> to_kill sy re m l).
Proof.
  revert w. induction l as [|proc l IH]; intros w E; cbn in E.
  - run_inv. cbn. by rewrite app_nil_r.
  - run_inv. rewrite (IH _ E), (check_process_killed _ _ _ _ _ _ E0), <-app_assoc, <-fmap_app.
    unfold to_kill. by rewrite <-omap_app.
Qed.

Lemma parse_pids_elem l ns ps k v p :
  parse_pids l = Ok (ns, ps) → (k, v) ∈ l → Atoi k = Ok p → p ∈ ps.
Proof.
  revert ns ps. induction l as [|[k' v'] l IH]; cbn; intros ns ps E Hin Hk;
    [by apply elem_of_nil in Hin|].
  destruct (Atoi k') eqn:Ek; [|done]. destruct (parse_pids l) as [[ns' ps']|]; [|done].
  injection E as <- <-. apply elem_of_cons in Hin as [[= -> ->]|Hin].
  - rewrite Hk in Ek. injection Ek as ->. by left.
  - right. by eapply IH.
Qed.

(** The set of system processes has every process of the cache, or the cache
    could not be read. *)
Lemma system_pid_set_spec (w w' : W) s :
  system_pid_set w = (w', s) →
  ∀ p, in_int64 p = true → is_Some (hget PidKey (iredis w) !! Itoa p) →
    Itoa p ∈ s ∨ ∃ e, snd (GetAllPid (iw_world w)) = Err e.
Proof.
  unfold system_pid_set. intros E p Hp [x Hx]. open_bind E as w1 r E1. unfold on_world in E1. run_inv.
  destruct r as [[ns ps]|e]; cbn.
  - left. unfold GetAllPid in E. open_bind E as w1 r E1. destruct r as [h|]; [|done]. w_inv.
    apply elem_of_list_to_set, list_elem_of_fmap. exists p. split; [done|].
    eapply parse_pids_elem; [done| |by apply Atoi_Itoa].
    apply elem_of_map_to_list. by rewrite (rd_hgetall_ok _ _ _ _ E).
  - right. by exists e.
Qed.

Lemma retained_pid_set_spec (w w' : W) s :
  retained_pid_set w = (w', s) →
  s = retained_of w ∨ ∃ e, snd (kv_SMembers RedisKeyRetainedPIDs (iw_kv w)) = Err e.
Proof.
  unfold retained_pid_set, on_kv. intros E. run_inv. destruct a as [l|e].
  - left. apply kv_SMembers_ok in E. rewrite E. by rewrite list_to_set_elements_L.
  - right. by exists e.
Qed.

(** The answer of [nvidia-smi] to the next question for processes prints
    process numbers in plain decimal. *)
Definition plain_pids (h : H) : Prop :=
  ∀ h' out x p, sh_exec smi apps_query h = (h', CmdOk out) →
    x ∈ pid_words out → Atoi x = Ok p → Itoa p = x.

Lemma duration_of_PID x (w w' : W) d :
  duration_of x w = (w', Some d) → ProcessDuration.PID d = x.
Proof.
  unfold duration_of. intros E. destruct (Atoi x); [|done].
  open_bind E as w1 q E1. destruct q as [q|]; [|done].
  open_bind E as w2 t E2. destruct t as [t []]; [done|]. by run_inv.
Qed.

Lemma collect_durations l (w w' : W) ds d :
  for_collect l duration_of w = (w', ds) → d ∈ omap id ds → ProcessDuration.PID d ∈ l.
Proof.
  revert w ds. induction l as [|x l IH]; cbn; intros w ds E Hd; run_inv;
    [by apply elem_of_nil in Hd|].
  destruct a as [y|]; cbn in Hd; [|right; by eapply IH].
  apply elem_of_cons in Hd as [->|Hd]; [|right; by eapply IH].
  apply duration_of_PID in E0 as <-. by left.
Qed.

Lemma durations_plain (w w' : W) l d p :
  plain_pids (iw_host w) → GetProcessDurations w = (w', Ok l) → d ∈ l →
  Atoi (ProcessDuration.PID d) = Ok p → Itoa p = ProcessDuration.PID d.
Proof.
  unfold GetProcessDurations. intros Hpl E Hd Hp. open_bind E as w1 r E1.
  unfold on_host in E1. run_inv. destruct r as [out|e|e]; run_inv.
  - eapply Hpl; [done| |done]. by eapply collect_durations.
  - by apply elem_of_nil in Hd.
Qed.

Lemma to_kill_elem sy re m l p :
  p ∈ to_kill sy re m l →
  ∃ d, d ∈ l ∧ Atoi (ProcessDuration.PID d) = Ok p ∧ m < ProcessDuration.RunningDurationSecs d ∧
       ProcessDuration.PID d ∉ sy ∧ ProcessDuration.PID d ∉ re.
Proof.
  unfold to_kill. rewrite list_elem_of_omap. intros (d & Hd & Hp). exists d.
  destruct (_ || _) eqn:Ex; [done|]. apply orb_false_iff in Ex as [Hs Hr].
  destruct (_ <? _) eqn:El; [|done]. destruct (Atoi _) eqn:Ea; [|done].
  apply bool_decide_eq_false in Hs, Hr. simplify_eq. split_and!; auto. lia.
Qed.

(** The state in which a check reads the processes: the configuration has
    been read. *)
Definition after_config (w : W) : W := put_ikv (fst (kv_HGetAll RedisKeyConfig (iw_kv w))) w.

Lemma checkAndTerminate_cases (w w' : W) :
  checkAndTerminate w = (w', tt) →
  killed w' = killed w ∨
  conf_enabled (config_of w) = true ∧
  ∃ v' l sy re,
    GetProcessDurations (after_config w) = (v', Ok l) ∧
    killed w' = killed w ++ (Itoa <$> to_kill sy re (conf_seconds (config_of w)) l) ∧
    (∀ p, in_int64 p = true → is_Some (hget PidKey (iredis w) !! Itoa p) →
       Itoa p ∈ sy ∨ ∃ e, snd (GetAllPid (iw_world w)) = Err e) ∧
    (re = retained_of w ∨
     ∃ e, snd (kv_SMembers RedisKeyRetainedPIDs (iw_kv (after_config w))) = Err e).
Proof.
  unfold checkAndTerminate. intros E.
  open_bind E as w1 r E1. frame_fact killed E1. frame_fact iset E1.
  assert (w1 = after_config w) as -> by (unfold on_kv in E1; unfold after_config; by run_inv).
  destruct r as [config|]; [|run_inv; by left].
  assert (config = config_of w) as ->.
  { unfold on_kv in E1. run_inv. by eapply kv_HGetAll_ok. }
  destruct (conf_enabled _) eqn:Een; cbn [negb] in E; [|run_inv; by left].
  open_bind E as w2 r E2. frame_fact killed E2. frame_fact (iw_world (K := K) (H := H)) E2.
  frame_fact (iw_kv (K := K) (H := H)) E2.
  destruct r as [l|]; [|run_inv; left; congruence].
  open_bind E as w3 sy E3. open_bind E as w4 re E4.
  frame_fact killed E3. frame_fact killed E4. frame_fact (iw_kv (K := K) (H := H)) E3.
  pose proof (system_pid_set_spec _ _ _ E3) as Hsy. apply retained_pid_set_spec in E4.
  apply check_loop_killed in E. right. split; [done|]. exists w2, l, sy, re.
  unfold retained_of, iset, iredis in *. rewrite K7, K4, K1 in E4. rewrite K3 in Hsy.
  split_and!; auto. congruence.
Qed.

(** C25: The automatic checker ends a process only when the switch is on and
    the process was read from the card and the process table as running for
    longer than the limit.  It never ends the process of a job (a process in
    the cache of the scheduler) nor a retained one, unless the read of the
    cache, or of the retained set, fails during the check. *)
Theorem auto_terminate_spares (w w' : W) s :
  checkAndTerminate w = (w', tt) → plain_pids (iw_host w) →
  ∃ ks, killed w' = killed w ++ ks ∧
  (s ∈ ks →
    conf_enabled (config_of w) = true ∧
    (∃ v' l d, GetProcessDurations (after_config w) = (v', Ok l) ∧ d ∈ l ∧
       ProcessDuration.PID d = s ∧
       conf_seconds (config_of w) < ProcessDuration.RunningDurationSecs d) ∧
    (is_Some (hget PidKey (iredis w) !! s) → ∃ e, snd (GetAllPid (iw_world w)) = Err e) ∧
    (s ∈ retained_of w →
       ∃ e, snd (kv_SMembers RedisKeyRetainedPIDs (iw_kv (after_config w))) = Err e)).
Proof.
  intros E Hpl. apply checkAndTerminate_cases in E as
    [E|(Hen & v' & l & sy & re & Ed & Hk & Hsy & Hre)].
  { exists []. split; [by rewrite app_nil_r|by intros ?%elem_of_nil]. }
  exists (Itoa <$> to_kill sy re (conf_seconds (config_of w)) l). split; [done|].
  intros (p & -> & Hp)%list_elem_of_fmap.
  apply to_kill_elem in Hp as (d & Hd & Ha & Hm & Hns & Hnr).
  assert (in_int64 p = true) as Hi.
  { unfold Atoi in Ha. repeat case_match; by simplify_eq. }
  assert (Itoa p = ProcessDuration.PID d) as Heq by by eapply (durations_plain (after_config w)).
  rewrite <-Heq in Hns, Hnr. split_and!; [done| | |].
  - exists v', l, d. by split_and!.
  - intros Hc. by destruct (Hsy p Hi Hc).
  - intros Hr. destruct Hre as [->|?]; done.
Qed.

(** C26: A check whose reads succeed ends exactly the processes that are
    overdue and neither in the cache of the scheduler nor retained, in the
    order in which the cards list them; with the switch off it ends none. *)
Theorem auto_terminate_exact (w w' v' : W) l names pids rs :
  checkAndTerminate w = (w', tt) →
  is_ok (snd (kv_HGetAll RedisKeyConfig (iw_kv w))) = true →
  GetProcessDurations (after_config w) = (v', Ok l) →
  snd (GetAllPid (iw_world w)) = Ok (names, pids) →
  snd (kv_SMembers RedisKeyRetainedPIDs (iw_kv (after_config w))) = Ok rs →
  killed w' = killed w ++
    (if conf_enabled (config_of w)
     then Itoa <$> to_kill (list_to_set (Itoa <$> pids)) (retained_of w) (conf_seconds (config_of w)) l
     else []).
Proof.
  unfold checkAndTerminate. intros E Hok Hl Hp Hr.
  open_bind E as w1 r E1. frame_fact killed E1. frame_fact iset E1.
  assert (w1 = after_config w ∧ is_ok r = true) as [-> Hr'].
  { unfold on_kv in E1. unfold after_config. run_inv. done. }
  destruct r as [config|]; [|done]. assert (config = config_of w) as ->.
  { unfold on_kv in E1. run_inv. by eapply kv_HGetAll_ok. }
  destruct (conf_enabled _) eqn:Een; cbn [negb] in E; [|run_inv; by rewrite app_nil_r].
  open_bind E as w2 r E2. frame_fact killed E2. frame_fact (iw_world (K := K) (H := H)) E2.
  frame_fact (iw_kv (K := K) (H := H)) E2. rewrite E2 in Hl. injection Hl as -> ->.
  open_bind E as w3 sy E3. open_bind E as w4 re E4.
  frame_fact killed E3. frame_fact killed E4. frame_fact (iw_kv (K := K) (H := H)) E3.
  apply check_loop_killed in E. rewrite E, K6, K5, K2, K0. repeat f_equal.
  - unfold system_pid_set, on_world in E3. run_inv; rewrite K3 in E3; rewrite E3 in Hp;
      by simplify_eq/=.
  - apply retained_pid_set_spec in E4 as [->|[e He]]; unfold retained_of, iset in *; congruence.
Qed.

(** ** Manual termination and retention *)

Lemma isProcessInGPU_ok pid (w w' : W) b :
  isProcessInGPU pid w = (w', Ok b) →
  b = true → ∃ h out, sh_exec smi apps_query (iw_host w) = (h, CmdOk out) ∧ Itoa pid ∈ pid_words out.
Proof.
  unfold isProcessInGPU, GetGPUPIDs, on_host. intros E ->. run_inv.
  destruct a0 as [out|e|e]; simplify_eq/=.
  apply bool_decide_eq_true in H1. exists s, out. split; [done|]. set_solver.
Qed.

(** A manual termination runs one kill command, for the process that was
    asked for, only when that process is on a card; it reports success exactly
    when the command succeeded, and every failure has its code. *)
Theorem TerminateProcess_spec pid (w w' : W) r :
  TerminateProcess pid w = (w', r) →
  (killed w' = killed w ∧
     (r = Err (New CodeInternalError "检查进程状态失败") ∨
      r = Err (New CodeBadRequest "进程不存在或不在 GPU 上运行"))) ∨
  (killed w' = killed w ++ [Itoa pid] ∧
     (r = Ok tt ∨ r = Err (New CodeInternalError "终止进程失败")) ∧
     ∃ h out, sh_exec smi apps_query (iw_host w) = (h, CmdOk out) ∧ Itoa pid ∈ pid_words out).
Proof.
  unfold TerminateProcess. intros E. open_bind E as w1 b E1. frame_fact killed E1.
  destruct b as [[]|]; [|run_inv; auto..].
  apply isProcessInGPU_ok in E1; [|done]. right.
  open_bind E as w2 k E2. apply terminateProcess_killed in E2. rewrite K0 in E2.
  destruct k; run_inv; auto.
Qed.

(** A retained process is on a card; nothing else changes in Redis. *)
Theorem RetainProcess_spec pid (w w' : W) r :
  RetainProcess pid w = (w', r) →
  killed w' = killed w ∧
  iset w' = (if is_ok r then put_set RedisKeyRetainedPIDs ({[Itoa pid]} ∪ retained_of w) (iset w)
             else iset w) ∧
  (r = Ok tt →
   ∃ h out, sh_exec smi apps_query (iw_host w) = (h, CmdOk out) ∧ Itoa pid ∈ pid_words out).
Proof.
  unfold RetainProcess. intros E. open_bind E as w1 b E1. frame_fact killed E1.
  assert (iset w1 = iset w) as K1.
  { refine ((_ : keeps iset (isProcessInGPU pid : M W _)) _ _ _ E1).
    unfold isProcessInGPU, GetGPUPIDs. solve_keeps. }
  destruct b as [[]|]; [|run_inv; split_and!; by auto..].
  apply isProcessInGPU_ok in E1; [|done].
  open_bind E as w2 k E2. frame_fact killed E2.
  apply on_kv_inv in E2 as (k' & E3 & ->). apply kv_SAdd_spec in E3.
  destruct k; run_inv; unfold retained_of, iset in *; cbn in *; rewrite ?K1 in E3;
    split_and!; congruence || auto.
Qed.

Theorem CancelRetain_spec pid (w w' : W) r :
  CancelRetain pid w = (w', r) →
  killed w' = killed w ∧
  iset w' = (if is_ok r then put_set RedisKeyRetainedPIDs (retained_of w ∖ {[Itoa pid]}) (iset w)
             else iset w) ∧
  (r = Ok tt → Itoa pid ∈ retained_of w) ∧
  (r = Err (New CodeBadRequest "该进程未被保留") → Itoa pid ∉ retained_of w).
Proof.
  unfold CancelRetain. intros E. open_bind E as w1 b E1. frame_fact killed E1. frame_fact iset E1.
  assert (∀ x, b = Ok x → x = bool_decide (Itoa pid ∈ retained_of w)) as Hb.
  { intros x ->. apply on_kv_inv in E1 as (k' & E1 & _). by apply kv_SIsMember_ok in E1. }
  destruct b as [[]|]; [|run_inv; split_and!; auto; try done..].
  - specialize (Hb _ eq_refl). symmetry in Hb. apply bool_decide_eq_true in Hb.
    open_bind E as w2 k E2. frame_fact killed E2.
    apply on_kv_inv in E2 as (k' & E3 & ->). apply kv_SRem_spec in E3.
    destruct k; run_inv; unfold retained_of, iset in *; cbn in *; rewrite ?K1 in E3;
      split_and!; congruence || auto || by intros [=].
  - intros _. specialize (Hb _ eq_refl). symmetry in Hb. by apply bool_decide_eq_false in Hb.
Qed.

(** ** Configuration *)

Lemma ParseBool_FormatBool b : ParseBool (FormatBool b) = Ok b.
Proof. by destruct b. Qed.

(** The checker and the page read the switch alike, and the limit too, except
    that the page shows the default for a limit of zero. *)
Lemma checker_reads_config (config : gmap string string) :
  conf_enabled config = ConfigResponse.AutoTerminateEnabled (config_response config) ∧
  (conf_minutes config ≠ 0 →
   conf_minutes config = ConfigResponse.MaxDurationMinutes (config_response config)).
Proof.
  unfold conf_enabled, conf_minutes, config_response. cbn. split.
  - destruct (config !! key_enabled) as [v|]; cbn; [|done].
    destruct (String.eqb_spec v ""); [by subst|done].
  - destruct (config !! key_minutes) as [v|]; cbn; [|done].
    destruct (String.eqb_spec v ""); [by subst|].
    destruct (Atoi v) as [d|]; [|done]. intros Hd. destruct (Z.eqb_spec d 0); done.
Qed.

Lemma config_fields_response enabled duration (old : gmap string string) :
  (∀ d, duration = Some d → d ≠ 0 ∧ in_int64 d = true) →
  config_response (config_fields enabled duration ∪ old) =
  ConfigResponse.mkConfigResponse
    (default (ConfigResponse.AutoTerminateEnabled (config_response old)) enabled)
    (default (ConfigResponse.MaxDurationMinutes (config_response old)) duration).
Proof.
  intros Hd. assert (key_enabled ≠ key_minutes) as Hne by done.
  unfold config_response, config_fields. cbn. f_equal.
  - destruct enabled as [b|], duration as [d|]; cbn;
      rewrite lookup_union, ?lookup_insert_ne, ?lookup_insert_eq, ?lookup_empty by done; cbn;
      try (rewrite union_Some_l; cbn; by rewrite ParseBool_FormatBool);
      by rewrite (left_id_L None (∪)).
  - destruct duration as [d|]; cbn; rewrite lookup_union, ?lookup_insert_eq; cbn.
    + destruct (Hd d eq_refl) as [H0 Hi].
      rewrite union_Some_l. cbn. rewrite (Atoi_Itoa _ Hi). by destruct (Z.eqb_spec d 0).
    + destruct enabled; rewrite ?lookup_insert_ne, lookup_empty by done;
        by rewrite (left_id_L None (∪)).
Qed.

Lemma UpdateConfig_ok enabled duration (w w' : W) :
  UpdateConfig enabled duration w = (w', Ok tt) →
  iset w' = iset w ∧ config_of w' = config_fields enabled duration ∪ config_of w.
Proof.
  unfold UpdateConfig. destruct (bool_decide _); [done|]. intros E.
  open_bind E as w1 r E1. apply on_kv_inv in E1 as (k' & E1 & ->). destruct r; [|done]. run_inv.
  apply kv_HSet_spec in E1 as [Hv Hh]. split; [done|].
  unfold config_of, hash_of in *. cbn in *. by rewrite Hh, lookup_insert_eq.
Qed.

(** A configuration update that reports success is what the next read of
    the configuration shows and what the checker uses: the fields of the
    request have the new values, the others the old ones, and the retained
    set is untouched. *)
Theorem config_roundtrip enabled duration (w w' : W) k h :
  ctrl_UpdateConfig enabled duration w = (w', Ok tt) →
  (∀ d, duration = Some d → in_int64 d = true) →
  kv_HGetAll RedisKeyConfig (iw_kv w') = (k, Ok h) →
  let old := config_response (config_of w) in
  let new := snd (GetConfig w') in
  new = ConfigResponse.mkConfigResponse
          (default (ConfigResponse.AutoTerminateEnabled old) enabled)
          (default (ConfigResponse.MaxDurationMinutes old) duration) ∧
  conf_enabled (config_of w') = ConfigResponse.AutoTerminateEnabled new ∧
  (is_Some duration → conf_minutes (config_of w') = ConfigResponse.MaxDurationMinutes new) ∧
  retained_of w' = retained_of w.
Proof.
  intros E Hi Hk old new.
  assert (UpdateConfig enabled duration w = (w', Ok tt) ∧ ∀ d, duration = Some d → 1 ≤ d) as [Eu Hd].
  { unfold ctrl_UpdateConfig in E. destruct duration as [d|]; [|done].
    destruct (Z.ltb_spec d 1); [done|]. split; [done|]. intros ? [= <-]. lia. }
  apply UpdateConfig_ok in Eu as [Hv Hc].
  assert (new = config_response (config_of w')) as Hnew.
  { subst new. unfold GetConfig, mbind, M_bind, on_kv, lift. rewrite Hk. cbn. f_equal.
    by eapply kv_HGetAll_ok. }
  assert (∀ d, duration = Some d → d ≠ 0 ∧ in_int64 d = true) as Hd'.
  { intros d Hd0. specialize (Hd d Hd0). split; [lia|auto]. }
  split_and!.
  - rewrite Hnew, Hc. by apply config_fields_response.
  - rewrite Hnew. apply checker_reads_config.
  - intros [d ->]. rewrite Hnew. apply checker_reads_config. rewrite Hc. unfold conf_minutes.
    rewrite lookup_union. unfold config_fields. rewrite lookup_insert_eq, union_Some_l.
    destruct (Hd' d eq_refl) as [H0 H1]. rewrite (Atoi_Itoa _ H1).
    destruct (String.eqb_spec (Itoa d) ""); [by apply Itoa_nonempty in e|done].
  - unfold retained_of. by rewrite Hv.
Qed.

(** ** The cleaner *)

(** A process number is removed from the retained set only after the process
    table answered that the process does not run. *)
Lemma clean_one_keeps x p (w w' : W) :
  (∀ v : W, snd (isProcessRunning p v) = true) → in_int64 p = true →
  clean_one x w = (w', tt) → Itoa p ∈ retained_of w → Itoa p ∈ retained_of w'.
Proof.
  unfold clean_one. intros Hrun Hp E Hin. destruct (Atoi x) as [q|] eqn:Eq; [|by run_inv].
  open_bind E as w1 b E1.
  assert (iset w1 = iset w) as Ks.
  { refine ((_ : keeps iset (isProcessRunning q : M W _)) _ _ _ E1). unfold isProcessRunning. solve_keeps. }
  unfold retained_of in *. destruct b; [run_inv; by rewrite Ks|].
  assert (p ≠ q) as Hne.
  { intros ->. specialize (Hrun w). by rewrite E1 in Hrun. }
  open_bind E as w2 r E2. injection E as <-. apply on_kv_inv in E2 as (k' & E2 & ->).
  apply kv_SRem_spec in E2. unfold iset in *. cbn. rewrite E2.
  destruct r; cbn; [|by rewrite Ks].
  unfold members at 1. cbn. rewrite lookup_insert_eq. cbn. apply elem_of_difference. rewrite Ks.
  split; [done|]. intros <-%elem_of_singleton. rewrite (Atoi_Itoa _ Hp) in Eq. congruence.
Qed.

Theorem cleanup_keeps_running p (w w' : W) :
  (∀ v : W, snd (isProcessRunning p v) = true) → in_int64 p = true →
  cleanupRetainedTasks w = (w', tt) → Itoa p ∈ retained_of w → Itoa p ∈ retained_of w'.
Proof.
  unfold cleanupRetainedTasks. intros Hrun Hp E Hin. open_bind E as w1 r E1.
  frame_fact iset E1. unfold retained_of in Hin. rewrite <-K0 in Hin. clear E1 K0.
  destruct r as [l|]; [|by run_inv]. revert w1 E Hin.
  induction l as [|x l IH]; cbn; intros w1 E Hin; [by run_inv|].
  open_bind E as w2 u E2. destruct u. eapply IH; [done|]. by eapply (clean_one_keeps x p w1).
Qed.

(** ** Classification *)

(** The loop splits the processes in two, in their order. *)
Lemma classify_filter system retained l :
  classify system retained l =
  (as_system <$> List.filter (λ p, bool_decide (ProcessInfo.PID p ∈ system)) l,
   as_server retained <$> List.filter (λ p, negb (bool_decide (ProcessInfo.PID p ∈ system))) l).
Proof.
  induction l as [|p l IH]; [done|]. cbn. rewrite IH. by destruct (bool_decide _).
Qed.

End SystemInfoProps.

(** ** Executions *)

(** Redis in memory with hashes and a script of faults. *)
Record hview : Type := mkHview { hv_kv : kview; hv_hash : gmap string (gmap string string) }.
Definition on_hkv (f : kview → kview) (d : hview) : hview := mkHview (f (hv_kv d)) (hv_hash d).

#[local] Arguments with_fault : simpl never.
Ltac fault_cases :=
  match goal with
  | E : with_fault _ _ = _ |- _ => apply with_fault_inv in E as [[]|E]; simplify_eq/=
  end.

#[export] Instance mem_hkv : Kv (mem hview) := {
  kv_view s := hv_kv (m_data s);
  kv_Set k x _ := with_fault (λ d, (on_hkv (put_str k x) d, Ok tt));
  kv_Get k := with_fault (λ d,
    (d, match kv_str (hv_kv d) !! k with Some x => Ok x | None => Err ErrRedisNil end));
  kv_Del k := with_fault (λ d, (on_hkv (del_key k) d, Ok tt));
  kv_SAdd k m := with_fault (λ d, (on_hkv (λ v, put_set k ({[m]} ∪ members k v) v) d, Ok tt));
  kv_SRem k m := with_fault (λ d, (on_hkv (λ v, put_set k (members k v ∖ {[m]}) v) d, Ok tt));
  kv_SMembers k := with_fault (λ d, (d, Ok (elements (members k (hv_kv d)))))
}.
#[export] Instance mem_hkv_laws : KvLaws (mem hview).
Proof.
  split; cbn; intros; fault_cases; repeat case_match; simplify_eq/=; try congruence;
    (done || by rewrite <-H).
Qed.

#[export] Instance mem_hash : HashKv (mem hview) := {
  kv_hash s := hv_hash (m_data s);
  kv_SIsMember k m := with_fault (λ d, (d, Ok (bool_decide (m ∈ members k (hv_kv d)))));
  kv_HSet k fs := with_fault (λ d,
    (mkHview (hv_kv d) (<[k := fs ∪ default ∅ (hv_hash d !! k)]> (hv_hash d)), Ok tt));
  kv_HGetAll k := with_fault (λ d, (d, Ok (default ∅ (hv_hash d !! k))))
}.
#[export] Instance mem_hash_laws : HashKvLaws (mem hview).
Proof.
  split; unfold keeps; cbn; intros; fault_cases; try congruence;
    first [done|by rewrite H|by rewrite <-H].
Qed.

(** A server in memory: the processes on the cards, the process table with
    creation times in milliseconds, the clock, and the answers of [nvidia-smi]
    to other questions. *)
Record mhost : Type := mkMhost {
  mh_log : list (string * list string); mh_apps : list Z; mh_table : gmap Z Z; mh_now : Z;
  mh_texts : list (string * string)
}.
Definition mh_run (n : string) (args : list string) (h : mhost) : mhost * cmd_result :=
  let log := mh_log h ++ [(n, args)] in
  let h' := mkMhost log (mh_apps h) (mh_table h) (mh_now h) (mh_texts h) in
  if String.eqb n "kill" then
    match Atoi (default ""%string (args !! 1%nat)) with
    | Ok pid => (mkMhost log (List.filter (λ p, negb (p =? pid)) (mh_apps h)) (delete pid (mh_table h))
                   (mh_now h) (mh_texts h), CmdOk "")
    | Err e => (h', CmdFailed e)
    end
  else if bool_decide (args = apps_query)
  then (h', CmdOk (Join nl (Itoa <$> mh_apps h) +:+ nl))
  else match List.find (λ t, String.eqb t.1 (default "" (head args))%string) (mh_texts h) with
       | Some t => (h', CmdOk t.2)
       | None => (h', CmdFailed (ErrExt 0))
       end.
#[export] Instance mem_host : SysHost mhost Z := {
  sh_log := mh_log;
  sh_exec := mh_run;
  sh_now h := (h, mh_now h);
  sh_NewProcess pid h := (h, if mh_table h !! pid then Ok pid else Err (ErrExt 1));
  sh_Username _ h := (h, ("root"%string, None));
  sh_CreateTime pid h := (h, (default 0 (mh_table h !! pid), None));
  sh_Cmdline _ h := (h, (""%string, Some (ErrExt 2)));
  sh_IsRunning pid h := (h, Ok (if mh_table h !! pid then true else false));
  sh_DiskUsage _ h := (h, Err (ErrExt 3));
  sh_VirtualMemory h := (h, Err (ErrExt 3))
}.
#[export] Instance mem_host_laws : SysHostLaws mhost Z.
Proof.
  split; unfold keeps; cbn; [|by intros; simplify_eq..].
  intros n args h h' r. unfold mh_run. repeat case_match; by intros [= <- <-].
Qed.

(** Process 100 belongs to a job, 200 is retained, 300 and 400 are neither;
    400 has run for ten seconds, the others for a thousand. *)
Definition demo_info (cache : gmap string string) (minutes : string) (faults : list bool) : iworld :=
  mkIworld
    (mem_world [] [] [] [] (mkRview ∅ {[PidKey := cache]} ∅) (mkScript 0 [] [] [] [] [] [])
       eq_refl eq_refl eq_refl eq_refl)
    (mkMem (mkHview (mkKview ∅ {[RedisKeyRetainedPIDs := {["200"%string]}]})
              {[RedisKeyConfig := <[key_enabled := "true"%string]> {[key_minutes := minutes]}]}) faults)
    (mkMhost [] [100; 200; 300; 400] (<[100 := 0]> (<[200 := 0]> (<[300 := 0]> {[400 := 990000]})))
       (1000 * 10 ^ 9) []).
Definition cache_ok : gmap string string := {["100"%string := "train"%string]}.
Definition ended (w : iworld (B := mem_backend) (K := mem hview) (H := mhost)) : list string :=
  killed (fst (checkAndTerminate w)).

Example check_demo : ended (demo_info cache_ok "3" []) = ["300"%string].
Proof. vm_compute. reflexivity. Qed.
(** When the retained set cannot be read, retained processes are ended. *)
Example retained_read_fails : ended (demo_info cache_ok "3" [false; true]) = ["200"; "300"]%string.
Proof. vm_compute. reflexivity. Qed.
(** One field of the cache that is no number makes its read fail, and the
    processes of all jobs are ended. *)
Example cache_read_fails :
  ended (demo_info (<["x" := "?"]> cache_ok)%string "3" []) = ["100"; "300"]%string.
Proof. vm_compute. reflexivity. Qed.
(** A very long limit overflows and becomes negative: every process that is
    not protected is ended at once. *)
Example limit_overflow :
  is_ok (snd (ctrl_UpdateConfig None (Some 153722867280912931)
                (demo_info cache_ok "3" []))) = true ∧
  ended (fst (ctrl_UpdateConfig None (Some 153722867280912931) (demo_info cache_ok "3" [])))
  = ["300"; "400"]%string.
Proof. vm_compute. split; reflexivity. Qed.
(** A stored limit of zero is shown as three minutes and used as zero. *)
Example zero_limit :
  ConfigResponse.MaxDurationMinutes (snd (GetConfig (demo_info cache_ok "0" []))) = 3 ∧
  ended (demo_info cache_ok "0" []) = ["300"; "400"]%string.
Proof. vm_compute. split; reflexivity. Qed.

Definition demo_w : iworld (B := mem_backend) (K := mem hview) (H := mhost) :=
  demo_info cache_ok "3" [].

Lemma demo_plain : plain_pids (iw_host demo_w).
Proof.
  intros h' out x p E Hx Ha.
  assert (pid_words out = Itoa <$> [100; 200; 300; 400]) as Hw.
  { apply (f_equal snd) in E. vm_compute in E. injection E as <-. vm_compute. reflexivity. }
  rewrite Hw in Hx. apply list_elem_of_fmap in Hx as (z & -> & Hz).
  assert (in_int64 z = true) as Hi.
  { repeat (apply elem_of_cons in Hz as [->|Hz]; [done|]). by apply elem_of_nil in Hz. }
  rewrite (Atoi_Itoa _ Hi) in Ha. by injection Ha as <-.
Qed.

Lemma auto_terminate_spares_witness :
  ∃ ks, killed (fst (checkAndTerminate demo_w)) = killed demo_w ++ ks ∧
    ("300"%string ∈ ks → conf_enabled (config_of demo_w) = true).
Proof.
  destruct (auto_terminate_spares demo_w (fst (checkAndTerminate demo_w)) "300") as (ks & Hk & Hs).
  - apply run_eq. reflexivity.
  - apply demo_plain.
  - exists ks. split; [exact Hk|]. intros Hin. apply Hs, Hin.
Defined.

Lemma auto_terminate_exact_witness :
  killed (fst (checkAndTerminate demo_w)) = ["300"%string].
Proof.
  refine (eq_trans (auto_terminate_exact demo_w (fst (checkAndTerminate demo_w))
    (fst (GetProcessDurations (after_config demo_w)))
    [ProcessDuration.mkProcessDuration "100" 1000; ProcessDuration.mkProcessDuration "200" 1000;
     ProcessDuration.mkProcessDuration "300" 1000; ProcessDuration.mkProcessDuration "400" 10]
    ["train"%string] [100] ["200"%string] _ _ _ _ _) _).
  - apply run_eq. reflexivity.
  - vm_compute. reflexivity.
  - apply run_eq. vm_compute. reflexivity.
  - vm_compute. reflexivity.
  - vm_compute. reflexivity.
  - vm_compute. reflexivity.
Defined.

Lemma TerminateProcess_spec_witness :
  killed (fst (TerminateProcess 100 demo_w)) = ["100"%string].
Proof.
  destruct (TerminateProcess_spec 100 demo_w (fst (TerminateProcess 100 demo_w)) (Ok tt))
    as [[_ [Hr|Hr]]|[Hk _]]; [|done|done|exact Hk].
  apply run_eq. vm_compute. reflexivity.
Defined.

Lemma config_roundtrip_witness :
  snd (GetConfig (fst (ctrl_UpdateConfig (Some false) (Some 5) demo_w)))
  = ConfigResponse.mkConfigResponse false 5.
Proof.
  refine (proj1 (config_roundtrip (Some false) (Some 5) demo_w
    (fst (ctrl_UpdateConfig (Some false) (Some 5) demo_w))
    (fst (kv_HGetAll RedisKeyConfig (iw_kv (fst (ctrl_UpdateConfig (Some false) (Some 5) demo_w)))))
    (hash_of RedisKeyConfig (iw_kv (fst (ctrl_UpdateConfig (Some false) (Some 5) demo_w)))) _ _ _)).
  - apply run_eq. vm_compute. reflexivity.
  - intros d [= <-]. reflexivity.
  - apply run_eq. vm_compute. reflexivity.
Defined.
