(* ===== verification/Home.v ===== *)
(** * The home page (internal/service/home_service.go)

    The overview of cards, processes and jobs that the home page shows, and
    the collector that sends it to the connected administrators.  Running
    times travel as texts: [time.ParseDuration] reads back what
    [formatDuration] of the system information wrote. *)

From S2P Require Import Prelude GoStrings Float64 Errors Entity External MemBackend JobRepo WsPool SessionRepo Exec GoPath Shell FileService SystemInfo.

From Stdlib Require Import Ascii DecimalString DecimalZ.

Open Scope Z_scope.

(** ** [time.ParseDuration] *)

Definition digit_val (c : ascii) : option Z :=
  let n := Z.of_nat (nat_of_ascii c) in
  if (48 <=? n) && (n <=? 57) then Some (n - 48) else None.

(** [leadingInt]: the number in front and the rest; overflow beyond 2^63. *)
Fixpoint leadingInt (x : Z) (s : string) : result (Z * string) :=
  match s with
  | EmptyString => Ok (x, s)
  | String c r =>
      match digit_val c with
      | None => Ok (x, s)
      | Some d =>
          if 2 ^ 63 / 10 <? x then Err ErrRange
          else if 2 ^ 63 <? x * 10 + d then Err ErrRange
          else leadingInt (x * 10 + d) r
      end
  end.

(** [leadingFraction]: digits after an overflow are skipped. *)
Fixpoint leadingFraction (x scale : Z) (overflow : bool) (s : string) : Z * Z * string :=
  match s with
  | EmptyString => (x, scale, s)
  | String c r =>
      match digit_val c with
      | None => (x, scale, s)
      | Some d =>
          if overflow then leadingFraction x scale true r
          else if max_int64 / 10 <? x then leadingFraction x scale true r
          else if 2 ^ 63 <? x * 10 + d then leadingFraction x scale true r
          else leadingFraction (x * 10 + d) (scale * 10) false r
      end
  end.

(** The characters up to the next digit or point. *)
Fixpoint unit_word (s : string) : string * string :=
  match s with
  | EmptyString => (EmptyString, EmptyString)
  | String c r =>
      if Ascii.eqb c "." then (EmptyString, s)
      else match digit_val c with
           | Some _ => (EmptyString, s)
           | None => let '(u, rest) := unit_word r in (String c u, rest)
           end
  end.

(** Both signs for micro are in the table: U+00B5 and U+03BC. *)
Definition unitMap (u : string) : option Z :=
  if String.eqb u "ns" then Some 1
  else if bool_decide (u ∈ ["us"; "µs"; "μs"]%string) then Some (10 ^ 3)
  else if String.eqb u "ms" then Some (10 ^ 6)
  else if String.eqb u "s" then Some (10 ^ 9)
  else if String.eqb u "m" then Some (60 * 10 ^ 9)
  else if String.eqb u "h" then Some (3600 * 10 ^ 9)
  else None.

Definition bad_duration : error := ErrMsg "time: invalid duration".

(** [uint64(float64(f) * (float64(unit) / scale))]. *)
Definition fraction_part (f unit scale : Z) : Z :=
  f_to_int (round_quot (f_of_int f * f_div (f_of_int unit) (f_of_int scale)) f_one).

(** The number in front of a unit: its whole part, its fraction, the rest. *)
Definition number_part (s : string) : result (Z * Z * Z * string) :=
  match leadingInt 0 s with
  | Err _ => Err bad_duration
  | Ok (v, s1) =>
      let pre := negb (String.length s1 =? String.length s)%nat in
      match s1 with
      | String "." s2 =>
          let '(f, scale, s3) := leadingFraction 0 1 false s2 in
          let post := negb (String.length s3 =? String.length s2)%nat in
          if pre || post then Ok (v, f, scale, s3) else Err bad_duration
      | _ => if pre then Ok (v, 0, 1, s1) else Err bad_duration
      end
  end.

(** One number with its unit, in nanoseconds. *)
Definition duration_term (s : string) : result (Z * string) :=
  match number_part s with
  | Err e => Err e
  | Ok (v, f, scale, s3) =>
      let '(u, s4) := unit_word s3 in
      if String.eqb u "" then Err (ErrMsg "time: missing unit in duration")
      else match unitMap u with
      | None => Err (ErrMsg "time: unknown unit in duration")
      | Some unit =>
          if 2 ^ 63 / unit <? v then Err bad_duration
          else
            let v := v * unit in
            if 0 <? f then
              let v := (v + fraction_part f unit scale) mod 2 ^ 64 in
              if 2 ^ 63 <? v then Err bad_duration else Ok (v, s4)
            else Ok (v, s4)
      end
  end.

(** The loop; every turn consumes a character, so the length of the text is
    fuel enough. *)
Fixpoint duration_terms (fuel : nat) (d : Z) (s : string) : result Z :=
  match s with
  | EmptyString => Ok d
  | _ =>
      match fuel with
      | O => Err bad_duration
      | S k =>
          match duration_term s with
          | Err e => Err e
          | Ok (v, rest) =>
              let d := (d + v) mod 2 ^ 64 in
              if 2 ^ 63 <? d then Err bad_duration else duration_terms k d rest
          end
      end
  end.

Definition ParseDuration (s : string) : result Z :=
  let '(neg, s) := match s with
                   | String "-" r => (true, r)
                   | String "+" r => (false, r)
                   | _ => (false, s)
                   end in
  if String.eqb s "0" then Ok 0
  else if String.eqb s "" then Err bad_duration
  else match duration_terms (String.length s) 0 s with
  | Err e => Err e
  | Ok d => if (neg : bool) then Ok (wrap64 (- d))
            else if max_int64 <? d then Err bad_duration else Ok d
  end.

Example parse_ex :
  (ParseDuration "1h2m5s", ParseDuration "-1.5h", ParseDuration "300ms", ParseDuration "+0",
   ParseDuration ".5s")
  = (Ok 3725000000000, Ok (-5400000000000), Ok 300000000, Ok 0, Ok 500000000).
Proof. vm_compute. reflexivity. Qed.
Example parse_bad :
  (is_ok (ParseDuration ""), is_ok (ParseDuration "3"), is_ok (ParseDuration "3x"),
   is_ok (ParseDuration ".s"), is_ok (ParseDuration "9223372037s"), is_ok (ParseDuration "-2m-5s"))
  = (false, false, false, false, false, false).
Proof. vm_compute. reflexivity. Qed.

(** ** The overview *)

Module HomeGpuSummary.
Record HomeGpuSummary : Type := mkHomeGpuSummary { Total : Z; Busy : Z; Idle : Z }.
End HomeGpuSummary.
Notation HomeGpuSummary := HomeGpuSummary.HomeGpuSummary.

Module HomeOverviewResponse.
Record HomeOverviewResponse : Type := mkHomeOverviewResponse {
  GpuSummary : HomeGpuSummary; Gpus : list GPUInfoResponse;
  ServerProcesses : list ServerProcessInfo; SystemProcesses : list SystemProcessInfo;
  QueueSummary : HomeQueueSummary.HomeQueueSummary
}.
End HomeOverviewResponse.
Notation HomeOverviewResponse := HomeOverviewResponse.HomeOverviewResponse.

Definition system_as_server (p : SystemProcessInfo) : ServerProcessInfo :=
  ServerProcessInfo.mkServerProcessInfo (SystemProcessInfo.Username p) (SystemProcessInfo.PID p)
    (SystemProcessInfo.JobName p) (SystemProcessInfo.GPUname p) (SystemProcessInfo.StartTime p)
    (SystemProcessInfo.IsNormal p) (SystemProcessInfo.Runtime p) 0 (SystemProcessInfo.Command p) false.
Definition mergeHomeProcesses (systemProcesses : list SystemProcessInfo)
  (serverProcesses : list ServerProcessInfo) : list ServerProcessInfo :=
  (system_as_server <$> systemProcesses) ++ serverProcesses.

Definition busy_names (processes : list ServerProcessInfo) : gset string :=
  list_to_set (List.filter (λ n, negb (String.eqb n "")) (ServerProcessInfo.GPUname <$> processes)).
Definition buildHomeGpuSummary (gpus : list GPUInfoResponse) (processes : list ServerProcessInfo)
  : HomeGpuSummary :=
  let total := Z.of_nat (length gpus) in
  let n := Z.of_nat (size (busy_names processes)) in
  let busy := if total <? n then total else n in
  HomeGpuSummary.mkHomeGpuSummary total busy (total - busy).

Definition set_running_secs (n : Z) (p : ServerProcessInfo) : ServerProcessInfo :=
  ServerProcessInfo.mkServerProcessInfo (ServerProcessInfo.Username p) (ServerProcessInfo.PID p)
    (ServerProcessInfo.JobName p) (ServerProcessInfo.GPUname p) (ServerProcessInfo.StartTime p)
    (ServerProcessInfo.IsNormal p) (ServerProcessInfo.Runtime p) n (ServerProcessInfo.Command p)
    (ServerProcessInfo.IsRetained p).
(** The body of the loop on one element. *)
Definition fill_one (p : ServerProcessInfo) : ServerProcessInfo :=
  if 0 <? ServerProcessInfo.RunningDurationSecs p then p
  else match ParseDuration (ServerProcessInfo.Runtime p) with
       | Ok duration => set_running_secs (dur_seconds duration) p
       | Err _ => p
       end.
Definition fillRunningDurationSecs (processes : list ServerProcessInfo) : list ServerProcessInfo :=
  fill_one <$> processes.

Section Home.
Context `{B : Backend} {K : Type} {KV : Kv K} {HK : HashKv K} {H P : Type} {SH : SysHost H P}.
Variable unix_format : Z → string.
Variable marshal_overview : HomeOverviewResponse → result string.
(** The system service is the one this program builds and has a collector;
    the collector has a repository. *)
Variables has_collector has_repo : bool.

Notation W := (iworld (K := K) (H := H)).

Definition collectRealtimeGpus : M W (list GPUInfoResponse) :=
  if negb has_collector || negb has_repo then mret []
  else
    r ← GetGPUInfo;
    mret (match r with Ok gpus => gpus | Err _ => [] end).

(** Without a repository the collector dereferences nil. *)
Definition collectProcesses : M W (result (list SystemProcessInfo * list ServerProcessInfo)) :=
  if negb has_collector then mret (Ok ([], []))
  else if negb has_repo then mret (Err (ErrPanic "nil pointer dereference"))
  else
    p ← collectAndClassifyProcesses unix_format;
    mret (Ok (p.1, fillRunningDurationSecs p.2)).

Definition GetOverview : M W (result HomeOverviewResponse) :=
  gpus ← collectRealtimeGpus;
  q ← on_world GetHomeQueueSummary;
  match q with
  | Err e => mret (Err e)
  | Ok queueSummary =>
      r ← collectProcesses;
      match r with
      | Err e => mret (Err e)
      | Ok (systemProcesses, serverProcesses) =>
          let allProcesses := mergeHomeProcesses systemProcesses serverProcesses in
          mret (Ok (HomeOverviewResponse.mkHomeOverviewResponse
                      (buildHomeGpuSummary gpus allProcesses) gpus allProcesses systemProcesses
                      queueSummary))
      end
  end.

(** One tick of the collector on the pool of connections. *)
Definition overview_tick (p : ConnectionPool string) : M W (result (ConnectionPool string)) :=
  if negb (IsHavingHomeOverviewConnection p) then mret (Ok p)
  else
    r ← GetOverview;
    mret (match r with
          | Err (ErrPanic what) => Err (ErrPanic what)
          | Err _ => Ok p
          | Ok overview =>
              match marshal_overview overview with
              | Err _ => Ok p
              | Ok data => BroadcastToAdminsByType "homeOverview" data p
              end
          end).

Definition HandleHomeMessage (userID now : Z) (p : ConnectionPool string) : ConnectionPool string :=
  fst (Add userID (Some (SessionMetadata.mkSessionMetadata userID "homeOverview" "admin" now)) p).
End Home.

(** ** Running times survive the way through text *)

(** The value of decimal digits behind an accumulator. *)
Fixpoint uval (acc : Z) (d : Decimal.uint) : Z :=
  match d with
  | Decimal.Nil => acc
  | Decimal.D0 r => uval (acc * 10) r
  | Decimal.D1 r => uval (acc * 10 + 1) r
  | Decimal.D2 r => uval (acc * 10 + 2) r
  | Decimal.D3 r => uval (acc * 10 + 3) r
  | Decimal.D4 r => uval (acc * 10 + 4) r
  | Decimal.D5 r => uval (acc * 10 + 5) r
  | Decimal.D6 r => uval (acc * 10 + 6) r
  | Decimal.D7 r => uval (acc * 10 + 7) r
  | Decimal.D8 r => uval (acc * 10 + 8) r
  | Decimal.D9 r => uval (acc * 10 + 9) r
  end.

Lemma uval_acc d p : uval (Z.pos p) d = Z.pos (Pos.of_uint_acc d p).
Proof. revert p. induction d; cbn; intros p; [done|..]; rewrite <-IHd; f_equal; lia. Qed.
Lemma uval_of_uint d : uval 0 d = Z.of_N (Pos.of_uint d).
Proof. induction d; cbn; try done; exact (uval_acc _ _). Qed.
Lemma uval_ge acc d : 0 ≤ acc → acc ≤ uval acc d.
Proof.
  revert acc. induction d; cbn; intros acc Ha; [lia|..];
    (etransitivity; [|apply IHd; lia]; lia).
Qed.

#[local] Arguments digit_val : simpl never.

(** The rest does not go on with a digit. *)
Definition no_digit_head (s : string) : Prop :=
  match s with EmptyString => True | String c _ => digit_val c = None end.

Lemma leadingInt_step acc c d s :
  digit_val c = Some d → 0 ≤ d → acc * 10 + d ≤ 2 ^ 63 →
  leadingInt acc (String c s) = leadingInt (acc * 10 + d) s.
Proof.
  intros Hc Hd Hle. cbn. rewrite Hc.
  assert (acc ≤ 2 ^ 63 / 10) by (apply Z.div_le_lower_bound; lia).
  destruct (Z.ltb_spec (2 ^ 63 / 10) acc); [lia|].
  destruct (Z.ltb_spec (2 ^ 63) (acc * 10 + d)); [lia|done].
Qed.

Lemma leadingInt_uint acc d rest :
  0 ≤ acc → uval acc d ≤ 2 ^ 63 → no_digit_head rest →
  leadingInt acc (NilEmpty.string_of_uint d +:+ rest) = Ok (uval acc d, rest).
Proof.
  intros Ha Hu Hr. revert acc Ha Hu. induction d; intros acc Ha Hu.
  { change (leadingInt acc rest = Ok (acc, rest)).
    destruct rest as [|c r]; [done|]. cbn in Hr |- *. by rewrite Hr. }
  all: cbn [NilEmpty.string_of_uint uval] in *.
  all: match goal with
       | Hu : uval ?n _ ≤ _ |- _ =>
           assert (n ≤ 2 ^ 63) as Hn by (etransitivity; [apply uval_ge; lia|exact Hu])
       end.
  all: match goal with |- leadingInt _ (String ?c ?s +:+ _) = ?r =>
         change (leadingInt acc (String c (s +:+ rest)) = r) end.
  all: erewrite leadingInt_step; [|vm_compute; reflexivity|lia|lia].
  all: rewrite ?Z.add_0_r; apply IHd; [lia|done].
Qed.

Lemma Itoa_uint n : 0 ≤ n → ∃ d, Itoa n = NilEmpty.string_of_uint d ∧ uval 0 d = n.
Proof.
  intros Hn. assert (Z.of_int (Z.to_int n) = n) as Ho by apply DecimalZ.of_to.
  unfold Itoa. destruct n as [|p|p]; [by exists (Decimal.D0 Decimal.Nil)| |lia].
  exists (Pos.to_uint p). cbn in *. split.
  - pose proof (DecimalPos.Unsigned.to_uint_nonnil p). by destruct (Pos.to_uint p).
  - rewrite uval_of_uint. exact Ho.
Qed.

Lemma leadingInt_Itoa n rest :
  0 ≤ n ≤ 2 ^ 63 → no_digit_head rest → leadingInt 0 (Itoa n +:+ rest) = Ok (n, rest).
Proof.
  intros [Hn Hm] Hr. destruct (Itoa_uint n Hn) as (d & -> & Hd).
  rewrite leadingInt_uint; [by rewrite Hd|lia|by rewrite Hd|done].
Qed.

Definition digit_head (s : string) : Prop :=
  match s with EmptyString => True | String c _ => is_Some (digit_val c) end.

Lemma Itoa_digit_head n rest : 0 ≤ n → digit_head (Itoa n +:+ rest).
Proof.
  intros Hn. pose proof (Itoa_nonempty n) as Hne.
  destruct (Itoa_uint n Hn) as (d & Hd & _). rewrite Hd in *.
  destruct d; cbn in *; [done|..]; by eexists.
Qed.

Lemma append_length (a b : string) : String.length (a +:+ b) = (String.length a + String.length b)%nat.
Proof. induction a as [|c a IH]; [done|]. change (S (String.length (a +:+ b)) = S (String.length a + String.length b)). by rewrite IH. Qed.

Lemma unit_word_one c rest :
  c ≠ "."%char → digit_val c = None → digit_head rest →
  unit_word (String c rest) = (String c EmptyString, rest).
Proof.
  intros Hc Hd Hr. cbn. apply Ascii.eqb_neq in Hc. rewrite Hc, Hd.
  destruct rest as [|x r]; [done|]. cbn in Hr |- *. destruct Hr as [v Hv].
  destruct (Ascii.eqb x "."); [done|]. by rewrite Hv.
Qed.

(** One number with a unit of one letter. *)
Lemma duration_term_Itoa n c unit rest :
  0 ≤ n ≤ 2 ^ 63 → n ≤ 2 ^ 63 / unit → unitMap (String c EmptyString) = Some unit →
  c ≠ "."%char → digit_val c = None → digit_head rest →
  duration_term (Itoa n +:+ String c rest) = Ok (n * unit, rest).
Proof.
  intros Hn Hu Hm Hc Hd Hr.
  assert (number_part (Itoa n +:+ String c rest) = Ok (n, 0, 1, String c rest)) as Hnp.
  { unfold number_part. rewrite leadingInt_Itoa by done. rewrite append_length.
    pose proof (Itoa_nonempty n) as Hne.
    destruct (Nat.eqb_spec (String.length (String c rest))
                (String.length (Itoa n) + String.length (String c rest))) as [E|_].
    { destruct (Itoa n); [done|]. cbn in E. lia. }
    cbn. destruct c as [[] [] [] [] [] [] [] []]; done. }
  unfold duration_term. rewrite Hnp, unit_word_one by done.
  cbn. rewrite Hm. destruct (Z.ltb_spec (2 ^ 63 / unit) n); [lia|done].
Qed.

Lemma duration_terms_step fuel d n c unit rest :
  (1 ≤ fuel)%nat → 0 ≤ d → 0 < unit → 0 ≤ n → d + n * unit ≤ 2 ^ 63 →
  unitMap (String c EmptyString) = Some unit → c ≠ "."%char → digit_val c = None →
  digit_head rest →
  duration_terms fuel d (Itoa n +:+ String c rest) = duration_terms (fuel - 1) (d + n * unit) rest.
Proof.
  intros Hf Hd Hu Hn Hle Hm Hc Hdv Hr. destruct fuel as [|k]; [lia|].
  assert (n ≤ 2 ^ 63 / unit) by (apply Z.div_le_lower_bound; lia).
  assert (duration_term (Itoa n +:+ String c rest) = Ok (n * unit, rest)) as Ht.
  { apply duration_term_Itoa; auto. split; [done|]. nia. }
  pose proof (Itoa_nonempty n) as Hne. destruct (Itoa n) as [|x r]; [done|].
  change (String x r +:+ String c rest) with (String x (r +:+ String c rest)) in *.
  cbn [duration_terms]. rewrite Ht.
  rewrite Z.mod_small by lia. destruct (Z.ltb_spec (2 ^ 63) (d + n * unit)); [lia|].
  f_equal. lia.
Qed.

Lemma ParseDuration_plain x s :
  is_Some (digit_val x) → s ≠ EmptyString →
  ParseDuration (String x s) =
  match duration_terms (String.length (String x s)) 0 (String x s) with
  | Err e => Err e
  | Ok d => if max_int64 <? d then Err bad_duration else Ok d
  end.
Proof.
  intros Hx Hs. unfold ParseDuration.
  assert (String.eqb (String x s) "0" = false) as H0.
  { apply String.eqb_neq. by intros [=]. }
  destruct x as [[] [] [] [] [] [] [] []]; try (by rewrite H0); by destruct Hx.
Qed.

#[local] Hint Resolve Itoa_digit_head : core.

Lemma duration_terms_nil fuel d : duration_terms fuel d EmptyString = Ok d.
Proof. by destruct fuel. Qed.

Lemma append_one a c x : (a +:+ String c EmptyString) +:+ x = a +:+ String c x.
Proof.
  induction a as [|y a IH]; [done|].
  change (String y ((a +:+ String c EmptyString) +:+ x) = String y (a +:+ String c x)). by rewrite IH.
Qed.

Lemma ParseDuration_Itoa n r d :
  0 ≤ n → r ≠ EmptyString → d ≤ max_int64 →
  (∀ fuel, (String.length r < fuel)%nat → duration_terms fuel 0 (Itoa n +:+ r) = Ok d) →
  ParseDuration (Itoa n +:+ r) = Ok d.
Proof.
  intros Hn Hr Hd Ht. pose proof (Itoa_digit_head n r Hn) as Hh. pose proof (Itoa_nonempty n) as Hne.
  assert (String.length r < String.length (Itoa n +:+ r))%nat as Hl.
  { rewrite append_length. destruct (Itoa n); [done|cbn; lia]. }
  specialize (Ht _ Hl). destruct (Itoa n) as [|x a]; [done|].
  change (String x a +:+ r) with (String x (a +:+ r)) in *.
  rewrite ParseDuration_plain; [|done|by destruct a, r].
  rewrite Ht. destruct (Z.ltb_spec max_int64 d); [lia|done].
Qed.

Ltac hms_step u :=
  rewrite (duration_terms_step _ _ _ _ u)
    by (done || lia || (rewrite ?append_length; cbn; lia) || auto).

(** The text of a running time reads back as its whole seconds. *)
Lemma formatDuration_roundtrip d :
  0 ≤ dur_seconds d ≤ 9223372036 →
  ParseDuration (formatDuration d) = Ok (dur_seconds d * 10 ^ 9).
Proof.
  unfold formatDuration. generalize (dur_seconds d). intros s [Hs Hm].
  assert (∃ h m t, Z.quot s 3600 = h ∧ Z.quot (Z.rem s 3600) 60 = m ∧ Z.rem s 60 = t ∧
    0 ≤ h ∧ 0 ≤ m ∧ 0 ≤ t ∧ s = h * 3600 + m * 60 + t) as (h & m & t & -> & -> & -> & Hh & Hm' & Ht & ->).
  { exists (Z.quot s 3600), (Z.quot (Z.rem s 3600) 60), (Z.rem s 60).
    rewrite (Z.quot_div_nonneg s), !Z.rem_mod_nonneg by lia.
    pose proof (Z.mod_pos_bound s 3600 ltac:(lia)). rewrite Z.quot_div_nonneg by lia.
    split_and!; Z.to_euclidean_division_equations; lia. }
  destruct (Z.ltb_spec 0 h) as [Hh0|Hh0].
  - rewrite orb_true_r, !append_one. apply ParseDuration_Itoa; [done|done|unfold max_int64; lia|].
    intros fuel Hf. cbn [String.length] in Hf. rewrite append_length in Hf. cbn [String.length] in Hf.
    hms_step (3600 * 10 ^ 9). hms_step (60 * 10 ^ 9). hms_step (10 ^ 9).
    rewrite duration_terms_nil. f_equal. lia.
  - rewrite orb_false_r. assert (h = 0) as -> by lia. destruct (Z.ltb_spec 0 m) as [Hm0|Hm0].
    + rewrite append_one.
      apply ParseDuration_Itoa; [done|done|unfold max_int64; lia|].
      intros fuel Hf. cbn [String.length] in Hf. rewrite append_length in Hf. cbn [String.length] in Hf.
      hms_step (60 * 10 ^ 9). hms_step (10 ^ 9). rewrite duration_terms_nil. f_equal. lia.
    + assert (m = 0) as -> by lia. apply ParseDuration_Itoa; [done|done|unfold max_int64; lia|].
      intros fuel Hf. cbn [String.length] in Hf. hms_step (10 ^ 9). by rewrite duration_terms_nil.
Qed.

Lemma dur_seconds_whole s : 0 ≤ s ≤ 2 ^ 53 → dur_seconds (s * 10 ^ 9) = s.
Proof.
  intros Hs. unfold dur_seconds. rewrite Z.quot_mul, Z.rem_mul by done.
  assert (f_div_const (f_of_int 0) (10 ^ 9) = 0) as -> by by vm_compute.
  unfold f_add. rewrite Z.add_0_r, round64_exact by apply f_of_int_representable.
  apply f_to_int_of_int. lia.
Qed.

(** A text that [formatDuration] wrote gives the seconds it was made from. *)
Lemma fill_one_formatted p d :
  ServerProcessInfo.RunningDurationSecs p = 0 → ServerProcessInfo.Runtime p = formatDuration d →
  0 ≤ dur_seconds d ≤ 9223372036 →
  ServerProcessInfo.RunningDurationSecs (fill_one p) = dur_seconds d.
Proof.
  intros H0 Hr Hd. unfold fill_one. rewrite H0, Hr, formatDuration_roundtrip by done. cbn.
  apply dur_seconds_whole. lia.
Qed.

Lemma fill_one_PID p : ServerProcessInfo.PID (fill_one p) = ServerProcessInfo.PID p.
Proof. unfold fill_one. by repeat case_match. Qed.
Lemma fill_one_Runtime p : ServerProcessInfo.Runtime (fill_one p) = ServerProcessInfo.Runtime p.
Proof. unfold fill_one. by repeat case_match. Qed.
Lemma fill_one_GPUname p : ServerProcessInfo.GPUname (fill_one p) = ServerProcessInfo.GPUname p.
Proof. unfold fill_one. by repeat case_match. Qed.

#[local] Arguments fill_one : simpl never.

(** ** What the page shows *)

Section HomeProps.
Context `{B : Backend} {BL : BackendLaws B}.
Context {K : Type} {KV : Kv K} {HK : HashKv K} {H P : Type} {SH : SysHost H P}.
Variable unix_format : Z → string.

Notation W := (iworld (K := K) (H := H)).

Definition count_status (st : Z) (w : World) : Z :=
  Z.of_nat (length (List.filter (λ j, Job.Status j =? st) (jobs_of w))).

Lemma GetHomeQueueSummary_ok (w w' : World) q :
  GetHomeQueueSummary w = (w', Ok q) →
  q = HomeQueueSummary.mkHomeQueueSummary (count_status JobStatusRunning w)
        (count_status JobStatusQueued w) (count_status JobStatusWaitingGpu w).
Proof.
  unfold GetHomeQueueSummary. intros E.
  open_bind E as w1 a E1. frame_fact jobs_of E1. destruct a as [a|]; [|done].
  open_bind E as w2 b E2. frame_fact jobs_of E2. destruct b as [b|]; [|done].
  open_bind E as w3 c E3. destruct c as [c|]; [|done]. injection E as <- <-.
  unfold on_jobs in *. run_inv. unfold count_status, jobs_of in *. cbn in *.
  apply tbl_count_ok in E2, E0, E. rewrite K1, K0 in E. rewrite K0 in E0. by subst.
Qed.

(** The running time of a process in the repository is a formatted one. *)
Lemma getProcessDetails_Runtime pid g n (w w' : W) i :
  getProcessDetails unix_format pid g n w = (w', Ok i) →
  ∃ d, ProcessInfo.Runtime i = formatDuration d.
Proof.
  unfold getProcessDetails. intros E. open_bind E as w1 p E1. destruct p as [p|]; [|done].
  open_bind E as w2 u E2. open_bind E as w3 t E3. open_bind E as w4 c E4. open_bind E as w5 now E5.
  open_bind E as w6 r E6. injection E as _ <-. by eexists.
Qed.

Lemma GetProcessInfo_Runtime (w w' : W) l i :
  GetProcessInfo unix_format w = (w', Ok l) → i ∈ l → ∃ d, ProcessInfo.Runtime i = formatDuration d.
Proof.
  unfold GetProcessInfo. intros E Hi. open_bind E as w1 r E1. destruct r as [ps|]; [|done].
  open_bind E as w2 os E2. injection E as _ <-. clear E1. revert w1 os E2 Hi.
  induction ps as [|x ps IH]; cbn; intros w1 os E Hi.
  { run_inv. by apply elem_of_nil in Hi. }
  open_bind E as w3 o E3. open_bind E as w4 os' E4. injection E as -> <-.
  open_bind E3 as w5 r E5. injection E3 as _ <-.
  destruct r as [j|]; cbn in Hi; [|by eapply IH].
  apply elem_of_cons in Hi as [->|Hi]; [|by eapply IH]. by eapply getProcessDetails_Runtime.
Qed.

(** The processes of the cards, none when they cannot be read. *)
Definition shown_processes (infos : list ProcessInfo) (w : W) : Prop :=
  match snd (GetProcessInfo unix_format w) with Ok l => infos = l | Err _ => infos = [] end.

(** The lists of the collector: every process once, with its running time. *)
Lemma collect_spec (w w' : W) sys srv :
  collectProcesses unix_format true true w = (w', Ok (sys, srv)) →
  ∃ infos,
    shown_processes infos w ∧
    (SystemProcessInfo.PID <$> sys) ++ (ServerProcessInfo.PID <$> srv) ≡ₚ ProcessInfo.PID <$> infos ∧
    (∀ p, p ∈ srv → ∃ d, ServerProcessInfo.Runtime p = formatDuration d ∧
       (0 ≤ dur_seconds d ≤ 9223372036 → ServerProcessInfo.RunningDurationSecs p = dur_seconds d)).
Proof.
  unfold collectProcesses, collectAndClassifyProcesses. cbn [negb]. intros E.
  open_bind E as w1 pr E1. injection E as _ <- <-. open_bind E1 as w2 r E2.
  unfold shown_processes. rewrite E2. cbn [snd].
  destruct r as [infos|]; [|injection E1 as _ <-; exists []; split_and!; auto;
    by intros ? ?%elem_of_nil].
  open_bind E1 as w3 system E3. open_bind E1 as w4 retained E4. injection E1 as _ <-.
  rewrite classify_filter. cbn. exists infos. split_and!; [done| |].
  - rewrite <-!list_fmap_compose. clear. induction infos as [|i l IH]; [done|]. cbn.
    destruct (bool_decide _); cbn; rewrite ?fill_one_PID; cbn; [by f_equiv|].
    rewrite <-Permutation_middle. by f_equiv.
  - intros p (q & -> & Hq)%list_elem_of_fmap. apply list_elem_of_fmap in Hq as (i & -> & Hi).
    apply list_elem_of_In, filter_In in Hi as [Hi%list_elem_of_In _].
    destruct (GetProcessInfo_Runtime _ _ _ _ E2 Hi) as [d Hd]. exists d.
    split; [by rewrite fill_one_Runtime|]. intros Hb. by apply fill_one_formatted.
Qed.

Lemma summary_spec gpus ps :
  let g := buildHomeGpuSummary gpus ps in
  HomeGpuSummary.Total g = Z.of_nat (length gpus) ∧
  HomeGpuSummary.Busy g = Z.min (Z.of_nat (size (busy_names ps))) (HomeGpuSummary.Total g) ∧
  HomeGpuSummary.Busy g + HomeGpuSummary.Idle g = HomeGpuSummary.Total g ∧
  0 ≤ HomeGpuSummary.Idle g.
Proof.
  unfold buildHomeGpuSummary. generalize (size (busy_names ps)). intros n. cbn.
  destruct (Z.ltb_spec (Z.of_nat (length gpus)) (Z.of_nat n)); lia.
Qed.

Lemma on_iworld_inv {A} (c : M World A) (w w' : W) r :
  on_world c w = (w', r) → ∃ x, c (iw_world w) = (x, r) ∧ w' = put_iworld x w.
Proof. unfold on_world, lift. destruct (c _) as [x r']. intros [= <- <-]. by exists x. Qed.

Lemma GetGPUInfo_world : keeps iw_world (GetGPUInfo : M W _).
Proof. unfold GetGPUInfo, on_host. solve_keeps. by apply keeps_lift. Qed.

(** The overview of the home page counts the jobs of each state as the
    table has them and shows every process the cards report exactly once;
    busy and idle cards add up to the cards shown, a card is busy for every
    card name that has a process; and the running time of a process that no
    job started is the number of seconds its text says. *)
Theorem GetOverview_spec (w w' : W) o :
  GetOverview unix_format true true w = (w', Ok o) →
  HomeOverviewResponse.QueueSummary o =
    HomeQueueSummary.mkHomeQueueSummary (count_status JobStatusRunning (iw_world w))
      (count_status JobStatusQueued (iw_world w)) (count_status JobStatusWaitingGpu (iw_world w)) ∧
  (∃ v infos, iw_host v = iw_host (fst (GetGPUInfo w)) ∧ shown_processes infos v ∧
     ServerProcessInfo.PID <$> HomeOverviewResponse.ServerProcesses o ≡ₚ ProcessInfo.PID <$> infos) ∧
  (let g := HomeOverviewResponse.GpuSummary o in
   let names := size (busy_names (HomeOverviewResponse.ServerProcesses o)) in
   HomeGpuSummary.Total g = Z.of_nat (length (HomeOverviewResponse.Gpus o)) ∧
   HomeGpuSummary.Busy g = Z.min (Z.of_nat names) (HomeGpuSummary.Total g) ∧
   HomeGpuSummary.Busy g + HomeGpuSummary.Idle g = HomeGpuSummary.Total g ∧
   0 ≤ HomeGpuSummary.Idle g) ∧
  (∀ p, p ∈ HomeOverviewResponse.ServerProcesses o →
     ServerProcessInfo.PID p ∉ SystemProcessInfo.PID <$> HomeOverviewResponse.SystemProcesses o →
     ∃ d, ServerProcessInfo.Runtime p = formatDuration d ∧
       (0 ≤ dur_seconds d ≤ 9223372036 → ServerProcessInfo.RunningDurationSecs p = dur_seconds d)).
Proof.
  unfold GetOverview. intros E. open_bind E as w1 gpus E1.
  unfold collectRealtimeGpus in E1. cbn [negb orb] in E1. open_bind E1 as w0 g E0.
  injection E1 as -> Hg. rewrite E0. cbn [fst]. pose proof (GetGPUInfo_world _ _ _ E0) as Hw.
  open_bind E as w2 q E2. destruct q as [q|]; [|done].
  apply on_iworld_inv in E2 as (x & E1 & ->).
  open_bind E as w3 r E3. destruct r as [[sys srv]|]; [|done]. injection E as _ <-.
  apply GetHomeQueueSummary_ok in E1. rewrite Hw in E1.
  destruct (collect_spec _ _ _ _ E3) as (infos & Hi & Hp & Hd).
  cbn [HomeOverviewResponse.QueueSummary HomeOverviewResponse.ServerProcesses
       HomeOverviewResponse.GpuSummary HomeOverviewResponse.Gpus HomeOverviewResponse.SystemProcesses].
  split; [done|]. split; [|split; [apply summary_spec|]].
  - exists (put_iworld x w1), infos. split_and!; [done|done|]. unfold mergeHomeProcesses.
    by rewrite fmap_app, <-list_fmap_compose.
  - intros p [Hs|Hs]%elem_of_app Hn; [|by apply Hd].
    apply list_elem_of_fmap in Hs as (q' & -> & Hq). exfalso. apply Hn.
    exact (list_elem_of_fmap_2 SystemProcessInfo.PID _ _ Hq).
Qed.
End HomeProps.

(** ** Executions *)

(** Process 100 belongs to a job and runs on card 0, process 300 on card 1. *)
Definition demo_smi : list (string * string) :=
  [("--query-gpu=index,name,temperature.gpu,utilization.gpu,memory.used,memory.total"%string,
    "0, T4, 41, 90, 1000, 16000" +:+ nl +:+ "1, T4, 40, 80, 900, 16000" +:+ nl +:+
    "2, T4, 30, 0, 0, 16000" +:+ nl);
   ("--query-gpu=index,gpu_bus_id,name"%string, "0, 0:1, T4" +:+ nl +:+ "1, 0:2, T4" +:+ nl);
   ("--query-compute-apps=pid,gpu_bus_id,process_name"%string,
    "100, 0:1, python" +:+ nl +:+ "300, 0:2, python" +:+ nl)].
Definition demo_home : iworld (B := mem_backend) (K := mem hview) (H := mhost) :=
  mkIworld (iw_world demo_w) (iw_kv demo_w)
    (mkMhost [] [] (<[100 := 0]> {[300 := 0]}) (4000 * 10 ^ 9) demo_smi).

Definition overview_demo : result HomeOverviewResponse :=
  snd (GetOverview (λ _, ""%string) true true demo_home).

Lemma GetOverview_spec_witness :
  ∃ o, overview_demo = Ok o ∧
    HomeOverviewResponse.GpuSummary o = HomeGpuSummary.mkHomeGpuSummary 3 2 1 ∧
    HomeGpuSummary.Busy (HomeOverviewResponse.GpuSummary o)
      + HomeGpuSummary.Idle (HomeOverviewResponse.GpuSummary o)
    = HomeGpuSummary.Total (HomeOverviewResponse.GpuSummary o).
Proof.
  destruct overview_demo as [o|] eqn:E; [|by vm_compute in E].
  pose proof (GetOverview_spec (λ _, ""%string) demo_home
    (fst (GetOverview (λ _, ""%string) true true demo_home)) o
    (run_eq _ _ E)) as (_ & _ & (_ & _ & Hb & _) & _).
  exists o. split; [done|]. split; [|exact Hb].
  vm_compute in E. injection E as <-. reflexivity.
Defined.

(** The running seconds of a process that a job started are left at zero,
    while its text and the other processes have them. *)
Example system_process_zero_seconds :
  match overview_demo with
  | Ok o => (λ p, (ServerProcessInfo.PID p, ServerProcessInfo.Runtime p,
                   ServerProcessInfo.RunningDurationSecs p))
              <$> HomeOverviewResponse.ServerProcesses o
  | Err _ => []
  end = [("100"%string, "1h6m40s"%string, 0); ("300"%string, "1h6m40s"%string, 4000)].
Proof. vm_compute. reflexivity. Qed.

(** A start in the future, by a clock that was set back, loses the minutes. *)
Example negative_runtime : formatDuration (-65 * 10 ^ 9) = "-5s"%string.
Proof. vm_compute. reflexivity. Qed.
