(* ===== verification/OperationLog.v ===== *)
(** * Operation log (internal/middleware/operationLog.go, the log
      repositories and services, internal/api/v1/operationLogs) and the
      throttle of error messages (pkg/throttle)

    A middleware copies the beginning of every response, takes a snapshot of
    the request and puts an entry into a bounded queue; one consumer writes
    the entries to MySQL.  The pages of the log look at the latest 5000
    rows. *)

From Stdlib Require Import Ascii.
From S2P Require Import Prelude GoStrings Float64 Errors Entity External MemBackend Exec GoPath Shell FileService.

Open Scope Z_scope.

(** ** The throttle *)

Record ErrorThrottle : Type := mkErrorThrottle { lastLogTime : Z; interval : Z }.
Definition NewErrorThrottle (i : Z) : ErrorThrottle := mkErrorThrottle zero_time i.
(** [Log] at time [now]: whether the message is printed. *)
Definition throttle_Log (now : Z) (t : ErrorThrottle) : ErrorThrottle * bool :=
  if interval t <=? dur_sub now (lastLogTime t) then (mkErrorThrottle now (interval t), true)
  else (t, false).

(** The times at which messages are printed, of the times at which [Log] is
    called. *)
Fixpoint printed (times : list Z) (t : ErrorThrottle) : list Z :=
  match times with
  | [] => []
  | now :: rest =>
      let '(t', b) := throttle_Log now t in
      if (b : bool) then now :: printed rest t' else printed rest t'
  end.

(** ** The copy of the response *)

Definition bytes : Type := list ascii.
Definition MaxBodyLogSize : nat := 4096.
Definition truncated_mark : bytes := String.list_ascii_of_string "[truncated]".

(** What a handler does to the writer. *)
Inductive wevent : Type := WriteEv (b : bytes) | HeaderEv (code : Z).

(** [bodyLogWriter]; the wrapped writer is the list of calls it received. *)
Record bodyLogWriter : Type := mkBodyLogWriter {
  bw_inner : list wevent; bw_body : bytes; bw_statusCode : Z
}.
Definition new_writer : bodyLogWriter := mkBodyLogWriter [] [] 0.

Definition bw_Write (b : bytes) (w : bodyLogWriter) : bodyLogWriter :=
  let body :=
    if bool_decide (length (bw_body w) < MaxBodyLogSize)%nat then
      let remaining := (MaxBodyLogSize - length (bw_body w))%nat in
      if bool_decide (remaining < length b)%nat
      then bw_body w ++ take remaining b ++ truncated_mark
      else bw_body w ++ b
    else bw_body w in
  mkBodyLogWriter (bw_inner w ++ [WriteEv b]) body (bw_statusCode w).
Definition bw_WriteHeader (code : Z) (w : bodyLogWriter) : bodyLogWriter :=
  mkBodyLogWriter (bw_inner w ++ [HeaderEv code]) (bw_body w) code.
Definition bw_apply (w : bodyLogWriter) (e : wevent) : bodyLogWriter :=
  match e with WriteEv b => bw_Write b w | HeaderEv c => bw_WriteHeader c w end.

(** ** Entries *)

Module UserOperationLog.
Record UserOperationLog : Type := mkUserOperationLog {
  ID : Z; Username : string; Method : string; RequestData : string; ActionType : string;
  Path : string; Status : Z; ErrorMessage : string; CreatedAt : Z; UpdatedAt : Z
}.
Definition set_id (k : Z) (l : UserOperationLog) : UserOperationLog :=
  mkUserOperationLog k (Username l) (Method l) (RequestData l) (ActionType l) (Path l) (Status l)
    (ErrorMessage l) (CreatedAt l) (UpdatedAt l).
Definition set_updated (t : Z) (l : UserOperationLog) : UserOperationLog :=
  mkUserOperationLog (ID l) (Username l) (Method l) (RequestData l) (ActionType l) (Path l) (Status l)
    (ErrorMessage l) (CreatedAt l) t.
End UserOperationLog.
Notation UserOperationLog := UserOperationLog.UserOperationLog.

(** [CreatedAt] is set by the middleware; gorm stamps [UpdatedAt]. *)
#[export] Instance UserOperationLog_row : Row UserOperationLog :=
  { row_id := UserOperationLog.ID; row_set_id := UserOperationLog.set_id;
    row_stamp := UserOperationLog.set_updated;
    row_set_id_id _ _ := eq_refl; row_stamp_id _ _ := eq_refl }.

(** ** The request *)

(** What the middleware reads of the gin context after the handler: Go maps
    in the order of the iteration. *)
Record gin_ctx : Type := mkGinCtx {
  gc_Username : option string;
  gc_Method : string;
  gc_Path : string;
  gc_operationType : option string;
  gc_raw_body : option string;
  gc_Query : list (string * list string);
  gc_Params : list (string * string);
  gc_ContentType : string;
  gc_ContentLength : Z;
  gc_PostForm : list (string * list string);
  gc_MultipartFile : option (list (string * list string));
  gc_Errors : option string
}.

Definition pairs (m : list (string * list string)) : list string :=
  flat_map (λ kv, (λ v, kv.1 +:+ "=" +:+ v) <$> kv.2) m.

Section Request.
(** [json.Marshal] of the file names by field; [json.Unmarshal] of a response
    into its code and message, and of a request into its user name. *)
Variable marshal_files : gmap string string → result string.
Variable unmarshal_status : bytes → result (Z * string).
Variable unmarshal_username : string → option string.
(** [Status()] of the wrapped writer. *)
Variable inner_Status : list wevent → Z.

Definition is_form (contentType : string) : bool :=
  Contains contentType "application/x-www-form-urlencoded" || Contains contentType "multipart/form-data".

(** Fields of a multipart form with their first file. *)
Definition file_info (files : list (string * list string)) : gmap string string :=
  foldl (λ m kv, match kv.2 with f :: _ => <[kv.1 := f]> m | [] => m end) ∅ files.

Definition body_content (c : gin_ctx) : string :=
  if is_form (gc_ContentType c) then
    match gc_MultipartFile c with
    | Some files =>
        if bool_decide (file_info files = ∅) then ""
        else match marshal_files (file_info files) with Ok s => s | Err _ => "" end
    | None => ""
    end
  else if Contains (gc_ContentType c) "application/json" then
    match gc_raw_body c with
    | Some str =>
        if bool_decide (MaxBodyLogSize < String.length str)%nat
        then String.substring 0 MaxBodyLogSize str +:+ "...[truncated]"
        else str
    | None => ""
    end
  else if 0 <? gc_ContentLength c
  then "[Not logged: Content-Type=" +:+ gc_ContentType c +:+ "]"
  else "".

Definition buildRequestSnapshot (c : gin_ctx) : string :=
  let parts := pairs (gc_Query c) ++ ((λ p, p.1 +:+ "=" +:+ p.2) <$> gc_Params c)
               ++ (if is_form (gc_ContentType c) then pairs (gc_PostForm c) else []) in
  let result := Join "&" parts in
  let bodyContent := body_content c in
  if String.eqb bodyContent "" then result
  else if String.eqb result "" then "body=" +:+ bodyContent
  else result +:+ "&body=" +:+ bodyContent.

Definition getBusinessStatus (body : bytes) : Z * string :=
  match body with
  | [] => (0, ""%string)
  | _ => match unmarshal_status body with Ok r => r | Err _ => (0, ""%string) end
  end.

(** [GetUsername] of middleware/auth.go. *)
Definition extractUsernameFromBody (c : gin_ctx) : string :=
  if negb (String.eqb (gc_Method c) "POST") then ""
  else match gc_raw_body c with
  | Some str => if String.eqb str "" then "" else default ""%string (unmarshal_username str)
  | None => ""
  end.
Definition GetUsername (c : gin_ctx) : string :=
  match gc_Username c with Some u => u | None => extractUsernameFromBody c end.

Definition bw_Status (w : bodyLogWriter) : Z :=
  if bw_statusCode w =? 0 then inner_Status (bw_inner w) else bw_statusCode w.

(** The entry the middleware builds after the handler, if any. *)
Definition log_entry (startTime : Z) (c : gin_ctx) (w : bodyLogWriter) : option UserOperationLog :=
  let username := GetUsername c in
  if String.eqb username "" then None
  else match gc_operationType c with
  | None => None
  | Some actionType =>
      let '(code, msg) := getBusinessStatus (bw_body w) in
      Some (UserOperationLog.mkUserOperationLog 0 username (gc_Method c) (buildRequestSnapshot c)
              actionType (gc_Path c) (if code =? 0 then bw_Status w else code)
              (if String.eqb msg "" then default ""%string (gc_Errors c) else msg) startTime 0)
  end.

(** ** The queue *)

Definition LogQueueSize : nat := 2000.
Record LogManager : Type := mkLogManager { logChan : list UserOperationLog; lm_closed : bool }.
Definition NewLogManager : LogManager := mkLogManager [] false.

(** [select { case lm.logChan <- e: default: }]: the new manager and whether
    the entry was accepted. *)
Definition lm_send (e : UserOperationLog) (lm : LogManager) : result (LogManager * bool) :=
  if lm_closed lm then Err (ErrPanic "send on closed channel")
  else if bool_decide (length (logChan lm) < LogQueueSize)%nat
  then Ok (mkLogManager (logChan lm ++ [e]) false, true)
  else Ok (lm, false).
(** [close(lm.logChan)]; the second close of a channel panics. *)
Definition lm_close (lm : LogManager) : result LogManager :=
  if lm_closed lm then Err (ErrPanic "close of closed channel") else Ok (mkLogManager (logChan lm) true).

(** The middleware around a handler that makes the calls [evs] on the writer:
    what the client receives, and the manager. *)
Definition UserOperationLogs (startTime : Z) (c : gin_ctx) (evs : list wevent) (lm : LogManager)
  : list wevent * result LogManager :=
  let w := foldl bw_apply new_writer evs in
  (bw_inner w,
   match log_entry startTime c w with
   | None => Ok lm
   | Some e => match lm_send e lm with Ok (lm', _) => Ok lm' | Err err => Err err end
   end).
End Request.

(** ** Capturing the request body *)

Definition maxCaptureSize : nat := (64 * 1024)%nat.
(** [CaptureRawBody]: what is kept as "raw_body", if it was set, and the body
    the handlers read.  [body = None] is a nil body; [read] is the result of
    reading at most [maxCaptureSize] bytes of it: the bytes, and an error
    with what is left for the handlers. *)
Definition CaptureRawBody (method contentType : string) (contentLength : Z) (body : option bytes)
  (read_error : option bytes) : option bytes * option bytes :=
  if String.eqb method "GET" then (None, body)
  else if negb (Contains contentType "application/json") then (None, body)
  else match body with
  | None => (None, body)
  | Some b =>
      if contentLength =? 0 then (None, body)
      else match read_error with
      | Some rest => (None, Some rest)
      | None => let got := take maxCaptureSize b in (Some got, Some got)
      end
  end.

(** ** The tables of the log *)

Class Created (R : Type) := created_at : R → Z.
#[export] Instance UserOperationLog_created : Created UserOperationLog := UserOperationLog.CreatedAt.

Definition newest_first {R} `{Created R} (a b : R) : bool := created_at b <=? created_at a.
(** The rows of [SELECT id ... ORDER BY created_at DESC LIMIT 5000]; the
    database chooses among rows with the same time. *)
Definition latest {R} `{Created R} (rows recent : list R) : Prop :=
  ∃ l, l ≡ₚ rows ∧ Sorted (brel newest_first) l ∧ recent = take 5000 l.

(** The statements on a log table: [Count] and a page of the rows among the
    latest that satisfy a condition, and [Update] with its [RowsAffected]. *)
Class LogQuery (S R : Type) `{Table S R} `{Created R} := {
  lq_count : (R → bool) → M S (result Z);
  lq_page : (R → bool) → Z → Z → M S (result (list R));
  lq_update : (R → bool) → (R → R) → M S (result Z)
}.
Class LogQueryLaws (S R : Type) `{LogQuery S R} : Prop := {
  lq_count_view p : keeps tbl_rows (lq_count p);
  lq_count_ok p s s' n :
    lq_count p s = (s', Ok n) →
    ∃ recent, latest (tbl_rows s) recent ∧ n = Z.of_nat (length (List.filter p recent));
  lq_page_view p o n : keeps tbl_rows (lq_page p o n);
  lq_page_ok p offset limit s s' l :
    lq_page p offset limit s = (s', Ok l) →
    ∃ recent l0, latest (tbl_rows s) recent ∧ l0 ≡ₚ List.filter p recent ∧
      Sorted (brel newest_first) l0 ∧ l = limit_offset limit offset l0;
  lq_update_spec p f s s' r :
    lq_update p f s = (s', r) →
    tbl_rows s' = if is_ok r then (λ x, if p x then f x else x) <$> tbl_rows s else tbl_rows s
}.

Module AdminOperationLog.
Record AdminOperationLog : Type := mkAdminOperationLog {
  ID : Z; Username : string; ActionType : string; Status : Z; CreatedAt : Z; UpdatedAt : Z
}.
Definition set_id (k : Z) (l : AdminOperationLog) : AdminOperationLog :=
  mkAdminOperationLog k (Username l) (ActionType l) (Status l) (CreatedAt l) (UpdatedAt l).
(** gorm sets the two times of a new row that are zero. *)
Definition set_times (t : Z) (l : AdminOperationLog) : AdminOperationLog :=
  let or_now x := if x =? zero_time then t else x in
  mkAdminOperationLog (ID l) (Username l) (ActionType l) (Status l) (or_now (CreatedAt l)) (or_now (UpdatedAt l)).
(** An update stamps [UpdatedAt]. *)
Definition set_status (now v : Z) (l : AdminOperationLog) : AdminOperationLog :=
  mkAdminOperationLog (ID l) (Username l) (ActionType l) v (CreatedAt l) now.
End AdminOperationLog.
Notation AdminOperationLog := AdminOperationLog.AdminOperationLog.
#[export] Instance AdminOperationLog_row : Row AdminOperationLog :=
  { row_id := AdminOperationLog.ID; row_set_id := AdminOperationLog.set_id;
    row_stamp := AdminOperationLog.set_times;
    row_set_id_id _ _ := eq_refl; row_stamp_id _ _ := eq_refl }.
#[export] Instance AdminOperationLog_created : Created AdminOperationLog := AdminOperationLog.CreatedAt.

Module UserLogsResponse.
Record UserLogsResponse : Type := mkUserLogsResponse {
  Username : string; RequestData : string; ActionType : string; Method : string; Path : string;
  Status : Z; CreatedAt : Z
}.
End UserLogsResponse.
Notation UserLogsResponse := UserLogsResponse.UserLogsResponse.
Definition log_response (l : UserOperationLog) : UserLogsResponse :=
  UserLogsResponse.mkUserLogsResponse (UserOperationLog.Username l) (UserOperationLog.RequestData l)
    (UserOperationLog.ActionType l) (UserOperationLog.Method l) (UserOperationLog.Path l)
    (UserOperationLog.Status l) (UserOperationLog.CreatedAt l).

Module AdminLogResponse.
Record AdminLogResponse : Type := mkAdminLogResponse {
  Username : string; ActionType : string; Status : Z; CreatedAt : Z
}.
End AdminLogResponse.
Notation AdminLogResponse := AdminLogResponse.AdminLogResponse.
Definition admin_response (l : AdminOperationLog) : AdminLogResponse :=
  AdminLogResponse.mkAdminLogResponse (AdminOperationLog.Username l) (AdminOperationLog.ActionType l)
    (AdminOperationLog.Status l) (AdminOperationLog.CreatedAt l).

Module PageResponse.
Record PageResponse (A : Type) : Type := mkPageResponse {
  List : list A; Total : Z; Page : Z; PageSize : Z; Pages : Z
}.
Arguments mkPageResponse {A}. Arguments List {A}. Arguments Total {A}. Arguments Page {A}.
Arguments PageSize {A}. Arguments Pages {A}.
End PageResponse.
Notation PageResponse := PageResponse.PageResponse.

(** [math.Ceil]; the page size is positive. *)
Definition f_ceil (x : float64) : Z := - (- x / f_one).
Definition NewPageResponse {A} (l : list A) (total page pageSize : Z) : PageResponse A :=
  PageResponse.mkPageResponse l total page pageSize
    (f_ceil (f_div (f_of_int total) (f_of_int pageSize))).

(** ** Requests *)

Module UserLogsRequest.
Record UserLogsRequest : Type := mkUserLogsRequest {
  Username : string; ActionType : string; Status : string; EndTime : string; StartTime : string;
  Page : Z; Size : Z
}.
End UserLogsRequest.
Notation UserLogsRequest := UserLogsRequest.UserLogsRequest.
Module AdminLogsRequest.
Record AdminLogsRequest : Type := mkAdminLogsRequest {
  KeyWord : string; Status : string; Page : Z; Size : Z
}.
End AdminLogsRequest.
Notation AdminLogsRequest := AdminLogsRequest.AdminLogsRequest.

(** The binding tags of [PageRequest]: required, from 1, and at most 100 rows. *)
Definition page_binds (page size : Z) : bool := (1 <=? page) && (1 <=? size) && (size <=? 100).
Definition status_ok (status : string) : bool :=
  bool_decide (status ∈ [""; "success"; "fail"]%string).

(** [time.Parse] with the layout "2006-01-02", in nanoseconds from 1970. *)
Definition digits (s : string) : option Z :=
  if all_chars (λ c, let n := nat_of_ascii c in (48 <=? n)%nat && (n <=? 57)%nat) s
  then match Atoi s with Ok n => Some n | Err _ => None end else None.
Definition is_leap (y : Z) : bool := (y mod 4 =? 0) && (negb (y mod 100 =? 0) || (y mod 400 =? 0)).
Definition days_in (m y : Z) : Z :=
  if m =? 2 then (if is_leap y then 29 else 28)
  else if bool_decide (m ∈ [4; 6; 9; 11]) then 30 else 31.
(** Days from 1970-01-01 of the civil calendar: years begin in March. *)
Definition civil_days (y m d : Z) : Z :=
  let y' := if m <=? 2 then y - 1 else y in
  let era := y' / 400 in
  let yoe := y' - era * 400 in
  let mp := (m + 9) mod 12 in
  let doy := (153 * mp + 2) / 5 + d - 1 in
  let doe := yoe * 365 + yoe / 4 - yoe / 100 + doy in
  era * 146097 + doe - 719468.
Definition parse_date (s : string) : result Z :=
  if negb (String.length s =? 10)%nat then Err ErrSyntax
  else if negb (String.eqb (String.substring 4 1 s) "-" && String.eqb (String.substring 7 1 s) "-")
  then Err ErrSyntax
  else match digits (String.substring 0 4 s), digits (String.substring 5 2 s),
             digits (String.substring 8 2 s) with
  | Some y, Some m, Some d =>
      if (1 <=? m) && (m <=? 12) && (1 <=? d) && (d <=? days_in m y)
      then Ok (civil_days y m d * 86400 * 10 ^ 9) else Err ErrRange
  | _, _, _ => Err ErrSyntax
  end.

Example date_ex :
  (parse_date "1970-01-01", parse_date "2024-02-29", is_ok (parse_date "2023-02-29"),
   is_ok (parse_date "2024-2-29"), parse_date "0001-01-01")
  = (Ok 0, Ok (1709164800 * 10 ^ 9), false, false, Ok zero_time).
Proof. vm_compute. reflexivity. Qed.
Example leap_days : civil_days 2000 3 1 - civil_days 2000 2 28 = 2 ∧
  civil_days 1900 3 1 - civil_days 1900 2 28 = 1.
Proof. split; reflexivity. Qed.

Section LogPages.
Context {S : Type} {TL : Table S UserOperationLog} {LQ : LogQuery S UserOperationLog}.
Context {S2 : Type} {TA : Table S2 AdminOperationLog} {LA : LogQuery S2 AdminOperationLog}.
(** SQL's LIKE. *)
Variable like : string → string → bool.
Definition contains (s x : string) : bool := like s ("%" +:+ x +:+ "%").

Definition user_log_filter (username actionType status : string) (start stop : Z)
  (l : UserOperationLog) : bool :=
  (String.eqb actionType "" || contains (UserOperationLog.ActionType l) actionType) &&
  (String.eqb username "" || contains (UserOperationLog.Username l) username) &&
  (if String.eqb status "success" then UserOperationLog.Status l =? 200
   else if String.eqb status "fail" then negb (UserOperationLog.Status l =? 200) else true) &&
  ((start =? zero_time) || (start <=? UserOperationLog.CreatedAt l)) &&
  ((stop =? zero_time) || (UserOperationLog.CreatedAt l <=? stop)).

Definition FindUserLogs (offset size : Z) (username actionType status : string) (start stop : Z)
  : M S (result (list UserLogsResponse * Z)) :=
  let p := user_log_filter username actionType status start stop in
  c ← lq_count p;
  match c with
  | Err e => mret (Err e)
  | Ok total =>
      r ← lq_page p offset size;
      mret (match r with Err e => Err e | Ok logs => Ok (log_response <$> logs, total) end)
  end.

Definition repo_CreateLog (l : UserOperationLog) : M S (result unit) :=
  r ← tbl_create l; mret (match r with Ok _ => Ok tt | Err e => Err e end).

Definition GetUserLogs (r : UserLogsRequest) (start stop : Z)
  : M S (result (PageResponse UserLogsResponse)) :=
  let page := UserLogsRequest.Page r in
  let size := UserLogsRequest.Size r in
  x ← FindUserLogs (wrap64 (wrap64 (page - 1) * size)) size (UserLogsRequest.Username r)
        (UserLogsRequest.ActionType r) (UserLogsRequest.Status r) start stop;
  mret (match x with
        | Err e => Err (NewWithErr CodeInternalError "查询用户日志失败" e)
        | Ok (logs, total) => Ok (NewPageResponse logs total page size)
        end).

Definition day_end (t : Z) : Z := t + (23 * 3600 + 59 * 60 + 59) * 10 ^ 9.
(** An empty date is the zero time. *)
Definition bound (s : string) (f : Z → Z) : result Z :=
  if String.eqb s "" then Ok zero_time
  else match parse_date s with Ok t => Ok (f t) | Err e => Err e end.

Definition ctrl_GetUserLogs (req : UserLogsRequest) : M S (Response (PageResponse UserLogsResponse)) :=
  if negb (page_binds (UserLogsRequest.Page req) (UserLogsRequest.Size req))
  then mret (BadRequest "请求参数错误")
  else match bound (UserLogsRequest.StartTime req) id with
  | Err _ => mret (BadRequest "开始时间格式错误，请使用YYYY-MM-DD格式")
  | Ok start =>
      match bound (UserLogsRequest.EndTime req) day_end with
      | Err _ => mret (BadRequest "结束时间格式错误，请使用YYYY-MM-DD格式")
      | Ok stop =>
          if negb (start =? zero_time) && negb (stop =? zero_time) && (stop <? start)
          then mret (BadRequest "开始时间不能晚于结束时间")
          else if negb (status_ok (UserLogsRequest.Status req))
          then mret (BadRequest "状态参数格式错误，只能是 success 或 fail")
          else
            d ← GetUserLogs req start stop;
            mret (match d with Ok data => Success data | Err e => BizError e end)
      end
  end.

Definition admin_log_filter (keyWord status : string) (l : AdminOperationLog) : bool :=
  (String.eqb keyWord "" || contains (AdminOperationLog.Username l) keyWord
   || contains (AdminOperationLog.ActionType l) keyWord) &&
  (if String.eqb status "success" then AdminOperationLog.Status l =? 1
   else if String.eqb status "fail" then negb (AdminOperationLog.Status l =? 1) else true).
Definition FindAdminLogs (offset size : Z) (keyWord status : string)
  : M S2 (result (list AdminLogResponse * Z)) :=
  let p := admin_log_filter keyWord status in
  c ← lq_count p;
  match c with
  | Err e => mret (Err e)
  | Ok total =>
      r ← lq_page p offset size;
      mret (match r with Err e => Err e | Ok logs => Ok (admin_response <$> logs, total) end)
  end.
Definition admin_CreateLog (l : AdminOperationLog) : M S2 (result Z) := tbl_create l.
Definition UpdateStatus (now id : Z) : M S2 (result Z) :=
  lq_update (λ l, AdminOperationLog.ID l =? id) (AdminOperationLog.set_status now 1).
Definition GetAdminLogs (r : AdminLogsRequest) : M S2 (result (PageResponse AdminLogResponse)) :=
  let page := AdminLogsRequest.Page r in
  let size := AdminLogsRequest.Size r in
  x ← FindAdminLogs (wrap64 (wrap64 (page - 1) * size)) size (AdminLogsRequest.KeyWord r)
        (AdminLogsRequest.Status r);
  mret (match x with
        | Err e => Err (NewWithErr CodeInternalError "查询管理员日志失败" e)
        | Ok (logs, total) => Ok (NewPageResponse logs total page size)
        end).
Definition ctrl_GetAdminLogs (req : AdminLogsRequest)
  : M S2 (Response (PageResponse AdminLogResponse)) :=
  if negb (page_binds (AdminLogsRequest.Page req) (AdminLogsRequest.Size req))
  then mret (BadRequest "请求参数错误")
  else if negb (status_ok (AdminLogsRequest.Status req))
  then mret (BadRequest "状态参数格式错误，只能是 success 或 fail")
  else
    d ← GetAdminLogs req;
    mret (match d with Ok data => Success data | Err e => BizError e end).

(** One turn of the consumer: the entry is taken; an entry that cannot be
    saved is lost. *)
Definition consume (e : UserOperationLog) : M S bool :=
  r ← repo_CreateLog e; mret (is_ok r).
End LogPages.

(** ** The throttle spaces messages out *)

(** Printed times from a state: at least an interval after the last one. *)
Lemma printed_spaced times t :
  Forall (λ x, lastLogTime t ≤ x ∧ x - lastLogTime t ≤ max_int64) times →
  Sorted Z.le times → 0 ≤ interval t ≤ max_int64 →
  Forall (λ x, lastLogTime t + interval t ≤ x) (printed times t) ∧
  StronglySorted (λ a b, a + interval t ≤ b) (printed times t).
Proof.
  intros Hb Hs Hi. apply Sorted_StronglySorted in Hs; [|apply _].
  revert t Hb Hi. induction Hs as [|now times Hs IH Hn]; intros t Hb Hi; cbn.
  { split; constructor. }
  apply Forall_cons in Hb as [[Hlo Hhi] Hb]. unfold throttle_Log.
  assert (dur_sub now (lastLogTime t) = now - lastLogTime t) as ->.
  { unfold dur_sub, min_int64, max_int64 in *. lia. }
  destruct (Z.leb_spec (interval t) (now - lastLogTime t)) as [Hle|Hlt]; [|by apply IH].
  destruct (IH (mkErrorThrottle now (interval t))) as [Hf Hss].
  { rewrite Forall_forall in *. intros x Hx. specialize (Hn x Hx). specialize (Hb x Hx). cbn. lia. }
  { done. }
  cbn in Hf, Hss. split.
  - constructor; [lia|]. eapply Forall_impl; [done|]. cbn. intros. lia.
  - constructor; [done|]. eapply Forall_impl; [done|]. cbn. intros. lia.
Qed.

(** A call that prints nothing comes less than an interval after a message
    that was printed, the last one before the calls included. *)
Lemma printed_covers times t x :
  Forall (λ x, lastLogTime t ≤ x ∧ x - lastLogTime t ≤ max_int64) times →
  Sorted Z.le times → 0 < interval t ≤ max_int64 → x ∈ times →
  ∃ y, (y = lastLogTime t ∨ y ∈ printed times t) ∧ y ≤ x < y + interval t.
Proof.
  intros Hb Hs Hi Hx. apply Sorted_StronglySorted in Hs; [|apply _].
  revert t Hb Hi Hx. induction Hs as [|now times Hs IH Hn]; intros t Hb Hi Hx; cbn.
  { by apply elem_of_nil in Hx. }
  apply Forall_cons in Hb as [[Hlo Hhi] Hb]. unfold throttle_Log.
  assert (dur_sub now (lastLogTime t) = now - lastLogTime t) as ->.
  { unfold dur_sub, min_int64, max_int64 in *. lia. }
  apply elem_of_cons in Hx.
  destruct (Z.leb_spec (interval t) (now - lastLogTime t)) as [Hle|Hlt].
  - destruct Hx as [->|Hx]; [exists now; split; [right; by left|lia]|].
    destruct (IH (mkErrorThrottle now (interval t))) as (y & Hy & Hb'); [|done|done|].
    { rewrite Forall_forall in *. intros z Hz. specialize (Hn z Hz). specialize (Hb z Hz). cbn. lia. }
    cbn in *. exists y. split; [|done]. right. destruct Hy as [->|Hy]; [by left|by right].
  - destruct Hx as [->|Hx]; [exists (lastLogTime t); split; [by left|lia]|]. by apply IH.
Qed.

(** Of the calls to a throttle, in the order of time, the printed ones are
    at least an interval apart, and every call is printed or comes less than an
    interval after a printed one; the first call is always printed. *)
Theorem throttle_spacing i times :
  0 < i ≤ max_int64 → Sorted Z.le times → Forall (λ x, 0 ≤ x ≤ max_int64) times →
  StronglySorted (λ a b, a + i ≤ b) (printed times (NewErrorThrottle i)) ∧
  ∀ x, x ∈ times → ∃ y, y ∈ printed times (NewErrorThrottle i) ∧ y ≤ x < y + i.
Proof.
  intros Hi Hs Hb. destruct times as [|now times]; [split; [constructor|by intros ? ?%elem_of_nil]|].
  apply Forall_cons in Hb as [H0 Hb]. apply Sorted_StronglySorted in Hs; [|apply _].
  apply StronglySorted_inv in Hs as [Hs Hn].
  assert (printed (now :: times) (NewErrorThrottle i) = now :: printed times (mkErrorThrottle now i)) as ->.
  { cbn. unfold throttle_Log. cbn. destruct (Z.leb_spec i (dur_sub now zero_time)) as [|Hlt]; [done|].
    unfold dur_sub, zero_time, min_int64, max_int64 in *. lia. }
  assert (Forall (λ x, lastLogTime (mkErrorThrottle now i) ≤ x ∧
            x - lastLogTime (mkErrorThrottle now i) ≤ max_int64) times) as Hf.
  { rewrite Forall_forall in *. intros x Hx. specialize (Hb x Hx). specialize (Hn x Hx). cbn. lia. }
  apply StronglySorted_Sorted in Hs. split.
  - destruct (printed_spaced times (mkErrorThrottle now i)) as [Hp Hq]; [done|done|cbn; lia|].
    by constructor.
  - intros x [->|Hx]%elem_of_cons; [exists now; split; [by left|lia]|].
    destruct (printed_covers times (mkErrorThrottle now i) x) as (y & [->|Hy] & Hr); [done..| |];
      cbn in *; eexists; (split; [|done]); [by left|by right].
Qed.

(** ** The writer is transparent *)

Definition ev_bytes (e : wevent) : bytes := match e with WriteEv b => b | HeaderEv _ => [] end.
Definition all_bytes (evs : list wevent) : bytes := flat_map ev_bytes evs.

(** The copy: everything while it fits, else its first 4096 bytes, and then
    the mark unless a write ended exactly there. *)
Definition copy_of (all body : bytes) : Prop :=
  if bool_decide (length all ≤ MaxBodyLogSize)%nat then body = all
  else body = take MaxBodyLogSize all ∨ body = take MaxBodyLogSize all ++ truncated_mark.

Lemma bw_Write_copy all b w :
  copy_of all (bw_body w) → copy_of (all ++ b) (bw_body (bw_Write b w)).
Proof.
  unfold copy_of, bw_Write. cbn [bw_body]. rewrite length_app. intros Hc.
  destruct (decide (length all ≤ MaxBodyLogSize)%nat) as [Hle|Hgt].
  - rewrite bool_decide_true in Hc by done. rewrite Hc.
    destruct (decide (length all < MaxBodyLogSize)%nat) as [Hlt|Hge].
    + rewrite (bool_decide_true (length all < _)%nat) by done.
      destruct (decide (MaxBodyLogSize - length all < length b)%nat) as [Hb|Hb].
      * rewrite (bool_decide_true (MaxBodyLogSize - _ < _)%nat), bool_decide_false by lia. right.
        by rewrite take_app_ge, app_assoc by lia.
      * rewrite (bool_decide_false (MaxBodyLogSize - _ < _)%nat), bool_decide_true by lia. done.
    + rewrite (bool_decide_false (length all < _)%nat) by done.
      case_bool_decide as Hb; [destruct b; [by rewrite app_nil_r|cbn in Hb; lia]|].
      left. rewrite take_app_ge by lia. replace (MaxBodyLogSize - length all)%nat with O by lia.
      by rewrite app_nil_r.
  - rewrite bool_decide_false in Hc by done.
    assert (¬ length (bw_body w) < MaxBodyLogSize)%nat as Hn.
    { destruct Hc as [-> | ->]; rewrite ?length_app, length_take; lia. }
    rewrite (bool_decide_false (length (bw_body w) < _)%nat), bool_decide_false by lia.
    by rewrite take_app_le by lia.
Qed.

Lemma writer_run evs w all :
  copy_of all (bw_body w) →
  bw_inner (foldl bw_apply w evs) = bw_inner w ++ evs ∧
  copy_of (all ++ all_bytes evs) (bw_body (foldl bw_apply w evs)).
Proof.
  revert w all. induction evs as [|e evs IH]; intros w all Hc; cbn.
  { by rewrite !app_nil_r. }
  destruct (IH (bw_apply w e) (all ++ ev_bytes e)) as [Hi Hb].
  { destruct e as [b|c]; [by apply bw_Write_copy|]. cbn. by rewrite app_nil_r. }
  rewrite <-app_assoc in Hb. split; [|done]. rewrite Hi. destruct e; cbn; by rewrite <-app_assoc.
Qed.

(** The client receives what the handler wrote, and the copy is bounded. *)
Theorem writer_transparent evs :
  bw_inner (foldl bw_apply new_writer evs) = evs ∧
  copy_of (all_bytes evs) (bw_body (foldl bw_apply new_writer evs)) ∧
  (length (bw_body (foldl bw_apply new_writer evs)) ≤ MaxBodyLogSize + 11)%nat.
Proof.
  destruct (writer_run evs new_writer []) as [Hi Hc]; [done|]. cbn [app] in Hc.
  split_and!; [done|done|]. revert Hc. unfold copy_of.
  case_bool_decide as Hl; [intros ->; lia|]. assert (length truncated_mark = 11%nat) as Hm by done.
  intros [-> | ->]; rewrite ?length_app, length_take, ?Hm; lia.
Qed.

(** ** The queue *)

(** The manager and the table, with the history: the entries that entered the
    queue, and those the consumer took, each with whether it was saved. *)
Section LogQueue.
Context {S : Type} {TL : Table S UserOperationLog} {TLL : TableLaws S UserOperationLog}.

Record lstate : Type := mkLstate {
  ls_lm : LogManager; ls_db : S;
  ls_accepted : list UserOperationLog; ls_done : list (UserOperationLog * bool)
}.

Inductive lstep : lstate → lstate → Prop :=
  | l_send e lm lm' db acc dn b :
      lm_send e lm = Ok (lm', b) → UserOperationLog.ID e = 0 →
      lstep (mkLstate lm db acc dn) (mkLstate lm' db (if b : bool then acc ++ [e] else acc) dn)
  | l_consume e q cl db db' acc dn b :
      consume e db = (db', b) →
      lstep (mkLstate (mkLogManager (e :: q) cl) db acc dn)
            (mkLstate (mkLogManager q cl) db' acc (dn ++ [(e, b)]))
  | l_close lm lm' db acc dn :
      lm_close lm = Ok lm' →
      lstep (mkLstate lm db acc dn) (mkLstate lm' db acc dn).

(** An entry as it is in the table: numbered and stamped. *)
Definition same_entry (e r : UserOperationLog) : Prop :=
  ∃ k t, r = UserOperationLog.set_updated t (UserOperationLog.set_id k e).

Definition saved (dn : list (UserOperationLog * bool)) : list UserOperationLog :=
  omap (λ x, if x.2 : bool then Some x.1 else None) dn.

Definition log_inv (rows0 : list UserOperationLog) (st : lstate) : Prop :=
  ls_accepted st = (ls_done st).*1 ++ logChan (ls_lm st) ∧
  (length (logChan (ls_lm st)) ≤ LogQueueSize)%nat ∧
  Forall (λ e, UserOperationLog.ID e = 0) (ls_accepted st) ∧
  ∃ rows, tbl_rows (ls_db st) = rows0 ++ rows ∧ Forall2 same_entry (saved (ls_done st)) rows.

Lemma consume_rows e db db' b :
  UserOperationLog.ID e = 0 → consume e db = (db', b) →
  if b then ∃ r, tbl_rows db' = tbl_rows db ++ [r] ∧ same_entry e r else tbl_rows db' = tbl_rows db.
Proof.
  unfold consume, repo_CreateLog. intros He E. open_bind E as s1 r E1. injection E as -> <-.
  open_bind E1 as s2 k E2. injection E1 as -> <-. destruct k as [k|]; cbn.
  - apply tbl_create_ok in E2 as (_ & t & E2); [|done]. eexists. split; [done|]. by exists k, t.
  - by apply tbl_create_err in E2.
Qed.

Lemma lstep_inv rows0 st st' : lstep st st' → log_inv rows0 st → log_inv rows0 st'.
Proof.
  intros Hs (Ha & Hl & Hid & rows & Hr & Hf). destruct Hs as [e lm lm' db acc dn b E He|e q cl db db' acc dn b E|lm lm' db acc dn E]; cbn in *.
  - unfold lm_send in E. destruct (lm_closed lm); [done|]. case_bool_decide; simplify_eq/=.
    + unfold log_inv. cbn. split_and!; [|rewrite length_app; cbn; lia| |by exists rows].
      * by rewrite app_assoc.
      * apply Forall_app. split; [done|]. by constructor.
    + unfold log_inv. cbn. split_and!; eauto.
  - subst acc. assert (UserOperationLog.ID e = 0) as He.
    { rewrite Forall_forall in Hid. apply Hid. set_solver. }
    pose proof (consume_rows _ _ _ _ He E) as Hc. unfold log_inv. cbn. split_and!.
    + rewrite fmap_app. cbn. by rewrite <-app_assoc.
    + lia.
    + done.
    + unfold saved. rewrite omap_app. destruct b; cbn.
      * destruct Hc as (r & Hdb & Hse). exists (rows ++ [r]). rewrite Hdb, Hr, app_assoc.
        split; [done|]. apply Forall2_app; [done|]. by constructor.
      * exists rows. rewrite app_nil_r. split; [congruence|done].
  - unfold lm_close in E. destruct (lm_closed lm); [done|]. simplify_eq. unfold log_inv. cbn. eauto 6.
Qed.

(** C36: The entries of the operation log reach the table in the order in
    which the queue accepted them, each at most once and unchanged but for
    the number and the time stamp the database gives; entries are missing only
    when their insert failed.  The queue never holds more than 2000. *)
Theorem log_fifo (db : S) st :
  rtc lstep (mkLstate NewLogManager db [] []) st →
  ls_accepted st = (ls_done st).*1 ++ logChan (ls_lm st) ∧
  (length (logChan (ls_lm st)) ≤ LogQueueSize)%nat ∧
  ∃ rows, tbl_rows (ls_db st) = tbl_rows db ++ rows ∧ Forall2 same_entry (saved (ls_done st)) rows.
Proof.
  intros Hr. assert (log_inv (tbl_rows db) st) as (? & ? & _ & ?); [|done].
  revert Hr. cut (log_inv (tbl_rows db) (mkLstate NewLogManager db [] [])).
  - generalize (mkLstate NewLogManager db [] []). intros st0 H0 Hr.
    induction Hr; eauto using lstep_inv.
  - unfold log_inv. cbn. split_and!; [done|unfold LogQueueSize; lia|constructor|].
    exists []. by rewrite app_nil_r.
Qed.
End LogQueue.

(** ** The pages *)

Section LogPageProps.
Context {S : Type} {TL : Table S UserOperationLog} {LQ : LogQuery S UserOperationLog}.
Context {LQL : LogQueryLaws S UserOperationLog}.
Variable like : string → string → bool.

Lemma limit_offset_sublist {A} n k (l : list A) : limit_offset n k l `sublist_of` l.
Proof.
  unfold limit_offset. destruct (0 <? k), (n <? 0); try done.
  - apply sublist_drop.
  - etransitivity; [apply sublist_take|apply sublist_drop].
  - apply sublist_take.
Qed.

Lemma page_rows_length {A} n k (l : list A) :
  0 ≤ n → Z.of_nat (length (limit_offset n k l)) ≤ n.
Proof.
  intros Hn. unfold limit_offset. destruct (Z.ltb_spec n 0); [lia|]. rewrite length_take. lia.
Qed.

Lemma latest_length (rows recent : list UserOperationLog) : latest rows recent → (length recent ≤ 5000)%nat.
Proof. intros (l & _ & _ & ->). rewrite length_take. lia. Qed.
Lemma latest_elem (rows recent : list UserOperationLog) x : latest rows recent → x ∈ recent → x ∈ rows.
Proof. intros (l & Hp & _ & ->) Hx. rewrite <-Hp. by eapply elem_of_sublist, sublist_take. Qed.

Lemma Sorted_sublist {A} (R : relation A) `{!Transitive R} (l k : list A) :
  Sorted R l → k `sublist_of` l → Sorted R k.
Proof.
  intros Hs Hk. apply Sorted_StronglySorted in Hs; [|done]. apply StronglySorted_Sorted.
  induction Hk as [|x k l Hk IH|x k l Hk IH]; [constructor| |].
  - apply StronglySorted_inv in Hs as [Hs Hf]. constructor; [auto|].
    rewrite Forall_forall in *. intros y Hy. apply Hf. by eapply elem_of_sublist.
  - apply StronglySorted_inv in Hs as [Hs _]. auto.
Qed.

#[local] Instance newest_trans : Transitive (brel (newest_first (R := UserOperationLog))).
Proof. intros a b c. unfold brel, newest_first. lia. Qed.

Lemma FindUserLogs_ok off size u a st t1 t2 (s s' : S) logs total :
  FindUserLogs like off size u a st t1 t2 s = (s', Ok (logs, total)) → 0 ≤ size →
  tbl_rows s' = tbl_rows s ∧ 0 ≤ total ≤ 5000 ∧ Z.of_nat (length logs) ≤ size ∧
  Sorted (λ x y, UserLogsResponse.CreatedAt y ≤ UserLogsResponse.CreatedAt x) logs ∧
  (∀ x, x ∈ logs → ∃ r, r ∈ tbl_rows s ∧ x = log_response r ∧ user_log_filter like u a st t1 t2 r = true).
Proof.
  unfold FindUserLogs. intros E Hsz. open_bind E as s1 c E1. destruct c as [n|]; [|done].
  open_bind E as s2 r E2. destruct r as [l|]; [|done]. injection E as -> <- <-.
  assert (tbl_rows s1 = tbl_rows s) as K1 by by eapply lq_count_view.
  assert (tbl_rows s' = tbl_rows s1) as K2 by by eapply lq_page_view.
  apply lq_count_ok in E1 as (rec & Hrec & ->).
  apply lq_page_ok in E2 as (rec' & l0 & Hrec' & Hp & Hs & ->). rewrite K1 in Hrec'. split_and!.
  - congruence.
  - lia.
  - pose proof (latest_length _ _ Hrec).
    pose proof (List.filter_length_le (user_log_filter like u a st t1 t2) rec). lia.
  - rewrite length_fmap. by apply page_rows_length.
  - pose proof (Sorted_sublist _ _ _ Hs (limit_offset_sublist size off l0)) as Hs'.
    clear -Hs'. induction Hs' as [|x l Hl IH Hhd]; cbn; constructor; [done|].
    inversion Hhd as [|y k Hy]; cbn; constructor. unfold brel, newest_first in Hy. cbn.
    unfold created_at, UserOperationLog_created in Hy. lia.
  - intros x (r & -> & Hr)%list_elem_of_fmap. exists r.
    eapply elem_of_sublist in Hr; [|apply limit_offset_sublist].
    rewrite Hp in Hr. apply list_elem_of_In, filter_In in Hr as [Hr%list_elem_of_In Hf].
    split_and!; [by eapply latest_elem|done|done].
Qed.

(** A page of the operation log that is sent as a success holds at most as
    many rows as were asked for, newest first, each a row of the table that
    satisfies every filter of the request, its days included; its total is at
    most 5000, and reading it changes nothing. *)
Theorem user_logs_page (req : UserLogsRequest) (s s' : S) resp pg :
  ctrl_GetUserLogs like req s = (s', resp) → Data resp = Some pg →
  Code resp = CodeSuccess ∧ tbl_rows s' = tbl_rows s ∧
  0 ≤ PageResponse.Total pg ≤ 5000 ∧
  Z.of_nat (length (PageResponse.List pg)) ≤ UserLogsRequest.Size req ≤ 100 ∧
  Sorted (λ x y, UserLogsResponse.CreatedAt y ≤ UserLogsResponse.CreatedAt x) (PageResponse.List pg) ∧
  ∃ start stop, bound (UserLogsRequest.StartTime req) id = Ok start ∧
    bound (UserLogsRequest.EndTime req) day_end = Ok stop ∧
    ∀ x, x ∈ PageResponse.List pg → ∃ r, r ∈ tbl_rows s ∧ x = log_response r ∧
      user_log_filter like (UserLogsRequest.Username req) (UserLogsRequest.ActionType req)
        (UserLogsRequest.Status req) start stop r = true.
Proof.
  unfold ctrl_GetUserLogs. intros E Hd.
  destruct (page_binds _ _) eqn:Hb; cbn [negb] in E; [|injection E as <- <-; done].
  destruct (bound _ id) as [start|] eqn:E1; [|injection E as <- <-; done].
  destruct (bound _ day_end) as [stop|] eqn:E2; [|injection E as <- <-; done].
  destruct (_ && _ && _); [injection E as <- <-; done|].
  destruct (negb _); [injection E as <- <-; done|].
  open_bind E as s1 d E3. injection E as -> <-. unfold GetUserLogs in E3.
  open_bind E3 as s2 x E4. injection E3 as -> <-. destruct x as [[logs total]|e]; [|done].
  injection Hd as <-. unfold page_binds in Hb.
  apply FindUserLogs_ok in E4 as (Hr & Ht & Hl & Hs & Hx); [|lia]. cbn.
  split_and!; try done; try lia. by exists start, stop.
Qed.

End LogPageProps.

(** ** Executions *)

Definition log_db : Type := mem (rows (R := UserOperationLog)).
#[export] Instance log_table : Table log_db UserOperationLog := mem_table (λ _ _, false).
#[export] Instance log_table_laws : TableLaws log_db UserOperationLog.
Proof. apply mem_table_laws. Qed.

#[local] Instance newest_total : Total (brel (newest_first (R := UserOperationLog))).
Proof. intros a b. unfold brel, newest_first. lia. Qed.
#[local] Instance newest_dec (a b : UserOperationLog) : Decision (brel newest_first a b).
Proof. unfold brel. apply _. Defined.

Definition sorted_rows (l : list UserOperationLog) : list UserOperationLog :=
  merge_sort (brel newest_first) l.
Definition recent_rows (d : rows (R := UserOperationLog)) : list UserOperationLog :=
  take 5000 (sorted_rows (proj1_sig d)).
#[export] Instance log_query : LogQuery log_db UserOperationLog := {
  lq_count p := with_fault (λ d, (d, Ok (Z.of_nat (length (List.filter p (recent_rows d))))));
  lq_page p k n := with_fault (λ d,
    (d, Ok (limit_offset n k (sorted_rows (List.filter p (recent_rows d))))));
  lq_update p f := with_fault (λ d,
    let '(d', r) := commit ((λ x, if p x then f x else x) <$> proj1_sig d) d in
    (d', match r with
         | Ok _ => Ok (Z.of_nat (length (List.filter p (proj1_sig d))))
         | Err e => Err e
         end))
}.

Lemma recent_latest d : latest (proj1_sig d) (recent_rows d).
Proof.
  exists (sorted_rows (proj1_sig d)). split_and!; [apply merge_sort_Permutation| |done].
  apply (Sorted_merge_sort _).
Qed.

#[export] Instance log_query_laws : LogQueryLaws log_db UserOperationLog.
Proof.
  split; unfold keeps; cbn [lq_count lq_page lq_update log_query].
  - intros p w w' a [[E _]|E]%with_fault_inv; cbn in *; congruence.
  - intros p s s' n [[_ E]|E]%with_fault_inv; [done|]. injection E as _ <-.
    exists (recent_rows (m_data s)). split; [apply recent_latest|done].
  - intros p o n w w' a [[E _]|E]%with_fault_inv; cbn in *; congruence.
  - intros p o n s s' l [[_ E]|E]%with_fault_inv; [done|]. injection E as _ <-.
    exists (recent_rows (m_data s)), (sorted_rows (List.filter p (recent_rows (m_data s)))).
    split_and!; [apply recent_latest|apply merge_sort_Permutation| |done].
    apply (Sorted_merge_sort _).
  - intros p f s s' r [[E ->]|E]%with_fault_inv; cbn in *; [congruence|].
    destruct (commit _ _) as [d' r'] eqn:Ec. injection E as -> <-.
    apply commit_spec in Ec. rewrite Ec. by destruct r'.
Qed.

Definition log_row (id st t : Z) : UserOperationLog :=
  UserOperationLog.mkUserOperationLog id "ann" "POST" "" "login" "/v1/login" st "" t 0.
Definition log_demo : log_db :=
  mem_rows [log_row 1 200 10; log_row 2 500 20; log_row 3 200 (100 * 86400 * 10 ^ 9)] eq_refl [].
Definition any_like (s pat : string) : bool := String.eqb ("%" +:+ s +:+ "%") pat.
Definition log_req : UserLogsRequest :=
  UserLogsRequest.mkUserLogsRequest "ann" "" "success" "1970-01-01" "" 1 10.

Lemma user_logs_page_witness :
  ∃ pg, Data (snd (ctrl_GetUserLogs any_like log_req log_demo)) = Some pg ∧
    (UserLogsResponse.CreatedAt <$> PageResponse.List pg) = [10] ∧
    0 ≤ PageResponse.Total pg ≤ 5000.
Proof.
  destruct (Data (snd (ctrl_GetUserLogs any_like log_req log_demo))) as [pg|] eqn:E;
    [|by vm_compute in E].
  pose proof (user_logs_page any_like log_req log_demo
    (fst (ctrl_GetUserLogs any_like log_req log_demo))
    (snd (ctrl_GetUserLogs any_like log_req log_demo)) pg (surjective_pairing _) E) as (_ & _ & Ht & _).
  exists pg. split; [done|]. split; [|exact Ht]. vm_compute in E. injection E as <-. reflexivity.
Defined.

Lemma throttle_spacing_witness :
  printed [5; 6; 64; 66] (NewErrorThrottle 60) = [5; 66] ∧
  ∃ y, y ∈ printed [5; 6; 64; 66] (NewErrorThrottle 60) ∧ y ≤ 64 < y + 60.
Proof.
  split; [vm_compute; reflexivity|].
  apply (throttle_spacing 60 [5; 6; 64; 66]).
  - unfold max_int64. lia.
  - repeat constructor; lia.
  - repeat constructor; unfold max_int64; lia.
  - do 2 right. by left.
Defined.

Definition log_run : lstate (S := log_db) :=
  mkLstate (mkLogManager [] false) (fst (consume (log_row 0 200 30) log_demo)) [log_row 0 200 30]
    [(log_row 0 200 30, true)].
Lemma log_fifo_witness :
  ∃ rows, tbl_rows (ls_db log_run) = tbl_rows log_demo ++ rows ∧
    Forall2 same_entry [log_row 0 200 30] rows.
Proof.
  apply (log_fifo log_demo log_run).
  eapply rtc_l; [apply (l_send (log_row 0 200 30)); reflexivity|].
  eapply rtc_l; [|reflexivity].
  apply (l_consume (log_row 0 200 30) [] false log_demo _ [log_row 0 200 30] [] true).
  vm_compute. reflexivity.
Defined.

(** A request that ends after the log was closed panics. *)
Example send_after_close :
  match lm_close NewLogManager with
  | Ok lm => lm_send (log_row 0 200 1) lm
  | Err e => Err e
  end = Err (ErrPanic "send on closed channel").
Proof. reflexivity. Qed.

(** Handlers read the body the client sent, unless it is longer than 64 KB:
    then they read a part of it. *)
Theorem capture_keeps_body method contentType n b :
  snd (CaptureRawBody method contentType n (Some b) None) = Some b ↔
  (length b ≤ maxCaptureSize)%nat ∨ method = "GET"%string ∨
  Contains contentType "application/json" = false ∨ n = 0.
Proof.
  unfold CaptureRawBody. destruct (String.eqb_spec method "GET"); [naive_solver|].
  destruct (Contains _ _); cbn [negb]; [|naive_solver].
  destruct (Z.eqb_spec n 0); [naive_solver|]. cbn [snd]. split.
  - intros [= E]. left. apply (f_equal length) in E. rewrite length_take in E. lia.
  - intros [Hl|?]; [by rewrite take_ge|naive_solver].
Qed.
