(* ===== verification/Http.v ===== *)
(** * What the controllers share

    internal/middleware/recovery.go and cors.go, the readers of the gin context
    in middleware/auth.go, pkg/utils/string.go and time.go, and the validator
    tags of the request structs.  A handler is a computation that ends in a
    [Reply]: the responses it wrote, in order, and a panic if it ended in
    one. *)

From Stdlib Require Import Ascii.
From S2P Require Import Prelude GoStrings Float64 Errors Entity External Access SshSessions SessionRepo MenuService Auth GoPath Shell Users OperationLog.

Open Scope Z_scope.

(** ** Replies *)

Record Reply (D : Type) : Type := mkReply { Written : list (Response D); Panic : option string }.
Arguments mkReply {D}.
Arguments Written {D}.
Arguments Panic {D}.

Section Reply.
Context {D : Type}.
Definition respond (r : Response D) : Reply D := mkReply [r] None.
Definition panicking (m : string) : Reply D := mkReply [] (Some m).
(** A response that is not followed by a [return]. *)
Definition wrote (r : Response D) (rest : Reply D) : Reply D := mkReply (r :: Written rest) (Panic rest).

(** [response.Success(c, nil)]: the field "data" is left out. *)
Definition SuccessNil : Response D := mkResponse 200 CodeSuccess (GetMessage CodeSuccess) None.

(** [response.BizError(c, err); return] *)
Definition biz_reply (e : error) : Reply D :=
  match e with ErrPanic m => panicking m | _ => respond (BizError e) end.
(** [response.Success(c, data)] unless there was an error. *)
Definition reply_of (r : result D) : Reply D :=
  match r with Ok d => respond (Success d) | Err e => biz_reply e end.
Definition reply_nil {A} (r : result A) : Reply D :=
  match r with Ok _ => respond SuccessNil | Err e => biz_reply e end.

(** [middleware.Recovery]: the answer after a panic is one more response. *)
Definition Recovery (r : Reply D) : Reply D :=
  match Panic r with
  | None => r
  | Some _ => mkReply (Written r ++ [InternalError "服务器内部错误"]) None
  end.

(** The status line is that of the first response. *)
Definition client_status (r : Reply D) : Z :=
  match Written r with [] => 200 | x :: _ => http_status x end.
(** The handler reported success and nothing else. *)
Definition succeeded (r : Reply D) : Prop :=
  ∃ x, r = respond x ∧ http_status x = 200 ∧ Code x = CodeSuccess.
(** net/http's [WriteHeader] panics on other codes. *)
Definition valid_status (code : Z) : bool := (100 <=? code) && (code <=? 999).
End Reply.

(** ** The gin context *)

(** The type assertion panics when the value is not an [int]. *)
Definition GetUserID (user : option ctx_value) : result Z :=
  match user with
  | None => Ok 0
  | Some (CtxInt u) => Ok u
  | Some CtxOther => Err (ErrPanic "interface conversion")
  end.
(** What [Auth] stores. *)
Definition auth_user (claims : CustomClaims) : option ctx_value := Some (CtxInt (CustomClaims.UserID claims)).

(** ** CORS *)

Module CorsConfig.
Record CorsConfig : Type := mkCorsConfig {
  Enabled : bool; AllowOrigins : list string; AllowMethods : list string; AllowHeaders : list string
}.
End CorsConfig.
Notation CorsConfig := CorsConfig.CorsConfig.

Definition allow_origin (origins : list string) (origin : string) : string :=
  default ""%string (List.find (λ allowed, String.eqb allowed "*" || String.eqb allowed origin) origins).
(** The headers that are set; [None] lets the request pass, [Some status]
    ends it. *)
Definition CORS (cfg : CorsConfig) (method origin : string) : list (string * string) * option Z :=
  if negb (CorsConfig.Enabled cfg) then ([], None)
  else
    let allowOrigin := allow_origin (CorsConfig.AllowOrigins cfg) origin in
    ((if String.eqb allowOrigin "" then [] else [("Access-Control-Allow-Origin", allowOrigin)])%string ++
     [("Access-Control-Allow-Methods", Join ", " (CorsConfig.AllowMethods cfg));
      ("Access-Control-Allow-Headers", Join ", " (CorsConfig.AllowHeaders cfg));
      ("Access-Control-Expose-Headers", "Content-Length, Access-Control-Allow-Origin, Access-Control-Allow-Headers");
      ("Access-Control-Allow-Credentials", "true");
      ("Access-Control-Max-Age", "86400")]%string,
     if String.eqb method "OPTIONS" then Some 204 else None).

(** ** pkg/utils/string.go *)

Definition utils_Contains (slice : list string) (item : string) : bool := existsb (λ s, String.eqb s item) slice.
Definition IsEmpty (s : string) : bool := String.eqb (TrimSpace s) "".
(** [StringToInt(s, &result)]: the variable keeps its value, 0 in the callers,
    when the text is empty. *)
Definition StringToInt (s : string) (old : Z) : result (bool * Z) :=
  if String.eqb s "" then Ok (false, old)
  else match Atoi s with Ok v => Ok (true, v) | Err e => Err e end.
Definition IntToString (i : Z) : string := Itoa i.
(** [base64.URLEncoding.EncodeToString(bytes)[:length]]; [encode] is the
    encoding, [rand] what the system gives. *)
Definition GenerateRandomString (encode : bytes → string) (rand : result bytes) (length : nat) : result string :=
  match rand with
  | Err e => Err e
  | Ok b => Ok (String.substring 0 length (encode b))
  end.

(** [strconv.ParseInt(s, 10, 32)] *)
Definition ParseInt32 (s : string) : result Z :=
  match Atoi s with
  | Ok v => if (- 2 ^ 31 <=? v) && (v <? 2 ^ 31) then Ok v else Err ErrRange
  | Err e => Err e
  end.

(** ** pkg/utils/time.go *)

(** [midnight d] is the instant at which day [d] begins in [time.Local]; days
    are counted from 1970-01-01.  [parse_date] gives midnight in UTC. *)
Definition day : Z := 24 * 3600 * 10 ^ 9.
Definition ParseStartDate (midnight : Z → Z) (s : string) : result Z :=
  if String.eqb s "" then Ok zero_time
  else match parse_date s with Err e => Err e | Ok t => Ok (midnight (t / day)) end.
Definition ParseEndDate (midnight : Z → Z) (s : string) : result Z :=
  if String.eqb s "" then Ok zero_time
  else match parse_date s with Err e => Err e | Ok t => Ok (midnight (t / day + 1) - 1) end.

(** ** Validator tags *)

(** Lengths of strings are counted in runes. *)
Definition tag_required (s : string) : bool := negb (String.eqb s "").
Definition tag_min (n : Z) (s : string) : bool := n <=? RuneCountInString s.
Definition tag_max (n : Z) (s : string) : bool := RuneCountInString s <=? n.
Definition tag_len (n : Z) (s : string) : bool := RuneCountInString s =? n.
Definition tag_oneof (l : list string) (s : string) : bool := existsb (String.eqb s) l.
Definition tag_oneof_int (l : list Z) (z : Z) : bool := existsb (Z.eqb z) l.
Definition omitempty (p : string → bool) (s : string) : bool := String.eqb s "" || p s.
Definition opt_tag {A} (p : A → bool) (o : option A) : bool :=
  match o with Some x => p x | None => true end.
(** [response.PageRequest] *)
Definition PageRequest_ok (page size : Z) : bool :=
  negb (page =? 0) && (1 <=? page) && negb (size =? 0) && (1 <=? size) && (size <=? 100).

(** ** Regular expressions of the account controllers *)

Definition is_alnum (c : ascii) : bool :=
  let n := nat_of_ascii c in
  ((48 <=? n) && (n <=? 57) || (65 <=? n) && (n <=? 90) || (97 <=? n) && (n <=? 122))%nat.
(** [^[a-zA-Z0-9]+$] *)
Definition regexpAlphaNum (s : string) : bool := negb (String.eqb s "") && all_chars is_alnum s.
(** [^[a-zA-Z0-9]([a-zA-Z0-9_.]{2,14})[a-zA-Z0-9]@qq\.com$] *)
Definition qq_char (c : ascii) : bool :=
  is_alnum c || Ascii.eqb c "_"%char || Ascii.eqb c "."%char.
Definition qqEmailRegex (s : string) : bool :=
  HasSuffix s "@qq.com" &&
  let l := String.list_ascii_of_string (TrimSuffix s "@qq.com") in
  match l, last l with
  | first :: _, Some z =>
      is_alnum first && is_alnum z && forallb qq_char l &&
      bool_decide (4 ≤ length l ∧ length l ≤ 16)%nat
  | _, _ => false
  end.

Example qq_email_ex :
  (qqEmailRegex "12345@qq.com", qqEmailRegex "a_b.c@qq.com", qqEmailRegex "abc@qq.com",
   qqEmailRegex "_abcd@qq.com", qqEmailRegex "12345@qq.com.cn", qqEmailRegex "a;bcd@qq.com",
   regexpAlphaNum "ann1", regexpAlphaNum "x;reboot", regexpAlphaNum "")
  = (true, true, false, false, false, false, true, false, false).
Proof. vm_compute. reflexivity. Qed.

(** * Properties *)

(** An accepted user name is a plain word for the shell. *)
Lemma alnum_plain c : is_alnum c = true → plain_char c = true.
Proof. destruct c as [[] [] [] [] [] [] [] []]; vm_compute; done. Qed.
Lemma alnum_name s : regexpAlphaNum s = true → all_chars plain_char s = true ∧ s ≠ ""%string.
Proof.
  unfold regexpAlphaNum. rewrite andb_true_iff, negb_true_iff, String.eqb_neq. intros [Hne Ha].
  split; [|done]. eapply all_chars_impl; [|exact Ha]. apply alnum_plain.
Qed.

(** What the two expressions accept, character by character. *)
Definition alnum_char (c : ascii) : Prop :=
  let n := nat_of_ascii c in (48 ≤ n ∧ n ≤ 57 ∨ 65 ≤ n ∧ n ≤ 90 ∨ 97 ≤ n ∧ n ≤ 122)%nat.
Definition alnum_word (s : string) : Prop :=
  s ≠ ""%string ∧ Forall alnum_char (String.list_ascii_of_string s).
Definition qq_address (s : string) : Prop :=
  ∃ l, s = String.string_of_list_ascii l +:+ "@qq.com" ∧ (4 ≤ length l ≤ 16)%nat ∧
    Forall (λ c, alnum_char c ∨ c = "_"%char ∨ c = "."%char) l ∧
    (∃ c, head l = Some c ∧ alnum_char c) ∧ ∃ c, last l = Some c ∧ alnum_char c.
Lemma is_alnum_char c : is_alnum c = true ↔ alnum_char c.
Proof.
  unfold is_alnum, alnum_char. rewrite !orb_true_iff, !andb_true_iff, !Nat.leb_le. tauto.
Qed.
Lemma regexpAlphaNum_word s : regexpAlphaNum s = true ↔ alnum_word s.
Proof.
  unfold regexpAlphaNum, alnum_word. rewrite andb_true_iff, negb_true_iff, String.eqb_neq, all_chars_Forall.
  by setoid_rewrite is_alnum_char.
Qed.
Lemma qqEmailRegex_address s : qqEmailRegex s = true → qq_address s.
Proof.
  unfold qqEmailRegex. rewrite andb_true_iff. intros [[r ->]%HasSuffix_app H]. rewrite TrimSuffix_app in H.
  exists (String.list_ascii_of_string r). rewrite String.string_of_list_ascii_of_string. split; [done|].
  destruct (String.list_ascii_of_string r) as [|c l]; [done|]. destruct (last (c :: l)) as [z|]; [|done].
  rewrite !andb_true_iff, bool_decide_eq_true in H. destruct H as [[[Hc Hz] Hf] Hn].
  split; [done|]. split_and!; [|exists c; by rewrite <- is_alnum_char|exists z; by rewrite <- is_alnum_char].
  apply Forall_forall. intros x Hx%list_elem_of_In. rewrite forallb_forall in Hf. apply Hf in Hx.
  unfold qq_char in Hx. rewrite !orb_true_iff, !Ascii.eqb_eq, is_alnum_char in Hx. tauto.
Qed.

(** The origin a response allows is "*" or the request's own, and the
    configuration lists it; a preflight request never reaches a handler. *)
Lemma CORS_spec cfg method origin o :
  ("Access-Control-Allow-Origin", o)%string ∈ (CORS cfg method origin).1 →
  o ∈ CorsConfig.AllowOrigins cfg ∧ (o = "*"%string ∨ o = origin).
Proof.
  unfold CORS. destruct (CorsConfig.Enabled cfg); cbn; [|by intros ?%elem_of_nil].
  unfold allow_origin. destruct (List.find _ _) as [a|] eqn:E; cbn.
  - apply find_some in E as [Hin Ha]. apply list_elem_of_In in Hin.
    destruct (String.eqb_spec a "") as [->|Hne]; cbn.
    + rewrite !elem_of_cons, elem_of_nil. naive_solver.
    + rewrite !elem_of_cons, elem_of_nil. apply orb_true_iff in Ha. rewrite !String.eqb_eq in Ha. naive_solver.
  - rewrite !elem_of_cons, elem_of_nil. naive_solver.
Qed.

(** A handler's panic never reaches the client without an answer. *)
Lemma Recovery_answers {D} (r : Reply D) :
  Panic (Recovery r) = None ∧ (Panic r ≠ None → Written (Recovery r) ≠ []).
Proof. unfold Recovery. destruct (Panic r) eqn:E; split; [done| |done|done]. intros _. by destruct (Written r). Qed.

(** The two bounds of a date are the first and the last nanosecond of the day:
    an instant lies between them exactly when it belongs to the day. *)
Lemma day_bounds midnight s t d a b :
  parse_date s = Ok d → s ≠ ""%string →
  ParseStartDate midnight s = Ok a → ParseEndDate midnight s = Ok b →
  a ≤ t ≤ b ↔ midnight (d / day) ≤ t < midnight (d / day + 1).
Proof.
  intros Hd Hs. unfold ParseStartDate, ParseEndDate. rewrite (proj2 (String.eqb_neq _ _) Hs), Hd.
  intros [= <-] [= <-]. lia.
Qed.
