(* ===== verification/Routes.v ===== *)
(** * The route table

    internal/api/router.go and the files routes.go, router.go and routers.go
    of internal/api/v1: which handler answers which request, and which
    middlewares stand in front of it. *)

From S2P Require Import Prelude GoStrings Errors Entity External Access SshSessions SessionRepo MenuService Auth GoPath Shell Users OperationLog Http.

Open Scope Z_scope.
Open Scope string_scope.

(** ** gin's router groups *)

Inductive middleware : Type :=
  | MRecovery | MLogger | MCORS | MAuth | MRequirePermission | MCaptureRawBody
  | MUserOperationLogs | MWithOperation (name : string).
#[export] Instance middleware_eq_dec : EqDecision middleware.
Proof. solve_decision. Defined.

(** What the program registers: the functions by their names in the source. *)
Record route : Type := mkRoute {
  r_Method : string; r_Path : string; r_Handlers : list middleware; r_Handler : string
}.
#[export] Instance route_eq_dec : EqDecision route.
Proof. solve_decision. Defined.
Record RouterGroup : Type := mkGroup { basePath : string; Handlers : list middleware }.
Definition Group (g : RouterGroup) (p : string) : RouterGroup := mkGroup (basePath g +:+ p) (Handlers g).
Definition Use (m : middleware) (g : RouterGroup) : RouterGroup := mkGroup (basePath g) (Handlers g ++ [m]).
Definition handle (method : string) (g : RouterGroup) (p : string) (ms : list middleware) (h : string) : route :=
  mkRoute method (basePath g +:+ p) (Handlers g ++ ms) h.
Definition GET := handle "GET".
Definition POST := handle "POST".
Definition PUT := handle "PUT".
Definition DELETE := handle "DELETE".
Definition op (name : string) : list middleware := [MWithOperation name].

(** The four middlewares most groups use. *)
Definition guarded_group (g : RouterGroup) : RouterGroup := Use MRequirePermission (Use MAuth g).
Definition logged_group (g : RouterGroup) : RouterGroup := Use MUserOperationLogs (Use MCaptureRawBody g).

(** ** The controllers *)

Definition auth_RegisterRoutes (r : RouterGroup) : list route :=
  let authGroup := logged_group (Group r "/auth") in
  [POST authGroup "/register" (op "用户注册") "auth.Register";
   POST authGroup "/login" (op "用户登录") "auth.Login";
   POST authGroup "/logout" [MAuth] "auth.Logout";
   POST authGroup "/email/code" [] "auth.SendEmailCode";
   POST authGroup "/password/reset" [] "auth.ResetPassword";
   POST authGroup "/refresh" [] "auth.RefreshToken";
   GET authGroup "/captcha" [] "auth.GetCaptcha"].

Definition admin_RegisterRoutes (r : RouterGroup) : list route :=
  let adminGroup := logged_group (guarded_group (Group r "/admin")) in
  [POST adminGroup "/users" (op "创建用户") "admin.CreateUser";
   DELETE adminGroup "/users/:id" (op "删除用户") "admin.DeleteUser";
   PUT adminGroup "/users/:id" (op "更新用户") "admin.UpdateUser";
   GET adminGroup "/users/:id" [] "admin.GetUser";
   GET adminGroup "/users" [] "admin.ListUsers";
   GET adminGroup "/roles/simple" [] "admin.ListRoleSimple";
   GET adminGroup "/restart" [] "admin.Restart";
   GET adminGroup "/shutdown" [] "admin.Shutdown"].

Definition user_RegisterRoutes (r : RouterGroup) : list route :=
  let userGroup := logged_group (guarded_group (Group r "/user")) in
  [GET userGroup "/profile" [] "user.GetProfile";
   PUT userGroup "/profile" (op "更新个人信息") "user.UpdateProfile";
   PUT userGroup "/password" (op "修改密码") "user.ChangePassword";
   GET userGroup "/list" [] "user.ListUsers";
   GET userGroup "/by-username" [] "user.GetByUsername";
   POST userGroup "/avatar" (op "上传头像") "user.UploadAvatar";
   GET userGroup "/menu-permission" [] "user.GetUserMenuPermission"].

Definition api_RegisterRoutes (r : RouterGroup) : list route :=
  let apiGroup := logged_group (guarded_group (Group r "/permissionManage/API")) in
  [GET apiGroup "/page" [] "permission.PageList";
   GET apiGroup "/:id" [] "permission.GetAPIByID";
   POST apiGroup "" (op "创建API") "permission.Create";
   PUT apiGroup "" (op "更新API") "permission.Update";
   DELETE apiGroup "/:id" (op "删除API") "permission.Delete";
   DELETE apiGroup "/batch" (op "批量删除API") "permission.BatchDelete"].

Definition menu_RegisterRoutes (r : RouterGroup) : list route :=
  let menuGroup := logged_group (guarded_group (Group r "/permissionManage/menus")) in
  [GET menuGroup "/page" [] "menu.PageList";
   GET menuGroup "/:id" [] "menu.GetMenuByID";
   POST menuGroup "" (op "创建菜单") "menu.Create";
   PUT menuGroup "" (op "更新菜单") "menu.Update";
   DELETE menuGroup "/:id" (op "删除菜单") "menu.Delete";
   DELETE menuGroup "/batch" (op "批量删除菜单") "menu.BatchDelete"].

Definition role_RegisterRoutes (r : RouterGroup) : list route :=
  let roleGroup := logged_group (guarded_group (Group r "/permissionManage/roles")) in
  [GET roleGroup "/page" [] "role.PageList";
   GET roleGroup "/:id" [] "role.GetRoleByID";
   POST roleGroup "" (op "创建角色") "role.Create";
   PUT roleGroup "" (op "更新角色") "role.Update";
   DELETE roleGroup "/:id" (op "删除角色") "role.Delete";
   DELETE roleGroup "/batch" (op "批量删除角色") "role.BatchDelete";
   GET roleGroup "/role_perm/:id" [] "role.GetRolePermissionByID";
   PUT roleGroup "/role_perm/:role_id" (op "更新角色权限") "role.UpdateRolePermission"].

Definition terminal_RegisterRoutes (r : RouterGroup) : list route :=
  [GET (guarded_group (Group r "/terminal")) "/ws" [] "terminal.WebSocketTerminal"].

Definition operationLogs_RegisterRoutes (r : RouterGroup) : list route :=
  let router := guarded_group (Group r "/operationLogs") in
  [GET (Group router "/adminLog") "/list" [] "operationLogs.GetAdminLogs";
   GET (Group router "/userLog") "/list" [] "operationLogs.GetUserLogs"].

Definition system_RegisterRoutes (r : RouterGroup) : list route :=
  let router := guarded_group (Group r "/system") in
  [GET router "" [] "system.HandleWebSocket";
   POST router "/:pid/terminate" [] "system.TerminateProcess";
   POST router "/:pid/retain" [] "system.RetainProcess";
   DELETE router "/:pid/retain" [] "system.CancelRetain";
   GET router "/config" [] "system.GetConfig";
   PUT router "/config" [] "system.UpdateConfig"].

Definition home_RegisterRoutes (r : RouterGroup) : list route :=
  let homeGroup := guarded_group (Group r "/home") in
  [GET homeGroup "/overview" [] "home.Overview"; GET homeGroup "/ws" [] "home.WebSocketOverview"].

Definition JobsRoutes (router : RouterGroup) : list route :=
  let r := logged_group (guarded_group (Group router "/job")) in
  [POST r "" (op "提交任务") "job.SubmitJob";
   GET r "" [] "job.GetJobsList";
   GET r "/wait" [] "job.GetWaitJobsList";
   GET r "/stats" [] "job.GetStats";
   DELETE r "/:id" (op "删除排队任务") "job.CancelJob";
   GET r "/gpus" [] "job.GetGpus";
   GET r "/conda-envs" [] "job.GetCondaEnvs"].

Definition QueueRoutes (router : RouterGroup) : list route :=
  let r := logged_group (guarded_group (Group router "/queue")) in
  [GET r "" [] "queue.GetQueue";
   POST r "" (op "重新排序队列") "queue.ReorderQueue";
   DELETE r "/:jobId" (op "移除队列中的任务") "queue.RemoveJob"].

Definition files_RegisterRoutes (router : RouterGroup) : list route :=
  let fileGroup := logged_group (guarded_group (Group router "/files")) in
  let userDirGroup := guarded_group (Group router "/directories") in
  let adminGroup := Use MAuth (Group router "/admin") in
  [GET fileGroup "/list" [] "files.GetFileList";
   GET fileGroup "/list/*path" [] "files.GetFileList";
   DELETE fileGroup "/delete" (op "删除文件") "files.DeleteFile";
   POST fileGroup "/upload" (op "上传文件") "files.UploadFile";
   GET fileGroup "/upload/progress" [] "files.GetUploadProgress";
   GET fileGroup "/download" (op "下载文件") "files.DownloadFile";
   POST fileGroup "/unzip" (op "解压文件") "files.UnzipFile";
   GET fileGroup "/size" (op "计算文件大小") "files.CalculateSize";
   GET userDirGroup "/calculate-usage" [] "files.GetDiskUsage";
   GET userDirGroup "/list-home" [] "files.ListHomeDirectories";
   GET userDirGroup "/list-home/*path" [] "files.ListHomeDirectories";
   GET adminGroup "/disk-usage/all" (op "获取所有用户磁盘使用情况") "files.GetAllUsersDiskUsage"].

(** [engine.Static] registers GET and HEAD of the files under a prefix. *)
Definition Static (g : RouterGroup) (p : string) : list route :=
  [handle "GET" g (p +:+ "/*filepath") [] "static"; handle "HEAD" g (p +:+ "/*filepath") [] "static"].

Definition Setup : list route :=
  let engine := Use MCORS (Use MLogger (Use MRecovery (mkGroup "" []))) in
  let v1 := Group engine "/api/v1" in
  Static engine "/uploads" ++ [GET engine "/api/v1/health" [] "health"] ++
  auth_RegisterRoutes v1 ++ admin_RegisterRoutes v1 ++ user_RegisterRoutes v1 ++ api_RegisterRoutes v1 ++
  menu_RegisterRoutes v1 ++ role_RegisterRoutes v1 ++ terminal_RegisterRoutes v1 ++
  operationLogs_RegisterRoutes v1 ++ system_RegisterRoutes v1 ++ home_RegisterRoutes v1 ++
  JobsRoutes v1 ++ QueueRoutes v1 ++ files_RegisterRoutes v1.

(** ** A request on its way to the handler *)

Section Chain.
Context {S : Type} {Q : Sql S access}.
Variable col_eq : string → string → bool.
Variable lib_parse : string → string → Z → jwt_parsed.
Variable cfg : jwt_config.
Variable cors : CorsConfig.

(** [claims] is what [Auth] stored so far.  The middlewares that do not
    decide call [c.Next()] in every case; a preflight request ends in CORS
    with an empty answer, whatever its origin, which only decides a header. *)
Fixpoint run_chain (ms : list middleware) (now : Z) (req : http_request) (claims : option CustomClaims)
  : M S (verdict (option CustomClaims)) :=
  match ms with
  | [] => mret (Next claims)
  | MAuth :: rest =>
      match Auth lib_parse cfg now req with
      | Abort resp => mret (Abort resp)
      | Next c => run_chain rest now req (Some c)
      end
  | MRequirePermission :: rest =>
      v ← RequirePermission col_eq (match claims with Some c => auth_user c | None => None end) req;
      match v with
      | Abort resp => mret (Abort resp)
      | Next _ => run_chain rest now req claims
      end
  | MCORS :: rest =>
      match (CORS cors (req_Method req) "").2 with
      | Some status => mret (Abort (mkResponse status 0 "" None))
      | None => run_chain rest now req claims
      end
  | _ :: rest => run_chain rest now req claims
  end.
Definition serve (r : route) (now : Z) (req : http_request) : M S (verdict (option CustomClaims)) :=
  run_chain (r_Handlers r) now req None.
End Chain.

(** ** Classes of routes *)

(** Requests without a token reach these handlers ... *)
Definition public_handlers : list string :=
  ["static"; "health"; "auth.Register"; "auth.Login"; "auth.SendEmailCode"; "auth.ResetPassword";
   "auth.RefreshToken"; "auth.GetCaptcha"].
(** ... and these need a token, but no permission. *)
Definition token_handlers : list string := ["auth.Logout"; "files.GetAllUsersDiskUsage"].

(** The guards among the middlewares, in order. *)
Definition is_guard (m : middleware) : bool :=
  match m with MAuth | MRequirePermission => true | _ => false end.
Definition guards (r : route) : list middleware := List.filter is_guard (r_Handlers r).
Definition guards_of (h : string) : list middleware :=
  if existsb (String.eqb h) public_handlers then []
  else if existsb (String.eqb h) token_handlers then [MAuth]
  else [MAuth; MRequirePermission].

(** * Properties *)

(** Every route has the guards of its class, and no route is a preflight. *)
Lemma Setup_guards r : r ∈ Setup → guards r = guards_of (r_Handler r) ∧ r_Method r ≠ "OPTIONS".
Proof.
  intros Hr. assert (forallb (λ r, bool_decide (guards r = guards_of (r_Handler r) ∧ r_Method r ≠ "OPTIONS")) Setup = true)
    as H by (vm_compute; reflexivity).
  rewrite forallb_forall in H. apply list_elem_of_In, H in Hr. by apply bool_decide_eq_true in Hr.
Qed.

(** The route table.  No two routes have the same method and path, so each
    request has at most one handler; every path lies under "/api/v1" except
    the uploaded files; and exactly the handlers of [public_handlers] have no
    guard, exactly those of [token_handlers] only [Auth], and every other one
    has [Auth] and then [RequirePermission]. *)
Theorem Setup_table :
  NoDup ((λ r, (r_Method r, r_Path r)) <$> Setup) ∧
  Forall (λ r, (HasPrefix (r_Path r) "/api/v1/" || String.eqb (r_Handler r) "static") = true ∧
               guards r = guards_of (r_Handler r)) Setup ∧
  length Setup = 78%nat.
Proof.
  split; [refine (bool_decide_eq_true_1 _ _); vm_compute; reflexivity|]. split; [|reflexivity].
  refine (bool_decide_eq_true_1 _ _). vm_compute. reflexivity.
Qed.

Section Props.
Context {S : Type} {Q : Sql S access} {L : SqlLaws S access}.
Variable col_eq : string → string → bool.
Variable lib_parse : string → string → Z → jwt_parsed.
Variable cfg : jwt_config.
Variable cors : CorsConfig.

(** Only the guards decide. *)
Lemma run_chain_guards ms now req claims s :
  req_Method req ≠ "OPTIONS" →
  run_chain col_eq lib_parse cfg cors ms now req claims s =
  run_chain (S := S) col_eq lib_parse cfg cors (List.filter is_guard ms) now req claims s.
Proof.
  intros Ho. revert claims s. induction ms as [|m ms IH]; intros claims s; [done|].
  destruct m; cbn; try apply IH.
  - unfold CORS. destruct (CorsConfig.Enabled cors); cbn; [|apply IH].
    rewrite (proj2 (String.eqb_neq _ _) Ho). apply IH.
  - destruct (Auth lib_parse cfg now req); [apply IH|done].
  - unfold mbind, M_bind. destruct (RequirePermission _ _ _ _) as [s1 [u|resp]]; [apply IH|done].
Qed.

Lemma Auth_next now req c :
  Auth lib_parse cfg now req = Next c →
  request_token req ≠ "" ∧ lib_parse (request_token req) (Secret cfg) now = Parsed c true.
Proof.
  unfold Auth. destruct (String.eqb_spec (request_token req) "") as [|Hne]; [done|].
  destruct (ParseToken _ _ _ _) as [c'|e] eqn:E; [|done]. intros [= ->]. by apply ParseToken_ok in E.
Qed.
Lemma Auth_refuses now req resp : Auth lib_parse cfg now req = Abort resp → refused resp.
Proof.
  unfold Auth. case_match; [|case_match; [done|]]; intros [= <-]; by left.
Qed.
Lemma Auth_accepts now req c :
  request_token req ≠ "" → lib_parse (request_token req) (Secret cfg) now = Parsed c true →
  Auth lib_parse cfg now req = Next c.
Proof.
  unfold Auth. intros Hne Hp%ParseToken_ok. rewrite (proj2 (String.eqb_neq _ _) Hne). by rewrite Hp.
Qed.

(** Both guards in a row are [guarded], which forgets the claims. *)
Lemma chain_guarded now req s s' v :
  run_chain col_eq lib_parse cfg cors [MAuth; MRequirePermission] now req None s = (s', v) →
  ∃ v', guarded col_eq lib_parse cfg now req s = (s', v') ∧
    match v, v' with
    | Next (Some c), Next u => CustomClaims.UserID c = u ∧ Auth lib_parse cfg now req = Next c
    | Abort a, Abort b => a = b
    | _, _ => False
    end.
Proof.
  cbn [run_chain]. unfold guarded. destruct (Auth lib_parse cfg now req) as [c|resp] eqn:E.
  2:{ intros [= <- <-]. by eexists. }
  unfold auth_user, mbind, M_bind. destruct (RequirePermission _ _ _ _) as [s1 v1] eqn:E1.
  assert (match v1 with Next u => u = CustomClaims.UserID c | Abort _ => True end) as Hu.
  { unfold RequirePermission, mbind, M_bind in E1. destruct (CheckUserPermission _ _ _ _ _) as [s2 [[]|e]]; by injection E1 as <- <-. }
  destruct v1; intros [= <- <-]; eexists; (split; [done|]); by subst.
Qed.

Lemma no_guards now req s : run_chain col_eq lib_parse cfg cors [] now req None s = (s, Next None).
Proof. done. Qed.

(** C10: Who reaches a handler.  For every route the program registers: a
    request reaches its handler only when the route is public, or the request
    carries a token the library accepts and the route needs no more, or the
    user of the token also has an enabled permission for the method and the
    path of the route.  All other requests are answered with 401 or 403, a
    failed read included, and public routes refuse nobody.  When the database
    answers, who is entitled does reach the handler, and the handler sees the
    claims of the token.  The guards change nothing. *)
Theorem routes_guarded r now req s s' v
  (Hr : r ∈ Setup) (Hm : req_Method req = r_Method r) (Hp : req_FullPath req = r_Path r)
  (E : serve col_eq lib_parse cfg cors r now req s = (s', v)) :
  sql_view s' = sql_view s ∧
  match v with
  | Next None => r_Handler r ∈ public_handlers
  | Next (Some c) =>
      request_token req ≠ "" ∧ lib_parse (request_token req) (Secret cfg) now = Parsed c true ∧
      (r_Handler r ∈ token_handlers ∨
       api_permission col_eq (sql_view s) (CustomClaims.UserID c) (r_Method r) (r_Path r))
  | Abort resp => r_Handler r ∉ public_handlers ∧ refused resp
  end ∧
  (reliable S access → ∀ c, r_Handler r ∉ public_handlers →
     request_token req ≠ "" → lib_parse (request_token req) (Secret cfg) now = Parsed c true →
     (r_Handler r ∈ token_handlers ∨
      api_permission col_eq (sql_view s) (CustomClaims.UserID c) (r_Method r) (r_Path r)) →
     v = Next (Some c)).
Proof.
  destruct (Setup_guards r Hr) as [Hg Ho]. unfold serve in E. rewrite run_chain_guards in E by congruence.
  change (List.filter is_guard (r_Handlers r)) with (guards r) in E. rewrite Hg in E. unfold guards_of in E.
  assert (∀ l, existsb (String.eqb (r_Handler r)) l = true ↔ r_Handler r ∈ l) as Hin.
  { intros l. rewrite existsb_exists, list_elem_of_In. setoid_rewrite String.eqb_eq. naive_solver. }
  destruct (existsb _ public_handlers) eqn:E1.
  { rewrite no_guards in E. injection E as <- <-. apply Hin in E1. split_and!; [done|done|done]. }
  assert (r_Handler r ∉ public_handlers) as Hnp by (rewrite <- Hin, E1; done). clear E1.
  destruct (existsb _ token_handlers) eqn:E2.
  { apply Hin in E2. cbn in E. destruct (Auth lib_parse cfg now req) as [c|resp] eqn:Ea; injection E as <- <-.
    - apply Auth_next in Ea as [? Hc]. split_and!; [done|done|done|by left|]. intros. congruence.
    - split_and!; [done|done|by eapply Auth_refuses|]. intros _ c _ Hne Hc _.
      rewrite (Auth_accepts _ _ _ Hne Hc) in Ea. done. }
  assert (r_Handler r ∉ token_handlers) as Hnt by (rewrite <- Hin, E2; done). clear E2.
  apply chain_guarded in E as (v' & E & Hv). apply guarded_spec in E as (Hk & Hd & Hl).
  rewrite Hm, Hp in Hd, Hl. split; [done|]. destruct v as [[c|]|resp], v' as [u|resp']; try done.
  - destruct Hv as [<- Ha]. apply Auth_next in Ha as [? Hc]. split.
    + destruct Hd as (c' & _ & Hc' & Hu & Hperm). split_and!; [done|done|]. right. by rewrite Hc in Hc'.
    + intros. congruence.
  - subst resp'. split; [by split|]. intros Hrel c _ Hne Hc [?|Hperm]; [done|]. by apply Hl in Hc.
Qed.
End Props.

(** ** Examples *)

Definition demo_cors : CorsConfig := CorsConfig.mkCorsConfig true ["*"] ["GET"] [].
Definition demo_route : route := POST (logged_group (guarded_group (Group (Group
  (Use MCORS (Use MLogger (Use MRecovery (mkGroup "" [])))) "/api/v1") "/job"))) "" (op "提交任务") "job.SubmitJob".
Definition demo_http (token : string) : http_request := mkRequest token "" None "POST" "/api/v1/job".
(** The demo tables with the path of the route that submits a job. *)
Definition demo_tables : access :=
  mkAccess (a_users demo_access) (a_roles demo_access)
    ((λ p, Permission.mkPermission (Permission.ID p) (Permission.Name p) (Permission.Category p)
             (Permission.Slug p) (Permission.Type_ p) (Permission.Status p) "POST" "/api/v1/job" 0)
       <$> a_perms demo_access)
    (a_menus demo_access) (a_user_roles demo_access) (a_role_perms demo_access) (a_role_menus demo_access).

(** User 1 may submit jobs; a request without a token is refused. *)
Lemma routes_guarded_witness :
  api_permission String.eqb demo_tables 1 "POST" "/api/v1/job" ∧
  refused (Unauthorized (D := unit) "请提供认证令牌").
Proof.
  assert (demo_route ∈ Setup) as Hin by (refine (bool_decide_eq_true_1 _ _); vm_compute; reflexivity).
  split.
  - destruct (routes_guarded String.eqb demo_parse demo_jwt demo_cors demo_route 0 (demo_http "Bearer 1")
      demo_tables demo_tables (Next (Some (demo_claims 1))) Hin eq_refl eq_refl) as (_ & Hd & _);
      [vm_compute; reflexivity|].
    destruct Hd as (_ & _ & [Hd|Hd]); [|exact Hd]. exfalso. revert Hd. refine (bool_decide_eq_false_1 _ _). reflexivity.
  - destruct (routes_guarded String.eqb demo_parse demo_jwt demo_cors demo_route 0 (demo_http "")
      demo_tables demo_tables (Abort (Unauthorized "请提供认证令牌")) Hin eq_refl eq_refl) as (_ & Hd & _);
      [vm_compute; reflexivity|]. exact (proj2 Hd).
Defined.

(** The disk usage of all users is open to everybody with a token: a user
    without any role gets it. *)
Example all_disk_usage_unguarded :
  let r := GET (Use MAuth (Group (Group (Use MCORS (Use MLogger (Use MRecovery (mkGroup "" [])))) "/api/v1") "/admin"))
             "/disk-usage/all" (op "获取所有用户磁盘使用情况") "files.GetAllUsersDiskUsage" in
  r ∈ Setup ∧
  (serve String.eqb demo_parse demo_jwt demo_cors r 0
     (mkRequest "Bearer 99" "" None "GET" "/api/v1/admin/disk-usage/all") (mkAccess [] [] [] [] [] [] [])).2 =
    Next (Some (demo_claims 99)).
Proof. split; [refine (bool_decide_eq_true_1 _ _); vm_compute; reflexivity|vm_compute; reflexivity]. Qed.
