(* ===== verification/AccountCtl.v ===== *)
(** * The account controllers

    internal/api/v1/auth/controller.go, user/controller.go and
    admin/controller.go on top of [Users], [Auth], [Terminal] and
    [OperationLog], with the validator tags of their requests
    (internal/model/dto/request/user.go, auth.go).  A request body is the result
    of decoding its JSON or its form, which is a parameter. *)

From Stdlib Require Import Ascii.
From S2P Require Import Prelude GoStrings Float64 Errors Entity External MemBackend Access WsPool SshSessions SessionRepo MenuService Roles Auth GoPath Shell Terminal Users OperationLog Http.

Open Scope Z_scope.

(** ** Requests *)

Module ChangePasswordRequest.
Record ChangePasswordRequest : Type := mkChangePasswordRequest {
  OldPassword : string; NewPassword : string; ConfirmPassword : string
}.
End ChangePasswordRequest.
Notation ChangePasswordRequest := ChangePasswordRequest.ChangePasswordRequest.
Module ResetPasswordRequest.
Record ResetPasswordRequest : Type := mkResetPasswordRequest {
  Email : string; EmailCaptcha : string; NewPassword : string; ConfirmPassword : string
}.
End ResetPasswordRequest.
Notation ResetPasswordRequest := ResetPasswordRequest.ResetPasswordRequest.
Module UpdateProfileRequest.
Record UpdateProfileRequest : Type := mkUpdateProfileRequest {
  RealName : string; Phone : string; Email : string
}.
End UpdateProfileRequest.
Notation UpdateProfileRequest := UpdateProfileRequest.UpdateProfileRequest.
Module UserListRequest.
Record UserListRequest : Type := mkUserListRequest {
  Page : Z; Size : Z; Username : string; Email : string; Status : string
}.
End UserListRequest.
Notation UserListRequest := UserListRequest.UserListRequest.

(** [ShouldBindJSON] and its relatives: decoding, then the tags. *)
Definition ShouldBind {A} (ok : A → bool) (body : result A) : result A :=
  match body with
  | Err e => Err e
  | Ok a => if ok a then Ok a else Err (ErrMsg "validation failed")
  end.

Section Tags.
(** The tag "email" of the validator library. *)
Variable tag_email : string → bool.

Definition RegisterRequest_ok (r : RegisterRequest) : bool :=
  tag_required (RegisterRequest.Username r) && tag_min 3 (RegisterRequest.Username r) &&
  tag_max 50 (RegisterRequest.Username r) && tag_required (RegisterRequest.Password r) &&
  tag_min 6 (RegisterRequest.Password r) && tag_max 300 (RegisterRequest.Password r) &&
  tag_required (RegisterRequest.ConfirmPassword r) && tag_required (RegisterRequest.Email r) &&
  tag_email (RegisterRequest.Email r) && tag_required (RegisterRequest.EmailCaptcha r) &&
  tag_len 6 (RegisterRequest.EmailCaptcha r).
Definition LoginRequest_ok (r : LoginRequest) : bool :=
  tag_required (LoginRequest.Username r) && tag_required (LoginRequest.Password r) &&
  tag_required (LoginRequest.CaptchaID r) && tag_required (LoginRequest.Captcha r) &&
  tag_len 4 (LoginRequest.Captcha r).
Definition ChangePasswordRequest_ok (r : ChangePasswordRequest) : bool :=
  tag_required (ChangePasswordRequest.OldPassword r) && tag_required (ChangePasswordRequest.NewPassword r) &&
  tag_min 6 (ChangePasswordRequest.NewPassword r) && tag_max 50 (ChangePasswordRequest.NewPassword r) &&
  tag_required (ChangePasswordRequest.ConfirmPassword r).
Definition ResetPasswordRequest_ok (r : ResetPasswordRequest) : bool :=
  tag_required (ResetPasswordRequest.Email r) && tag_email (ResetPasswordRequest.Email r) &&
  tag_required (ResetPasswordRequest.EmailCaptcha r) && tag_len 6 (ResetPasswordRequest.EmailCaptcha r) &&
  tag_required (ResetPasswordRequest.NewPassword r) && tag_min 6 (ResetPasswordRequest.NewPassword r) &&
  tag_max 50 (ResetPasswordRequest.NewPassword r) && tag_required (ResetPasswordRequest.ConfirmPassword r).
Definition UpdateProfileRequest_ok (r : UpdateProfileRequest) : bool :=
  omitempty (tag_max 50) (UpdateProfileRequest.RealName r) &&
  omitempty (tag_max 20) (UpdateProfileRequest.Phone r) &&
  omitempty tag_email (UpdateProfileRequest.Email r).
Definition UserListRequest_ok (r : UserListRequest) : bool :=
  PageRequest_ok (UserListRequest.Page r) (UserListRequest.Size r) &&
  omitempty (tag_oneof ["0"; "1"]%string) (UserListRequest.Status r).
Definition CreateRequest_ok (r : CreateRequest) : bool :=
  tag_required (CreateRequest.Username r) && tag_min 3 (CreateRequest.Username r) &&
  tag_max 50 (CreateRequest.Username r) && tag_required (CreateRequest.Password r) &&
  tag_min 6 (CreateRequest.Password r) && tag_max 50 (CreateRequest.Password r) &&
  tag_required (CreateRequest.ConfirmPassword r) && tag_required (CreateRequest.Email r) &&
  tag_email (CreateRequest.Email r) && omitempty (tag_max 50) (CreateRequest.RealName r) &&
  omitempty (tag_max 20) (CreateRequest.Phone r).
Definition AdminUpdateUserRequest_ok (r : AdminUpdateUserRequest) : bool :=
  omitempty tag_email (AdminUpdateUserRequest.Email r) &&
  omitempty (tag_max 50) (AdminUpdateUserRequest.RealName r) &&
  omitempty (tag_max 20) (AdminUpdateUserRequest.Phone r) &&
  opt_tag (tag_oneof_int [0; 1]) (AdminUpdateUserRequest.Status r) &&
  omitempty (λ p, tag_min 6 p && tag_max 50 p) (AdminUpdateUserRequest.Password r) &&
  opt_tag (tag_oneof_int [1; 2]) (AdminUpdateUserRequest.Priority r) &&
  opt_tag (tag_oneof_int [0; 1]) (AdminUpdateUserRequest.MultiTraining r) &&
  opt_tag (tag_oneof_int [0; 1]) (AdminUpdateUserRequest.CrossServer r).
Definition SendEmailCodeRequest_ok (email : string) : bool := tag_required email && tag_email email.
Definition RefreshTokenRequest_ok (token : string) : bool := tag_required token.
End Tags.

(** ** Handlers over the user service *)

(** The local disk of the server program, where avatars are stored. *)
Class LocalDisk (H : Type) := {
  ld_MkdirAll : string → M H (result unit);
  ld_SaveUploadedFile : string → M H (result unit)
}.
(** What the handler reads of an uploaded file. *)
Record file_header : Type := mkFileHeader { fh_Filename : string; fh_ContentType : string }.
Definition allowedExts : list string := [".jpg"; ".jpeg"; ".png"; ".gif"; ".bmp"; ".webp"]%string.

Section AccountCtl.
Context {S : Type} {Q : Sql S access} {U : UserDb S} {K : Type} {KV : Kv K} {H C : Type} {V : Vm H C}.
Context {LD : LocalDisk H}.
Variable col_eq : string → string → bool.
Variable col_like : string → string → bool.
Variable created : User → Z.
Variable base64_decode : string → result bytes.
Variable md5 : bytes → bytes.
Variable cbc_decrypt : bytes → bytes → bytes → bytes.
Variables aes_secret env1 env2 : string.
Variable bcrypt_hash : string → result string.
Variable bcrypt_compare : string → string → result unit.
Variable sshConfig : option Config.
Variable tag_email : string → bool.
(** The text of a binding error; [strings.ToLower]. *)
Variable bind_text : error → string.
Variable ToLower : string → string.
Notation W := (user_world S K H).
Notation decrypt := (decrypt base64_decode md5 cbc_decrypt aes_secret env1 env2).

(** [DecryptIfCryptoJS] returns or panics. *)
Definition decrypted {D} (p : string) (k : string → M W (Reply D)) : M W (Reply D) :=
  match decrypt p with Ok x => k x | Err e => mret (biz_reply e) end.
Definition logged_in {D} (user : option ctx_value) (k : Z → M W (Reply D)) : M W (Reply D) :=
  match GetUserID user with
  | Err e => mret (biz_reply e)
  | Ok userID => if userID =? 0 then mret (respond (Unauthorized "用户未登录")) else k userID
  end.

(** ** auth/controller.go *)

Definition ctrl_Register (body : result RegisterRequest) : M W (Reply unit) :=
  match ShouldBind (RegisterRequest_ok tag_email) body with
  | Err _ => mret (respond (BadRequest "数据格式有误"))
  | Ok req =>
      decrypted (RegisterRequest.Password req) (λ p1,
      decrypted (RegisterRequest.ConfirmPassword req) (λ p2,
        match ValidatePassword p1 with
        | Err e => mret (respond (BadRequest (error_text e)))
        | Ok _ =>
            if negb (String.eqb p1 p2) then mret (respond (BadRequest "两次输入的密码不一致"))
            else if negb (qqEmailRegex (RegisterRequest.Email req))
            then mret (respond (BadRequest "目前仅支持qq邮箱"))
            else if negb (regexpAlphaNum (RegisterRequest.Username req))
            then mret (respond (BadRequest "用户名只能包含字母或数字"))
            else
              r ← Register col_eq base64_decode md5 cbc_decrypt aes_secret env1 env2 bcrypt_hash sshConfig req;
              mret (reply_nil r)
        end))
  end.

(** The test of the two passwords does not return. *)
Definition ctrl_ResetPassword (body : result ResetPasswordRequest) : M W (Reply unit) :=
  match ShouldBind (ResetPasswordRequest_ok tag_email) body with
  | Err e => mret (respond (BadRequest (bind_text e)))
  | Ok req =>
      decrypted (ResetPasswordRequest.NewPassword req) (λ n1,
      decrypted (ResetPasswordRequest.ConfirmPassword req) (λ n2,
        match ValidatePassword n1 with
        | Err e => mret (respond (BadRequest (error_text e)))
        | Ok _ =>
            r ← ResetPassword col_eq base64_decode md5 cbc_decrypt aes_secret env1 env2 bcrypt_hash sshConfig
                  (ResetPasswordRequest.Email req) (ResetPasswordRequest.EmailCaptcha req)
                  (ResetPasswordRequest.NewPassword req);
            mret (if negb (String.eqb n1 n2)
                  then wrote (BadRequest "两次输入的密码不一致") (reply_nil r) else reply_nil r)
        end))
  end.

(** ** user/controller.go *)

Definition ctrl_GetProfile (user : option ctx_value) : M W (Reply UserResponse) :=
  logged_in user (λ userID,
    u ← GetUserByID userID;
    mret (reply_of (match u with Ok x => Ok (GetUserResponse x) | Err e => Err e end))).

Definition ctrl_ChangePassword (user : option ctx_value) (body : result ChangePasswordRequest)
  : M W (Reply unit) :=
  logged_in user (λ userID,
    match ShouldBind ChangePasswordRequest_ok body with
    | Err _ => mret (respond (BadRequest "数据格式有误"))
    | Ok req =>
        decrypted (ChangePasswordRequest.NewPassword req) (λ n1,
        decrypted (ChangePasswordRequest.ConfirmPassword req) (λ n2,
          match ValidatePassword n1 with
          | Err e => mret (respond (BadRequest (error_text e)))
          | Ok _ =>
              r ← ChangePassword base64_decode md5 cbc_decrypt aes_secret env1 env2 bcrypt_hash bcrypt_compare
                    sshConfig userID (ChangePasswordRequest.OldPassword req)
                    (ChangePasswordRequest.NewPassword req);
              mret (if negb (String.eqb n1 n2)
                    then wrote (BadRequest "两次输入的密码不一致") (reply_nil r) else reply_nil r)
          end))
    end).

Definition ctrl_UpdateProfile (user : option ctx_value) (body : result UpdateProfileRequest)
  : M W (Reply UserResponse) :=
  logged_in user (λ userID,
    match ShouldBind (UpdateProfileRequest_ok tag_email) body with
    | Err _ => mret (respond (BadRequest "数据格式有误"))
    | Ok req =>
        r ← UpdateProfile col_eq userID (UpdateProfileRequest.RealName req)
              (UpdateProfileRequest.Phone req) (UpdateProfileRequest.Email req);
        match r with
        | Err e => mret (biz_reply e)
        | Ok _ =>
            u ← GetUserByID userID;
            mret (reply_of (match u with Ok x => Ok (GetUserResponse x) | Err e => Err e end))
        end
    end).

Definition ctrl_ListUsers (query : result UserListRequest)
  : M W (Reply (list UserResponse * (Z * Z * Z * Z))) :=
  match ShouldBind UserListRequest_ok query with
  | Err _ => mret (respond (BadRequest "数据格式有误"))
  | Ok req =>
      l ← ListUsers col_like created (UserListRequest.Page req) (UserListRequest.Size req)
            (UserListRequest.Username req) (UserListRequest.Email req) (UserListRequest.Status req);
      mret (reply_of l)
  end.

Definition ctrl_GetByUsername (username : string) : M W (Reply UserResponse) :=
  if String.eqb username "" then mret (respond (BadRequest "缺少参数：username"))
  else
    u ← GetUserByUsername col_eq username;
    mret (reply_of (match u with Ok x => Ok (GetUserResponse x) | Err e => Err e end)).

(** [now] is [time.Now().UnixNano()]. *)
Definition avatar_name (userID now : Z) (ext : string) : string :=
  Itoa userID +:+ "_" +:+ Itoa now +:+ ext.
Definition ctrl_UploadAvatar (user : option ctx_value) (form : result file_header) (now : Z)
  : M W (Reply string) :=
  logged_in user (λ userID,
    match form with
    | Err _ => mret (respond (BadRequest "缺少文件"))
    | Ok file =>
        let ext := ToLower (Ext (fh_Filename file)) in
        if negb (existsb (String.eqb ext) allowedExts)
        then mret (respond (BadRequest "只允许上传图片文件 (jpg, jpeg, png, gif, bmp, webp)"))
        else if negb (HasPrefix (fh_ContentType file) "image/")
        then mret (respond (BadRequest "只允许上传图片文件"))
        else
          let dir := path_Join "uploads" "avatars" in
          m ← u_vm (ld_MkdirAll dir);
          match m with
          | Err e => mret (biz_reply e)
          | Ok _ =>
              let dst := path_Join dir (avatar_name userID now ext) in
              s ← u_vm (ld_SaveUploadedFile dst);
              match s with
              | Err e => mret (biz_reply e)
              | Ok _ =>
                  r ← UpdateAvatar userID dst;
                  mret (reply_of (match r with
                                  | Ok _ => Ok ("http://192.168.10.1:8080/" +:+ dst)
                                  | Err e => Err e
                                  end))
              end
          end
    end).

(** ** admin/controller.go *)

Definition ctrl_CreateUser (body : result CreateRequest) : M W (Reply unit) :=
  match ShouldBind (CreateRequest_ok tag_email) body with
  | Err _ => mret (respond (BadRequest "数据格式有误"))
  | Ok req =>
      if negb (qqEmailRegex (CreateRequest.Email req)) then mret (respond (BadRequest "目前仅支持qq邮箱"))
      else if negb (regexpAlphaNum (CreateRequest.Username req))
      then mret (respond (BadRequest "用户名只能包含字母或数字"))
      else
        r ← CreateUser col_eq base64_decode md5 cbc_decrypt aes_secret env1 env2 bcrypt_hash sshConfig req;
        mret (reply_nil r)
  end.

Definition ctrl_DeleteUser (idStr : string) : M W (Reply unit) :=
  match ParseInt32 idStr with
  | Err _ => mret (respond (BadRequest "不存在的id"))
  | Ok id => r ← DeleteUser sshConfig id; mret (reply_nil r)
  end.

Definition ctrl_UpdateUser (idStr : string) (body : result AdminUpdateUserRequest) : M W (Reply unit) :=
  match ParseInt32 idStr with
  | Err _ => mret (respond (BadRequest "不存在的id"))
  | Ok id =>
      match ShouldBind (AdminUpdateUserRequest_ok tag_email) body with
      | Err _ => mret (respond (BadRequest "请求格式错误"))
      | Ok req =>
          r ← AdminUpdateUser col_eq base64_decode md5 cbc_decrypt aes_secret env1 env2 bcrypt_hash sshConfig id req;
          mret (reply_nil r)
      end
  end.

Definition ctrl_GetUser (idStr : string) : M W (Reply UserResponse) :=
  match ParseInt32 idStr with
  | Err _ => mret (respond (BadRequest "invalid user id"))
  | Ok id =>
      u ← GetUserByID id;
      mret (reply_of (match u with Ok x => Ok (GetUserResponse x) | Err e => Err e end))
  end.

(** The same list for administrators; only the text of the error differs. *)
Definition admin_ctrl_ListUsers (query : result UserListRequest)
  : M W (Reply (list UserResponse * (Z * Z * Z * Z))) :=
  match ShouldBind UserListRequest_ok query with
  | Err e => mret (respond (BadRequest (bind_text e)))
  | Ok req =>
      l ← ListUsers col_like created (UserListRequest.Page req) (UserListRequest.Size req)
            (UserListRequest.Username req) (UserListRequest.Email req) (UserListRequest.Status req);
      mret (reply_of l)
  end.
End AccountCtl.

(** ** Handlers over the authentication service *)

Section AuthCtl.
Context {S : Type} {Q : Sql S access} {K : Type} {KV : Kv K}.
Variable col_eq : string → string → bool.
Variable lib_sign : CustomClaims → string → result string.
Variable lib_parse : string → string → Z → jwt_parsed.
Variable jcfg : jwt_config.
Variable base64_decode : string → result bytes.
Variable md5 : bytes → bytes.
Variable cbc_decrypt : bytes → bytes → bytes → bytes.
Variables aes_secret env1 env2 : string.
Variable bcrypt_compare : string → string → result unit.
Variable creds_codec : codec sshCredentials.
Variables has_manager has_sessions has_redis has_terminals : bool.
Variable tag_email : string → bool.
Variable bind_text : error → string.

(** [stored_ok]: the answer of the captcha store, which forgets the entry. *)
Definition ctrl_Login (body : result LoginRequest) (stored_ok : bool) (now1 now2 now3 : Z)
  : M (auth_world S K) (Reply LoginResponse) :=
  match ShouldBind LoginRequest_ok body with
  | Err e => mret (respond (BadRequest (bind_text e)))
  | Ok req =>
      if negb (regexpAlphaNum (LoginRequest.Username req))
      then mret (respond (BadRequest "用户名只能包含字母或数字"))
      else
        r ← Login col_eq lib_sign jcfg base64_decode md5 cbc_decrypt aes_secret env1 env2 bcrypt_compare
              creds_codec req stored_ok now1 now2 now3;
        mret (reply_of r)
  end.

Context {msg : Type}.
(** The terminals of the user and the state of the authentication service. *)
Definition ctrl_Logout (user : option ctx_value) (connected : bool)
  : M (@terminalService msg * auth_world S K) (Reply string) :=
  match GetUserID user with
  | Err e => mret (biz_reply e)
  | Ok userID =>
      if userID =? 0 then mret (respond (Unauthorized "未登录或Token无效"))
      else
        _ ← (if has_terminals then modify (λ w : @terminalService msg * auth_world S K, (CloseUserTerminals userID w.1, w.2))
             else mret tt);
        r ← lift snd (λ a w, (w.1, a)) (Logout has_manager has_sessions has_redis connected userID);
        mret (reply_of (match r with Ok _ => Ok "登出成功"%string | Err e => Err e end))
  end.

(** The data is the value under "token". *)
Definition ctrl_RefreshToken (body : result string) (now now1 now2 now3 : Z) : Reply string :=
  match ShouldBind RefreshTokenRequest_ok body with
  | Err e => respond (BadRequest (bind_text e))
  | Ok token => reply_of (RefreshToken lib_sign lib_parse jcfg now now1 now2 now3 token)
  end.

Definition ctrl_SendEmailCode (body : result string) (rnd : Z) (sent : result unit) : M K (Reply unit) :=
  match ShouldBind (SendEmailCodeRequest_ok tag_email) body with
  | Err e => mret (respond (BadRequest (bind_text e)))
  | Ok email => r ← SendEmailCode email rnd sent; mret (reply_nil r)
  end.

(** [generated]: the identifier and the picture of [captcha.Generate]. *)
Definition ctrl_GetCaptcha (generated : result (string * string)) : Reply (string * string) :=
  match generated with
  | Err _ => respond (InternalError "生成图形验证码失败，请刷新重试")
  | Ok x => respond (Success x)
  end.

Definition ctrl_GetUserMenuPermission (user : option ctx_value)
  : M S (Reply (list Permission * (heap * list Z))) :=
  match user with
  | None => mret (respond (Unauthorized "未登录"))
  | Some CtxOther => mret (panicking "interface conversion")
  | Some (CtxInt userID) => r ← GetUserMenuPermission col_eq userID; mret (reply_of r)
  end.

(** [GetAllRoles] of auth_service.go. *)
Definition GetAllRoles : M S (result (list Role)) :=
  r ← Roles.ListAll;
  mret (match r with Err e => Err (NewWithErr CodeInternalError "获取所有角色失败" e) | Ok roles => Ok roles end).
(** Names and slugs. *)
Definition ctrl_ListRoleSimple : M S (Reply (list (string * string))) :=
  r ← GetAllRoles;
  mret (reply_of (match r with Ok roles => Ok ((λ x, (Role.Name x, Role.Slug x)) <$> roles) | Err e => Err e end)).
End AuthCtl.

(** ** Restart and shutdown *)

(** [exec.Command(name, args).Start()] on the machine of the server program. *)
Class LocalExec (P : Type) := { le_Start : string → list string → M P (result unit) }.

Section Power.
Context {S : Type} {TA : Table S AdminOperationLog} {LA : LogQuery S AdminOperationLog} {P : Type} {LE : LocalExec P}.
(** [middleware.GetUsername]; the readings of the clock. *)
Variables (username : string) (now1 now2 now3 : Z).

(** Both handlers: the entry is written with the status of a success, the
    command is started, and when that fails the entry is updated. *)
Definition power (action : string) (args : list string) (failure done_ : string)
  : M (S * P) (Reply string) :=
  l ← lift fst (λ s w, (s, w.2)) (admin_CreateLog (AdminOperationLog.mkAdminOperationLog 0 username action 1 now1 now2));
  match l with
  | Err e => mret (biz_reply e)
  | Ok logId =>
      c ← lift snd (λ p w, (w.1, p)) (le_Start "sudo" args);
      match c with
      | Ok _ => mret (respond (Success done_))
      | Err _ =>
          u ← lift fst (λ s w, (s, w.2)) (UpdateStatus now3 logId);
          mret (match u with
                | Err e => biz_reply e
                | Ok status =>
                    (* [BizError(c, nil)]: the type assertion on nil fails *)
                    if status =? 0
                    then respond (Error CodeInternalError (GetMessage CodeInternalError))
                    else respond (InternalError failure)
                end)
      end
  end.
Definition ctrl_Restart : M (S * P) (Reply string) :=
  power "重启系统" ["reboot"; "now"]%string "failed to restart system" "restarting".
Definition ctrl_Shutdown : M (S * P) (Reply string) :=
  power "关闭系统" ["shutdown"; "now"]%string "failed to close system" "closing".
End Power.

(** * Properties *)

(** ** Commands on the host *)

(** The commands the server was given, in order. *)
Class VmLog (H C : Type) {V : Vm H C} {LD : LocalDisk H} := {
  vm_log : H → list string;
  vm_log_NewClient cfg : keeps vm_log (vm_NewClient cfg);
  vm_log_Exec c cmd h h' r : vm_Exec c cmd h = (h', r) → vm_log h' = vm_log h ++ [cmd];
  vm_log_RemoveFile p : keeps vm_log (vm_RemoveFile p);
  vm_log_MkdirAll p : keeps vm_log (ld_MkdirAll p);
  vm_log_Save p : keeps vm_log (ld_SaveUploadedFile p)
}.

(** The accounts whose passwords [chpasswd] sets when it reads [text]: one line
    each, the account in front of the first colon. *)
Definition chpasswd_accounts (text : string) : list string :=
  (λ line, default ""%string (head (Split colon line))) <$> Split newline text.
(** No line break, and no backslash, which the [echo] of some shells may turn
    into one. *)
Definition one_line (password : string) : Prop :=
  all_chars (λ c, negb (Ascii.eqb c newline)) password = true ∧
  all_chars (λ c, negb (Ascii.eqb c "\"%char)) password = true.

(** What the shell makes of a command that manages an account: one program with
    one account as its argument, or "name:password" fed to [chpasswd].  The
    first line of that text is for the account; it is the only line when the
    password is one line, which nothing in the program checks. *)
Definition account_command (cmd : string) : Prop :=
  ∃ name, alnum_word name ∧
    (sh_words cmd = Some ["id"; "-u"; name]%string ∨
     sh_words cmd = Some ["useradd"; "-m"; "-s"; "/bin/bash"; name]%string ∨
     sh_words cmd = Some ["userdel"; "-r"; name]%string ∨
     ∃ line password, cmd = line +:+ " | chpasswd" ∧
       sh_words line = Some ["echo"; name +:+ ":" +:+ password]%string ∧
       head (chpasswd_accounts (name +:+ ":" +:+ password)) = Some name ∧
       (one_line password → chpasswd_accounts (name +:+ ":" +:+ password) = [name])).

Lemma alnum_free c name :
  alnum_word name → ¬ alnum_char c → all_chars (λ x, negb (Ascii.eqb x c)) name = true.
Proof.
  intros [_ Hf] Hc. apply all_chars_Forall. eapply Forall_impl; [exact Hf|]. intros x Hx. cbn.
  destruct (Ascii.eqb_spec x c) as [->|]; done.
Qed.
Lemma not_alnum_colon : ¬ alnum_char colon.
Proof. rewrite <- is_alnum_char. by vm_compute. Qed.
Lemma not_alnum_newline : ¬ alnum_char newline.
Proof. rewrite <- is_alnum_char. by vm_compute. Qed.
Lemma account_head name rest :
  alnum_word name → head (Split colon (name +:+ ":" +:+ rest)) = Some name.
Proof.
  intros Hn. change (":" +:+ rest) with (String colon rest). rewrite Split_app; [done|].
  apply alnum_free; [done|apply not_alnum_colon].
Qed.
(** The first line of a text that begins with [p], which has no line break. *)
Lemma first_line p rest :
  all_chars (λ x, negb (Ascii.eqb x newline)) p = true →
  ∃ more tl, Split newline (p +:+ rest) = (p +:+ more) :: tl ∧
    (all_chars (λ x, negb (Ascii.eqb x newline)) rest = true → more = rest ∧ tl = []).
Proof.
  induction p as [|c p IH]; intros Hp.
  - destruct (Split newline rest) as [|x tl] eqn:E; [by destruct rest; cbn in E; repeat case_match|]. exists x, tl. split; [done|].
    intros Hr. rewrite Split_no_sep in E by done. by injection E.
  - cbn in Hp. apply andb_true_iff in Hp as [Hc Hp]. destruct (IH Hp) as (more & tl & E & Hr).
    exists more, tl. rewrite !sapp_cons. cbn. apply negb_true_iff in Hc. rewrite Hc, E. done.
Qed.
Lemma chpasswd_text name password :
  alnum_word name →
  head (chpasswd_accounts (name +:+ ":" +:+ password)) = Some name ∧
  (one_line password → chpasswd_accounts (name +:+ ":" +:+ password) = [name]).
Proof.
  intros Hn. unfold chpasswd_accounts.
  assert (all_chars (λ x, negb (Ascii.eqb x newline)) (name +:+ ":") = true) as Hp.
  { rewrite all_chars_Forall, list_ascii_app, Forall_app, <- all_chars_Forall.
    split; [apply alnum_free; [done|apply not_alnum_newline]|]. by repeat constructor. }
  destruct (first_line _ password Hp) as (more & tl & E & Hr). rewrite sapp_assoc in E. rewrite E. cbn.
  rewrite !sapp_assoc, account_head by done. split; [done|]. intros [Hl _]. by destruct (Hr Hl) as [_ ->].
Qed.

Lemma account_commands name p :
  regexpAlphaNum name = true →
  account_command (id_command name) ∧ account_command (useradd_command name) ∧
  account_command (userdel_command name) ∧ account_command (passwd_command name p).
Proof.
  intros Hn. destruct (alnum_name _ Hn) as [Hp Hne]. apply regexpAlphaNum_word in Hn.
  destruct (account_commands_words name p Hp Hne) as (H1 & H2 & H3 & H4).
  split_and!; exists name; (split; [done|]); [by left|right; by left|by do 2 right; left|].
  do 3 right. exists (echo_password name p), p. destruct (chpasswd_text name p Hn). done.
Qed.

Section Safety.
Context {S : Type} {Q : Sql S access} {L : SqlLaws S access} {U : UserDb S} {UL : UserDbLaws S}.
Context {K : Type} {KV : Kv K} {H C : Type} {V : Vm H C} {LD : LocalDisk H} {VL : VmLog H C}.
Variable col_eq : string → string → bool.
Variable col_like : string → string → bool.
Variable created : User → Z.
Variable base64_decode : string → result bytes.
Variable md5 : bytes → bytes.
Variable cbc_decrypt : bytes → bytes → bytes → bytes.
Variables aes_secret env1 env2 : string.
Variable bcrypt_hash : string → result string.
Variable bcrypt_compare : string → string → result unit.
Variable sshConfig : option Config.
Variable tag_email : string → bool.
Variable bind_text : error → string.
Variable ToLower : string → string.
Notation W := (user_world S K H).

Definition good_user (u : User) : Prop := regexpAlphaNum (User.Username u) = true.
Definition names_ok (w : W) : Prop := Forall good_user (rows w).
(** The commands given on the way are account commands. *)
Definition only_account_commands (w w' : W) : Prop :=
  ∃ l, vm_log (uw_vm w') = vm_log (uw_vm w) ++ l ∧ Forall account_command l.
#[local] Instance only_account_commands_preorder : PreOrder only_account_commands.
Proof.
  split.
  - intros w. exists []. by rewrite app_nil_r.
  - intros a b c (l1 & E1 & F1) (l2 & E2 & F2). exists (l1 ++ l2). split; [by rewrite E2, E1, app_assoc|].
    by apply Forall_app.
Qed.
Notation safe := (hoare names_ok only_account_commands).

Lemma same_log (w w' : W) : vm_log (uw_vm w') = vm_log (uw_vm w) → only_account_commands w w'.
Proof. intros Hl. exists []. by rewrite app_nil_r. Qed.

(** *** Redis, the server *)

Lemma safe_kv {A} (c : M K A) : safe (λ _, True) (u_kv c).
Proof. intros w w' a Hw E. apply u_kv_inv in E as (k & _ & ->). split_and!; [done|by apply same_log|done]. Qed.
(** Computations of the server alone. *)
Definition vm_moves (h h' : H) : Prop := ∃ l, vm_log h' = vm_log h ++ l ∧ Forall account_command l.
#[local] Instance vm_moves_preorder : PreOrder vm_moves.
Proof.
  split.
  - intros w. exists []. by rewrite app_nil_r.
  - intros a b c (l1 & E1 & F1) (l2 & E2 & F2). exists (l1 ++ l2). split; [by rewrite E2, E1, app_assoc|].
    by apply Forall_app.
Qed.
Notation vm_safe := (hoare (λ _ : H, True) vm_moves (λ _, True)).
Lemma vm_safe_keeps {A} (c : M H A) : keeps vm_log c → vm_safe c.
Proof. intros Hc w w' a _ E. split_and!; [done| |done]. exists []. rewrite app_nil_r. split; [by eapply Hc|done]. Qed.
Lemma vm_safe_Exec c cmd : account_command cmd → vm_safe (vm_Exec (H := H) (C := C) c cmd).
Proof. intros Hc w w' a _ E. split_and!; [done| |done]. exists [cmd]. split; [by eapply vm_log_Exec|by repeat constructor]. Qed.
Lemma vm_safe_NewClient cfg : vm_safe (vm_NewClient (H := H) (C := C) cfg).
Proof. apply vm_safe_keeps, vm_log_NewClient. Qed.
Lemma safe_vm {A} (c : M H A) : vm_safe c → safe (λ _, True) (u_vm c).
Proof.
  intros Hc w w' a Hw E. unfold u_vm, lift in E. destruct (c (uw_vm w)) as [h x] eqn:Ec.
  injection E as <- <-. apply Hc in Ec as (_ & Hm & _); [|done]. by split_and!.
Qed.
#[local] Hint Resolve vm_safe_Exec vm_safe_NewClient : hoare.

Lemma set_vm_password_safe c name p :
  regexpAlphaNum name = true → vm_safe (set_vm_password (H := H) (C := C) c name p).
Proof.
  intros Hn. destruct (account_commands name p Hn) as (_ & _ & _ & H4). unfold set_vm_password. solve_hoare.
Qed.
#[local] Hint Resolve set_vm_password_safe : hoare.
Lemma createVMUser_safe cfg name p :
  regexpAlphaNum name = true → vm_safe (createVMUser (H := H) (C := C) cfg name p).
Proof.
  intros Hn. destruct (account_commands name p Hn) as (H1 & H2 & _). unfold createVMUser. solve_hoare.
Qed.
Lemma updateVMPassword_safe cfg name p :
  regexpAlphaNum name = true → vm_safe (updateVMPassword (H := H) (C := C) cfg name p).
Proof. intros Hn. unfold updateVMPassword. solve_hoare. Qed.
Lemma deleteVMUser_safe cfg name :
  regexpAlphaNum name = true → vm_safe (deleteVMUser (H := H) (C := C) cfg name).
Proof.
  intros Hn. destruct (account_commands name "" Hn) as (H1 & _ & H3 & _). unfold deleteVMUser. solve_hoare.
Qed.
Lemma on_server_safe f : (∀ c, vm_safe (f c)) → safe (λ _, True) (on_server sshConfig f).
Proof. intros Hf. unfold on_server. case_match; [by apply safe_vm|by apply hoare_ret; [apply _|]]. Qed.

(** *** The database *)

Lemma safe_db {A} (P : A → Prop) (c : M S A) :
  (∀ s s' a, c s = (s', a) → Forall good_user (a_users (sql_view s)) →
     Forall good_user (a_users (sql_view s')) ∧ P a) →
  safe P (u_db c).
Proof.
  intros Hc w w' a Hw E. apply u_db_inv in E as (s & E & ->). apply Hc in E as [? ?]; [|done].
  split_and!; [done|by apply same_log|done].
Qed.
Lemma safe_db_users {A} (c : M S A) : keeps (λ s, a_users (sql_view s)) c → safe (λ _, True) (u_db c).
Proof. intros Hc. apply safe_db. intros s s' a E Hg. apply Hc in E. by rewrite E. Qed.
Lemma safe_find p : safe (λ r, ∀ u, r = Ok (Some u) → good_user u) (u_db (find_user p)).
Proof.
  apply safe_db. intros s s' r E Hg. apply find_user_post in E as (Hv & Hu & _). rewrite Hv. split; [done|].
  intros u ->. destruct (Hu u eq_refl) as (u0 & Hin & _ & -> & _).
  rewrite Forall_forall in Hg. exact (Hg _ Hin).
Qed.
Lemma safe_exists p : safe (λ _, True) (u_db (exists_user p)).
Proof. apply safe_db_users. intros s s' r E. apply exists_user_spec in E as [E _]. by rewrite E. Qed.
Lemma safe_create u : good_user u → safe (λ _, True) (u_db (user_Create u)).
Proof.
  intros Hu. apply safe_db. intros s s' [k|e] E Hg; (split; [|done]).
  - apply ud_create_ok in E as [_ ->]. cbn. by apply Forall_app; split; [|repeat constructor].
  - apply ud_create_err in E. by rewrite E.
Qed.
Lemma safe_update u : good_user u → safe (λ _, True) (u_db (user_Update u)).
Proof.
  intros Hu. apply safe_db. intros s s' r E Hg. split; [|done]. apply sql_exec_spec in E. rewrite E.
  destruct (is_ok r); [|done]. cbn. apply Forall_fmap. eapply Forall_impl; [exact Hg|]. intros x Hx. unfold compose.
  by case_match.
Qed.
Lemma safe_delete id : safe (λ _, True) (u_db (user_Delete id)).
Proof.
  apply safe_db. intros s s' r E Hg. split; [|done]. apply sql_exec_spec in E. rewrite E.
  destruct (is_ok r); [|done]. cbn. rewrite Forall_forall in *. intros x Hx%list_elem_of_In.
  apply filter_In in Hx as [Hx _]. apply Hg. by apply list_elem_of_In.
Qed.
Lemma keeps_exec_users f :
  (∀ v : access, a_users (f v) = a_users v) → keeps (λ s : S, a_users (sql_view s)) (sql_exec f).
Proof. intros Hf s s' r E. apply sql_exec_spec in E. rewrite E. by destruct (is_ok r). Qed.
Lemma keeps_find_users {A} (q : access → list A) : keeps (λ s : S, a_users (sql_view s)) (sql_find q).
Proof. intros s s' r E. apply sql_find_view in E. by rewrite E. Qed.
Lemma safe_ClearRoles id : safe (λ _, True) (u_db (ClearRoles id)).
Proof. apply safe_db_users, keeps_exec_users. done. Qed.
Lemma safe_AssignRole id name : safe (λ _, True) (u_db (AssignRoleByName col_eq id name)).
Proof. apply safe_db_users. intros s s' r E. by apply AssignRole_spec in E as [E _]. Qed.
#[local] Hint Resolve keeps_exec_users keeps_find_users : keeps.
Lemma safe_ReplaceRoles id names : safe (λ _, True) (u_db (ReplaceRolesByNames col_eq id names)).
Proof. apply safe_db_users. unfold ReplaceRolesByNames, ClearRoles. solve_keeps. Qed.
#[local] Hint Resolve safe_kv safe_vm safe_find safe_exists safe_create safe_update safe_delete safe_ClearRoles
  safe_AssignRole safe_ReplaceRoles on_server_safe createVMUser_safe updateVMPassword_safe deleteVMUser_safe : hoare.

(** *** The services *)

Lemma safe_check_free username email : safe (λ _, True) (check_free col_eq username email).
Proof. unfold check_free, ExistsByUsername, ExistsByEmail. solve_hoare. Qed.
Lemma safe_create_account id name p :
  regexpAlphaNum name = true → safe (λ _, True) (create_account sshConfig id name p).
Proof. intros Hn. unfold create_account. solve_hoare. Qed.
#[local] Hint Resolve safe_check_free safe_create_account : hoare.

Lemma safe_Register req :
  regexpAlphaNum (RegisterRequest.Username req) = true →
  safe (λ _, True) (Register col_eq base64_decode md5 cbc_decrypt aes_secret env1 env2 bcrypt_hash sshConfig req).
Proof. intros Hn. unfold Register. solve_hoare. Qed.
Lemma safe_CreateUser req :
  regexpAlphaNum (CreateRequest.Username req) = true →
  safe (λ _, True) (CreateUser col_eq base64_decode md5 cbc_decrypt aes_secret env1 env2 bcrypt_hash sshConfig req).
Proof. intros Hn. unfold CreateUser. solve_hoare. Qed.
Lemma safe_GetUserByID id : safe (λ r, ∀ u, r = Ok u → good_user u) (GetUserByID id).
Proof.
  unfold GetUserByID, FindByID. eapply hoare_bind; [apply _|apply safe_find|]. intros r Hr.
  apply hoare_ret; [apply _|]. destruct r as [[u|]|]; try done. intros v [= <-]. by apply Hr.
Qed.
Lemma safe_GetUserByUsername name : safe (λ _, True) (GetUserByUsername col_eq name).
Proof. unfold GetUserByUsername, FindByUsername. solve_hoare. Qed.
Lemma safe_free_email id email : safe (λ _, True) (free_email col_eq id email).
Proof. unfold free_email, FindByEmail. solve_hoare. Qed.
#[local] Hint Resolve safe_Register safe_CreateUser safe_GetUserByID safe_GetUserByUsername safe_free_email : hoare.
Lemma safe_DeleteUser id : safe (λ _, True) (DeleteUser sshConfig id).
Proof.
  unfold DeleteUser, FindByID. eapply hoare_bind; [apply _|apply safe_find|]. intros [[u|]|e] Hu; [|solve_hoare..].
  specialize (Hu u eq_refl). unfold good_user in Hu. solve_hoare.
Qed.
Lemma safe_new_password name p1 p2 :
  regexpAlphaNum name = true →
  safe (λ _, True) (new_password base64_decode md5 cbc_decrypt aes_secret env1 env2 bcrypt_hash sshConfig name p1 p2).
Proof. intros Hn. unfold new_password. solve_hoare. Qed.
Lemma safe_change_to name p :
  regexpAlphaNum name = true →
  safe (λ _, True) (change_to base64_decode md5 cbc_decrypt aes_secret env1 env2 bcrypt_hash sshConfig name p).
Proof. intros Hn. unfold change_to. solve_hoare. Qed.
#[local] Hint Resolve safe_DeleteUser safe_new_password safe_change_to : hoare.
Lemma safe_AdminUpdateUser id req :
  safe (λ _, True) (AdminUpdateUser col_eq base64_decode md5 cbc_decrypt aes_secret env1 env2 bcrypt_hash sshConfig id req).
Proof.
  unfold AdminUpdateUser, FindByID. eapply hoare_bind; [apply _|apply safe_find|]. intros [[u|]|e] Hu; [|solve_hoare..].
  specialize (Hu u eq_refl). unfold good_user in Hu. eapply hoare_bind; [apply _|apply safe_free_email|].
  intros [[]|e] _; [|solve_hoare]. cbv zeta. eapply (hoare_bind _ _ (λ _, True)).
  { case_match; [by apply hoare_ret; [apply _|]|]. by apply safe_new_password. }
  intros [pw|e] _; [|solve_hoare]. eapply (hoare_bind _ _ (λ _, True)); [case_match; solve_hoare|].
  intros [[]|e] _; [|solve_hoare]. by apply safe_update.
Qed.
Lemma safe_UpdateAvatar id p : safe (λ _, True) (UpdateAvatar id p).
Proof.
  unfold UpdateAvatar. eapply hoare_bind; [apply _|apply safe_GetUserByID|]. intros [u|e] Hu; [|solve_hoare].
  specialize (Hu u eq_refl). eapply (hoare_bind _ _ (λ _, True)); [ |intros; by apply safe_update].
  case_match; [apply safe_vm, vm_safe_keeps, vm_log_RemoveFile|by apply hoare_ret; [apply _|]].
Qed.
Lemma safe_ChangePassword id old new :
  safe (λ _, True) (ChangePassword base64_decode md5 cbc_decrypt aes_secret env1 env2 bcrypt_hash bcrypt_compare sshConfig id old new).
Proof.
  unfold ChangePassword. eapply hoare_bind; [apply _|apply safe_GetUserByID|]. intros [u|e] Hu; [|solve_hoare].
  specialize (Hu u eq_refl). unfold good_user in Hu. solve_hoare.
Qed.
Lemma safe_ResetPassword email code new :
  safe (λ _, True) (ResetPassword col_eq base64_decode md5 cbc_decrypt aes_secret env1 env2 bcrypt_hash sshConfig email code new).
Proof.
  unfold ResetPassword, FindByEmail. eapply hoare_bind; [apply _|apply safe_kv|]. intros [[]|e] _; [|solve_hoare].
  eapply hoare_bind; [apply _|apply safe_find|]. intros [[u|]|e] Hu; [|solve_hoare..].
  specialize (Hu u eq_refl). unfold good_user in Hu. solve_hoare.
Qed.
Lemma safe_UpdateProfile id real phone email : safe (λ _, True) (UpdateProfile col_eq id real phone email).
Proof.
  unfold UpdateProfile. eapply hoare_bind; [apply _|apply safe_GetUserByID|]. intros [u|e] Hu; [|solve_hoare].
  specialize (Hu u eq_refl). unfold good_user in Hu. solve_hoare.
Qed.
#[local] Hint Resolve safe_AdminUpdateUser safe_UpdateAvatar safe_ChangePassword safe_ResetPassword safe_UpdateProfile : hoare.

(** *** The handlers *)

Lemma safe_decrypted {D} p (k : string → M W (Reply D)) :
  (∀ x, safe (λ _, True) (k x)) →
  safe (λ _, True) (decrypted base64_decode md5 cbc_decrypt aes_secret env1 env2 p k).
Proof. intros Hk. unfold decrypted. solve_hoare. Qed.
Lemma safe_logged_in {D} user (k : Z → M W (Reply D)) :
  (∀ x, safe (λ _, True) (k x)) → safe (λ _, True) (logged_in user k).
Proof. intros Hk. unfold logged_in. solve_hoare. Qed.
Notation on_crypto f := (f base64_decode md5 cbc_decrypt aes_secret env1 env2).

Lemma safe_ctrl_Register body :
  safe (λ _, True) (on_crypto (ctrl_Register col_eq) bcrypt_hash sshConfig tag_email body).
Proof.
  unfold ctrl_Register. case_match; [|solve_hoare]. do 2 (apply safe_decrypted; intros).
  case_match; [|solve_hoare]. do 2 (case_match; [solve_hoare|]).
  destruct (regexpAlphaNum _) eqn:Hn; cbn; solve_hoare.
Qed.
Lemma safe_ctrl_ResetPassword body :
  safe (λ _, True) (on_crypto (ctrl_ResetPassword col_eq) bcrypt_hash sshConfig tag_email bind_text body).
Proof. unfold ctrl_ResetPassword. case_match; [|solve_hoare]. do 2 (apply safe_decrypted; intros). solve_hoare. Qed.
Lemma safe_ctrl_ChangePassword user body :
  safe (λ _, True) (on_crypto ctrl_ChangePassword bcrypt_hash bcrypt_compare sshConfig user body).
Proof.
  unfold ctrl_ChangePassword. apply safe_logged_in. intros. case_match; [|solve_hoare].
  do 2 (apply safe_decrypted; intros). solve_hoare.
Qed.
Lemma safe_ctrl_UpdateProfile user body :
  safe (λ _, True) (ctrl_UpdateProfile col_eq tag_email user body).
Proof. unfold ctrl_UpdateProfile. apply safe_logged_in. solve_hoare. Qed.
Lemma safe_ctrl_UploadAvatar user form now : safe (λ _, True) (ctrl_UploadAvatar ToLower user form now).
Proof.
  unfold ctrl_UploadAvatar. apply safe_logged_in. intros userID. case_match; [|solve_hoare]. cbv zeta.
  do 2 (case_match; [solve_hoare|]).
  eapply hoare_bind; [apply _|apply safe_vm, vm_safe_keeps, vm_log_MkdirAll|]. intros [[]|e] _; [|solve_hoare].
  eapply hoare_bind; [apply _|apply safe_vm, vm_safe_keeps, vm_log_Save|]. intros [[]|e] _; solve_hoare.
Qed.
Lemma safe_ctrl_CreateUser body :
  safe (λ _, True) (on_crypto (ctrl_CreateUser col_eq) bcrypt_hash sshConfig tag_email body).
Proof.
  unfold ctrl_CreateUser. case_match; [|solve_hoare]. case_match; [solve_hoare|].
  destruct (regexpAlphaNum _) eqn:Hn; cbn; solve_hoare.
Qed.
Lemma safe_ctrl_DeleteUser id : safe (λ _, True) (ctrl_DeleteUser sshConfig id).
Proof. unfold ctrl_DeleteUser. solve_hoare. Qed.
Lemma safe_ctrl_UpdateUser id body :
  safe (λ _, True) (on_crypto (ctrl_UpdateUser col_eq) bcrypt_hash sshConfig tag_email id body).
Proof. unfold ctrl_UpdateUser. solve_hoare. Qed.

(** A request to one of the handlers that change accounts. *)
Inductive account_step (w : W) : W → Prop :=
  | as_Register body w' r :
      on_crypto (ctrl_Register col_eq) bcrypt_hash sshConfig tag_email body w = (w', r) → account_step w w'
  | as_ResetPassword body w' r :
      on_crypto (ctrl_ResetPassword col_eq) bcrypt_hash sshConfig tag_email bind_text body w = (w', r) →
      account_step w w'
  | as_ChangePassword user body w' r :
      on_crypto ctrl_ChangePassword bcrypt_hash bcrypt_compare sshConfig user body w = (w', r) →
      account_step w w'
  | as_UpdateProfile user body w' r :
      ctrl_UpdateProfile col_eq tag_email user body w = (w', r) → account_step w w'
  | as_UploadAvatar user form now w' r :
      ctrl_UploadAvatar ToLower user form now w = (w', r) → account_step w w'
  | as_CreateUser body w' r :
      on_crypto (ctrl_CreateUser col_eq) bcrypt_hash sshConfig tag_email body w = (w', r) → account_step w w'
  | as_DeleteUser id w' r : ctrl_DeleteUser sshConfig id w = (w', r) → account_step w w'
  | as_UpdateUser id body w' r :
      on_crypto (ctrl_UpdateUser col_eq) bcrypt_hash sshConfig tag_email id body w = (w', r) → account_step w w'.

Lemma account_step_safe w w' :
  names_ok w → account_step w w' → names_ok w' ∧ only_account_commands w w'.
Proof.
  intros Hw Hs.
  destruct Hs as [? ? ? E|? ? ? E|? ? ? ? E|? ? ? ? E|? ? ? ? ? E|? ? ? E|? ? ? E|? ? ? ? E];
    [apply safe_ctrl_Register in E|apply safe_ctrl_ResetPassword in E|apply safe_ctrl_ChangePassword in E
    |apply safe_ctrl_UpdateProfile in E|apply safe_ctrl_UploadAvatar in E|apply safe_ctrl_CreateUser in E
    |apply safe_ctrl_DeleteUser in E|apply safe_ctrl_UpdateUser in E]; try done; by destruct E as (? & ? & _).
Qed.

(** C18: The shell of the server sees account commands only.  From a user table
    with alphanumeric names, after any sequence of requests to the account
    handlers with any bodies, the names are still alphanumeric, and every
    command the server was given is, as the shell reads it, one of "id -u",
    "useradd", "userdel -r" on one alphanumeric account, or a text
    "name:password" for such an account piped into [chpasswd].  That text sets
    the password of the account, and of no other one when the password has
    neither line break nor backslash; the program does not check this, and
    [Users.password_injection] is such a password. *)
Theorem account_commands_safe w w'
  (Hnames : names_ok w) (Hsteps : rtc account_step w w') :
  names_ok w' ∧ ∃ l, vm_log (uw_vm w') = vm_log (uw_vm w) ++ l ∧ Forall account_command l.
Proof.
  change (names_ok w' ∧ only_account_commands w w').
  induction Hsteps as [w|w w1 w' Hs _ IH]; [split; [done|reflexivity]|].
  apply account_step_safe in Hs as [H1 R1]; [|done]. destruct (IH H1) as [H2 R2].
  split; [done|]. by etrans.
Qed.
End Safety.

(** ** What the handlers of accounts do *)

Section CtlProps.
Context {S : Type} {Q : Sql S access} {L : SqlLaws S access} {U : UserDb S} {UL : UserDbLaws S}.
Context {K : Type} {KV : Kv K} {KL : KvLaws K} {H C : Type} {V : Vm H C} {LD : LocalDisk H}.
Variable col_eq : string → string → bool.
Variable base64_decode : string → result bytes.
Variable md5 : bytes → bytes.
Variable cbc_decrypt : bytes → bytes → bytes → bytes.
Variables aes_secret env1 env2 : string.
Variable bcrypt_hash : string → result string.
Variable bcrypt_compare : string → string → result unit.
Variable sshConfig : option Config.
Variable tag_email : string → bool.
Variable bind_text : error → string.
Variable ToLower : string → string.
Notation W := (user_world S K H).
Notation decrypt := (decrypt base64_decode md5 cbc_decrypt aes_secret env1 env2).
Notation on_crypto f := (f base64_decode md5 cbc_decrypt aes_secret env1 env2).

Lemma ShouldBind_ok {A} (ok : A → bool) body a : ShouldBind ok body = Ok a → body = Ok a ∧ ok a = true.
Proof. unfold ShouldBind. destruct body; [|done]. case_match; [|done]. by intros [= <-]. Qed.

(** Decryption only panics. *)
Lemma decrypt_err p e : decrypt p = Err e → ∃ m, e = ErrPanic m.
Proof.
  unfold Users.decrypt, DecryptIfCryptoJS. repeat (case_match; try done); intros [= <-]; eauto.
Qed.
Lemma decrypted_inv {D} p (k : string → M W (Reply D)) w w' r :
  on_crypto decrypted p k w = (w', r) →
  (∃ x, decrypt p = Ok x ∧ k x w = (w', r)) ∨ w' = w ∧ ∃ m, r = panicking m.
Proof.
  unfold decrypted. destruct (decrypt p) as [x|e] eqn:E; [eauto|].
  apply decrypt_err in E as [m ->]. intros [= <- <-]. right. eauto.
Qed.

(** The handler stopped before the service: nothing changed, and the client
    gets a 400 or 401, or the handler panicked. *)
Definition refused_early {D} (w w' : W) (r : Reply D) : Prop :=
  w' = w ∧ (client_status r = 400 ∨ client_status r = 401 ∨ ∃ m, r = panicking m).

Lemma logged_in_inv {D} user (k : Z → M W (Reply D)) w w' r :
  logged_in user k w = (w', r) →
  (∃ userID, user = Some (CtxInt userID) ∧ userID ≠ 0 ∧ k userID w = (w', r)) ∨ refused_early w w' r.
Proof.
  unfold logged_in. destruct user as [[u|]|]; cbn.
  - destruct (Z.eqb_spec u 0); [|by left; eauto]. intros [= <- <-]. right. split; [done|]. by right; left.
  - intros [= <- <-]. right. split; [done|]. do 2 right. by eexists.
  - intros [= <- <-]. right. split; [done|]. by right; left.
Qed.

(** What a registration has to pass: the tags of the request, the rules for
    passwords, names and addresses.  Lengths are in characters. *)
Definition registration_checked (req : RegisterRequest) (pwd : string) : Prop :=
  3 ≤ RuneCountInString (RegisterRequest.Username req) ≤ 50 ∧
  6 ≤ RuneCountInString (RegisterRequest.Password req) ≤ 300 ∧
  RegisterRequest.ConfirmPassword req ≠ ""%string ∧ tag_email (RegisterRequest.Email req) = true ∧
  RuneCountInString (RegisterRequest.EmailCaptcha req) = 6 ∧
  6 ≤ RuneCountInString pwd ≤ 18 ∧ Contains pwd " " = false ∧
  alnum_word (RegisterRequest.Username req) ∧ qq_address (RegisterRequest.Email req).
Lemma RegisterRequest_ok_tags req pwd :
  RegisterRequest_ok tag_email req = true → ValidatePassword pwd = Ok tt →
  regexpAlphaNum (RegisterRequest.Username req) = true → qqEmailRegex (RegisterRequest.Email req) = true →
  registration_checked req pwd.
Proof.
  unfold RegisterRequest_ok, tag_required, tag_min, tag_max, tag_len, registration_checked.
  rewrite !andb_true_iff, !negb_true_iff, !String.eqb_neq, !Z.leb_le, Z.eqb_eq.
  intros Ht [? ?]%ValidatePassword_ok ?%regexpAlphaNum_word ?%qqEmailRegex_address.
  destruct Ht as [[[[[[[[[[? ?] ?] ?] ?] ?] ?] ?] ?] ?] ?]. split_and!; done || lia.
Qed.

(** C20: The registration handler.  Either nothing changed and the answer is a
    400 or the handler panicked; or the request passed every check (its tags,
    both passwords decrypt to the same valid one, a qq address, an alphanumeric
    name) and the answer reports what the service did: on success the name and
    the address were free, the code was the one mailed, and exactly the new row
    with the hash of that password and the role "user" was added; on an error
    no row was added, except when the last statement, which gives the role or
    deletes the row again, failed. *)
Theorem ctrl_Register_spec body (w w' : W) r
  (E : on_crypto (ctrl_Register col_eq) bcrypt_hash sshConfig tag_email body w = (w', r)) :
  refused_early w w' r ∨
  ∃ req pwd (res : result unit), body = Ok req ∧
    decrypt (RegisterRequest.Password req) = Ok pwd ∧ decrypt (RegisterRequest.ConfirmPassword req) = Ok pwd ∧
    registration_checked req pwd ∧ r = reply_nil res ∧
    match res with
    | Ok _ => accepted col_eq req w ∧
              registered col_eq base64_decode md5 cbc_decrypt aes_secret env1 env2 bcrypt_hash req w w'
    | Err _ => not_registered col_eq req w w'
    end.
Proof.
  unfold ctrl_Register in E. destruct (ShouldBind _ _) as [req|e] eqn:Hb.
  2:{ injection E as <- <-. left. split; [done|by left]. }
  apply ShouldBind_ok in Hb as [-> Htags].
  apply decrypted_inv in E as [(p1 & H1 & E)|[-> ?]]; [|left; split; [done|by do 2 right]].
  apply decrypted_inv in E as [(p2 & H2 & E)|[-> ?]]; [|left; split; [done|by do 2 right]].
  destruct (ValidatePassword p1) as [[]|e] eqn:Hv; [|injection E as <- <-; left; split; [done|by left]].
  destruct (String.eqb_spec p1 p2) as [<-|]; cbn in E; [|injection E as <- <-; left; split; [done|by left]].
  destruct (qqEmailRegex _) eqn:Hq; cbn in E; [|injection E as <- <-; left; split; [done|by left]].
  destruct (regexpAlphaNum _) eqn:Hn; cbn in E; [|injection E as <- <-; left; split; [done|by left]].
  open_bind E as w1 res E1. injection E as <- <-. apply Register_cases in E1.
  right. exists req, p1, res. split_and!; try done. by apply RegisterRequest_ok_tags.
Qed.

(** The answer to a change of password: the test of the second password adds a
    400 in front of what the service answers. *)
Definition password_reply {A} (n1 n2 : string) (res : result A) : Reply unit :=
  if negb (String.eqb n1 n2) then wrote (BadRequest "两次输入的密码不一致") (reply_nil res) else reply_nil res.

(** C19: A password changes over HTTP only for its owner.  Either the handler of
    a change or of a reset stopped early and nothing changed, or the new
    password is valid and the service ran: it changed exactly the password of
    the user of the token, whose old password matched, or of the user whose
    address the mailed code was stored for; or it failed and no row changed. *)
Theorem ctrl_password_safe (w : W) (Huniq : ids_unique w) :
  (∀ user body w' r,
     on_crypto ctrl_ChangePassword bcrypt_hash bcrypt_compare sshConfig user body w = (w', r) →
     refused_early w w' r ∨
     ∃ userID req n1 n2 (res : result unit), user = Some (CtxInt userID) ∧ userID ≠ 0 ∧ body = Ok req ∧
       decrypt (ChangePasswordRequest.NewPassword req) = Ok n1 ∧
       decrypt (ChangePasswordRequest.ConfirmPassword req) = Ok n2 ∧
       ValidatePassword n1 = Ok tt ∧ r = password_reply n1 n2 res ∧
       match res with
       | Ok _ => on_crypto password_changed bcrypt_hash
                   (λ u, User.ID u = userID ∧ ∃ pwd, decrypt (ChangePasswordRequest.OldPassword req) = Ok pwd ∧
                           bcrypt_compare (User.Password u) pwd = Ok tt)
                   (ChangePasswordRequest.NewPassword req) w w'
       | Err _ => tables w' = tables w
       end) ∧
  (∀ body w' r,
     on_crypto (ctrl_ResetPassword col_eq) bcrypt_hash sshConfig tag_email bind_text body w = (w', r) →
     refused_early w w' r ∨
     ∃ req n1 n2 (res : result unit), body = Ok req ∧
       decrypt (ResetPasswordRequest.NewPassword req) = Ok n1 ∧
       decrypt (ResetPasswordRequest.ConfirmPassword req) = Ok n2 ∧
       ValidatePassword n1 = Ok tt ∧ r = password_reply n1 n2 res ∧
       match res with
       | Ok _ => kv_str (kv_view (uw_kv w)) !! email_key (ResetPasswordRequest.Email req) =
                   Some (ResetPasswordRequest.EmailCaptcha req) ∧
                 on_crypto password_changed bcrypt_hash
                   (λ u, col_eq (User.Email u) (ResetPasswordRequest.Email req) = true)
                   (ResetPasswordRequest.NewPassword req) w w'
       | Err _ => tables w' = tables w
       end).
Proof.
  split.
  - intros user body w' r E. unfold ctrl_ChangePassword in E.
    apply logged_in_inv in E as [(userID & -> & Hu & E)|?]; [|by left].
    destruct (ShouldBind _ _) as [req|e] eqn:Hb; [|injection E as <- <-; left; split; [done|by left]].
    apply ShouldBind_ok in Hb as [-> _].
    apply decrypted_inv in E as [(n1 & H1 & E)|[-> ?]]; [|left; split; [done|by do 2 right]].
    apply decrypted_inv in E as [(n2 & H2 & E)|[-> ?]]; [|left; split; [done|by do 2 right]].
    destruct (ValidatePassword n1) as [[]|e] eqn:Hv; [|injection E as <- <-; left; split; [done|by left]].
    open_bind E as w1 res E1. injection E as <- <-. apply ChangePassword_cases in E1; [|done].
    right. by exists userID, req, n1, n2, res.
  - intros body w' r E. unfold ctrl_ResetPassword in E.
    destruct (ShouldBind _ _) as [req|e] eqn:Hb; [|injection E as <- <-; left; split; [done|by left]].
    apply ShouldBind_ok in Hb as [-> _].
    apply decrypted_inv in E as [(n1 & H1 & E)|[-> ?]]; [|left; split; [done|by do 2 right]].
    apply decrypted_inv in E as [(n2 & H2 & E)|[-> ?]]; [|left; split; [done|by do 2 right]].
    destruct (ValidatePassword n1) as [[]|e] eqn:Hv; [|injection E as <- <-; left; split; [done|by left]].
    open_bind E as w1 res E1. injection E as <- <-. apply ResetPassword_cases in E1; [|done].
    right. by exists req, n1, n2, res.
Qed.

(** The name under which a picture is stored is one component of a path. *)
Lemma avatar_name_plain userID now ext : ext ∈ allowedExts → is_name (avatar_name userID now ext) = true.
Proof.
  intros He. assert (no_slash ext = true) as Hx.
  { revert ext He. apply Forall_forall. unfold allowedExts. by repeat constructor. }
  assert (∀ z, no_slash (Itoa z) = true) as Hz.
  { intros z. eapply all_chars_impl; [|apply Itoa_chars]. intros c. unfold is_num_char.
    destruct (Ascii.eqb_spec c "/"%char) as [->|]; done. }
  unfold is_name, avatar_name. rewrite !no_slash_app, !Hz, Hx. cbn -[Itoa].
  pose proof (Itoa_nonempty userID) as Hne. pose proof (Hz userID) as Hs. pose proof (Itoa_chars userID) as Hc.
  destruct (Itoa userID) as [|c u]; [done|]. rewrite sapp_cons. cbn in Hc. apply andb_true_iff in Hc as [Hc _].
  destruct (Ascii.eqb_spec c "."%char) as [->|Hd]; [done|].
  assert (∀ r, (String c r =? ".")%string = false ∧ (String c r =? "..")%string = false) as Hr.
  { intros r. cbn. apply Ascii.eqb_neq in Hd. by rewrite Hd. }
  destruct (Hr (u +:+ "_" +:+ Itoa now +:+ ext)) as [-> ->]. done.
Qed.
Lemma Join_avatar name :
  is_name name = true → path_Join (path_Join "uploads" "avatars") name = "uploads/avatars/" +:+ name.
Proof.
  intros Hn. pose proof (is_name_no_slash _ Hn) as Hs. unfold path_Join at 1.
  change (Clean ("uploads/avatars" +:+ "/" +:+ name) = "uploads/avatars/" +:+ name).
  unfold Clean. change (IsAbs _) with false. cbv iota zeta.
  rewrite Split_app_sep. change (Split slash "uploads/avatars") with ["uploads"; "avatars"]%string. cbn [app].
  rewrite Split_name by done. unfold clean_components. cbn [foldl app].
  rewrite !push_name by done. reflexivity.
Qed.

(** Whatever the name of an uploaded picture, the avatar of a user becomes a
    file directly in uploads/avatars with one of the allowed endings. *)
Lemma avatar_confined user form now (w w' : W) d :
  ctrl_UploadAvatar ToLower user form now w = (w', respond (Success d)) →
  ∃ userID ext, user = Some (CtxInt userID) ∧ ext ∈ allowedExts ∧
    d = "http://192.168.10.1:8080/uploads/avatars/" +:+ avatar_name userID now ext ∧
    no_slash (avatar_name userID now ext) = true.
Proof.
  unfold ctrl_UploadAvatar. intros E.
  apply logged_in_inv in E as [(userID & -> & Hu & E)|[_ [?|[?|[m ?]]]]]; [|done..].
  destruct form as [file|e]; [|done]. cbv zeta in E. destruct (existsb _ _) eqn:Hx; cbn in E; [|done].
  destruct (HasPrefix _ _); cbn in E; [|done].
  assert (ToLower (Ext (fh_Filename file)) ∈ allowedExts) as Hin.
  { apply existsb_exists in Hx as (x & Hin & ->%String.eqb_eq). by apply list_elem_of_In. }
  exists userID, (ToLower (Ext (fh_Filename file))). split; [done|]. split; [done|].
  pose proof (avatar_name_plain userID now _ Hin) as Hn. split; [|by apply is_name_no_slash].
  open_bind E as w1 [[]|e] E1; [|by destruct e]. open_bind E as w2 [[]|e] E2; [|by destruct e].
  open_bind E as w3 r3 E3. destruct r3 as [[]|e]; [|by destruct e].
  injection E as _ E. rewrite <- E. exact (f_equal _ (Join_avatar _ Hn)).
Qed.
End CtlProps.

(** ** Restart and shutdown *)

Section PowerProps.
Context {S : Type} {TA : Table S AdminOperationLog} {LA : LogQuery S AdminOperationLog}.
Context {TL : TableLaws S AdminOperationLog} {LL : LogQueryLaws S AdminOperationLog}.
Context {P : Type} {LE : LocalExec P}.

(** The entry of a restart always says that it succeeded: also when the
    command could not be started. *)
Lemma power_logs_success username now1 now2 now3 action args failure ok (s s' : S) (p p' : P) r :
  power username now1 now2 now3 action args failure ok (s, p) = ((s', p'), r) →
  tbl_rows s' = tbl_rows s ∨
  ∃ k, 0 < k ∧ k ∈ AdminOperationLog.ID <$> tbl_rows s' ∧ k ∉ AdminOperationLog.ID <$> tbl_rows s ∧
    ∀ row, row ∈ tbl_rows s' → AdminOperationLog.ID row = k → AdminOperationLog.Status row = 1.
Proof.
  unfold power. intros E. open_bind E as w1 l E1. unfold lift in E1. cbn in E1.
  destruct (admin_CreateLog _ s) as [s1 x] eqn:Ec. injection E1 as <- <-. destruct x as [k|e].
  2:{ injection E as <- <- <-. left. by apply tbl_create_err in Ec. }
  right. exists k. apply tbl_create_ok in Ec as Hc; [|done]. destruct Hc as (Hk & t & Hrows).
  assert (NoDup (AdminOperationLog.ID <$> tbl_rows s1)) as Hnd by exact (tbl_pk s1).
  rewrite Hrows, fmap_app in Hnd. cbn in Hnd. apply NoDup_app in Hnd as (_ & Hnd & _).
  assert (k ∉ AdminOperationLog.ID <$> tbl_rows s) as Hfresh.
  { intros Hin. apply (Hnd _ Hin). by left. }
  assert (k ∈ AdminOperationLog.ID <$> tbl_rows s1 ∧
          ∀ row, row ∈ tbl_rows s1 → AdminOperationLog.ID row = k → AdminOperationLog.Status row = 1) as [Hin H1].
  { rewrite Hrows. split; [rewrite fmap_app; apply elem_of_app; right; by left|].
    intros row [Hr|Hr]%elem_of_app Hid; [|by apply list_elem_of_singleton in Hr as ->].
    exfalso. apply Hfresh. rewrite <- Hid. by apply list_elem_of_fmap_2. }
  open_bind E as w2 c E2. unfold lift in E2. cbn in E2. destruct (le_Start _ _ p) as [p1 y]. injection E2 as <- <-.
  destruct y as [[]|e]; [by injection E as <- <- <-|]. open_bind E as w3 u E3. unfold lift in E3. cbn in E3.
  destruct (UpdateStatus now3 k s1) as [s2 z] eqn:Eu. injection E3 as <- <-. injection E as <- <- <-.
  apply lq_update_spec in Eu. split_and!; [done| |done|].
  - rewrite Eu. destruct (is_ok z); [|done]. rewrite <- list_fmap_compose.
    apply list_elem_of_fmap in Hin as (row & -> & Hr). apply list_elem_of_fmap. exists row.
    split; [|done]. cbn. by case_match.
  - rewrite Eu. destruct (is_ok z); [|by apply H1]. intros row (x & -> & Hx)%list_elem_of_fmap.
    destruct (Z.eqb_spec (AdminOperationLog.ID x) k); [done|]. by apply H1.
Qed.
End PowerProps.

(** ** Executions *)

(** A server that records its commands; no account exists on it. *)
#[export] Instance ctl_vm : Vm (list string) unit := {|
  vm_NewClient _ l := (l, Ok tt);
  vm_Exec _ c l := (l ++ [c], ("", if HasPrefix c "id " then Some (ErrExt 1) else None));
  vm_RemoveFile _ l := (l, Ok tt)
|}.
#[export] Instance ctl_disk : LocalDisk (list string) := {|
  ld_MkdirAll _ l := (l, Ok tt); ld_SaveUploadedFile _ l := (l, Ok tt)
|}.
#[export] Instance ctl_log : VmLog (list string) unit.
Proof.
  refine {| vm_log l := l |}.
  - by intros cfg w w' a [= <- _].
  - by intros [] cmd h h' r [= <- _].
  - by intros p w w' a [= <- _].
  - by intros p w w' a [= <- _].
  - by intros p w w' a [= <- _].
Defined.

Definition ctl_world : user_world access kview (list string) :=
  mkUserWorld (mkAccess [User.mkUser 1 "ann" "#old123" "" "" "" "annann@qq.com" 1 1 0 0 []]
                 [demo_role 1 1 "user"] [] [] [(1, 1)] [] [])
    (put_str (email_key "annann@qq.com") "424242" (put_str (email_key "bobbob@qq.com") "777777" (mkKview ∅ ∅))) [].
Definition any_email (_ : string) : bool := true.
Definition ctl_register (name confirm : string) :=
  ctrl_Register (C := unit) String.eqb (λ _, Err ErrSyntax) demo_md5 (λ _ _ c, c) "" "" "" demo_hash demo_host any_email
    (Ok (RegisterRequest.mkRegisterRequest name "secret" confirm "bobbob@qq.com" "777777")) ctl_world.
Definition ctl_change (new confirm : string) :=
  ctrl_ChangePassword (C := unit) (λ _, Err ErrSyntax) demo_md5 (λ _ _ c, c) "" "" "" demo_hash demo_compare demo_host
    (Some (CtxInt 1)) (Ok (ChangePasswordRequest.mkChangePasswordRequest "old123" new confirm)) ctl_world.
Definition ctl_reset (new confirm : string) :=
  ctrl_ResetPassword (C := unit) String.eqb (λ _, Err ErrSyntax) demo_md5 (λ _ _ c, c) "" "" "" demo_hash demo_host
    any_email (λ _, ""%string)
    (Ok (ResetPasswordRequest.mkResetPasswordRequest "annann@qq.com" "424242" new confirm)) ctl_world.

(** Bob registers; the commands the server ran. *)
Lemma account_commands_safe_witness :
  vm_log (uw_vm (ctl_register "bob" "secret").1) =
    ["id -u bob"; "useradd -m -s /bin/bash bob"; "echo 'bob:secret' | chpasswd"]%string ∧
  Forall account_command (vm_log (uw_vm (ctl_register "bob" "secret").1)).
Proof.
  split; [vm_compute; reflexivity|].
  destruct (account_commands_safe (C := unit) String.eqb (λ _, Err ErrSyntax) demo_md5 (λ _ _ c, c) "" "" "" demo_hash
    demo_compare demo_host any_email (λ _, ""%string) (λ s, s) ctl_world (ctl_register "bob" "secret").1)
    as (_ & l & Hl & Hf).
  - repeat constructor.
  - eapply rtc_l; [|apply rtc_refl]. eapply as_Register. apply surjective_pairing.
  - rewrite Hl. exact Hf.
Defined.

(** A registration whose passwords differ is refused, and one that succeeds
    adds the row. *)
Lemma ctrl_Register_spec_witness :
  (ctl_register "bob" "other1").1 = ctl_world ∧
  ∃ id hashed, rows (ctl_register "bob" "secret").1 = rows ctl_world ++ [registered_row id "bob" hashed "bobbob@qq.com"].
Proof.
  split.
  - destruct (ctrl_Register_spec (C := unit) String.eqb (λ _, Err ErrSyntax) demo_md5 (λ _ _ c, c) "" "" "" demo_hash
      demo_host any_email _ ctl_world (ctl_register "bob" "other1").1 (ctl_register "bob" "other1").2
      (surjective_pairing _)) as [[Hw _]|(req & pwd & res & [= <-] & [= <-] & [=] & _)]. exact Hw.
  - destruct (ctrl_Register_spec (C := unit) String.eqb (λ _, Err ErrSyntax) demo_md5 (λ _ _ c, c) "" "" "" demo_hash
      demo_host any_email _ ctl_world (ctl_register "bob" "secret").1 (ctl_register "bob" "secret").2
      (surjective_pairing _)) as [[_ [Hx|[Hx|[m Hx]]]]|(req & pwd & res & [= <-] & _ & _ & _ & _ & Hres)];
      [vm_compute in Hx; discriminate Hx..|].
    destruct res as [u|e].
    + destruct Hres as (_ & pwd' & hashed & id & role & _ & _ & _ & _ & Hrow & _). by exists id, hashed.
    + destruct Hres as [Hn|(id & hashed & Hn & _)]; [|by exists id, hashed].
      exfalso. apply (f_equal length) in Hn. vm_compute in Hn. discriminate Hn.
Defined.

(** A change with the right old password, and a reset with the mailed code. *)
Lemma ctrl_password_safe_witness :
  rows (ctl_change "new123" "new123").1 = [User.mkUser 1 "ann" "#new123" "" "" "" "annann@qq.com" 1 1 0 0 []] ∧
  (refused_early ctl_world (ctl_reset "new123" "new123").1 (ctl_reset "new123" "new123").2 ∨
   ∃ n1 n2 (res : result unit), (ctl_reset "new123" "new123").2 = password_reply n1 n2 res).
Proof.
  split; [vm_compute; reflexivity|].
  destruct (ctrl_password_safe (C := unit) String.eqb (λ _, Err ErrSyntax) demo_md5 (λ _ _ c, c) "" "" "" demo_hash
    demo_compare demo_host any_email (λ _, ""%string) ctl_world) as [_ Hr].
  { intros x y Hx Hy _. apply list_elem_of_singleton in Hx, Hy. congruence. }
  destruct (Hr _ _ _ (surjective_pairing (ctl_reset "new123" "new123")))
    as [?|(req & n1 & n2 & res & _ & _ & _ & _ & Hx & _)]; [by left|]. right. by exists n1, n2, res.
Defined.

(** The second password is compared but not required: with a different one the
    client is told of a bad request, and then of a success, and the password
    has changed. *)
Example unconfirmed_change :
  (http_status <$> Written (ctl_change "new123" "new124").2, Code <$> Written (ctl_change "new123" "new124").2,
   User.Password <$> rows (ctl_change "new123" "new124").1) = ([400; 200], [400; 0], ["#new123"%string]).
Proof. vm_compute. reflexivity. Qed.
Example unconfirmed_reset :
  (Code <$> Written (ctl_reset "new123" "new124").2, User.Password <$> rows (ctl_reset "new123" "new124").1) =
  ([400; 0], ["#new123"%string]).
Proof. vm_compute. reflexivity. Qed.

(** The browser sends 64 characters of base64 for a password of 16 to 18
    characters: 16 bytes of header and two blocks.  Registration takes them,
    the other requests with a password do not. *)
Example long_password_refused :
  let c := "U2FsdGVkX18AAAAAAAAAAAAAAAAAAAAAAAAAAAAAAAAAAAAAAAAAAAAAAAAAAAAA"%string in
  String.length c = 64%nat ∧
  RegisterRequest_ok any_email (RegisterRequest.mkRegisterRequest "bob" c c "bobbob@qq.com" "777777") = true ∧
  ChangePasswordRequest_ok (ChangePasswordRequest.mkChangePasswordRequest c c c) = false ∧
  ResetPasswordRequest_ok any_email (ResetPasswordRequest.mkResetPasswordRequest "annann@qq.com" "424242" c c) = false ∧
  CreateRequest_ok any_email (CreateRequest.mkCreateRequest "bob" c c "bobbob@qq.com" "" "" 1 None) = false.
Proof. split_and!; vm_compute; reflexivity. Qed.
