(* ===== verification/FileCtl.v ===== *)
(** * The file controller (internal/api/v1/files/controller.go)

    Every handler decides the mode of the file service by asking the access
    tables; here the two meet: [Access] on the database, [FileService] and
    [DiskUsage] on the file world. *)

From S2P Require Import Prelude GoStrings Float64 Errors Entity External MemBackend Access SshSessions SessionRepo MenuService Auth Exec GoPath Shell FileService DiskUsage Users OperationLog Http AccountCtl.

Open Scope Z_scope.

(** ** Requests *)

(** [c.ShouldBindQuery], and the JSON body when the tags refuse the query; the
    error is that of the query.  Afterwards an empty path is read from the
    body once more, which the tags make superfluous. *)
Definition bind_path (query json : result string) : result string :=
  match ShouldBind tag_required query with
  | Ok p => Ok p
  | Err e => match ShouldBind tag_required json with Ok p => Ok p | Err _ => Err e end
  end.
Definition path_again (p : string) (json : result string) : string :=
  if String.eqb p "" then match json with Ok q => q | Err _ => p end else p.

(** The list request after the three fallbacks: the path parameter of the
    route, "pageSize", and the JSON body, which is decoded into the request. *)
Definition list_request (req : FileListRequest) (pathParam pageSize : string)
  (json_into : FileListRequest → FileListRequest) : FileListRequest :=
  let path := if String.eqb pathParam "" then FileListRequest.Path req else Clean pathParam in
  let size :=
    if (FileListRequest.PageSize req =? 0) && negb (String.eqb pageSize "") && (0 <? atoi_value pageSize)
    then atoi_value pageSize else FileListRequest.PageSize req in
  let req' := FileListRequest.mkFileListRequest path (FileListRequest.Keyword req) (FileListRequest.Page req) size in
  if String.eqb path "" && (FileListRequest.Page req =? 0) && (size =? 0) then json_into req' else req'.

Module UnzipRequest.
Record UnzipRequest : Type := mkUnzipRequest { Path : string; Filename : string; TargetPath : string }.
End UnzipRequest.
Notation UnzipRequest := UnzipRequest.UnzipRequest.
Definition UnzipRequest_ok (r : UnzipRequest) : bool :=
  tag_required (UnzipRequest.Path r) && tag_required (UnzipRequest.Filename r) &&
  tag_required (UnzipRequest.TargetPath r).
(** An upload form: the file, if there is one, and the target. *)
Module UploadFileRequest.
Record UploadFileRequest : Type := mkUploadFileRequest { File : option (string * Z); TargetPath : string }.
End UploadFileRequest.
Notation UploadFileRequest := UploadFileRequest.UploadFileRequest.
Definition UploadFileRequest_ok (r : UploadFileRequest) : bool :=
  (match UploadFileRequest.File r with Some _ => true | None => false end) &&
  tag_required (UploadFileRequest.TargetPath r).
Module UploadProgressRequest.
Record UploadProgressRequest : Type := mkUploadProgressRequest { Filename : string; TargetPath : string }.
End UploadProgressRequest.
Notation UploadProgressRequest := UploadProgressRequest.UploadProgressRequest.
Definition UploadProgressRequest_ok (r : UploadProgressRequest) : bool :=
  tag_required (UploadProgressRequest.Filename r) && tag_required (UploadProgressRequest.TargetPath r).

(** What a download answers: a JSON response, or headers and the content; the
    copy to the client may break off. *)
Inductive download_reply : Type :=
  | Replied (r : Reply unit)
  | Streamed (headers : list (string * string)) (copied : result unit).

Section FileCtl.
Context {D : Type} {Q : Sql D access}.
Context {S C F : Type} `{FileHost S C F} `{!RootHost S C} {K : Type} {KV : Kv K}.
Variable col_eq : string → string → bool.
Variable list_codec : codec list_cache.
Variable progress_codec : codec UploadProgressData.
Variable usage_codec : codec DiskUsageData.
Variable lib_text : error → string.
Variable cfg_BasePath : string.
Variables has_manager has_redis has_users : bool.
(** [file.Open()] of the upload; [url.QueryEscape]; [io.CopyBuffer] to the client. *)
Variable form_Open : M S (result unit).
Variable QueryEscape : string → string.
Variable copy_to_client : F → M S (result unit).

Notation W := (D * fworld S K)%type.
Definition c_db {A} : M D A → M W A := lift fst (λ d w, (d, w.2)).
Definition c_fs {A} : M (fworld S K) A → M W A := lift snd (λ f w, (w.1, f)).

(** [authService.HasSystemAccess(userID, AccessTypeFile)] *)
Definition with_mode {R} (userID : Z) (bad : error → R) (k : bool → M W R) : M W R :=
  a ← c_db (HasSystemAccess col_eq userID AccessTypeFile);
  match a with Err e => mret (bad e) | Ok isRootMode => k isRootMode end.
Definition known_user {R} (user : option ctx_value) (k : Z → M W (Reply R)) : M W (Reply R) :=
  match GetUserID user with
  | Err e => mret (biz_reply e)
  | Ok userID => if userID =? 0 then mret (respond (Unauthorized "用户未登录")) else k userID
  end.
(** The other handlers do not test the number: behind [Auth] there is one. *)
Definition any_user {R} (user : option ctx_value) (k : Z → M W (Reply R)) : M W (Reply R) :=
  match GetUserID user with Err e => mret (biz_reply e) | Ok userID => k userID end.
Notation text := (err_Error lib_text).

Definition ctrl_GetFileList (user : option ctx_value) (query : result FileListRequest)
  (pathParam pageSize : string) (json_into : FileListRequest → FileListRequest) : M W (Reply FilesListData) :=
  known_user user (λ userID,
    match query with
    | Err e => mret (respond (BadRequest (text e)))
    | Ok q =>
        let req := list_request q pathParam pageSize json_into in
        with_mode userID biz_reply (λ isRootMode,
          d ← c_fs (GetFileList list_codec lib_text cfg_BasePath has_manager has_redis userID req isRootMode);
          mret (reply_of d))
    end).

Definition ctrl_GetDiskUsage (user : option ctx_value) (query json : result string) : M W (Reply DiskUsageData) :=
  known_user user (λ userID,
    match bind_path query json with
    | Err e => mret (respond (BadRequest (text e)))
    | Ok p0 =>
        let p := path_again p0 json in
        if String.eqb p "" then mret (respond (BadRequest "缺少 path 参数"))
        else with_mode userID biz_reply (λ isRootMode,
          d ← c_fs (GetDiskUsage usage_codec lib_text cfg_BasePath has_manager has_redis userID p isRootMode);
          mret (reply_of d))
    end).

(** Root mode without asking. *)
Definition ctrl_ListHomeDirectories (user : option ctx_value) (query : result FileListRequest)
  (pathParam pageSize : string) (json_into : FileListRequest → FileListRequest) : M W (Reply FilesListData) :=
  known_user user (λ userID,
    match query with
    | Err e => mret (respond (BadRequest (text e)))
    | Ok q =>
        d ← c_fs (GetHomeDirectoriesList lib_text cfg_BasePath has_manager userID
                    (list_request q pathParam pageSize json_into) true);
        mret (reply_of d)
    end).

(** The data: size, size in words, share of the disk. *)
Definition ctrl_CalculateSize (user : option ctx_value) (query json : result string)
  : M W (Reply (Z * string * float64)) :=
  any_user user (λ userID,
    match bind_path query json with
    | Err e => mret (respond (BadRequest (text e)))
    | Ok p0 =>
        with_mode userID biz_reply (λ isRootMode,
          d ← c_fs (CalculateSize lib_text cfg_BasePath has_manager userID (path_again p0 json) isRootMode);
          mret (reply_of d))
    end).

Definition ctrl_DeleteFile (user : option ctx_value) (body : result string) : M W (Reply unit) :=
  any_user user (λ userID,
    match ShouldBind tag_required body with
    | Err e => mret (respond (BadRequest (text e)))
    | Ok p =>
        with_mode userID biz_reply (λ isRootMode,
          d ← c_fs (DeleteFile lib_text cfg_BasePath has_manager has_redis userID p isRootMode);
          mret (reply_nil d))
    end).

Definition upload_conflict : string := "当前有正在进行的上传任务".
(** The data is the name of the file. *)
Definition ctrl_UploadFile (user : option ctx_value) (form : result UploadFileRequest) : M W (Reply string) :=
  any_user user (λ userID,
    match ShouldBind UploadFileRequest_ok form with
    | Err e => mret (respond (BadRequest (text e)))
    | Ok req =>
        o ← c_fs (on_host form_Open);
        match o with
        | Err e => mret (respond (BadRequest ("文件打开失败: " +:+ text e)))
        | Ok _ =>
            with_mode userID biz_reply (λ isRootMode,
              let '(filename, size) := default (""%string, 0) (UploadFileRequest.File req) in
              d ← c_fs (UploadFile userID filename size (UploadFileRequest.TargetPath req) isRootMode);
              mret (match d with
                    | Ok data => respond (Success data)
                    | Err e => if Contains (text e) upload_conflict then respond (Error 409 (text e))
                               else biz_reply e
                    end))
        end
    end).

Definition ctrl_GetUploadProgress (user : option ctx_value) (query : result UploadProgressRequest)
  : M W (Reply UploadProgressData) :=
  any_user user (λ userID,
    match ShouldBind UploadProgressRequest_ok query with
    | Err e => mret (respond (BadRequest (text e)))
    | Ok req =>
        d ← c_fs (GetUploadProgress progress_codec cfg_BasePath has_manager has_redis userID
                    (UploadProgressRequest.Filename req) (UploadProgressRequest.TargetPath req));
        mret (reply_of d)
    end).

(** The headers of a download. *)
Definition download_headers (filename : string) (size : Z) : list (string * string) :=
  [("Content-Disposition", "attachment; filename=" +:+ QueryEscape filename);
   ("Content-Type", "application/octet-stream"); ("Content-Length", Itoa size)]%string.
Definition ctrl_DownloadFile (user : option ctx_value) (query json : result string) : M W download_reply :=
  match GetUserID user with
  | Err e => mret (Replied (biz_reply e))
  | Ok userID =>
      match bind_path query json with
      | Err e => mret (Replied (respond (BadRequest ("Invalid parameters: " +:+ text e))))
      | Ok p0 =>
          with_mode userID (λ e, Replied (biz_reply e)) (λ isRootMode,
            d ← c_fs (DownloadFile cfg_BasePath has_manager userID (path_again p0 json) isRootMode);
            match d with
            | Err e => mret (Replied (biz_reply e))
            | Ok (f, filename, size, _) =>
                cp ← c_fs (on_host (copy_to_client f));
                _ ← c_fs (on_host (fh_Close f));
                mret (Streamed (download_headers filename size) cp)
            end)
      end
  end.

Definition ctrl_UnzipFile (user : option ctx_value) (body : result UnzipRequest) : M W (Reply string) :=
  any_user user (λ userID,
    match ShouldBind UnzipRequest_ok body with
    | Err e => mret (respond (BadRequest (text e)))
    | Ok req =>
        with_mode userID biz_reply (λ isRootMode,
          d ← c_fs (UnzipFile lib_text cfg_BasePath has_manager has_redis userID (UnzipRequest.Path req)
                      (UnzipRequest.TargetPath req) isRootMode);
          mret (reply_of (match d with Ok _ => Ok "解压任务已在后台开始执行"%string | Err e => Err e end)))
    end).

Definition ctrl_GetAllUsersDiskUsage : M W (Reply (list UserDiskUsageData)) :=
  d ← c_fs (GetAllUsersDiskUsage usage_codec cfg_BasePath has_manager has_users);
  mret (reply_of d).
End FileCtl.

(** * Properties *)

(** ** What an ordinary user's requests send *)

Create HintDb own.
Ltac solve_own :=
  repeat first
    [ progress intros
    | apply triple_ret; [apply _|done]
    | solve [eauto with own]
    | eapply triple_bind; [apply _|solve [eauto with own]|]
    | progress cbv zeta
    | progress cbn beta iota in *
    | case_match
    | eapply (triple_bind _ (λ _, True)) ].

Section Own.
Context {S C F : Type} `{FileHost S C F} {K : Type} {KV : Kv K}.
Variable list_codec : codec list_cache.
Variable usage_codec : codec DiskUsageData.
Variable lib_text : error → string.
Variable cfg_BasePath : string.
Variables has_manager has_redis : bool.
Variables (userID : Z) (username : string).
(** The session manager's session of the user in user mode is a login as
    [username]. *)
Hypothesis session_user : ∀ s s' u oc,
  fh_GetSession userID false s = (s', Ok (mkFileSession u oc)) → u = username.
Hypothesis base_abs : IsAbs (base_path cfg_BasePath) = true.
Hypothesis name_ok : is_name username = true.
Notation W := (fworld S K).

(** The command went over the user's own session, not over that of root. *)
Definition own_session (e : Z * bool * string) : Prop := e.1 = (userID, false).
Notation own := (triple (W := W) (sent_by own_session) (λ _, True)).

Lemma own_of {A} (P : A → Prop) (c : M W A) : triple (sent_by own_session) P c → own c.
Proof. intros Hc. eapply triple_weaken; [exact Hc|done]. Qed.
Lemma own_host {A} (c : M S A) : own (FileService.on_host c).
Proof. eapply own_of, sends_host. Qed.
Lemma own_redis {A} (c : M K A) : own (on_redis c).
Proof. apply sends_redis. Qed.
Lemma own_sent {A} (c : M W A) : keeps fw_sent c → own c.
Proof. intros Hc w w' a E. apply Hc in E. split; [|done]. exists []. by rewrite E. Qed.
Lemma own_resolvePath p : own (resolvePath cfg_BasePath has_manager userID p false).
Proof. eapply own_of, (sends_resolvePath _ _ _ _ session_user); done. Qed.
Lemma own_getSftpClient : own (getSftpClient has_manager userID false).
Proof. by apply (sends_getSftpClient _ _ _ session_user). Qed.
Lemma own_command cmd : own (executeSSHCommand lib_text has_manager userID cmd false).
Proof. by apply (sends_command _ _ _ _ session_user). Qed.
Lemma own_invalidate root q : own (invalidateFileListCache has_redis userID root q).
Proof. apply sends_invalidate. Qed.
#[local] Hint Resolve own_host own_redis own_resolvePath own_getSftpClient own_command own_invalidate : own.

Lemma own_GetFileList req : own (GetFileList list_codec lib_text cfg_BasePath has_manager has_redis userID req false).
Proof. unfold GetFileList, requested_path, cached_list, read_directory, load_uids. solve_own. Qed.
Lemma own_DownloadFile p : own (DownloadFile cfg_BasePath has_manager userID p false).
Proof. unfold DownloadFile. solve_own. Qed.
Lemma own_DeleteFile p : own (DeleteFile lib_text cfg_BasePath has_manager has_redis userID p false).
Proof. unfold DeleteFile. solve_own. Qed.
Lemma own_UnzipFile p t : own (UnzipFile lib_text cfg_BasePath has_manager has_redis userID p t false).
Proof. unfold UnzipFile. solve_own. Qed.
Lemma own_GetDiskUsage p : own (GetDiskUsage usage_codec lib_text cfg_BasePath has_manager has_redis userID p false).
Proof. unfold GetDiskUsage, GetDiskUsageCache, SetDiskUsageCache, usage_size, vfs_total, df_or, stat_or. solve_own. Qed.
Lemma own_CalculateSize p : own (CalculateSize lib_text cfg_BasePath has_manager userID p false).
Proof. unfold CalculateSize, calc_size, vfs_total, df_or, stat_or. solve_own. Qed.
(** An upload stores the file and leaves the rest to a task. *)
Lemma own_UploadFile filename size target mode : own (UploadFile userID filename size target mode).
Proof.
  assert (∀ t, own (add_temp t)) by (intros; by apply own_sent; intros w w' a [= <- _]).
  assert (∀ t, own (spawn t)) by (intros; by apply own_sent; intros w w' a [= <- _]).
  assert (∀ t, own (remove_temp t)).
  { intros t. unfold remove_temp. eapply triple_bind; [apply _|apply own_host|]. intros r _.
    case_match; by apply own_sent; intros w w' a [= <- _]. }
  unfold UploadFile. solve_own.
Qed.
End Own.

Section Handlers.
Context {D : Type} {Q : Sql D access} {L : SqlLaws D access}.
Context {S C F : Type} `{FileHost S C F} `{!RootHost S C} {K : Type} {KV : Kv K}.
Variable col_eq : string → string → bool.
Variable list_codec : codec list_cache.
Variable usage_codec : codec DiskUsageData.
Variable lib_text : error → string.
Variable cfg_BasePath : string.
Variables has_manager has_redis : bool.
Variable form_Open : M S (result unit).
Variable QueryEscape : string → string.
Variable copy_to_client : F → M S (result unit).
Variables (userID : Z) (username : string).
Hypothesis session_user : ∀ s s' u oc,
  fh_GetSession userID false s = (s', Ok (mkFileSession u oc)) → u = username.
Hypothesis base_abs : IsAbs (base_path cfg_BasePath) = true.
Hypothesis name_ok : is_name username = true.
Notation W := (D * fworld S K)%type.

(** Slugs are unique, and no enabled permission under "system:file" belongs to
    the user. *)
Definition ordinary (w : W) : Prop :=
  slugs_unique col_eq (sql_view w.1) ∧ ¬ system_access (sql_view w.1) userID AccessTypeFile.
(** The tables stay, and the commands satisfy [P]. *)
Definition sends_only (P : Z * bool * string → Prop) (w w' : W) : Prop :=
  sql_view w'.1 = sql_view w.1 ∧ sent_by P w.2 w'.2.
#[local] Instance sends_only_preorder P : PreOrder (sends_only P).
Proof.
  split.
  - intros w. by split.
  - intros a b c [E1 R1] [E2 R2]. split; [congruence|by etrans].
Qed.
Notation safe P := (hoare ordinary (sends_only P) (λ _, True)).

Lemma safe_fs P {A} (c : M (fworld S K) A) : triple (sent_by P) (λ _, True) c → safe P (c_fs c).
Proof.
  intros Hc w w' a Hw E. unfold c_fs, lift in E. destruct (c w.2) as [f x] eqn:Ec. injection E as <- <-.
  apply Hc in Ec as [Hs _]. by split_and!.
Qed.
(** An ordinary user gets the user mode, or an error. *)
Lemma safe_with_mode P {R} (bad : error → R) (k : bool → M W R) :
  safe P (k false) → safe P (with_mode col_eq userID bad k).
Proof.
  intros Hk w w' a Hw E. unfold with_mode in E. open_bind E as w1 m E1.
  unfold c_db, lift in E1. destruct (HasSystemAccess col_eq userID AccessTypeFile w.1) as [d x] eqn:Ea.
  injection E1 as <- <-. destruct Hw as [Hu Hn]. apply HasSystemAccess_post in Ea as (Hv & Ht & _); [|done].
  assert (ordinary (d, w.2)) as Hw1 by (unfold ordinary; cbn; by rewrite Hv).
  assert (sends_only P w (d, w.2)) as HR by (split; [done|reflexivity]).
  destruct x as [[]|e]; [by destruct (Hn (Ht eq_refl))| |by injection E as <- <-].
  apply Hk in E as (? & ? & ?); [|done]. split_and!; [done|by etrans|done].
Qed.
Lemma safe_known_user P {R} (k : Z → M W (Reply R)) :
  safe P (k userID) → safe P (known_user (Some (CtxInt userID)) k).
Proof. intros Hk. unfold known_user. cbn. case_match; [by apply hoare_ret; [apply _|]|done]. Qed.
Lemma safe_any_user P {R} (k : Z → M W (Reply R)) :
  safe P (k userID) → safe P (any_user (Some (CtxInt userID)) k).
Proof. done. Qed.
Lemma own_triple {A} (c : M (fworld S K) A) (P : A → Prop) :
  triple (sent_by (own_session userID)) P c → triple (sent_by (own_session userID)) (λ _, True) c.
Proof. intros Hc. eapply triple_weaken; [exact Hc|done]. Qed.
#[local] Hint Resolve safe_fs own_host own_GetFileList own_DownloadFile own_DeleteFile own_UnzipFile own_GetDiskUsage
  own_CalculateSize own_UploadFile : hoare.

Notation user := (Some (CtxInt userID)).
(** A request of the user to a handler that asks for the mode. *)
Inductive file_step (w : W) : W → Prop :=
  | fs_list query pathParam pageSize json w' r :
      ctrl_GetFileList col_eq list_codec lib_text cfg_BasePath has_manager has_redis user query pathParam pageSize json
        w = (w', r) → file_step w w'
  | fs_usage query json w' r :
      ctrl_GetDiskUsage col_eq usage_codec lib_text cfg_BasePath has_manager has_redis user query json w = (w', r) →
      file_step w w'
  | fs_size query json w' r :
      ctrl_CalculateSize col_eq lib_text cfg_BasePath has_manager user query json w = (w', r) → file_step w w'
  | fs_delete body w' r :
      ctrl_DeleteFile col_eq lib_text cfg_BasePath has_manager has_redis user body w = (w', r) → file_step w w'
  | fs_upload form w' r :
      ctrl_UploadFile col_eq lib_text form_Open user form w = (w', r) → file_step w w'
  | fs_download query json w' r :
      ctrl_DownloadFile col_eq lib_text cfg_BasePath has_manager QueryEscape copy_to_client user query json w = (w', r) →
      file_step w w'
  | fs_unzip body w' r :
      ctrl_UnzipFile col_eq lib_text cfg_BasePath has_manager has_redis user body w = (w', r) → file_step w w'.

Lemma file_step_own w w' :
  ordinary w → file_step w w' → ordinary w' ∧ sends_only (own_session userID) w w'.
Proof.
  intros Hw Hs. assert (∃ R (c : M W R) r, safe (own_session userID) c ∧ c w = (w', r)) as (R & c & r & Hc & E).
  { destruct Hs as [? ? ? ? w' r E|? ? w' r E|? ? w' r E|? w' r E|? w' r E|? ? w' r E|? w' r E];
      refine (ex_intro _ _ (ex_intro _ _ (ex_intro _ _ (conj _ E))));
      unfold ctrl_GetFileList, ctrl_GetDiskUsage, ctrl_CalculateSize, ctrl_DeleteFile, ctrl_UploadFile,
        ctrl_DownloadFile, ctrl_UnzipFile, any_user; cbn [GetUserID];
      try apply safe_known_user; try case_match; try (by apply hoare_ret; [apply _|]); cbv zeta;
      try (case_match; [by apply hoare_ret; [apply _|]|]); try apply safe_with_mode.
    - solve_hoare.
    - solve_hoare.
    - solve_hoare.
    - solve_hoare.
    - eapply hoare_bind; [apply _|apply safe_fs, own_host|]. intros [[]|e] _; [|solve_hoare].
      apply safe_with_mode. destruct (default _ _). solve_hoare.
    - solve_hoare.
    - solve_hoare. }
  apply Hc in E as (? & ? & _); [|done]. by split.
Qed.

End Handlers.

(** The branch for a second upload at the same time is never taken: the service
    has no such error. *)
Lemma upload_conflict_dead {S C F} `{FileHost S C F} {K} {KV : Kv K} lib_text userID filename size target mode
  (w w' : fworld S K) e :
  UploadFile userID filename size target mode w = (w', Err e) →
  Contains (err_Error lib_text e) upload_conflict = false.
Proof.
  unfold UploadFile. intros E. open_bind E as w1 d E1. destruct d as [u|e1].
  2:{ injection E as _ <-. reflexivity. }
  open_bind E as w2 t E2. destruct t as [t|e2].
  2:{ injection E as _ <-. reflexivity. }
  open_bind E as w3 a E3. open_bind E as w4 cp E4. destruct cp as [u'|e3].
  - open_bind E as w5 sp E5. by injection E.
  - open_bind E as w5 rm E5. injection E as _ <-. reflexivity.
Qed.

(** ** An execution *)

(** The user 7 of the demo host has no role. *)
Definition demo_ordinary : access :=
  mkAccess [User.mkUser 7 "ann" "" "" "" "" "" 1 1 0 0 []] [] [] [] [] [] [].
Definition demo_delete :=
  ctrl_DeleteFile String.eqb demo_text "/home" true true (Some (CtxInt 7)) (Ok "a'b.zip"%string)
    (demo_ordinary, demo_fworld).

