(* ===== verification/JobCtl.v ===== *)
(** * The job and queue controllers

    internal/api/v1/job/controller.go and queue/controller.go on top of
    [JobService], [Queue], [Gpu] and [Exec]. *)

From S2P Require Import Prelude GoStrings Float64 Errors Entity External MemBackend Gpu JobRepo Queue JobService Scheduler SchedulerSpec Exec SessionRepo Access SshSessions MenuService Auth GoPath Shell FileService Users OperationLog Http AccountCtl.

Open Scope Z_scope.

(** ** Requests *)

(** A list request with its dates as they come. *)
Record list_query (R : Type) : Type := mkListQuery { lq_req : R; lq_StartTime : string; lq_EndTime : string }.
Arguments mkListQuery {R}. Arguments lq_req {R}. Arguments lq_StartTime {R}. Arguments lq_EndTime {R}.
Definition JobListRequest_ok (q : list_query JobListRequest) : bool := 1 <=? JobListRequest.Page (lq_req q).
Definition QueueListRequest_ok (q : list_query QueueListRequest) : bool := 1 <=? QueueListRequest.Page (lq_req q).
(** [GpuIDs] is [None] when the field is missing or null; an empty list is a
    value for the tag "required". *)
Record submit_body : Type := mkSubmitBody {
  sb_Name : string; sb_Description : string; sb_FilePath : string; sb_CondaEnv : string; sb_GpuIDs : option (list Z)
}.
Definition SubmitJobRequest_ok (b : submit_body) : bool :=
  tag_required (sb_Name b) && tag_required (sb_FilePath b) &&
  match sb_GpuIDs b with Some _ => true | None => false end.
Definition submit_request (b : submit_body) : SubmitJobRequest :=
  SubmitJobRequest.mkSubmitJobRequest (sb_Name b) (sb_Description b) (sb_FilePath b) (sb_CondaEnv b)
    (default [] (sb_GpuIDs b)).
(** [JobID], [TargetJobID]; the tag "required" refuses 0. *)
Definition ReorderRequest_ok (r : Z * Z) : bool := negb (r.1 =? 0) && negb (r.2 =? 0).

(** [time.Time] as the services take it: the zero time is no bound. *)
Definition bound_of (t : Z) : option Z := if t =? zero_time then None else Some t.

Section JobCtl.
Context `{B : Backend}.
Variable lib_text : error → string.
(** The day boundaries of [time.Local]. *)
Variable midnight : Z → Z.
Notation text := (err_Error lib_text).

(** [response.Error(c, code, err.Error()); return] *)
Definition error_reply {D} (code : Z) (e : error) : Reply D :=
  match e with ErrPanic m => panicking m | _ => respond (Error code (text e)) end.
Definition with_dates {D} (start stop : string) (k : option Z → option Z → M World (Reply D)) : M World (Reply D) :=
  match ParseStartDate midnight start with
  | Err _ => mret (respond (BadRequest "开始时间格式错误"))
  | Ok s =>
      match ParseEndDate midnight stop with
      | Err _ => mret (respond (BadRequest "截至时间格式错误"))
      | Ok e => k (bound_of s) (bound_of e)
      end
  end.
(** The id of a route parameter. *)
Definition with_job_id {D} (s : string) (k : Z → M World (Reply D)) : M World (Reply D) :=
  if String.eqb s "" then mret (respond (BadRequest "缺少任务ID"))
  else match StringToInt s 0 with
       | Err _ => mret (respond (BadRequest "任务ID格式错误"))
       | Ok (_, jobID) => k jobID
       end.

(** ** job/controller.go *)

Definition handleJobList
  (fetch : JobListRequest → option Z → option Z → Z → M World (result (list JobResponse * Z * Z * Z)))
  (user : option ctx_value) (query : result (list_query JobListRequest))
  : M World (Reply (PageResponse JobResponse)) :=
  match ShouldBind JobListRequest_ok query with
  | Err e => mret (respond (BadRequest (text e)))
  | Ok j =>
      match GetUserID user with
      | Err e => mret (biz_reply e)
      | Ok userID =>
          with_dates (lq_StartTime j) (lq_EndTime j) (λ startTime endTime,
            f ← fetch (lq_req j) startTime endTime userID;
            match f with
            | Err e => mret (error_reply 500 e)
            | Ok (list, total, page, pageSize) =>
                r ← EnrichJobList list;
                match r with
                | (_, Err e) => mret (error_reply 500 e)
                | (list', Ok _) => mret (respond (Success (NewPageResponse list' total page pageSize)))
                end
            end)
      end
  end.
Definition ctrl_GetJobsList := handleJobList GetJobList.
Definition ctrl_GetWaitJobsList := handleJobList GetWaitJobList.

(** The data is the new job; here its id. *)
Definition ctrl_SubmitJob (user : option ctx_value) (body : result submit_body) : M World (Reply Z) :=
  match ShouldBind SubmitJobRequest_ok body with
  | Err e => mret (respond (BadRequest (text e)))
  | Ok b =>
      match GetUserID user with
      | Err e => mret (biz_reply e)
      | Ok userID => r ← SubmitJob (submit_request b) userID; mret (reply_of r)
      end
  end.

Definition ctrl_CancelJob (user : option ctx_value) (jobIDStr : string) : M World (Reply unit) :=
  with_job_id jobIDStr (λ jobID,
    match GetUserID user with
    | Err e => mret (biz_reply e)
    | Ok userID =>
        r ← CancelJob jobID userID;
        mret (match r with Err e => error_reply 4001 e | Ok _ => respond SuccessNil end)
    end).

Definition ctrl_GetStats : M World (Reply JobStats.JobStats) :=
  r ← GetStats; mret (match r with Err e => error_reply 500 e | Ok stats => respond (Success stats) end).
Definition ctrl_GetGpus : M World (Reply (list (GpuCard * Z) * Z)) :=
  r ← GetGpus; mret (match r with Err e => error_reply 500 e | Ok gpus => respond (Success gpus) end).

(** ** queue/controller.go *)

Definition ctrl_GetQueue (query : result (list_query QueueListRequest)) : M World (Reply (PageResponse QueueJobResponse)) :=
  match ShouldBind QueueListRequest_ok query with
  | Err e => mret (respond (BadRequest (text e)))
  | Ok q =>
      with_dates (lq_StartTime q) (lq_EndTime q) (λ startTime endTime,
        r ← GetQueuePage (lq_req q) startTime endTime;
        mret (match r with
              | Err e => error_reply 500 e
              | Ok (list, total, page, pageSize) => respond (Success (NewPageResponse list total page pageSize))
              end))
  end.

(** A nil pointer would panic in the test of the status. *)
Definition with_job {D} (id : Z) (k : Job → M World (Reply D)) : M World (Reply D) :=
  g ← GetByID id;
  match g with
  | Err e => mret (error_reply 500 e)
  | Ok None => mret (panicking "nil pointer dereference")
  | Ok (Some job) => k job
  end.
Definition ctrl_ReorderQueue (body : result (Z * Z)) : M World (Reply unit) :=
  match ShouldBind ReorderRequest_ok body with
  | Err e => mret (respond (BadRequest (text e)))
  | Ok (jobID, targetJobID) =>
      with_job jobID (λ job,
        if Job.Status job =? JobStatusRunning then mret (respond (BadRequest "正在执行中的任务不允许重排"))
        else with_job targetJobID (λ targetJob,
          if Job.Status targetJob =? JobStatusRunning
          then mret (respond (BadRequest "不允许将任务重排到正在执行中的任务前面"))
          else
            r ← MoveBefore jobID targetJobID;
            mret (match r with Err e => error_reply 500 e | Ok _ => respond SuccessNil end)))
  end.

Definition ctrl_RemoveJob (jobIDStr : string) : M World (Reply unit) :=
  with_job_id jobIDStr (λ jobID,
    g ← GetByID jobID;
    match g with
    | Err e => mret (error_reply 500 e)
    | Ok job =>
        r ← Remove jobID;
        match r with
        | Err e => mret (error_reply 500 e)
        | Ok _ =>
            match job with
            | Some j =>
                if (Job.Status j =? JobStatusQueued) || (Job.Status j =? JobStatusWaitingGpu)
                then
                  u ← JobRepo.UpdateStatus jobID JobStatusCancelled;
                  mret (match u with Err e => error_reply 500 e | Ok _ => respond SuccessNil end)
                else mret (respond SuccessNil)
            | None => mret (respond SuccessNil)
            end
        end
    end).
End JobCtl.

(** [GetCondaEnvs] runs over the remote host of [Exec]. *)
Section CondaCtl.
Context {S C : Type} `{Remote S C}.
Variable lib_text : error → string.
Definition ctrl_GetCondaEnvs (user : option ctx_value) : M S (Reply (list string)) :=
  match GetUserID user with
  | Err e => mret (biz_reply e)
  | Ok userID =>
      r ← ListCondaEnvs userID;
      mret (match r with
            | Err e => error_reply lib_text 500 e
            | Ok envs => respond (Success envs)
            end)
  end.
End CondaCtl.

(** * Properties *)

Section JobCtlProps.
Context `{B : Backend} {BL : BackendLaws B}.
Variable lib_text : error → string.
Notation error_reply := (error_reply lib_text).

(** The reply of a service that returned [res]. *)
Definition service_reply {A} (code : Z) (res : result A) : Reply unit :=
  match res with Err e => error_reply code e | Ok _ => respond SuccessNil end.

Lemma with_job_id_inv {D} s (k : Z → M World (Reply D)) w w' r :
  with_job_id s k w = (w', r) →
  (∃ jobID, Atoi s = Ok jobID ∧ k jobID w = (w', r)) ∨ w' = w ∧ client_status r = 400.
Proof.
  unfold with_job_id, StringToInt. destruct (String.eqb s ""); [by intros [= <- <-]; right|].
  destruct (Atoi s) as [v|e]; [by left; exists v|]. intros [= <- <-]. by right.
Qed.

(** What [RemoveJob] leaves behind. *)
Definition removed (jobID : Z) (job : Job) (res : result unit) (w w' : World) : Prop :=
  match res with
  | Ok _ => queue_of w' = delete (Itoa jobID) (queue_of w) ∧
      ∀ i, job_status i w' = if (i =? jobID) && bool_decide (cancellable (Job.Status job))
                             then Some JobStatusCancelled else job_status i w
  | Err _ => (queue_of w' = queue_of w ∨
              queue_of w' = delete (Itoa jobID) (queue_of w) ∧ cancellable (Job.Status job)) ∧
      ∀ i, job_status i w' = job_status i w
  end.
#[local] Instance cancellable_dec st : Decision (cancellable st).
Proof. unfold cancellable. apply _. Defined.

(** C32: Removing a job from the queue.  A request with a bad id changes nothing.
    Otherwise the answer reports what happened: without the job's row, or when
    the queue could not be changed, nothing changed; on success the job is out
    of the queue and, if it was queued or waiting, cancelled, and no other job
    changed; when only the update of the status failed the job is out of the
    queue and keeps its status.  Cards are never touched. *)
Theorem ctrl_RemoveJob_spec idStr w w' r
  (E : ctrl_RemoveJob lib_text idStr w = (w', r)) :
  (w' = w ∧ client_status r = 400) ∨
  gpus_of w' = gpus_of w ∧
  ∃ jobID res, Atoi idStr = Ok jobID ∧ r = service_reply 500 res ∧
    match job_row jobID w with
    | Some job => removed jobID job res w w'
    | None => is_ok res = false ∧ queue_of w' = queue_of w ∧ jobs_of w' = jobs_of w
    end.
Proof.
  unfold ctrl_RemoveJob in E. apply with_job_id_inv in E as [(jobID & Ha & E)|?]; [|by left].
  right. open_bind E as w1 g E1. frames E1.
  assert (queue_of w1 = queue_of w) as Q1 by (unfold queue_of; congruence).
  assert (∀ i, job_status i w1 = job_status i w) as J1 by (intros; by apply job_status_jobs).
  destruct g as [o|e].
  2:{ injection E as <- <-. split; [done|]. exists jobID, (Err e). split_and!; [done|done|].
      destruct (job_row jobID w) as [job|]; [|done]. split; [by left|done]. }
  apply GetByID_ok in E1 as (job & -> & Hrow & _). cbn in E.
  open_bind E as w2 rm E2. frames E2. apply Remove_post in E2. rewrite Q1 in E2.
  assert (∀ i, job_status i w2 = job_status i w) as J2.
  { intros i. rewrite <- J1. by apply job_status_jobs. }
  destruct rm as [u|e].
  2:{ injection E as <- <-. split; [congruence|]. exists jobID, (Err e). rewrite Hrow.
      split; [done|]. split; [done|]. split; [by left|done]. }
  assert ((Job.Status job =? JobStatusQueued) || (Job.Status job =? JobStatusWaitingGpu) =
          bool_decide (cancellable (Job.Status job))) as Hb.
  { unfold cancellable. destruct (Z.eqb_spec (Job.Status job) JobStatusQueued), (Z.eqb_spec (Job.Status job) JobStatusWaitingGpu);
      symmetry; (rewrite bool_decide_eq_true || rewrite bool_decide_eq_false); tauto. }
  assert (job_status jobID w = Some (Job.Status job)) as Hs by (unfold job_status; by rewrite Hrow).
  rewrite Hb in E. destruct (bool_decide_reflect (cancellable (Job.Status job))) as [Hc|Hc].
  - open_bind E as w3 u3 E3. frames E3. injection E as <- <-. split; [congruence|].
    assert (queue_of w3 = queue_of w2) as Q3 by (unfold queue_of; congruence).
    exists jobID, u3. rewrite Hrow. split; [done|]. split; [by destruct u3|]. unfold removed. rewrite Q3.
    assert (∀ i, job_status i w3 = if is_ok u3 && (i =? jobID) then Some JobStatusCancelled else job_status i w) as J3.
    { intros i. apply (UpdateStatus_status _ _ i) in E3. rewrite E3, !J2, Hs.
      by destruct (is_ok u3 && (i =? jobID)). }
    destruct u3 as [u3|e]; cbn in J3.
    + split; [done|]. intros i. rewrite J3, (bool_decide_eq_true_2 _ Hc), andb_true_r. done.
    + split; [by right|done].
  - injection E as <- <-. split; [congruence|]. exists jobID, (Ok tt). rewrite Hrow.
    split; [done|]. split; [done|]. split; [done|]. intros i. by rewrite (bool_decide_eq_false_2 _ Hc), andb_false_r.
Qed.

(** A failed cancellation is answered with the HTTP status 4001, which the
    HTTP library refuses. *)
Lemma cancel_failure_status user idStr w w' x :
  ctrl_CancelJob lib_text user idStr w = (w', respond x) →
  http_status x = 400 ∨ x = SuccessNil ∨ http_status x = 4001 ∧ valid_status (http_status x) = false.
Proof.
  unfold ctrl_CancelJob. intros E. apply with_job_id_inv in E as [(jobID & _ & E)|[_ ?]]; [|by left].
  destruct (GetUserID user) as [u|e] eqn:Hu.
  2:{ destruct user as [[]|]; try done. by injection Hu as <-. }
  open_bind E as w1 r E1. injection E as <- E. destruct r as [y|e]; [by injection E as <-; right; left|].
  destruct e; try (by injection E as <-; right; right). done.
Qed.

(** A running job is neither moved nor overtaken by a request. *)
Lemma reorder_running jobID target w w' r :
  ctrl_ReorderQueue lib_text (Ok (jobID, target)) w = (w', r) →
  job_status jobID w = Some JobStatusRunning ∨ job_status target w = Some JobStatusRunning →
  queue_of w' = queue_of w ∧ jobs_of w' = jobs_of w ∧ r ≠ respond SuccessNil.
Proof.
  unfold ctrl_ReorderQueue. intros E Hrun. destruct (ShouldBind _ _) as [[a b]|e] eqn:Hb.
  2:{ by injection E as <- <-. }
  apply ShouldBind_ok in Hb as [[= <- <-] _]. unfold with_job in E.
  open_bind E as w1 g E1. frames E1. destruct g as [o|e].
  2:{ injection E as <- <-. unfold queue_of. split_and!; [congruence|congruence|by destruct e]. }
  apply GetByID_ok in E1 as (job & -> & Hrow & _).
  destruct (Z.eqb_spec (Job.Status job) JobStatusRunning) as [Hr|Hr].
  { injection E as <- <-. unfold queue_of. split_and!; [congruence|congruence|done]. }
  open_bind E as w2 g2 E2. frames E2. destruct g2 as [o|e].
  2:{ injection E as <- <-. unfold queue_of. split_and!; [congruence|congruence|by destruct e]. }
  apply GetByID_ok in E2 as (job2 & -> & Hrow2 & _).
  assert (job_row target w = Some job2) as Hrow2' by (unfold job_row in *; congruence).
  destruct (Z.eqb_spec (Job.Status job2) JobStatusRunning) as [Hr2|Hr2].
  { injection E as <- <-. unfold queue_of. split_and!; [congruence|congruence|done]. }
  exfalso. unfold job_status in Hrun. rewrite Hrow, Hrow2' in Hrun. cbn in Hrun. destruct Hrun; congruence.
Qed.
End JobCtlProps.

(** ** Concrete requests *)

Definition silent (e : error) : string := "".

Lemma ctrl_RemoveJob_spec_witness :
  job_status 4 (fst (ctrl_RemoveJob silent "4" waiting_world)) = Some JobStatusCancelled ∧
  queue_of (fst (ctrl_RemoveJob silent "4" waiting_world)) = delete "4" (queue_of waiting_world).
Proof.
  destruct (ctrl_RemoveJob_spec silent "4" waiting_world _ _ (surjective_pairing _))
    as [[_ H]|(_ & jobID & res & Ha & Hr & H)]; [vm_compute in H; discriminate|].
  injection Ha as <-. change (job_row 4 waiting_world) with (Some (sched_job 4 JobStatusQueued "1,2")) in H.
  destruct res as [u|e]; [|by destruct e; vm_compute in Hr; discriminate].
  destruct H as [Hq Hj]. split; [by rewrite Hj|exact Hq].
Defined.

(** When the update of the status fails the job is out of the queue and still
    queued in its row, so that no scheduler will ever run it. *)
Definition failing_update_world : World :=
  mkWorld mem_backend (mem_rows [sched_job 4 JobStatusQueued "1,2"] eq_refl [false; true])
    (mem_rows [] eq_refl []) (mem_rows [] eq_refl []) (mem_rows [] eq_refl [])
    (mkMem (queue_view [4]) []) (mkScript 100 [] [] [] [] [] []).
Example ghost_after_remove :
  let w := fst (ctrl_RemoveJob silent "4" failing_update_world) in
  job_status 4 w = Some JobStatusQueued ∧ queue_of w = ∅.
Proof. by vm_compute. Qed.

(** A request for an empty list of cards is accepted, and the scheduler drops
    the job from the queue without ending it. *)
Definition cardless_world : World :=
  mem_world [] [] [] [JobService.demo_user 1 2] (mkRview ∅ ∅ ∅)
    (mkScript 100 [] [Ok false] [] [Ok true] [] [Ok true]) eq_refl eq_refl eq_refl eq_refl.
Definition cardless_body : submit_body := mkSubmitBody "train" "" "/home/u/run.py" "base" (Some []).
Example empty_gpus_lost :
  let w := fst (ctrl_SubmitJob silent (Some (CtxInt 1)) (Ok cardless_body) cardless_world) in
  let w' := sw (fst (processQueue (fst (Start (NewScheduler w))))) in
  client_status (snd (ctrl_SubmitJob silent (Some (CtxInt 1)) (Ok cardless_body) cardless_world)) = 200 ∧
  (∃ id, job_status id w = Some JobStatusQueued ∧ is_Some (queue_of w !! Itoa id) ∧
         job_status id w' = Some JobStatusQueued ∧ queue_of w' = ∅).
Proof. cbv zeta. split; [by vm_compute|]. exists 1.
  split; [by vm_compute|]. split; [vm_compute; by eexists|]. by vm_compute.
Qed.
