(* ===== verification/Concurrent.v ===== *)
(** * Cards under concurrent statements

    [Scheduler.step] runs a handler to its end before the next one starts.  The
    server does not: goroutines of one process and several processes share
    MySQL, and between two statements of a handler the others may run theirs.
    Here the table gpu_cards is shared in this sense: [SharedTable] are the laws
    of a table on which others make steps of a relation [rely] before and after
    every statement, but not within a transaction that locks its rows.  Nothing
    at all is assumed of the other tables, of Redis and of the hosts.  Under
    these laws the program refines an abstract allocator of cards ([card_step]),
    whose steps are also what it relies on: any number of servers fit together. *)

From S2P Require Import Prelude GoStrings Float64 Errors Entity External MemBackend Gpu JobRepo.
From S2P Require Import Queue JobService Scheduler SchedulerSpec Http JobCtl.

Open Scope Z_scope.

(** ** A table that is shared *)

(** What happens to the rows by a statement with the effect [eff], with steps of
    others around it. *)
Definition amid {R} (rely : relation (list R)) (eff : list R → list R → Prop) (l l' : list R) : Prop :=
  ∃ m m', rtc rely l m ∧ eff m m' ∧ rtc rely m' l'.

(** [tx_quiet]: the states inside a transaction, where nobody else writes the
    rows that it has locked. *)
Class SharedTable (S R : Type) `{Table S R} (rely : relation (list R)) (tx_quiet : S → Prop) : Prop := {
  sh_pk s : NoDup (row_id <$> tbl_rows s);
  sh_select p s s' r : tbl_select p s = (s', r) → rtc rely (tbl_rows s) (tbl_rows s');
  sh_page p o n k s s' r : tbl_page p o n k s = (s', r) → rtc rely (tbl_rows s) (tbl_rows s');
  sh_first p s s' r : tbl_first p s = (s', r) → rtc rely (tbl_rows s) (tbl_rows s');
  sh_count p s s' r : tbl_count p s = (s', r) → rtc rely (tbl_rows s) (tbl_rows s');
  sh_update p f s s' r :
    (∀ x, row_id (f x) = row_id x) → tbl_update p f s = (s', r) →
    amid rely (λ m m', m' = if is_ok r then (λ x, if p x then f x else x) <$> m else m)
      (tbl_rows s) (tbl_rows s');
  sh_upsert g l s s' r :
    (∀ x y, row_id (g x y) = row_id x) → tbl_upsert g l s = (s', r) →
    amid rely (λ m m', if is_ok r then
        ∃ upd ins, m' = (upd <$> m) ++ ins ∧ NoDup (row_id <$> m') ∧
          (∀ x, upd x = x ∨ ∃ y, y ∈ l ∧ upd x = g x y) ∧
          (∀ x, x ∈ ins → ∃ y k, y ∈ l ∧ x = row_set_id k y)
      else m' = m) (tbl_rows s) (tbl_rows s');
  sh_tx_ok {A} (c : M S (result A)) s s' a :
    tbl_tx c s = (s', Ok a) →
    ∃ s0 s1, rtc rely (tbl_rows s) (tbl_rows s0) ∧ tx_quiet s0 ∧ c s0 = (s1, Ok a) ∧
      rtc rely (tbl_rows s1) (tbl_rows s');
  sh_tx_err {A} (c : M S (result A)) s s' e :
    tbl_tx c s = (s', Err e) → rtc rely (tbl_rows s) (tbl_rows s');
  sh_quiet_count p s s' r :
    tx_quiet s → tbl_count p s = (s', r) →
    tx_quiet s' ∧ tbl_rows s' = tbl_rows s ∧
    (∀ n, r = Ok n → n = Z.of_nat (length (List.filter p (tbl_rows s))));
  sh_quiet_update p f s s' r :
    (∀ x, row_id (f x) = row_id x) → tx_quiet s → tbl_update p f s = (s', r) →
    tx_quiet s' ∧ tbl_rows s' = if is_ok r then (λ x, if p x then f x else x) <$> tbl_rows s else tbl_rows s
}.

(** ** The allocator of cards *)

(** Take idle cards for one job, all or none; make cards idle; change what is
    known of the hardware and add idle cards. *)
Inductive card_step : relation (list GpuCard) :=
  | cs_acquire ids j rows :
      all_idle ids rows → card_step rows (assign ids GpuStatusBusy (Some j) rows)
  | cs_release ids rows : card_step rows (assign ids GpuStatusIdle None rows)
  | cs_sync (infos : list GpuInfo) upd ins rows :
      NoDup (GpuCard.ID <$> (upd <$> rows) ++ ins) →
      (∀ x, upd x = x ∨ ∃ i, i ∈ infos ∧ upd x = GpuCard.set_hardware x (card_of_info i)) →
      (∀ x, x ∈ ins → ∃ i k, i ∈ infos ∧ x = GpuCard.set_id k (card_of_info i)) →
      card_step rows ((upd <$> rows) ++ ins).

(** The job recorded on a card. *)
Definition holder (i : Z) (rows : list GpuCard) : option Z :=
  match List.find (λ c, GpuCard.ID c =? i) rows with Some c => GpuCard.CurrentJobID c | None => None end.

Lemma card_step_wf rows rows' : card_step rows rows' → Forall card_wf rows → Forall card_wf rows'.
Proof.
  intros [ids j l _|ids l|infos upd ins l _ Hu Hi] HF.
  - apply assign_wf; [right; cbn; eauto|done].
  - apply assign_wf; [by left|done].
  - apply Forall_app. split.
    + apply Forall_fmap. eapply Forall_impl; [exact HF|]. intros c Hc. cbn.
      destruct (Hu c) as [->|(i & _ & ->)]; exact Hc.
    + apply Forall_forall. intros x Hx. destruct (Hi x Hx) as (i & k & _ & ->). by left.
Qed.

Lemma card_steps_wf rows rows' : rtc card_step rows rows' → Forall card_wf rows → Forall card_wf rows'.
Proof. induction 1; eauto using card_step_wf. Qed.

Lemma find_map (f : GpuCard → GpuCard) i rows :
  (∀ c, GpuCard.ID (f c) = GpuCard.ID c) →
  List.find (λ c, GpuCard.ID c =? i) (f <$> rows) = f <$> List.find (λ c, GpuCard.ID c =? i) rows.
Proof.
  intros Hf. induction rows as [|c rows IH]; cbn; [done|]. rewrite Hf. by destruct (_ =? i).
Qed.

Lemma find_none_app (l ins : list GpuCard) i :
  List.find (λ c, GpuCard.ID c =? i) (l ++ ins) =
  match List.find (λ c, GpuCard.ID c =? i) l with Some c => Some c
  | None => List.find (λ c, GpuCard.ID c =? i) ins end.
Proof. induction l as [|c l IH]; cbn; [done|]. by destruct (_ =? i). Qed.

Lemma pk_unique (l : list GpuCard) c c' :
  NoDup (GpuCard.ID <$> l) → c ∈ l → c' ∈ l → GpuCard.ID c = GpuCard.ID c' → c = c'.
Proof.
  intros Hnd [a Ha]%list_elem_of_lookup [b Hb]%list_elem_of_lookup Hid.
  assert (a = b) as ->; [|congruence].
  eapply (NoDup_lookup (GpuCard.ID <$> l) a b (GpuCard.ID c)); [done| |].
  - by rewrite list_lookup_fmap, Ha.
  - by rewrite list_lookup_fmap, Hb, Hid.
Qed.

(** A step never passes a card from one job to another. *)
Lemma card_step_holder i j rows rows' :
  card_step rows rows' → NoDup (GpuCard.ID <$> rows) → Forall card_wf rows →
  holder i rows = Some j → holder i rows' = Some j ∨ holder i rows' = None.
Proof.
  intros [ids k l [_ Hidle]|ids l|infos upd ins l _ Hu Hi] Hnd HF Hh; unfold holder in *.
  - unfold assign. rewrite find_map by (intros c; by destruct (id_in ids _)).
    destruct (List.find _ l) as [c|] eqn:Ec; [|done]. cbn. destruct (id_in ids _) eqn:E; [|by left].
    exfalso. apply id_in_spec in E. destruct (Hidle _ E) as (c' & Hc' & Hid & Hst).
    apply find_some in Ec as [Hin _]. apply list_elem_of_In in Hin.
    apply (pk_unique l c' c) in Hid as ->; [|done..].
    rewrite Forall_forall in HF. destruct (HF c Hin) as [[_ Hn]|[Hb _]]; [congruence|].
    rewrite Hst in Hb. done.
  - unfold assign. rewrite find_map by (intros c; by destruct (id_in ids _)).
    destruct (List.find _ l) as [c|]; [|done]. cbn. destruct (id_in ids _); [by right|by left].
  - rewrite find_none_app, find_map.
    + destruct (List.find _ l) as [c|]; [|done]. cbn. left.
      destruct (Hu c) as [->|(x & _ & ->)]; done.
    + intros c. destruct (Hu c) as [->|(x & _ & ->)]; done.
Qed.

Lemma assign_ids ids st j rows : GpuCard.ID <$> assign ids st j rows = GpuCard.ID <$> rows.
Proof.
  unfold assign. rewrite <- list_fmap_compose. apply list_fmap_ext. intros ? c _. cbn. by destruct (id_in _ _).
Qed.

Lemma card_step_pk rows rows' :
  card_step rows rows' → NoDup (GpuCard.ID <$> rows) → NoDup (GpuCard.ID <$> rows').
Proof. intros [ids j l _|ids l|infos upd ins l Hn _ _] Hnd; rewrite ?assign_ids; done. Qed.

(** A card that changes hands was idle in between. *)
Lemma card_steps_handover i j k rows rows' :
  rtc card_step rows rows' → NoDup (GpuCard.ID <$> rows) → Forall card_wf rows →
  holder i rows = Some j → holder i rows' = Some k → j ≠ k →
  ∃ mid, rtc card_step rows mid ∧ rtc card_step mid rows' ∧ holder i mid = None.
Proof.
  induction 1 as [l|l l1 l' Hst Hr IH]; intros Hnd HF Hj Hk Hne; [congruence|].
  destruct (card_step_holder i j _ _ Hst Hnd HF Hj) as [H1|H1].
  - destruct IH as (mid & ? & ? & ?); eauto using card_step_pk, card_step_wf.
    exists mid. split_and!; [by eapply rtc_l|done..].
  - exists l1. split_and!; [by apply rtc_once|done..].
Qed.

(** ** The program on a shared table *)

Section Shared.
Context `{B : Backend} {quiet : TG → Prop} {SG : SharedTable TG GpuCard card_step quiet}.

(** The steps of the allocator between two states of the services. *)
Definition card_path (w w' : World) : Prop := rtc card_step (gpus_of w) (gpus_of w').
#[export] Instance card_path_preorder : PreOrder card_path.
Proof. split; unfold card_path; [by intros w|]. intros w1 w2 w3 H1 H2. by etrans. Qed.

Lemma path_keeps {A} (c : M World A) : keeps gpus_of c → respects card_path c.
Proof. intros Hk w w' a H. unfold card_path. by rewrite (Hk _ _ _ H). Qed.

Lemma path_on_gpus {A} (c : M TG A) :
  (∀ s s' a, c s = (s', a) → rtc card_step (tbl_rows s) (tbl_rows s')) → respects card_path (on_gpus c).
Proof. intros Hc w w' a H. w_inv. unfold card_path, gpus_of. cbn. by eapply Hc. Qed.

Lemma amid_path (eff : list GpuCard → list GpuCard → Prop) l l' :
  amid card_step eff l l' → (∀ m m', eff m m' → rtc card_step m m') → rtc card_step l l'.
Proof. intros (m & m' & H1 & H2 & H3) He. etrans; [exact H1|]. etrans; [by apply He|done]. Qed.

Lemma path_Acquire ids j : respects card_path (Acquire ids j).
Proof.
  unfold Acquire. destruct ids as [|i0 ids0]; [apply respects_ret; apply _|].
  set (ids := i0 :: ids0). clearbody ids. apply path_on_gpus. intros s s' [[]|e] H; [|by eapply sh_tx_err].
  apply sh_tx_ok in H as (s0 & s1 & H1 & Hq & Hc & H2). etrans; [exact H1|]. etrans; [|exact H2].
  clear H1 H2. w_inv. apply sh_quiet_count in E as (Hq1 & Hv & Hn); [|done].
  destruct (Z.eqb_spec a (Z.of_nat (length ids))) as [Heq|]; cbn in Hc; [|by w_inv].
  w_inv. apply sh_quiet_update in E as [_ E]; [|done|done]. cbn in E. rewrite E, Hv.
  apply rtc_once, cs_acquire, idle_count; [exact (sh_pk s0)|].
  specialize (Hn _ eq_refl). lia.
Qed.

Lemma path_Release ids : respects card_path (Release ids).
Proof.
  unfold Release. destruct ids as [|i0 ids0]; [apply respects_ret; apply _|].
  set (ids := i0 :: ids0). clearbody ids. apply path_on_gpus. intros s s' r H.
  apply sh_update in H; [|done]. eapply amid_path; [exact H|]. intros m m' ->. cbn.
  destruct (is_ok r); [|done]. apply rtc_once. exact (cs_release ids m).
Qed.

Lemma path_SyncCards infos : respects card_path (SyncCards (card_of_info <$> infos)).
Proof.
  unfold SyncCards. destruct infos as [|i0 infos0]; [apply respects_ret; apply _|].
  change (respects card_path (on_gpus (tbl_upsert GpuCard.set_hardware (card_of_info <$> (i0 :: infos0))))).
  set (infos := i0 :: infos0). clearbody infos. apply path_on_gpus. intros s s' r H.
  apply sh_upsert in H; [|done]. eapply amid_path; [exact H|]. intros m m'. cbn.
  destruct (is_ok r); [|by intros ->]. intros (upd & ins & -> & Hnd & Hu & Hi).
  apply rtc_once, (cs_sync infos); [done| |].
  - intros x. destruct (Hu x) as [?|(y & (i & -> & Hy)%list_elem_of_fmap & Heq)]; [by left|right; eauto].
  - intros x Hx. destruct (Hi x Hx) as (y & k & (i & -> & Hy)%list_elem_of_fmap & ->). eauto.
Qed.

Lemma path_first p : respects card_path (on_gpus (tbl_first p)).
Proof. apply path_on_gpus. intros s s' a. apply sh_first. Qed.
Lemma path_select p : respects card_path (on_gpus (tbl_select p)).
Proof. apply path_on_gpus. intros s s' a. apply sh_select. Qed.
Lemma path_count p : respects card_path (on_gpus (tbl_count p)).
Proof. apply path_on_gpus. intros s s' a. apply sh_count. Qed.

Hint Resolve path_Acquire path_Release path_SyncCards path_first path_select path_count : respects.
Hint Extern 3 (respects card_path _) => (apply path_keeps; solve [solve_keeps]) : respects.

Lemma path_AcquireCards ids j : respects card_path (AcquireCards ids j).
Proof. unfold AcquireCards. solve_respects. Qed.
Lemma path_ReleaseCards ids : respects card_path (ReleaseCards ids).
Proof. unfold ReleaseCards. solve_respects. Qed.
Lemma path_SyncGpuCards out : respects card_path (SyncGpuCards out).
Proof. unfold SyncGpuCards, FindByUUID. solve_respects. Qed.
Lemma path_CheckAvailable ids : respects card_path (CheckAvailable ids).
Proof.
  unfold CheckAvailable, repo_CheckAvailable.
  assert (respects card_path (cache_CheckAvailable ids))
    by (apply path_keeps; unfold cache_CheckAvailable; solve_keeps).
  solve_respects.
Qed.
Lemma path_GetGpuCardsByIDs ids : respects card_path (GetGpuCardsByIDs ids).
Proof. unfold GetGpuCardsByIDs, GetByIDs. solve_respects. Qed.

(** ** Handlers *)

Definition sched_path (s s' : Sched) : Prop := card_path (sw s) (sw s').
#[local] Instance sched_path_preorder : PreOrder sched_path.
Proof. split; unfold sched_path; [by intros s|]. intros s1 s2 s3 H1 H2. by etrans. Qed.

Lemma path_on_world {A} (c : M World A) : respects card_path c → respects sched_path (on_world c).
Proof. intros Hc s s' a [H _]%on_world_inv. by eapply Hc. Qed.
Lemma path_modify f : (∀ s, sw (f s) = sw s) → respects sched_path (modify f).
Proof. intros Hf s s' u [= <- _]. unfold sched_path. by rewrite Hf. Qed.
Lemma path_sched_keeps {A} (c : M Sched A) : keeps s_gpus c → respects sched_path c.
Proof. intros Hk s s' a H. unfold sched_path, card_path. fold (s_gpus s) (s_gpus s'). by rewrite (Hk _ _ _ H). Qed.

Hint Resolve path_AcquireCards path_ReleaseCards path_CheckAvailable path_GetGpuCardsByIDs : respects.
Hint Extern 1 (respects sched_path (on_world _)) => (apply path_on_world; solve [eauto with respects]) : respects.
Hint Extern 2 (respects sched_path (modify _)) => (by apply path_modify) : respects.
Hint Extern 3 (respects sched_path _) => (apply path_sched_keeps; solve [solve_keeps]) : respects.

Lemma path_abort_start i ids : respects sched_path (abort_start i ids).
Proof. unfold abort_start. solve_respects. Qed.
Lemma path_record_start jp : respects sched_path (record_start jp).
Proof. unfold record_start. solve_respects. Qed.
Lemma path_handleMissingProcess job p : respects sched_path (handleMissingProcess job p).
Proof. unfold handleMissingProcess. solve_respects. Qed.
Hint Resolve path_abort_start path_record_start path_handleMissingProcess : respects.

Lemma path_process_head : respects sched_path process_head.
Proof. unfold process_head, executeJob, launch. solve_respects. Qed.
Lemma path_processQueue : respects sched_path processQueue.
Proof. pose proof path_process_head. unfold processQueue. solve_respects. Qed.
Lemma path_recover : respects sched_path recoverRunningJobs.
Proof. unfold recoverRunningJobs, recover_job, recover_process. solve_respects. Qed.
Lemma path_Start : respects sched_path Start.
Proof. pose proof path_recover. unfold Start. solve_respects. Qed.
Lemma path_Stop : respects sched_path Stop.
Proof. unfold Stop. solve_respects. Qed.
Lemma path_audit : respects sched_path auditRunningJobs.
Proof. unfold auditRunningJobs, audit_job, audit_process. solve_respects. Qed.
Lemma path_monitor_exit jp : respects sched_path (monitor_exit jp).
Proof. unfold monitor_exit. solve_respects. Qed.
Lemma path_monitor_tick jp n : respects sched_path (monitor_tick jp n).
Proof. pose proof (path_monitor_exit jp). unfold monitor_tick, monitor_check. solve_respects. Qed.

(** What the clients and the administrators ask for. *)
Lemma path_client w w' : client w w' → card_path w w'.
Proof.
  intros [req u r H|j u r H|j b r H|out r H]; revert H.
  - apply path_keeps. unfold SubmitJob, create_and_enqueue, user_FindByID, job_Create, job_Delete, Enqueue, NextSeq, repo_Add.
    solve_keeps.
  - apply path_keeps. unfold CancelJob, GetByID, UpdateStatus, Remove, repo_Remove. solve_keeps.
  - apply path_keeps. unfold MoveBefore, move_finish, place_before, fixJobStatusIfMovedFromHead, Rank, Score, RangeWithScores,
      UpdateSug, repo_Add, repo_Peek, GetByID, UpdateStatus. solve_keeps.
  - apply path_SyncGpuCards.
Qed.
Lemma path_RemoveJob lib_text id : respects card_path (ctrl_RemoveJob lib_text id).
Proof. apply path_keeps. unfold ctrl_RemoveJob, with_job_id, GetByID, UpdateStatus, Remove, repo_Remove. solve_keeps. Qed.

(** One server: the steps of [Scheduler.step] and the removal of a job by an
    administrator.  The other servers are in the laws of the table. *)
Inductive server_step (lib_text : error → string) (s s' : Sched) : Prop :=
  | sv_step : step s s' → server_step lib_text s s'
  | sv_remove id w r : ctrl_RemoveJob lib_text id (sw s) = (w, r) → s' = put_sw w s → server_step lib_text s s'.

Lemma server_step_path lib_text s s' : server_step lib_text s s' → sched_path s s'.
Proof.
  intros [Hst|id w r H ->].
  2:{ by apply path_RemoveJob in H. }
  destruct Hst as [s s1 u _ H|s s1 u _ H|s s1 u H|s s1 u H|s s1 k jp n o _ _ H|s s1 k jp n u _ _ H|s w' H|s|s x].
  - by eapply path_processQueue.
  - by eapply path_audit.
  - by eapply path_Start.
  - by eapply path_Stop.
  - exact (path_monitor_tick _ _ _ _ _ H).
  - exact (path_monitor_exit _ _ _ _ H).
  - exact (path_client _ _ H).
  - exact (rtc_refl _ (s_gpus s)).
  - exact (rtc_refl _ (s_gpus s)).
Qed.

Lemma server_steps_path lib_text s s' : rtc (server_step lib_text) s s' → sched_path s s'.
Proof. induction 1; [reflexivity|]. etrans; [by eapply server_step_path|done]. Qed.

(** C2: Any number of servers and goroutines on one table of cards, interleaved
    at every single statement, with arbitrary failures and an arbitrary rest of
    the world: all that ever happens to the rows is that a job takes a set of
    idle cards as a whole, cards are made idle, or the hardware is updated; so a
    card is busy exactly when a job is recorded on it, and a card that changes
    from one job to another was idle in between. *)
Theorem cards_refine_allocator lib_text s s' :
  Forall card_wf (s_gpus s) → rtc (server_step lib_text) s s' →
  rtc card_step (s_gpus s) (s_gpus s') ∧ Forall card_wf (s_gpus s') ∧
  ∀ i j k, holder i (s_gpus s) = Some j → holder i (s_gpus s') = Some k → j ≠ k →
    ∃ mid, rtc card_step (s_gpus s) mid ∧ rtc card_step mid (s_gpus s') ∧ holder i mid = None.
Proof.
  intros HF H%server_steps_path. split; [exact H|]. split; [by eapply card_steps_wf|].
  intros i j k. apply card_steps_handover; [exact H|exact (sh_pk (w_gpus (sw s)))|done].
Qed.
End Shared.

(** ** Shared tables exist *)

(** A table with the laws of [External] is one that nobody else writes. *)
#[export] Instance lawful_shared {S R} `{TableLaws S R} (rely : relation (list R)) :
  SharedTable S R rely (λ _, True).
Proof.
  split.
  - intros s. apply tbl_pk.
  - intros p s s' r E. by rewrite (tbl_select_view _ _ _ _ E).
  - intros p o n k s s' r E. by rewrite (tbl_page_view _ _ _ _ _ _ _ E).
  - intros p s s' r E. by rewrite (tbl_first_view _ _ _ _ E).
  - intros p s s' r E. by rewrite (tbl_count_view _ _ _ _ E).
  - intros p f s s' r Hf E. apply tbl_update_spec in E; [|done]. by exists (tbl_rows s), (tbl_rows s').
  - intros g l s s' r Hg E. exists (tbl_rows s), (tbl_rows s'). split; [done|]. split; [|done].
    destruct r as [[]|e]; cbn; [|by eapply tbl_upsert_err].
    destruct (tbl_upsert_ok _ _ _ _ Hg E) as (upd & ins & Hr & ? & ?). exists upd, ins.
    split; [done|]. split; [|done]. apply tbl_pk.
  - intros A c s s' a (s0 & s1 & <- & ? & ->)%tbl_tx_ok. by exists s0, s1.
  - intros A c s s' e E. by rewrite (tbl_tx_err _ _ _ _ E).
  - intros p s s' r _ E. split; [done|]. split; [by eapply tbl_count_view|]. intros n ->. by eapply tbl_count_ok.
  - intros p f s s' r Hf _ E. split; [done|]. by apply tbl_update_spec in E.
Qed.

Section Interfered.
Context {S R : Type} `{TL : TableLaws S R} (rely : relation (list R)).

(** What the others do before a statement of ours; the statements of a
    transaction follow each other. *)
Definition foreign : Type := { f : S → S | ∀ s, rtc rely (tbl_rows s) (tbl_rows (f s)) }.
Record shared : Type := mkShared { sh_base : S; sh_plan : list foreign }.

Definition interfere (s : shared) : shared :=
  match sh_plan s with [] => s | f :: fs => mkShared (proj1_sig f (sh_base s)) fs end.
Definition after_others {A} (c : M S A) : M shared A := λ s,
  let s1 := interfere s in let '(b, r) := c (sh_base s1) in (mkShared b (sh_plan s1), r).
Definition alone {A} (c : M shared A) : M S A := λ b,
  let '(s, r) := c (mkShared b []) in (sh_base s, r).

#[export] Instance shared_table : Table shared R := {
  tbl_rows s := tbl_rows (sh_base s);
  tbl_select p := after_others (tbl_select p);
  tbl_page p o n k := after_others (tbl_page p o n k);
  tbl_first p := after_others (tbl_first p);
  tbl_count p := after_others (tbl_count p);
  tbl_update p f := after_others (tbl_update p f);
  tbl_create x := after_others (tbl_create x);
  tbl_save x := after_others (tbl_save x);
  tbl_delete p := after_others (tbl_delete p);
  tbl_upsert g l := after_others (tbl_upsert g l);
  tbl_tx A c := after_others (tbl_tx (alone c))
}.

Lemma interfere_rely s : rtc rely (tbl_rows s) (tbl_rows (interfere s)).
Proof. unfold interfere. destruct (sh_plan s) as [|[f Hf] fs]; [done|]. apply Hf. Qed.

Lemma after_others_inv {A} (c : M S A) s s' r :
  after_others c s = (s', r) → ∃ b, c (sh_base (interfere s)) = (b, r) ∧ tbl_rows s' = tbl_rows b.
Proof. unfold after_others. destruct (c _) as [b x]. intros [= <- <-]. by exists b. Qed.

Lemma after_others_read {A} (c : M S A) s s' r :
  keeps tbl_rows c → after_others c s = (s', r) → rtc rely (tbl_rows s) (tbl_rows s').
Proof. intros Hk (b & E & ->)%after_others_inv. rewrite (Hk _ _ _ E). apply interfere_rely. Qed.

Lemma quiet_others {A} (c : M S A) s s' r :
  sh_plan s = [] → after_others c s = (s', r) → sh_plan s' = [] ∧ c (sh_base s) = (sh_base s', r).
Proof.
  destruct s as [b0 pl]. unfold after_others, interfere. cbn. intros ->. cbn. destruct (c b0) as [b x].
  by intros [= <- <-].
Qed.

#[export] Instance shared_laws : SharedTable shared R rely (λ s, sh_plan s = []).
Proof.
  split.
  - intros s. apply (tbl_pk (sh_base s)).
  - intros p s s' r. apply after_others_read, keeps_tbl_select.
  - intros p o n k s s' r. apply after_others_read, keeps_tbl_page.
  - intros p s s' r. apply after_others_read, keeps_tbl_first.
  - intros p s s' r. apply after_others_read, keeps_tbl_count.
  - intros p f s s' r Hf (b & E & ->)%after_others_inv. apply tbl_update_spec in E; [|done].
    eexists _, _. split; [apply interfere_rely|]. by split.
  - intros g l s s' r Hg (b & E & ->)%after_others_inv.
    eexists _, _. split; [apply interfere_rely|]. split; [|done].
    destruct r as [[]|e]; cbn; [|by eapply tbl_upsert_err].
    destruct (tbl_upsert_ok _ _ _ _ Hg E) as (upd & ins & Hr & ? & ?). exists upd, ins.
    split; [done|]. split; [|done]. apply tbl_pk.
  - intros A c s s' a (b & E & Hb)%after_others_inv. apply tbl_tx_ok in E as (b0 & b1 & Hb0 & Hc & Hb1).
    unfold alone in Hc. destruct (c (mkShared b0 [])) as [s1 x] eqn:E1. injection Hc as <- ->.
    exists (mkShared b0 []), s1. split_and!; [|done..|].
    + change (rtc rely (tbl_rows s) (tbl_rows b0)). rewrite Hb0. apply interfere_rely.
    + by rewrite Hb, Hb1.
  - intros A c s s' e (b & E & ->)%after_others_inv. rewrite (tbl_tx_err _ _ _ _ E). apply interfere_rely.
  - intros p s s' r Hq E. apply quiet_others in E as [? E]; [|done]. split; [done|].
    split; [exact (tbl_count_view _ _ _ _ E)|]. intros n ->. exact (tbl_count_ok _ _ _ _ E).
  - intros p f s s' r Hf Hq E. apply quiet_others in E as [? E]; [|done]. split; [done|].
    by apply tbl_update_spec in E.
Qed.
End Interfered.

(** ** Concrete interleavings *)

(** The services of [MemBackend] with the table of cards shared. *)
Definition shared_backend `{B : Backend} {BL : BackendLaws B} : Backend := {|
  TJ := TJ; TG := shared (S := TG) card_step; TP := TP; TU := TU; TR := TR; TE := TE; db_like := db_like
|}.

Definition card_foreign : Type := foreign (S := @TG mem_backend) (R := GpuCard) card_step.

(** What another server does to the cards, its other services in [w0]. *)
Definition others_run {A} (c : M (@World mem_backend) A) (Hc : respects (card_path (B := mem_backend)) c)
  (w0 : @World mem_backend) : card_foreign :=
  exist (λ f : @TG mem_backend → @TG mem_backend, ∀ s, rtc card_step (tbl_rows s) (tbl_rows (f s)))
    (λ g, w_gpus (fst (c (put_gpus g w0)))) (λ g, Hc (put_gpus g w0) _ _ (surjective_pairing _)).
(** A statement with nothing in front of it. *)
Definition nobody : card_foreign :=
  exist (λ f : @TG mem_backend → @TG mem_backend, ∀ s, rtc card_step (tbl_rows s) (tbl_rows (f s)))
    id (λ s, rtc_refl _ _).

Definition share (plan : list card_foreign) (w : @World mem_backend)
  : @World (shared_backend (B := mem_backend)) :=
  mkWorld (shared_backend (B := mem_backend)) (w_jobs w) (mkShared card_step (w_gpus w) plan) (w_procs w)
    (w_users w) (w_redis w) (w_env w).

(** Another server takes card 2 for job 8. *)
Definition take2 : card_foreign :=
  others_run (AcquireCards [2] 8) (path_AcquireCards (B := mem_backend) [2] 8) waiting_world.
(** Cards 1 and 2 are idle when the round looks, and card 2 is gone when it
    takes them. *)
Definition race_s0 : @Sched (shared_backend (B := mem_backend)) :=
  set_running (NewScheduler (share [nobody; take2] waiting_world)).
Definition race_s1 : @Sched (shared_backend (B := mem_backend)) := fst (processQueue race_s0).

Lemma race_step : rtc (server_step (λ _, "")) race_s0 race_s1.
Proof. apply rtc_once, sv_step. exact (step_tick race_s0 race_s1 _ eq_refl (surjective_pairing _)). Qed.

Lemma race_wf : Forall card_wf (s_gpus race_s0).
Proof.
  change (Forall card_wf [demo_card 1 0 None; demo_card 2 0 None; demo_card 3 1 (Some 9)]).
  rewrite !Forall_cons. split_and!; [by left|by left| |by constructor].
  right. split; [done|by eexists].
Qed.

Lemma cards_refine_allocator_witness :
  rtc card_step (s_gpus race_s0) (s_gpus race_s1) ∧
  (GpuCard.CurrentJobID <$> s_gpus race_s1) = [None; Some 8; Some 9].
Proof.
  split; [|vm_compute; reflexivity].
  exact (proj1 (cards_refine_allocator (B := shared_backend (B := mem_backend)) (λ _, ""%string) race_s0 race_s1
    race_wf race_step)).
Defined.

(** A start that does not get its cards leaves the status of the job as it is,
    and the round takes the job out of the queue: it waits for ever. *)
Theorem lost_race_loses_job :
  job_status 4 (sw race_s1) = Some JobStatusQueued ∧ s_queue race_s1 = ∅.
Proof. vm_compute. split; reflexivity. Qed.

(** The audit finds the process of job 7 gone after its monitor has taken it out
    of the table of processes, frees card 1, and the next round gives it to job
    8, all before the monitor of job 7 frees its cards. *)
Definition audit_and_start : M (@World mem_backend) (result unit) :=
  _ ← ReleaseCards [1]; AcquireCards [1] 8.
Lemma audit_and_start_path : respects (card_path (B := mem_backend)) audit_and_start.
Proof.
  apply respects_bind; [apply _|apply path_ReleaseCards|]. intros _. apply path_AcquireCards.
Qed.
Definition late_s0 : @Sched (shared_backend (B := mem_backend)) :=
  NewScheduler (share [others_run audit_and_start audit_and_start_path waiting_world] one_card_world).

(** [Release] does not look who holds the cards: the monitor of job 7 frees the
    card of the running job 8, and the next job is started on it too. *)
Theorem late_release_frees_other :
  (GpuCard.CurrentJobID <$> s_gpus late_s0) = [Some 7] ∧
  (GpuCard.CurrentJobID <$> tbl_rows (interfere card_step (w_gpus (sw late_s0)))) = [Some 8] ∧
  (GpuCard.Status <$> s_gpus (fst (monitor_exit jp7' late_s0))) = [GpuStatusIdle].
Proof. vm_compute. split_and!; reflexivity. Qed.
