(* ===== verification/SshClient.v ===== *)
(** * The SSH and SFTP client (pkg/server/client.go)

    The client on top of golang.org/x/crypto/ssh and github.com/pkg/sftp, which
    are the operations of [SshLib].  [SshLaws] says what the libraries promise
    through a ghost view: the handles they gave out that were not given back,
    and the log of the dials, pauses and terminal requests. *)

From S2P Require Import Prelude GoStrings Float64 Errors Entity External SshSessions GoPath Shell FileService.

Open Scope Z_scope.

(** ** The libraries *)

(** What the libraries hand out, to be closed by the client. *)
Inductive handle : Type :=
  | HConn (p : positive) | HSftp (p : positive) | HSession (p : positive)
  | HLocal (p : positive) | HRemote (p : positive).
#[export] Instance handle_eq_dec : EqDecision handle.
Proof. solve_decision. Defined.
#[export] Instance handle_countable : Countable handle.
Proof.
  refine (inj_countable'
    (λ h, match h with HConn p => (0%nat, p) | HSftp p => (1%nat, p) | HSession p => (2%nat, p)
                     | HLocal p => (3%nat, p) | HRemote p => (4%nat, p) end)
    (λ x, match x with (0%nat, p) => HConn p | (1%nat, p) => HSftp p | (2%nat, p) => HSession p
                     | (3%nat, p) => HLocal p | (_, p) => HRemote p end) _).
  by intros [].
Defined.

Inductive AuthMethod : Type := PublicKeys (signer : positive) | PasswordAuth (password : string).
Module ClientConfig.
(** The host key is not checked ([InsecureIgnoreHostKey]) and five host key
    algorithms are accepted. *)
Record ClientConfig : Type := mkClientConfig {
  User : string; Auth : list AuthMethod; HostKeyAlgorithms : list string; Timeout : Z
}.
End ClientConfig.
Notation ClientConfig := ClientConfig.ClientConfig.

(** A call of [session.Run] or [ssh.Dial] fails with an error; [exit]: the
    status of an [*ssh.ExitError]. *)
Record run_error : Type := mkRunError { re_err : error; re_exit : option Z }.

Class SshLib (H : Type) : Type := {
  sl_ReadFile : string → M H (result string);
  (** The second argument is the passphrase; a nil signer is [None]. *)
  sl_ParsePrivateKey : string → option string → result (option positive);
  sl_Dial : string → ClientConfig → M H (result positive);
  sl_Sleep : Z → M H unit;
  (** The argument is the pointer to the SSH client. *)
  sl_NewSftp : option positive → M H (result positive);
  sl_close : handle → M H (result unit);
  sl_NewSession : positive → M H (result positive);
  (** Standard output, standard error and the error. *)
  sl_Run : positive → string → M H (string * string * option run_error);
  (** Terminal type, height and width. *)
  sl_RequestPty : positive → string → Z → Z → M H (result unit);
  sl_StdinPipe : positive → M H (result positive);
  sl_Shell : positive → M H (result unit);
  sl_WindowChange : positive → Z → Z → M H (result unit);
  sl_OpenLocal : string → M H (result positive);
  sl_MkdirAll : positive → string → M H (result unit);
  sl_Create : positive → string → M H (result positive);
  (** [io.Copy(dst, src)] *)
  sl_Copy : positive → positive → M H (result unit)
}.

(** ** The client *)

Module Client.
Record Client : Type := mkClient {
  sshClient : option positive; sftpClient : option positive; config : DialConfig
}.
End Client.
Notation Client := Client.Client.
Record TerminalSession : Type := mkTerminalSession { ts_Session : option positive; ts_Stdin : positive }.

(** The default of [config.Timeout], written into the caller's record. *)
Definition set_default_timeout (c : DialConfig) : DialConfig :=
  if DialConfig.Timeout c =? 0
  then DialConfig.mkDialConfig (DialConfig.Host c) (DialConfig.Username c) (DialConfig.Password c) (30 * second)
         (DialConfig.PrivateKeyPath c) (DialConfig.PrivateKeyPassphrase c)
  else c.

(** [fmt.Errorf("...: %w", err)] of a nil error. *)
Definition wrap_nil (msg : string) : error := ErrMsg (msg +:+ ": %!w(<nil>)").
Definition nil_client : error := ErrPanic "nil pointer dereference".

Section SshClient.
Context {H : Type} `{L : SshLib H}.
(** The text of a library's error. *)
Variable lib_text : error → string.
Notation text := (err_Error lib_text).

(** The key's authentication method, if a key is configured. *)
Definition key_auth (c : DialConfig) : M H (result (list AuthMethod)) :=
  if String.eqb (DialConfig.PrivateKeyPath c) "" then mret (Ok [])
  else
    k ← sl_ReadFile (DialConfig.PrivateKeyPath c);
    match k with
    | Err e => mret (Err (ErrWrap "读取私钥文件失败" e))
    | Ok key =>
        let key := TrimSpace key in
        let with_signer (s : option positive) :=
          match s with Some signer => [PublicKeys signer] | None => [] end in
        if negb (String.eqb (DialConfig.PrivateKeyPassphrase c) "")
        then mret (match sl_ParsePrivateKey key (Some (DialConfig.PrivateKeyPassphrase c)) with
                   | Err e => Err (ErrWrap "解析带密码的私钥失败" e)
                   | Ok s => Ok (with_signer s)
                   end)
        else mret (match sl_ParsePrivateKey key None with
                   | Err e => Err (ErrWrap "解析私钥失败" e)
                   | Ok s => Ok (with_signer s)
                   end)
    end.
Definition password_auth (c : DialConfig) : list AuthMethod :=
  if negb (String.eqb (DialConfig.Password c) "") then [PasswordAuth (DialConfig.Password c)] else [].

Definition host_key_algorithms : list string :=
  ["ssh-rsa"; "ecdsa-sha2-nistp256"; "ecdsa-sha2-nistp384"; "ecdsa-sha2-nistp521"; "ssh-ed25519"].
Definition ssh_config (c : DialConfig) (auth : list AuthMethod) : ClientConfig :=
  ClientConfig.mkClientConfig (DialConfig.Username c) auth host_key_algorithms (DialConfig.Timeout c).

Definition maxRetries : nat := 3.
Definition transient (e : error) : bool :=
  Contains (text e) "handshake failed" || Contains (text e) "timeout" ||
  Contains (text e) "connection refused" || Contains (text e) "reset by peer" ||
  Contains (text e) "wsarecv".

(** The loop from its iteration [i] with [n] left; a loop that runs out leaves
    [sshClient] nil. *)
Fixpoint dial_loop (host : string) (cc : ClientConfig) (n : nat) (i : Z) : M H (result (option positive)) :=
  match n with
  | O => mret (Ok None)
  | Datatypes.S n =>
      d ← sl_Dial host cc;
      match d with
      | Ok c => mret (Ok (Some c))
      | Err e =>
          if (i <? Z.of_nat maxRetries - 1) && transient e
          then _ ← sl_Sleep ((i + 1) * second); dial_loop host cc n (i + 1)
          else mret (Err (ErrWrap "SSH连接失败" e))
      end
  end.

(** When closing fails too, its error replaces that of the SFTP client. *)
Definition dialAndCreateClient (config : DialConfig) (cc : ClientConfig) : M H (result Client) :=
  d ← dial_loop (DialConfig.Host config) cc maxRetries 0;
  match d with
  | Err e => mret (Err e)
  | Ok sshClient =>
      f ← sl_NewSftp sshClient;
      match f with
      | Ok sftpClient => mret (Ok (Client.mkClient sshClient (Some sftpClient) config))
      | Err err =>
          match sshClient with
          | Some c =>
              x ← sl_close (HConn c);
              mret (match x with
                    | Err e => Err (ErrMsg ("sshClient关闭的时候报错" +:+ text e))
                    | Ok _ => Err (ErrWrap "SFTP连接失败" err)
                    end)
          | None => mret (Err (ErrMsg ("SFTP连接失败，因为sshclient为nil" +:+ text err)))
          end
      end
  end.

Definition NewClient (config : DialConfig) : M H (result Client) :=
  let config := set_default_timeout config in
  k ← key_auth config;
  match k with
  | Err e => mret (Err e)
  | Ok keys =>
      match keys ++ password_auth config with
      | [] => mret (Err (ErrMsg "未配置任何有效的认证方式 (私钥解析失败且无密码)"))
      | auth => dialAndCreateClient config (ssh_config config auth)
      end
  end.

(** Errors of closing are dropped. *)
Definition close_if (h : option handle) : M H unit :=
  match h with Some h => _ ← sl_close h; mret tt | None => mret tt end.
Definition Close (c : Client) : M H (result unit) :=
  _ ← close_if (HSftp <$> Client.sftpClient c);
  _ ← close_if (HConn <$> Client.sshClient c);
  mret (Ok tt).
Definition GetSFTPClient (c : Client) : option positive := Client.sftpClient c.
Definition GetSSHClient (c : Client) : option positive := Client.sshClient c.

Definition MkdirAll (c : Client) (path : string) : M H (result unit) :=
  match Client.sftpClient c with
  | None => mret (Err nil_client)
  | Some f => sl_MkdirAll f path
  end.

(** The deferred closes run in reverse order. *)
Definition UploadFile (c : Client) (localPath remotePath : string) : M H (result unit) :=
  o ← sl_OpenLocal localPath;
  match o with
  | Err e => mret (Err (ErrWrap "打开本地文件失败" e))
  | Ok src =>
      r ← (m ← MkdirAll c (Dir remotePath);
           match m, Client.sftpClient c with
           | Err (ErrPanic w), _ => mret (Err (ErrPanic w))
           | Err e, _ => mret (Err (ErrWrap "创建远程目录失败" e))
           | Ok _, None => mret (Err nil_client)
           | Ok _, Some f =>
               d ← sl_Create f remotePath;
               match d with
               | Err e => mret (Err (ErrWrap "创建远程文件失败" e))
               | Ok dst =>
                   x ← sl_Copy dst src;
                   _ ← sl_close (HRemote dst);
                   mret (match x with Err e => Err (ErrWrap "上传文件失败" e) | Ok _ => Ok tt end)
               end
           end);
      _ ← sl_close (HLocal src);
      mret r
  end.

(** Output, exit status and error. *)
Definition exit_code (err : option run_error) : Z :=
  match err with
  | None => 0
  | Some e => match re_exit e with Some n => n | None => -1 end
  end.
Definition ExecuteCommandWithStatus (c : Client) (cmd : string) : M H (string * Z * option error) :=
  match Client.sshClient c with
  | None => mret (""%string, -1, Some nil_client)
  | Some conn =>
      n ← sl_NewSession conn;
      match n with
      | Err e => mret (""%string, -1, Some e)
      | Ok session =>
          x ← sl_Run session cmd;
          _ ← sl_close (HSession session);
          let '(output, _, err) := x in
          mret (output, exit_code err, re_err <$> err)
      end
  end.

Definition command_error (cmd output : string) (e : error) : error :=
  NewWithErr CodeSSHCommandExecutionFailed ("执行SSH命令失败: " +:+ cmd +:+ ", 输出: " +:+ output) e.
Definition ExecuteCommand (c : Client) (cmd : string) : M H (string * option error) :=
  x ← ExecuteCommandWithStatus c cmd;
  let '(output, _, err) := x in
  mret (output, match err with
                | Some (ErrPanic w) => Some (ErrPanic w)
                | Some e => Some (command_error cmd output e)
                | None => None
                end).

(** A step of the set-up failed: the session is closed.  The inner [err]
    shadows the error of the step. *)
Definition abandon_session (session : positive) (msg : string) : M H (result TerminalSession) :=
  x ← sl_close (HSession session);
  mret (Err (match x with Err e => ErrWrap "session关闭失败" e | Ok _ => wrap_nil msg end)).
Definition NewTerminalSession (c : Client) (cols rows : Z) : M H (result TerminalSession) :=
  match Client.sshClient c with
  | None => mret (Err nil_client)
  | Some conn =>
      n ← sl_NewSession conn;
      match n with
      | Err e => mret (Err (ErrWrap "创建会话失败" e))
      | Ok session =>
          let cols := if cols =? 0 then 80 else cols in
          let rows := if rows =? 0 then 24 else rows in
          p ← sl_RequestPty session "xterm-256color" rows cols;
          match p with
          | Err _ => abandon_session session "请求PTY失败"
          | Ok _ =>
              i ← sl_StdinPipe session;
              match i with
              | Err _ => abandon_session session "获取stdin失败"
              | Ok termIn =>
                  h ← sl_Shell session;
                  match h with
                  | Err _ => abandon_session session "启动shell失败"
                  | Ok _ => mret (Ok (mkTerminalSession (Some session) termIn))
                  end
              end
          end
      end
  end.

Definition Resize (ts : TerminalSession) (cols rows : Z) : M H (result unit) :=
  match ts_Session ts with
  | None => mret (Err (ErrMsg "会话未初始化"))
  | Some s => sl_WindowChange s rows cols
  end.
Definition ts_Close (ts : TerminalSession) : M H (result unit) :=
  match ts_Session ts with
  | Some s => sl_close (HSession s)
  | None => mret (Ok tt)
  end.
End SshClient.

(** ** What the libraries promise *)

(** A dial with its outcome, a pause, a terminal of a size asked for. *)
Inductive ssh_event : Type :=
  | EDial (host : string) (cc : ClientConfig) (failure : option error)
  | ESleep (d : Z)
  | EPty (session : positive) (term : string) (rows cols : Z).
(** [v_open]: handed out and not given back. *)
Record ssh_view : Type := mkView { v_open : gset handle; v_trace : list ssh_event }.
Definition with_open (f : gset handle → gset handle) (v : ssh_view) : ssh_view := mkView (f (v_open v)) (v_trace v).
Definition log_event (e : ssh_event) (v : ssh_view) : ssh_view := mkView (v_open v) (v_trace v ++ [e]).
Definition failure_of {A} (r : result A) : option error := match r with Ok _ => None | Err e => Some e end.

(** A call that hands out a handle: a new one when it succeeds. *)
Definition acquires {H} (view : H → ssh_view) (kind : positive → handle) (call : M H (result positive)) : Prop :=
  ∀ s s' r, call s = (s', r) →
    match r with
    | Ok p => view s' = with_open (λ o, {[kind p]} ∪ o) (view s) ∧ kind p ∉ v_open (view s)
    | Err _ => view s' = view s
    end.

Class SshLaws (H : Type) `{L : SshLib H} : Type := {
  sl_view : H → ssh_view;
  law_ReadFile p : keeps sl_view (sl_ReadFile p);
  law_Dial host cc s s' r : sl_Dial host cc s = (s', r) →
    match r with
    | Ok p => sl_view s' = with_open (λ o, {[HConn p]} ∪ o) (log_event (EDial host cc None) (sl_view s)) ∧
              HConn p ∉ v_open (sl_view s)
    | Err e => sl_view s' = log_event (EDial host cc (Some e)) (sl_view s)
    end;
  law_Sleep d s s' u : sl_Sleep d s = (s', u) → sl_view s' = log_event (ESleep d) (sl_view s);
  law_NewSftp c : acquires sl_view HSftp (sl_NewSftp c);
  (** A closed handle is given back whatever the call answers. *)
  law_close h s s' r : sl_close h s = (s', r) → sl_view s' = with_open (λ o, o ∖ {[h]}) (sl_view s);
  law_NewSession c : acquires sl_view HSession (sl_NewSession c);
  law_Run p cmd : keeps sl_view (sl_Run p cmd);
  law_RequestPty p t h w s s' r : sl_RequestPty p t h w s = (s', r) →
    sl_view s' = log_event (EPty p t h w) (sl_view s);
  law_StdinPipe p : keeps sl_view (sl_StdinPipe p);
  law_Shell p : keeps sl_view (sl_Shell p);
  law_WindowChange p h w : keeps sl_view (sl_WindowChange p h w);
  law_OpenLocal p : acquires sl_view HLocal (sl_OpenLocal p);
  law_MkdirAll f p : keeps sl_view (sl_MkdirAll f p);
  law_Create f p : acquires sl_view HRemote (sl_Create f p);
  law_Copy d s : keeps sl_view (sl_Copy d s)
}.

(** ** Properties *)

Section SshClientProps.
Context {H : Type} `{L : SshLib H} {LL : SshLaws H}.
Variable lib_text : error → string.
Notation transient := (transient lib_text).
Notation opened s := (v_open (sl_view s)).
Notation trace s := (v_trace (sl_view s)).

(** The log of failed dials, each followed by its pause: one second after the
    first, two after the second. *)
Fixpoint retries (host : string) (cc : ClientConfig) (i : Z) (es : list error) : list ssh_event :=
  match es with
  | [] => []
  | e :: es => EDial host cc (Some e) :: ESleep ((i + 1) * 1000000000) :: retries host cc (i + 1) es
  end.

(** The errors after which dialling is repeated, by the text of the error. *)
Definition retryable (e : error) : Prop :=
  ∃ t, t ∈ ["handshake failed"; "timeout"; "connection refused"; "reset by peer"; "wsarecv"] ∧
    Contains (err_Error lib_text e) t = true.
Lemma transient_retryable e : transient e ↔ retryable e.
Proof.
  unfold SshClient.transient, retryable. rewrite !orb_True. split.
  - intros H0. repeat (destruct H0 as [H0|H0]); apply Is_true_true in H0; eexists; (split; [|exact H0]); set_solver.
  - intros (t & Ht & E). apply Is_true_true in E. set_unfold. naive_solver.
Qed.

(** What the loop did when it returns [r]. *)
Definition dialled (host : string) (cc : ClientConfig) (i : Z) (n : nat) (s s' : H)
  (r : result (option positive)) : Prop :=
  ∃ es last, (length es < n)%nat ∧ Forall transient es ∧
    trace s' = trace s ++ retries host cc i es ++ [EDial host cc last] ∧
    match r with
    | Ok o => ∃ c, o = Some c ∧ last = None ∧ opened s' = {[HConn c]} ∪ opened s ∧ HConn c ∉ opened s
    | Err e => ∃ e', e = ErrWrap "SSH连接失败" e' ∧ last = Some e' ∧ opened s' = opened s ∧
        (transient e' → S (length es) = n)
    end.

Lemma dial_loop_spec host cc n i s s' r :
  (0 < n)%nat → i + Z.of_nat n = Z.of_nat maxRetries →
  dial_loop lib_text host cc n i s = (s', r) → dialled host cc i n s s' r.
Proof.
  revert i s. induction n as [|n IH]; intros i s Hn Hi E; [lia|]. cbn [dial_loop] in E.
  open_bind E as s1 d E1. apply law_Dial in E1. destruct d as [c|e].
  { injection E as <- <-. destruct E1 as [E1 Hf]. exists [], None. rewrite E1. cbn.
    split_and!; [lia|by constructor|done|]. by exists c. }
  destruct (transient e) eqn:Ht; [destruct (Z.ltb_spec i (Z.of_nat maxRetries - 1))|]; cbn in E.
  - open_bind E as s2 u E2. apply law_Sleep in E2.
    destruct (IH (i + 1) s2) as (es & last & Hl & Hes & Htr & Hr); [lia|lia|done|].
    assert (opened s2 = opened s) as Ho by (rewrite E2, E1; done).
    exists (e :: es), last. cbn. split_and!; [lia|constructor; [by rewrite Ht|done]| |].
    { rewrite Htr, E2, E1. cbn. by rewrite <- !app_assoc. }
    rewrite Ho in Hr. destruct r as [o|e0]; [done|]. destruct Hr as (e' & ? & ? & ? & Hlast).
    exists e'. split_and!; [done..|]. intros. f_equal. auto.
  - injection E as <- <-. exists [], (Some e). rewrite E1. cbn. split_and!; [lia|by constructor|done|].
    exists e. split_and!; [done..|]. intros _. lia.
  - rewrite andb_false_r in E. injection E as <- <-. exists [], (Some e). rewrite E1. cbn.
    split_and!; [lia|by constructor|done|]. exists e. split_and!; [done..|]. by rewrite Ht.
Qed.

Lemma key_auth_keeps c : keeps sl_view (key_auth (H := H) c).
Proof.
  unfold key_auth. destruct (String.eqb _ ""); [apply keeps_ret|].
  apply keeps_bind; [apply law_ReadFile|]. intros [k|e]; solve_keeps.
Qed.

(** The outcome of dialling and opening the SFTP channel: at most three dials,
    the pauses in nanoseconds. *)
Definition connected (config : DialConfig) (cc : ClientConfig) (s s' : H) (r : result Client) : Prop :=
  ∃ es last,
    (length es < 3)%nat ∧ Forall retryable es ∧
    trace s' = trace s ++ retries (DialConfig.Host config) cc 0 es ++ [EDial (DialConfig.Host config) cc last] ∧
    match r with
    | Ok c => last = None ∧ ∃ conn sftp, c = Client.mkClient (Some conn) (Some sftp) config ∧
        opened s' = {[HSftp sftp; HConn conn]} ∪ opened s ∧ HConn conn ∉ opened s ∧ HSftp sftp ∉ opened s
    | Err e => opened s' = opened s ∧
        ∀ e', last = Some e' → e = ErrWrap "SSH连接失败" e' ∧ (retryable e' → S (length es) = 3%nat)
    end.

Lemma dialAndCreateClient_spec config cc s s' r :
  dialAndCreateClient lib_text config cc s = (s', r) → connected config cc s s' r.
Proof.
  unfold dialAndCreateClient. intros E. open_bind E as s2 d E2.
  apply dial_loop_spec in E2 as (es & last & Hl & Hes & Htr & Hd); [|unfold maxRetries; lia|done].
  exists es, last. split; [done|].
  split; [by eapply Forall_impl; [exact Hes|]; intros; apply transient_retryable|]. destruct d as [o|e].
  2:{ injection E as <- <-. split; [done|]. destruct Hd as (e' & -> & -> & Ho & Hlast).
      split; [done|]. intros e0 [= <-]. split; [done|]. intros Hre%transient_retryable. by apply Hlast. }
  destruct Hd as (c & -> & -> & Ho & Hc). open_bind E as s3 f E3. apply law_NewSftp in E3.
  destruct f as [sftp|err].
  - injection E as <- <-. destruct E3 as [E3 Hf]. rewrite E3. cbn. split; [done|]. split; [done|].
    exists c, sftp. rewrite Ho in *. split; [done|]. split; [set_solver|]. split; [done|set_solver].
  - open_bind E as s4 x E4. apply law_close in E4. injection E as <- E.
    assert (trace s4 = trace s2) as -> by (rewrite E4; cbn; by rewrite E3).
    assert (∃ e, r = Err e) as [e ->] by (destruct x; by eexists). split; [done|].
    rewrite E4. cbn. rewrite E3, Ho. split; [|done]. apply set_eq. set_solver.
Qed.

(** The key cannot be read or parsed, or there is neither key nor password. *)
Definition no_method (cfg : DialConfig) (s : H) : Prop :=
  is_ok (snd (key_auth cfg s)) = false ∨ snd (key_auth cfg s) = Ok [] ∧ DialConfig.Password cfg = ""%string.
Lemma NewClient_inv config s s' r :
  NewClient lib_text config s = (s', r) →
  let cfg := set_default_timeout config in
  (sl_view s' = sl_view s ∧ is_ok r = false ∧ no_method cfg s) ∨
  ∃ s1 keys, key_auth cfg s = (s1, Ok keys) ∧ keys ++ password_auth cfg ≠ [] ∧ sl_view s1 = sl_view s ∧
    dialAndCreateClient lib_text cfg (ssh_config cfg (keys ++ password_auth cfg)) s1 = (s', r).
Proof.
  intros E cfg. unfold NewClient in E. fold cfg in E. open_bind E as s1 k E1.
  pose proof (key_auth_keeps cfg s s1 k E1) as V1.
  destruct k as [keys|e]; [|injection E as <- <-; left; split_and!; [done..|left; by rewrite E1]].
  destruct (keys ++ password_auth cfg) as [|a auth] eqn:Ha.
  { injection E as <- <-. left. split_and!; [done..|]. right. rewrite E1. apply app_eq_nil in Ha as [-> Hp].
    split; [done|]. unfold password_auth in Hp. by destruct (String.eqb_spec (DialConfig.Password cfg) ""). }
  right. exists s1, keys. by rewrite Ha.
Qed.

(** C14: Connecting.  Without a usable authentication method nothing is dialled
    and nothing is opened.  Otherwise the host is dialled with the configured
    methods at most three times; only dials that failed with an error whose text
    contains one of five words for transient errors are repeated, after one and
    then two seconds, and such an error is final only at the third dial.  A client owns one new connection with its SFTP
    channel; after a failure no connection stays open. *)
Theorem NewClient_spec config s s' r
  (E : NewClient lib_text config s = (s', r)) :
  let cfg := set_default_timeout config in
  (sl_view s' = sl_view s ∧ is_ok r = false ∧ no_method cfg s) ∨
  ∃ keys, snd (key_auth cfg s) = Ok keys ∧ keys ++ password_auth cfg ≠ [] ∧
    connected cfg (ssh_config cfg (keys ++ password_auth cfg)) s s' r.
Proof.
  intros cfg. apply NewClient_inv in E as [?|(s1 & keys & Ek & Hne & V & E)]; [by left|]. fold cfg in Ek, Hne, E.
  right. exists keys. rewrite Ek. apply dialAndCreateClient_spec in E.
  split; [done|]. split; [done|]. unfold connected in *. by rewrite <- V.
Qed.

(** [Close] gives back what the client owns. *)
Definition client_handles (c : Client) : gset handle :=
  from_option (λ p, {[HSftp p]}) ∅ (Client.sftpClient c) ∪ from_option (λ p, {[HConn p]}) ∅ (Client.sshClient c).
Definition terminal_handles (ts : TerminalSession) : gset handle :=
  from_option (λ p, {[HSession p]}) ∅ (ts_Session ts).

Lemma close_if_view h s s' u :
  close_if h s = (s', u) → opened s' = opened s ∖ from_option (λ h, {[h]}) ∅ h.
Proof.
  destruct h as [h|]; cbn; intros E.
  - open_bind E as s1 x E1. apply law_close in E1. injection E as <- _. by rewrite E1.
  - injection E as <- _. apply set_eq. set_solver.
Qed.
Lemma Close_view c s s' r : Close c s = (s', r) → opened s' = opened s ∖ client_handles c.
Proof.
  unfold Close. intros E. open_bind E as s1 u1 E1. open_bind E as s2 u2 E2. injection E as <- _.
  apply close_if_view in E1, E2. rewrite E2, E1. unfold client_handles.
  destruct (Client.sftpClient c), (Client.sshClient c); cbn; apply set_eq; set_solver.
Qed.
Lemma ts_Close_view ts s s' r : ts_Close ts s = (s', r) → opened s' = opened s ∖ terminal_handles ts.
Proof.
  unfold ts_Close, terminal_handles. destruct (ts_Session ts); cbn; intros E.
  - apply law_close in E. by rewrite E.
  - injection E as <- _. apply set_eq. set_solver.
Qed.

(** A handle opened and closed again. *)
Lemma balanced (h : handle) (o o1 o2 : gset handle) :
  o1 = {[h]} ∪ o → h ∉ o → o2 = o1 ∖ {[h]} → o2 = o.
Proof. intros -> Hh ->. apply set_eq. set_solver. Qed.
Lemma open_close_view h v :
  h ∉ v_open v → with_open (λ o, o ∖ {[h]}) (with_open (λ o, {[h]} ∪ o) v) = v.
Proof. intros Hh. destruct v as [o t]. unfold with_open. cbn in *. f_equal. by eapply balanced. Qed.

(** What a call hands to its caller. *)
Definition hands (o : gset handle) {A} (handles : A → gset handle) (r : result A) (o' : gset handle) : Prop :=
  match r with
  | Ok a => o' = handles a ∪ o ∧ handles a ## o
  | Err _ => o' = o
  end.

Lemma abandon_session_view session msg o s s' r :
  abandon_session session msg s = (s', r) → opened s = {[HSession session]} ∪ o → HSession session ∉ o →
  is_ok r = false ∧ opened s' = o ∧ trace s' = trace s.
Proof.
  unfold abandon_session. intros E Ho Hf. open_bind E as s1 x E1. apply law_close in E1.
  injection E as <- <-. rewrite E1. cbn. split; [done|]. split; [|done]. by eapply balanced.
Qed.

(** A terminal.  It is asked for with the given size, 80 columns and 24
    rows where the size is zero.  On success the caller owns one new session;
    when a step of the set-up fails the session is closed again. *)
Lemma NewTerminalSession_spec conn c cols rows s s' r
  (Hc : Client.sshClient c = Some conn)
  (E : NewTerminalSession c cols rows s = (s', r)) :
  hands (opened s) terminal_handles r (opened s') ∧
  match r with
  | Ok ts => ∃ p, ts_Session ts = Some p ∧
      trace s' = trace s ++ [EPty p "xterm-256color" (if rows =? 0 then 24 else rows) (if cols =? 0 then 80 else cols)]
  | Err _ => True
  end.
Proof.
  unfold NewTerminalSession in E. rewrite Hc in E. open_bind E as s1 n E1. apply law_NewSession in E1.
  destruct n as [session|e]; [|injection E as <- <-; cbn; by rewrite E1].
  destruct E1 as [E1 Hf]. cbv zeta in E. open_bind E as s2 p E2. apply law_RequestPty in E2.
  assert (opened s2 = {[HSession session]} ∪ opened s) as O2 by (by rewrite E2, E1).
  assert (∀ msg s2' , opened s2' = opened s2 → abandon_session session msg s2' = (s', r) →
    hands (opened s) terminal_handles r (opened s') ∧ match r with Ok _ => False | Err _ => True end) as Hgive.
  { intros msg s2' O' E'. eapply abandon_session_view in E' as (Hr & Ho & _); [|by rewrite O'|done].
    by destruct r. }
  destruct p as [u|e]; [|by destruct (Hgive _ _ eq_refl E) as [? ?]; destruct r].
  open_bind E as s3 i E3. pose proof (law_StdinPipe _ _ _ _ E3) as V3.
  destruct i as [termIn|e]; [|destruct (Hgive _ s3 ltac:(by rewrite V3) E) as [? ?]; by destruct r].
  open_bind E as s4 h E4. pose proof (law_Shell _ _ _ _ E4) as V4.
  destruct h as [v|e]; [|destruct (Hgive _ s4 ltac:(by rewrite V4, V3) E) as [? ?]; by destruct r].
  injection E as <- <-. rewrite V4, V3, E2, E1. cbn. split; [split; [done|set_solver]|]. by exists session.
Qed.

Lemma NewClient_hands config s s' r :
  NewClient lib_text config s = (s', r) → hands (opened s) client_handles r (opened s').
Proof.
  intros [(V & Hr & _)|(s1 & keys & _ & _ & V & E)]%NewClient_inv.
  { destruct r; [done|]. cbn. by rewrite V. }
  apply dialAndCreateClient_spec in E as (es & last & _ & _ & _ & Hr). rewrite <- V.
  destruct r as [c|e]; cbn; [|by destruct Hr].
  destruct Hr as (_ & conn & sftp & -> & Ho & H1 & H2). unfold client_handles. cbn. set_solver.
Qed.

Lemma ExecuteCommandWithStatus_view c cmd : keeps sl_view (ExecuteCommandWithStatus c cmd).
Proof.
  intros s s' [[out code] err] E. unfold ExecuteCommandWithStatus in E.
  destruct (Client.sshClient c) as [conn|]; [|by injection E as <- _].
  open_bind E as s1 n E1. apply law_NewSession in E1. destruct n as [session|e]; [|by injection E as <- _].
  destruct E1 as [E1 Hf]. open_bind E as s2 x E2. apply law_Run in E2. open_bind E as s3 u E3.
  apply law_close in E3. destruct x as [[? ?] ?]. injection E as <- _. rewrite E3, E2, E1.
  by apply open_close_view.
Qed.

(** A command.  Its session is closed whatever happens; the status is 0
    without an error, the command's own status when it ended with one, and -1
    when no session could be opened or the command did not end by itself; the
    output is what the command wrote to its standard output. *)
Theorem ExecuteCommandWithStatus_spec conn c cmd s s' output code err
  (Hc : Client.sshClient c = Some conn)
  (E : ExecuteCommandWithStatus c cmd s = (s', (output, code, err))) :
  sl_view s' = sl_view s ∧
  ((∃ s1 session, sl_NewSession conn s = (s1, Ok session) ∧
      ∃ stderr run, snd (sl_Run session cmd s1) = (output, stderr, run) ∧ err = re_err <$> run ∧
        match run with
        | None => code = 0
        | Some e => code = default (-1) (re_exit e)
        end) ∨
   (∃ s1 e, sl_NewSession conn s = (s1, Err e) ∧ output = ""%string ∧ code = -1 ∧ err = Some e)).
Proof.
  split; [by eapply ExecuteCommandWithStatus_view|].
  unfold ExecuteCommandWithStatus in E. rewrite Hc in E. open_bind E as s1 n E1. destruct n as [session|e].
  2:{ injection E as <- <- <- <-. right. by exists s1, e. }
  open_bind E as s2 x E2. open_bind E as s3 u E3. destruct x as [[out se] run].
  injection E as <- <- <- <-. left. exists s1, session. split; [done|]. exists se, run. rewrite E2.
  split; [done|]. split; [done|]. by destruct run as [[e' [k|]]|].
Qed.

Lemma MkdirAll_view c p : keeps sl_view (MkdirAll c p).
Proof. unfold MkdirAll. destruct (Client.sftpClient c); [apply law_MkdirAll|apply keeps_ret]. Qed.

Lemma UploadFile_view c l p s s' r : UploadFile c l p s = (s', r) → sl_view s' = sl_view s.
Proof.
  unfold UploadFile. intros E. open_bind E as s1 o E1. apply law_OpenLocal in E1.
  destruct o as [src|e]; [|by injection E as <- _]. destruct E1 as [E1 Hf].
  open_bind E as s2 x E2. open_bind E as s3 u E3. apply law_close in E3. injection E as <- _.
  cut (sl_view s2 = sl_view s1); [intros V; rewrite E3, V, E1; by apply open_close_view|]. clear E3.
  open_bind E2 as s4 m E4. apply MkdirAll_view in E4. rewrite <- E4.
  destruct m as [v|e]; [|by destruct e; injection E2 as <- _].
  destruct (Client.sftpClient c) as [f|]; [|by injection E2 as <- _].
  open_bind E2 as s5 d E5. apply law_Create in E5. destruct d as [dst|e]; [|by injection E2 as <- _].
  destruct E5 as [E5 Hd]. open_bind E2 as s6 y E6. apply law_Copy in E6. open_bind E2 as s7 z E7.
  apply law_close in E7. injection E2 as <- _. rewrite E7, E6, E5. by apply open_close_view.
Qed.

(** A caller of the package, with the handles of the clients and terminals it
    holds. *)
Inductive use : H * gset handle → H * gset handle → Prop :=
  | use_connect config s s' held r : NewClient lib_text config s = (s', r) →
      use (s, held) (s', match r with Ok c => client_handles c | Err _ => ∅ end ∪ held)
  | use_disconnect c s s' held r : client_handles c ⊆ held → Close c s = (s', r) →
      use (s, held) (s', held ∖ client_handles c)
  | use_command c cmd s s' held r : ExecuteCommand c cmd s = (s', r) → use (s, held) (s', held)
  | use_upload c l p s s' held r : UploadFile c l p s = (s', r) → use (s, held) (s', held)
  | use_mkdir c p s s' held r : MkdirAll c p s = (s', r) → use (s, held) (s', held)
  | use_terminal c cols rows s s' held r : NewTerminalSession c cols rows s = (s', r) →
      use (s, held) (s', match r with Ok ts => terminal_handles ts | Err _ => ∅ end ∪ held)
  | use_resize ts cols rows s s' held r : Resize ts cols rows s = (s', r) → use (s, held) (s', held)
  | use_leave ts s s' held r : terminal_handles ts ⊆ held → ts_Close ts s = (s', r) →
      use (s, held) (s', held ∖ terminal_handles ts).

Definition accounted (base : gset handle) (x : H * gset handle) : Prop :=
  opened x.1 = x.2 ∪ base ∧ x.2 ## base.

Lemma hands_accounted {A} (handles : A → gset handle) base s s' held r :
  accounted base (s, held) → hands (opened s) handles r (opened s') →
  accounted base (s', match r with Ok c => handles c | Err _ => ∅ end ∪ held).
Proof.
  intros [Ho Hd] Hr. cbn in *. rewrite Ho in Hr. destruct r as [a|e]; cbn in Hr; split; cbn; set_solver.
Qed.
Lemma release_accounted base s s' held h :
  accounted base (s, held) → h ⊆ held → opened s' = opened s ∖ h → accounted base (s', held ∖ h).
Proof. intros [Ho Hd] Hh Hs. cbn in *. rewrite Ho in Hs. split; cbn; [|set_solver]. rewrite Hs. set_solver. Qed.
Lemma keep_accounted base s s' held : accounted base (s, held) → sl_view s' = sl_view s → accounted base (s', held).
Proof. unfold accounted. cbn. by intros ? ->. Qed.

Lemma use_accounted base x y : use x y → accounted base x → accounted base y.
Proof.
  destruct 1 as [? ? ? ? ? E|? ? ? ? ? Hc E|? ? ? ? ? ? E|? ? ? ? ? ? ? E|? ? ? ? ? ? E|c ? ? ? ? ? ? E|ts ? ? ? ? ? ? E|? ? ? ? ? Hc E]; intros HI.
  - by eapply hands_accounted, NewClient_hands.
  - by eapply release_accounted, Close_view.
  - eapply keep_accounted; [done|]. unfold ExecuteCommand in E. open_bind E as s1 z E1.
    apply ExecuteCommandWithStatus_view in E1. destruct z as [[? ?] ?]. by injection E as <- _.
  - by eapply keep_accounted, UploadFile_view.
  - by eapply keep_accounted, MkdirAll_view.
  - destruct (Client.sshClient c) as [conn|] eqn:Hc.
    + by eapply hands_accounted, NewTerminalSession_spec.
    + unfold NewTerminalSession in E. rewrite Hc in E. injection E as <- <-. by rewrite (left_id_L ∅ _).
  - eapply keep_accounted; [done|]. unfold Resize in E.
    destruct (ts_Session ts); [by apply law_WindowChange in E|by injection E as <- _].
  - by eapply release_accounted, ts_Close_view.
Qed.

(** C13: No connection, channel, session or file stays open behind a caller's
    back: after any sequence of calls what is open is what was open before and
    what the clients and terminals the caller still holds own. *)
Theorem handles_accounted s s' held
  (Hu : rtc use (s, ∅) (s', held)) :
  opened s' = held ∪ opened s ∧ held ## opened s.
Proof.
  assert (accounted (opened s) (s, ∅)) as HI by (split; cbn; set_solver).
  cut (accounted (opened s) (s', held)); [done|].
  revert HI. induction Hu; eauto using use_accounted.
Qed.

End SshClientProps.

(** ** A scripted library *)

(** Each call takes the next answer: an error, or success when there is none. *)
Record lib_state : Type := mkLib { l_view : ssh_view; l_answers : list (option error) }.
Definition handle_id (h : handle) : positive :=
  match h with HConn p | HSftp p | HSession p | HLocal p | HRemote p => p end.
Definition next_handle (v : ssh_view) : positive := fresh (set_map handle_id (v_open v) : gset positive).
Definition answer {A} (v_err v_ok : ssh_view) (a : A) (l : lib_state) (err : option error) : lib_state * result A :=
  match err with
  | Some e => (mkLib v_err (tail (l_answers l)), Err e)
  | None => (mkLib v_ok (tail (l_answers l)), Ok a)
  end.
Definition next_answer (l : lib_state) : option error := default None (head (l_answers l)).
Definition plain {A} (a : A) (l : lib_state) : lib_state * result A :=
  answer (l_view l) (l_view l) a l (next_answer l).
Definition handing (kind : positive → handle) (l : lib_state) : lib_state * result positive :=
  let p := next_handle (l_view l) in
  answer (l_view l) (with_open (λ o, {[kind p]} ∪ o) (l_view l)) p l (next_answer l).

#[export] Instance demo_lib : SshLib lib_state := {
  sl_ReadFile _ := plain "key"%string;
  sl_ParsePrivateKey _ _ := Ok (Some 1%positive);
  sl_Dial host cc l :=
    let p := next_handle (l_view l) in let a := next_answer l in
    let v := log_event (EDial host cc a) (l_view l) in
    answer v (with_open (λ o, {[HConn p]} ∪ o) v) p l a;
  sl_Sleep d l := (mkLib (log_event (ESleep d) (l_view l)) (l_answers l), tt);
  sl_NewSftp _ := handing HSftp;
  sl_close h l :=
    let v := with_open (λ o, o ∖ {[h]}) (l_view l) in answer v v tt l (next_answer l);
  sl_NewSession _ := handing HSession;
  sl_Run _ _ l :=
    let '(l', r) := plain tt l in
    (l', ("out"%string, ""%string, match r with Ok _ => None | Err e => Some (mkRunError e (Some 2)) end));
  sl_RequestPty p t h w l :=
    let v := log_event (EPty p t h w) (l_view l) in answer v v tt l (next_answer l);
  sl_StdinPipe _ := plain 1%positive;
  sl_Shell _ := plain tt;
  sl_WindowChange _ _ _ := plain tt;
  sl_OpenLocal _ := handing HLocal;
  sl_MkdirAll _ _ := plain tt;
  sl_Create _ _ := handing HRemote;
  sl_Copy _ _ := plain tt
}.

Lemma next_handle_fresh kind v : (∀ p, handle_id (kind p) = p) → kind (next_handle v) ∉ v_open v.
Proof.
  intros Hk Hin. apply (is_fresh (set_map handle_id (v_open v) : gset positive)).
  apply elem_of_map. exists (kind (next_handle v)). by rewrite Hk.
Qed.
Lemma plain_view {A} (a : A) : keeps l_view (plain a).
Proof. intros l l' r. unfold plain, answer. by destruct (next_answer l); intros [= <- <-]. Qed.
Lemma handing_acquires kind : (∀ p, handle_id (kind p) = p) → acquires l_view kind (handing kind).
Proof.
  intros Hk l l' r. unfold handing, answer. destruct (next_answer l); intros [= <- <-]; [done|].
  split; [done|]. by apply next_handle_fresh.
Qed.

#[export] Instance demo_lib_laws : SshLaws lib_state.
Proof.
  refine {| sl_view := l_view |}; intros *; try apply plain_view; try (by apply handing_acquires).
  - cbn. unfold answer. destruct (next_answer s) eqn:E; intros [= <- <-]; [done|].
    split; [done|]. by apply next_handle_fresh.
  - by intros [= <- <-].
  - cbn. unfold answer. by destruct (next_answer s); intros [= <- <-].
  - intros l l' r. cbn. destruct (plain tt l) as [l1 x] eqn:E. apply plain_view in E. by intros [= <- <-].
  - cbn. unfold answer. by destruct (next_answer s); intros [= <- <-].
Defined.

Definition demo_dial : DialConfig := DialConfig.mkDialConfig "10.0.0.1:22" "root" "secret" 0 "" "".
Definition refused : error := ErrMsg "dial tcp 10.0.0.1:22: connect: connection refused".
Definition no_view : ssh_view := mkView ∅ [].
Definition lib_silent (e : error) : string := "".

(** The second dial succeeds. *)
Definition lib_retry : lib_state := mkLib no_view [Some refused].
Definition demo_cc : ClientConfig :=
  ssh_config (set_default_timeout demo_dial) [PasswordAuth "secret"].

Lemma NewClient_spec_witness :
  v_trace (l_view (fst (NewClient lib_silent demo_dial lib_retry))) =
    [EDial "10.0.0.1:22" demo_cc (Some refused); ESleep second; EDial "10.0.0.1:22" demo_cc None] ∧
  ∃ conn sftp, v_open (l_view (fst (NewClient lib_silent demo_dial lib_retry))) = {[HSftp sftp; HConn conn]}.
Proof.
  split; [by vm_compute|].
  destruct (NewClient_spec lib_silent demo_dial lib_retry _ _ (surjective_pairing _))
    as [(_ & Hr & _)|(keys & _ & _ & es & last & _ & _ & _ & Hr)]; [vm_compute in Hr; discriminate|].
  destruct (snd (NewClient lib_silent demo_dial lib_retry)) as [c|e] eqn:Er; [|vm_compute in Er; discriminate].
  destruct Hr as (_ & conn & sftp & _ & Ho & _). exists conn, sftp. cbn in Ho |- *. rewrite Ho.
  apply set_eq. set_solver.
Defined.

(** A command that ends with status 2. *)
Definition demo_client : Client := Client.mkClient (Some 1%positive) (Some 1%positive) demo_dial.
Definition lib_failing_command : lib_state := mkLib no_view [None; Some (ErrExt 3)].
Lemma ExecuteCommandWithStatus_spec_witness :
  snd (ExecuteCommandWithStatus demo_client "false" lib_failing_command) = ("out"%string, 2, Some (ErrExt 3)) ∧
  l_view (fst (ExecuteCommandWithStatus demo_client "false" lib_failing_command)) = no_view.
Proof.
  split; [by vm_compute|].
  assert (ExecuteCommandWithStatus demo_client "false" lib_failing_command =
          (fst (ExecuteCommandWithStatus demo_client "false" lib_failing_command),
           ("out"%string, 2, Some (ErrExt 3)))) as E by (by vm_compute).
  exact (proj1 (ExecuteCommandWithStatus_spec 1%positive demo_client "false" lib_failing_command _ _ _ _ eq_refl E)).
Defined.

(** Connect after a refused dial, run a command, and disconnect. *)
Definition used_lib : lib_state := fst (NewClient lib_silent demo_dial lib_retry).
Definition used_client : Client :=
  match snd (NewClient lib_silent demo_dial lib_retry) with Ok c => c | Err _ => demo_client end.
Lemma handles_accounted_witness :
  v_open (l_view (fst (Close used_client (fst (ExecuteCommand used_client "ls" used_lib))))) = ∅.
Proof.
  assert (client_handles used_client ∖ client_handles used_client = ∅) as Hd by (apply set_eq; set_solver).
  refine (eq_trans (proj1 (handles_accounted lib_silent lib_retry
    (fst (Close used_client (fst (ExecuteCommand used_client "ls" used_lib)))) (client_handles used_client ∖ client_handles used_client) _)) _).
  - eapply rtc_l; [exact (use_connect lib_silent demo_dial lib_retry _ ∅ _ (surjective_pairing _))|].
    change (snd (NewClient lib_silent demo_dial lib_retry)) with (Ok used_client).
    rewrite (right_id_L ∅ (∪)).
    eapply rtc_l; [exact (use_command lib_silent used_client "ls" used_lib _ _ _ (surjective_pairing _))|].
    eapply rtc_l; [eapply (use_disconnect lib_silent used_client); [done|apply surjective_pairing]|].
    apply rtc_refl.
  - rewrite Hd. by vm_compute.
Defined.

(** The reason why a terminal could not be set up never reaches the caller. *)
Example terminal_error_lost :
  ∀ e, snd (NewTerminalSession demo_client 0 0 (mkLib no_view [None; Some e])) =
       Err (ErrMsg "请求PTY失败: %!w(<nil>)").
Proof. intros e. by vm_compute. Qed.
