(* ===== verification/PermCtl.v ===== *)
(** * The controllers of menus, APIs and roles

    internal/api/v1/permissionManage on top of [MenuService], [Roles] and
    [Access], with the validator tags of their requests
    (internal/model/dto/request/menuReq.go, apiReq.go, roleReq.go). *)

From S2P Require Import Prelude GoStrings Float64 Errors Entity External MemBackend Access MenuService Roles GoPath Shell FileService OperationLog Auth Users Http AccountCtl.

Open Scope Z_scope.

(** ** Requests *)

(** Page, page size, name or path, status. *)
Record page_query : Type := mkPageQuery { pq_Page : Z; pq_PageSize : Z; pq_Text : string; pq_Status : option Z }.
Definition status_tag (s : option Z) : bool := opt_tag (tag_oneof_int [0; 1]) s.
Definition required_status (s : option Z) : bool :=
  match s with Some v => tag_oneof_int [0; 1] v | None => false end.
(** [max]: the tag of the text, if it has one. *)
Definition PageQuery_ok (max : option Z) (q : page_query) : bool :=
  PageRequest_ok (pq_Page q) (pq_PageSize q) &&
  match max with Some n => omitempty (tag_max n) (pq_Text q) | None => true end && status_tag (pq_Status q).
Definition MenuPageQueryRequest_ok := PageQuery_ok (Some 50).
Definition APIPageQueryRequest_ok := PageQuery_ok None.
Definition RolePageQueryRequest_ok := PageQuery_ok (Some 50).

Definition menu_types : list string := ["catalogue"; "menu"]%string.
Definition http_methods : list string := ["GET"; "POST"; "PUT"; "DELETE"]%string.
Definition short (s : string) : bool := tag_min 1 s && tag_max 50 s.

Definition CreateMenuRequest_ok (r : CreateMenuRequest) : bool :=
  tag_required (CreateMenuRequest.Title r) && short (CreateMenuRequest.Title r) &&
  tag_required (CreateMenuRequest.Type_ r) && tag_oneof menu_types (CreateMenuRequest.Type_ r) &&
  required_status (CreateMenuRequest.Status r) && omitempty (tag_max 50) (CreateMenuRequest.Icon r) &&
  tag_required (CreateMenuRequest.URI r) && short (CreateMenuRequest.URI r) &&
  negb (CreateMenuRequest.Sort r =? 0).
Definition UpdateMenuRequest_ok (r : UpdateMenuRequest) : bool :=
  negb (UpdateMenuRequest.ID r =? 0) && omitempty short (UpdateMenuRequest.Title r) &&
  omitempty (tag_oneof menu_types) (UpdateMenuRequest.Type_ r) && status_tag (UpdateMenuRequest.Status r) &&
  omitempty (tag_max 50) (UpdateMenuRequest.Icon r) && omitempty short (UpdateMenuRequest.URI r).
(** A list of ids: [None] when the field is missing. *)
Definition BatchDeleteMenuRequest_ok (ids : option (list Z)) : bool :=
  match ids with Some (_ :: _) => true | _ => false end.
Definition BatchDeleteRequest_ok (ids : option (list Z)) : bool :=
  match ids with Some _ => true | None => false end.

Definition CreateAPIRequest_ok (r : CreateAPIRequest) : bool :=
  tag_required (CreateAPIRequest.Name r) && short (CreateAPIRequest.Name r) &&
  tag_required (CreateAPIRequest.Category r) &&
  tag_required (CreateAPIRequest.Slug r) && short (CreateAPIRequest.Slug r) &&
  required_status (CreateAPIRequest.Status r) &&
  tag_required (CreateAPIRequest.HTTPMethod r) && tag_oneof http_methods (CreateAPIRequest.HTTPMethod r) &&
  tag_required (CreateAPIRequest.HTTPPath r) && tag_max 65535 (CreateAPIRequest.HTTPPath r) &&
  negb (CreateAPIRequest.Sort r =? 0).
Definition UpdateAPIRequest_ok (r : UpdateAPIRequest) : bool :=
  negb (UpdateAPIRequest.ID r =? 0) && omitempty short (UpdateAPIRequest.Name r) &&
  omitempty short (UpdateAPIRequest.Slug r) && status_tag (UpdateAPIRequest.Status r) &&
  omitempty (tag_oneof http_methods) (UpdateAPIRequest.HTTPMethod r) &&
  omitempty (tag_max 65535) (UpdateAPIRequest.HTTPPath r).

Definition CreateRoleRequest_ok (r : CreateRoleRequest) : bool :=
  tag_required (CreateRoleRequest.Name r) && tag_min 2 (CreateRoleRequest.Name r) &&
  tag_max 50 (CreateRoleRequest.Name r) && required_status (CreateRoleRequest.Status r) &&
  tag_required (CreateRoleRequest.Slug r).
Definition UpdateRoleRequest_ok (r : UpdateRoleRequest) : bool :=
  omitempty (tag_max 50) (UpdateRoleRequest.Name r) && status_tag (UpdateRoleRequest.Status r).
Definition UpdateRolePermissionRequest_ok (r : option (list Z) * option (list Z)) : bool :=
  BatchDeleteRequest_ok r.1 && BatchDeleteRequest_ok r.2.

(** ** Handlers *)

Definition invalid_param : string := GetMessage CodeInvalidParam.
Definition bad_format : string := "请求参数格式错误!".

Section Handlers.
Context {W : Type}.
(** The id of a route parameter. *)
Definition with_id {D} (bad idStr : string) (k : Z → M W (Reply D)) : M W (Reply D) :=
  match Atoi idStr with Err _ => mret (respond (BadRequest bad)) | Ok id => k id end.
Definition with_body {A D} (ok : A → bool) (bad : string) (body : result A) (k : A → M W (Reply D)) : M W (Reply D) :=
  match ShouldBind ok body with Err _ => mret (respond (BadRequest bad)) | Ok a => k a end.
(** A call whose success is answered with a text. *)
Definition done_with (msg : string) (call : M W (result unit)) : M W (Reply string) :=
  r ← call; mret (reply_of (match r with Err e => Err e | Ok _ => Ok msg end)).
Definition found {A D} (f : A → D) (call : M W (result (option A))) : M W (Reply D) :=
  r ← call;
  mret (match r with
        | Err e => biz_reply e
        | Ok None => respond (NotFound (GetMessage CodeResourceNotFound))
        | Ok (Some x) => respond (Success (f x))
        end).
(** The services write the clamped page into the request. *)
Definition paged {A} (q : page_query) (call : M W (result (list A * Z))) : M W (Reply (PageResponse A)) :=
  r ← call;
  mret (reply_of (match r with
                  | Err e => Err e
                  | Ok (l, total) =>
                      let '(page, size) := clamp_page (pq_Page q) (pq_PageSize q) in
                      Ok (NewPageResponse l total page size)
                  end)).
End Handlers.

Section MenuCtl.
Context {S : Type} {T : Table S Menu}.
Variable col_eq : string → string → bool.
Variable col_like : string → string → bool.
Variable is_duplicate : error → bool.

(** The data is the fields of [dto.MenuResponse]. *)
Definition menu_ctrl_GetMenuByID (idStr : string) : M S (Reply MenuTreeNode.fields) :=
  with_id invalid_param idStr (λ id, found convertToNode (GetMenuByID id)).
Definition menu_request (q : page_query) : MenuPageQueryRequest :=
  MenuPageQueryRequest.mkMenuPageQueryRequest (pq_Page q) (pq_PageSize q) (pq_Text q) (pq_Status q).
Definition menu_ctrl_PageList (query : result page_query) : M S (Reply (PageResponse MenuTreeNode)) :=
  with_body MenuPageQueryRequest_ok invalid_param query (λ q,
    paged q (MenuService.PageList col_like (menu_request q))).
Definition menu_ctrl_Create (body : result CreateMenuRequest) : M S (Reply string) :=
  with_body CreateMenuRequest_ok bad_format body (λ req,
    done_with "创建成功" (MenuService.Create col_eq is_duplicate req)).
Definition menu_ctrl_Update (now : Z) (body : result UpdateMenuRequest) : M S (Reply string) :=
  with_body UpdateMenuRequest_ok bad_format body (λ req,
    done_with "更新成功" (MenuService.Update col_eq now req)).
Definition menu_ctrl_Delete (idStr : string) : M S (Reply string) :=
  with_id invalid_param idStr (λ id, done_with "删除成功" (MenuService.Delete id)).
Definition menu_ctrl_BatchDelete (body : result (option (list Z))) : M S (Reply string) :=
  with_body BatchDeleteMenuRequest_ok invalid_param body (λ ids,
    done_with "批量删除成功" (MenuService.BatchDelete (default [] ids))).
End MenuCtl.

Section AdminCtl.
Context {S : Type} {Q : Sql S access} {CR : Creates S Role} {CA : Creates S Permission}.
Variable col_eq : string → string → bool.
Variable col_like : string → string → bool.
Variable col_le : string → string → bool.
Variable created : Role → Z.
Variable is_duplicate : error → bool.

Definition api_ctrl_GetAPIByID (idStr : string) : M S (Reply Permission) :=
  with_id "无效的ID" idStr (λ id, found (λ x, x) (GetAPIByID id)).
Definition api_ctrl_PageList (query : result page_query) : M S (Reply (PageResponse Permission)) :=
  with_body APIPageQueryRequest_ok invalid_param query (λ q,
    paged q (APIPageList col_like col_le (pq_Page q) (pq_PageSize q) (pq_Text q) (pq_Status q))).
Definition api_ctrl_Create (body : result CreateAPIRequest) : M S (Reply string) :=
  with_body CreateAPIRequest_ok bad_format body (λ req, done_with "创建成功" (CreateAPI col_eq is_duplicate req)).
Definition api_ctrl_Update (now : Z) (body : result UpdateAPIRequest) : M S (Reply string) :=
  with_body UpdateAPIRequest_ok bad_format body (λ req, done_with "更新成功" (UpdateAPI col_eq now req)).
Definition api_ctrl_Delete (idStr : string) : M S (Reply string) :=
  with_id invalid_param idStr (λ id, done_with "删除成功" (DeleteAPI id)).
Definition api_ctrl_BatchDelete (body : result (option (list Z))) : M S (Reply string) :=
  with_body BatchDeleteRequest_ok invalid_param body (λ ids,
    done_with "批量删除成功" (BatchDeleteAPIs (default [] ids))).

Definition role_ctrl_GetRoleByID (idStr : string) : M S (Reply Role) :=
  with_id "无效的ID" idStr (λ id, found (λ x, x) (GetRoleByID id)).
Definition role_ctrl_PageList (query : result page_query) : M S (Reply (PageResponse Role)) :=
  with_body RolePageQueryRequest_ok invalid_param query (λ q,
    paged q (RolePageList col_like created (pq_Page q) (pq_PageSize q) (pq_Text q) (pq_Status q))).
Definition role_ctrl_Create (body : result CreateRoleRequest) : M S (Reply string) :=
  with_body CreateRoleRequest_ok bad_format body (λ req, done_with "创建成功" (CreateRole col_eq is_duplicate req)).
Definition role_ctrl_Update (now : Z) (body : result UpdateRoleRequest) : M S (Reply string) :=
  with_body UpdateRoleRequest_ok bad_format body (λ req, done_with "修改成功" (UpdateRole col_eq now req)).
Definition role_ctrl_Delete (idStr : string) : M S (Reply string) :=
  with_id invalid_param idStr (λ id, done_with "删除成功" (DeleteRole id)).
Definition role_ctrl_BatchDelete (body : result (option (list Z))) : M S (Reply string) :=
  with_body BatchDeleteRequest_ok invalid_param body (λ ids,
    done_with "批量删除成功" (BatchDeleteRoles (default [] ids))).
Definition role_ctrl_GetRolePermissionByID
  (range : gmap string (list ApiPermissionRes) → list (string * list ApiPermissionRes)) (idStr : string)
  : M S (Reply ((gmap Z role_node * list Z) * list ApiPermissionGroupRes)) :=
  with_id invalid_param idStr (λ roleID, r ← GetRolePermissionByID range roleID; mret (reply_of r)).
Definition role_ctrl_UpdateRolePermission (idStr : string) (body : result (option (list Z) * option (list Z)))
  : M S (Reply string) :=
  with_id invalid_param idStr (λ roleID,
    with_body UpdateRolePermissionRequest_ok invalid_param body (λ req,
      done_with "权限更新成功" (Access.UpdateRolePermission roleID (default [] req.1) (default [] req.2)))).
End AdminCtl.

(** * Properties *)

(** ** Well-formed rows *)

Definition role_row_ok (r : Role) : bool :=
  tag_required (Role.Name r) && tag_max 50 (Role.Name r) && tag_oneof_int [0; 1] (Role.Status r) &&
  tag_required (Role.Slug r).
Definition api_row_ok (p : Permission) : bool :=
  tag_required (Permission.Name p) && tag_max 50 (Permission.Name p) && tag_required (Permission.Category p) &&
  tag_required (Permission.Slug p) && tag_max 50 (Permission.Slug p) &&
  tag_oneof_int [0; 1] (Permission.Status p) && tag_oneof http_methods (Permission.HttpMethod p) &&
  tag_required (Permission.HttpPath p) && tag_max 65535 (Permission.HttpPath p).

(** Values an update may write. *)
Definition role_col_ok (c : role_col) : bool :=
  match c with
  | RoleName v => tag_required v && tag_max 50 v
  | RoleSlug v => tag_required v
  | RoleStatus v => tag_oneof_int [0; 1] v
  | RoleUpdatedAt _ => true
  end.
Definition api_col_ok (c : api_col) : bool :=
  match c with
  | ApiName v | ApiSlug v => tag_required v && tag_max 50 v
  | ApiCategory v => tag_required v
  | ApiStatus v => tag_oneof_int [0; 1] v
  | ApiMethod v => tag_oneof http_methods v
  | ApiPath v => tag_required v && tag_max 65535 v
  | ApiSort _ | ApiUpdatedAt _ => true
  end.

Lemma role_cols_ok l r : Forall role_col_ok l → role_row_ok r → role_row_ok (foldl (λ r c, set_role_col c r) r l).
Proof.
  intros Hl. revert r. induction Hl as [|c l Hc _ IH]; intros r Hr; [done|]. apply IH.
  destruct c; [| | |done]; unfold role_row_ok in *; cbn in *; rewrite !andb_True in *; tauto.
Qed.
Lemma api_cols_ok l p : Forall api_col_ok l → api_row_ok p → api_row_ok (foldl (λ p c, set_api_col c p) p l).
Proof.
  intros Hl. revert p. induction Hl as [|c l Hc _ IH]; intros p Hp; [done|]. apply IH.
  destruct p, c; [| | | | | |done|done]; unfold api_row_ok in *; cbn in *; rewrite !andb_True in *; tauto.
Qed.

Section Rows.
Context {S : Type} {Q : Sql S access} {L : SqlLaws S access} {R : Type} {T : Rows R}.
Variable P : R → Prop.
Notation good s := (Forall P (rw_get (sql_view s))).

Lemma row_update_Forall id f s s' r :
  row_update id f s = (s', r) → (∀ x, P x → P (f x)) → good s → good s'.
Proof.
  unfold row_update. intros E Hf Hs. apply sql_exec_spec in E. rewrite E. destruct (is_ok r); [|done].
  rewrite rw_get_put. apply Forall_fmap. eapply Forall_impl; [exact Hs|]. intros x Hx. cbn. case_match; auto.
Qed.
Lemma row_delete_Forall (p : R → bool) s s' r : row_delete p s = (s', r) → good s → good s'.
Proof.
  unfold row_delete. intros E Hs. apply sql_exec_spec in E. rewrite E. destruct (is_ok r); [|done].
  rewrite rw_get_put. apply Forall_forall. intros x Hx%list_elem_of_In%filter_In.
  destruct Hx as [Hx _]. rewrite Forall_forall in Hs. by apply Hs, list_elem_of_In.
Qed.
Lemma row_create_Forall `{!Creates S R, !CreatesLaws S R} x s s' r :
  row_create x s = (s', r) → (∀ k, P (rw_set_id k x)) → good s → good s'.
Proof.
  intros E Hx Hs. apply row_create_spec in E. destruct r as [u|e]; [|by rewrite E].
  destruct E as (k & _ & ->). rewrite rw_get_put. apply Forall_app. split; [done|]. by constructor.
Qed.
Lemma checked_delete_Forall (c : M S (option error)) (p : R → bool) s s' r :
  keeps sql_view c →
  (x ← c; match x with Some e => mret (Err e) | None => row_delete p end) s = (s', r) → good s → good s'.
Proof.
  intros Hc E Hs. open_bind E as s1 x E1. apply Hc in E1. rewrite <- E1 in Hs.
  destruct x; [by injection E as <- _|]. by eapply row_delete_Forall.
Qed.
End Rows.

Lemma checked_col_ok {S C : Type} (ok : C → bool) new old (ex : M S (result bool)) failed taken (col : C) s s' l :
  checked_col new old ex failed taken col s = (s', Ok l) → (tag_required new → ok col) → Forall ok l.
Proof.
  unfold checked_col, tag_required. destruct (String.eqb new "") eqn:Hn; cbn; [by intros [= _ <-] _|].
  destruct (negb (String.eqb new old)); [|by intros [= _ <-] _]. intros E Hok. open_bind E as s1 x E1.
  injection E as _ E. destruct x as [[]|]; [done| |done]. injection E as <-. constructor; [by apply Hok|done].
Qed.
Lemma set_if_ok {C} (ok : C → bool) v (col : string → C) : (tag_required v → ok (col v)) → Forall ok (set_if v col).
Proof. unfold set_if, tag_required. destruct (String.eqb v ""); intros Hok; constructor; [by apply Hok|done]. Qed.
Lemma set_opt_ok {C} (ok : C → bool) v (col : Z → C) : (∀ z, v = Some z → ok (col z)) → Forall ok (set_opt v col).
Proof. destruct v; intros Hok; constructor; [by apply Hok|done]. Qed.
Lemma omitempty_ok p s : omitempty p s → tag_required s → p s.
Proof. unfold omitempty, tag_required. by destruct (String.eqb s ""). Qed.
Lemma status_ok s z : status_tag s → s = Some z → tag_oneof_int [0; 1] z.
Proof. by intros ? ->. Qed.

Section AdminRows.
Context {S : Type} {Q : Sql S access} {L : SqlLaws S access}.
Context {CR : Creates S Role} {CA : Creates S Permission} {LR : CreatesLaws S Role} {LA : CreatesLaws S Permission}.
Variable col_eq : string → string → bool.
Hypothesis col_eq_sym : ∀ a b, col_eq a b = col_eq b a.
Variable is_duplicate : error → bool.
Notation roles_ok s := (Forall role_row_ok (a_roles (sql_view s))).
Notation apis_ok s := (Forall api_row_ok (a_perms (sql_view s))).

Lemma CreateRole_rows req s s' r :
  CreateRoleRequest_ok req → CreateRole col_eq is_duplicate req s = (s', r) → roles_ok s → roles_ok s'.
Proof.
  unfold CreateRole, CreateRoleRequest_ok. rewrite !andb_True. intros ((((Hn & _) & Hm) & Hst) & Hsl) E Hs.
  case_match; [by injection E as <- _|].
  open_bind E as s1 n E1. apply row_exists_spec in E1 as [V1 _]. rewrite <- V1 in Hs.
  destruct n as [[]|]; [by injection E as <- _| |by injection E as <- _].
  case_match; [by injection E as <- _|]. open_bind E as s2 n E2. apply row_exists_spec in E2 as [V2 _].
  rewrite <- V2 in Hs. destruct n as [[]|]; [by injection E as <- _| |by injection E as <- _].
  destruct (CreateRoleRequest.Status req) as [st|] eqn:Es; [|by injection E as <- _].
  open_bind E as s3 x E3. injection E as <- _.
  refine (row_create_Forall (T := role_rows) _ _ _ _ _ E3 _ Hs).
  intros k. unfold role_row_ok. cbn. rewrite !andb_True. tauto.
Qed.

Lemma CreateAPI_rows req s s' r :
  CreateAPIRequest_ok req → CreateAPI col_eq is_duplicate req s = (s', r) → apis_ok s → apis_ok s'.
Proof.
  unfold CreateAPI, CreateAPIRequest_ok, short. rewrite !andb_True. intros Hok E Hs.
  case_match; [by injection E as <- _|]. case_match; [by injection E as <- _|].
  open_bind E as s1 n E1. apply row_exists_spec in E1 as [V1 _]. rewrite <- V1 in Hs.
  destruct n as [[]|]; [by injection E as <- _| |by injection E as <- _].
  destruct (CreateAPIRequest.Status req) as [st|] eqn:Es; [|by injection E as <- _].
  open_bind E as s3 x E3. injection E as <- _.
  refine (row_create_Forall (T := api_rows) _ _ _ _ _ E3 _ Hs).
  intros k. unfold api_row_ok. cbn. rewrite !andb_True. unfold required_status in Hok. tauto.
Qed.

Lemma UpdateRole_rows now req s s' r :
  UpdateRoleRequest_ok req → UpdateRole col_eq now req s = (s', r) → roles_ok s → roles_ok s'.
Proof.
  unfold UpdateRole, UpdateRoleRequest_ok. rewrite !andb_True. intros [Hn Hst] E Hs.
  open_bind E as s1 g E1. apply row_GetByID_view in E1. rewrite <- E1 in Hs.
  destruct g as [[ex|]|]; [|by injection E as <- _..].
  open_bind E as s2 n E2. pose proof E2 as C2. apply checked_col_spec in E2 as [V2 _]. rewrite <- V2 in Hs.
  destruct n as [nc|]; [|by injection E as <- _].
  open_bind E as s3 c E3. pose proof E3 as C3. apply checked_col_spec in E3 as [V3 _]. rewrite <- V3 in Hs.
  destruct c as [sc|]; [|by injection E as <- _].
  eapply (checked_col_ok role_col_ok) in C2; [|intros Hr; cbn; rewrite andb_True; split; [done|by eapply omitempty_ok]].
  eapply (checked_col_ok role_col_ok) in C3; [|done].
  assert (Forall role_col_ok (nc ++ sc ++ set_opt (UpdateRoleRequest.Status req) RoleStatus)) as Hc.
  { rewrite !Forall_app. split; [done|]. split; [done|]. apply set_opt_ok. intros z. by apply status_ok. }
  destruct (nc ++ _) as [|c0 cols]; [by injection E as <- _|].
  open_bind E as s4 x E4. injection E as <- _.
  refine (row_update_Forall (T := role_rows) _ _ _ _ _ _ E4 _ Hs).
  intros y Hy. apply role_cols_ok; [|done]. apply Forall_app. split; [done|by constructor].
Qed.

Lemma UpdateAPI_rows now req s s' r :
  UpdateAPIRequest_ok req → UpdateAPI col_eq now req s = (s', r) → apis_ok s → apis_ok s'.
Proof.
  unfold UpdateAPI, UpdateAPIRequest_ok. rewrite !andb_True. intros (((((_ & Hn) & Hsl) & Hst) & Hm) & Hp) E Hs.
  open_bind E as s1 g E1. apply row_GetByID_view in E1. rewrite <- E1 in Hs.
  destruct g as [[ex|]|]; [|by injection E as <- _..].
  open_bind E as s2 n E2. pose proof E2 as C2. apply checked_col_spec in E2 as [V2 _]. rewrite <- V2 in Hs.
  destruct n as [sc|]; [|by injection E as <- _].
  assert (∀ v, omitempty short v → tag_required v → tag_required v && tag_max 50 v) as Hshort.
  { intros v Hv Hr. pose proof (omitempty_ok _ _ Hv Hr) as Hx. unfold short in Hx. rewrite andb_True in *. tauto. }
  eapply (checked_col_ok api_col_ok) in C2; [|by apply Hshort].
  set (cols := sc ++ _) in E. assert (Forall api_col_ok cols) as Hc.
  { unfold cols. rewrite !Forall_app. split; [done|]. split; [apply set_if_ok; by apply Hshort|].
    split; [by apply set_if_ok|]. split; [apply set_opt_ok; intros z; by apply status_ok|].
    split; [apply set_if_ok; intros Hr; by apply omitempty_ok|].
    split; [|by apply set_opt_ok]. apply set_if_ok. intros Hr. cbn. rewrite andb_True. split; [done|by apply omitempty_ok]. }
  destruct cols as [|c0 cols]; [by injection E as <- _|].
  open_bind E as s4 x E4. injection E as <- _.
  refine (row_update_Forall (T := api_rows) _ _ _ _ _ _ E4 _ Hs).
  intros y Hy. apply api_cols_ok; [|done]. apply Forall_app. split; [done|by constructor].
Qed.

(** ** Requests *)

(** The requests that change roles, APIs and permissions. *)
Inductive perm_request : Type :=
  | ReqRoleCreate (body : result CreateRoleRequest)
  | ReqRoleUpdate (now : Z) (body : result UpdateRoleRequest)
  | ReqRoleDelete (id : string)
  | ReqRoleBatchDelete (body : result (option (list Z)))
  | ReqApiCreate (body : result CreateAPIRequest)
  | ReqApiUpdate (now : Z) (body : result UpdateAPIRequest)
  | ReqApiDelete (id : string)
  | ReqApiBatchDelete (body : result (option (list Z)))
  | ReqRolePermission (id : string) (body : result (option (list Z) * option (list Z))).
Definition serve_perm (q : perm_request) : M S (Reply string) :=
  match q with
  | ReqRoleCreate b => role_ctrl_Create col_eq is_duplicate b
  | ReqRoleUpdate now b => role_ctrl_Update col_eq now b
  | ReqRoleDelete id => role_ctrl_Delete id
  | ReqRoleBatchDelete b => role_ctrl_BatchDelete b
  | ReqApiCreate b => api_ctrl_Create col_eq is_duplicate b
  | ReqApiUpdate now b => api_ctrl_Update col_eq now b
  | ReqApiDelete id => api_ctrl_Delete id
  | ReqApiBatchDelete b => api_ctrl_BatchDelete b
  | ReqRolePermission id b => role_ctrl_UpdateRolePermission id b
  end.

Definition tables_ok (v : access) : Prop :=
  (unique_by col_eq Role.Name (a_roles v) ∧ unique_by col_eq Permission.Slug (a_perms v)) ∧
  Forall role_row_ok (a_roles v) ∧ Forall api_row_ok (a_perms v).

(** A request that passed its tags. *)
Definition op_ok (o : admin_op) : bool :=
  match o with
  | OpCreateRole r => CreateRoleRequest_ok r
  | OpUpdateRole _ r => UpdateRoleRequest_ok r
  | OpCreateAPI r => CreateAPIRequest_ok r
  | OpUpdateAPI _ r => UpdateAPIRequest_ok r
  | _ => true
  end.

Lemma run_admin_rows o s s' r :
  op_ok o → run_admin col_eq is_duplicate o s = (s', r) → roles_ok s ∧ apis_ok s → roles_ok s' ∧ apis_ok s'.
Proof.
  intros Ho E [Hr Ha]. pose proof (run_admin_other _ _ _ _ _ _ E) as Hf. destruct o; cbn in Ho, E, Hf; rewrite Hf.
  - split; [by eapply CreateRole_rows|done].
  - split; [by eapply UpdateRole_rows|done].
  - split; [|done]. eapply (checked_delete_Forall (T := role_rows) role_row_ok _ _ s s' r); [|exact E|done]; apply missing_view.
  - split; [|done]. destruct ids; [by injection E as <- _|].
    eapply (checked_delete_Forall (T := role_rows) role_row_ok _ _ s s' r); [|exact E|done]; apply keeps_for_ret; intros; apply missing_view.
  - split; [done|by eapply CreateAPI_rows].
  - split; [done|by eapply UpdateAPI_rows].
  - split; [done|]. eapply (checked_delete_Forall (T := api_rows) api_row_ok _ _ s s' r); [|exact E|done]; apply missing_view.
  - split; [done|]. destruct ids; [by injection E as <- _|].
    eapply (checked_delete_Forall (T := api_rows) api_row_ok _ _ s s' r); [|exact E|done]; apply keeps_for_ret; intros; apply missing_view.
Qed.

Lemma run_admin_tables o s s' r msg :
  op_ok o → done_with msg (run_admin col_eq is_duplicate o) s = (s', r) →
  tables_ok (sql_view s) → tables_ok (sql_view s').
Proof.
  intros Ho E [Hu Hk]. unfold done_with in E. open_bind E as s1 x E1. injection E as <- _.
  split; [by eapply run_admin_unique|by eapply run_admin_rows].
Qed.

Lemma with_body_inv {A D : Type} (ok : A → bool) bad body (k : A → M S (Reply D)) s s' r :
  with_body ok bad body k s = (s', r) → s' = s ∨ ∃ a, ok a ∧ k a s = (s', r).
Proof.
  unfold with_body, ShouldBind. destruct body as [a|e]; [|by intros [= <- _]; left].
  destruct (ok a) eqn:Ha; [|by intros [= <- _]; left]. intros E. right. exists a. by rewrite Ha.
Qed.
Lemma with_id_inv {D : Type} bad id (k : Z → M S (Reply D)) s s' r :
  with_id bad id k s = (s', r) → s' = s ∨ ∃ i, k i s = (s', r).
Proof. unfold with_id. destruct (Atoi id); [by right; eexists|by intros [= <- _]; left]. Qed.

Lemma serve_perm_tables q s s' r :
  serve_perm q s = (s', r) → tables_ok (sql_view s) → tables_ok (sql_view s').
Proof.
  intros E Ht. destruct q; cbn in E.
  - apply with_body_inv in E as [->|(req & Hok & E)]; [done|]. by eapply (run_admin_tables (OpCreateRole req)).
  - apply with_body_inv in E as [->|(req & Hok & E)]; [done|]. by eapply (run_admin_tables (OpUpdateRole now req)).
  - apply with_id_inv in E as [->|(i & E)]; [done|]. by eapply (run_admin_tables (OpDeleteRole i)).
  - apply with_body_inv in E as [->|(ids & _ & E)]; [done|]. by eapply (run_admin_tables (OpBatchDeleteRoles _)).
  - apply with_body_inv in E as [->|(req & Hok & E)]; [done|]. by eapply (run_admin_tables (OpCreateAPI req)).
  - apply with_body_inv in E as [->|(req & Hok & E)]; [done|]. by eapply (run_admin_tables (OpUpdateAPI now req)).
  - apply with_id_inv in E as [->|(i & E)]; [done|]. by eapply (run_admin_tables (OpDeleteAPI i)).
  - apply with_body_inv in E as [->|(ids & _ & E)]; [done|]. by eapply (run_admin_tables (OpBatchDeleteAPIs _)).
  - apply with_id_inv in E as [->|(i & E)]; [done|]. apply with_body_inv in E as [->|(req & _ & E)]; [done|].
    unfold done_with in E. open_bind E as s1 x E1. injection E as <- _.
    apply UpdateRolePermission_spec in E1. destruct x; [|by rewrite E1].
    by destruct E1 as (ms & ps & -> & _).
Qed.

(** C33: Whatever requests the permission pages send, one after the other, with
    any failures of the database in between, no two roles come to share a name
    and no two APIs a slug, and every row stays well formed: names and slugs are
    there and short, the status is 0 or 1, the method is one of the four. *)
Theorem perm_requests_keep_tables (qs : list perm_request) s
  (Ht : tables_ok (sql_view s)) :
  tables_ok (sql_view (for_collect qs serve_perm s).1).
Proof.
  revert s Ht. induction qs as [|q qs IH]; intros s Ht; [done|].
  cbn [for_collect]. unfold mbind, M_bind, mret, M_ret.
  destruct (serve_perm q s) as [w r] eqn:E. apply serve_perm_tables in E; [|done].
  specialize (IH w E). by destruct (for_collect qs serve_perm w).
Qed.
End AdminRows.

Section MenuRequests.
Context {S : Type} {T : Table S Menu} {L : TableLaws S Menu}.
Variable col_eq : string → string → bool.
Hypothesis col_eq_sym : ∀ a b, col_eq a b = col_eq b a.
Variable is_duplicate : error → bool.

Inductive menu_request_step (s : S) : S → Prop :=
  | menu_create b s' r : menu_ctrl_Create col_eq is_duplicate b s = (s', r) → menu_request_step s s'
  | menu_update now b s' r : menu_ctrl_Update col_eq now b s = (s', r) → menu_request_step s s'
  | menu_delete id s' r : menu_ctrl_Delete id s = (s', r) → menu_request_step s s'
  | menu_batch b s' r : menu_ctrl_BatchDelete b s = (s', r) → menu_request_step s s'.

Lemma done_with_menu o msg s s' r :
  done_with msg (run_op col_eq is_duplicate o) s = (s', r) →
  menu_unique col_eq (tbl_rows s) → menu_unique col_eq (tbl_rows s').
Proof.
  intros E Hu. unfold done_with in E. open_bind E as s1 x E1. injection E as <- _. by eapply run_op_unique.
Qed.

(** Requests keep titles and routes of menus unique. *)
Lemma menu_requests_unique s s' :
  rtc menu_request_step s s' → menu_unique col_eq (tbl_rows s) → menu_unique col_eq (tbl_rows s').
Proof.
  induction 1 as [|s s1 s' [b ? r E|now b ? r E|id ? r E|b ? r E] _ IH]; [done|..]; intros Hu; apply IH.
  - apply with_body_inv in E as [->|(req & _ & E)]; [done|]. by eapply (done_with_menu (OpCreate req)).
  - apply with_body_inv in E as [->|(req & _ & E)]; [done|]. by eapply (done_with_menu (OpUpdate now req)).
  - apply with_id_inv in E as [->|(i & E)]; [done|]. by eapply (done_with_menu (OpDelete i)).
  - apply with_body_inv in E as [->|(ids & _ & E)]; [done|]. by eapply (done_with_menu (OpBatchDelete _)).
Qed.
End MenuRequests.

(** ** Concrete requests *)

Definition demo_perms : access :=
  mkAccess [] [Role.mkRole 1 "guest" 1 "guest" [] []]
    [Permission.mkPermission 1 "list" "Jobs" "job:list" "" 1 "GET" "/api/v1/job" 1] [] [] [] [].
(** The second, the third and the fourth are refused: a taken name, a status
    2, a method PATCH. *)
Definition demo_requests : list perm_request :=
  [ReqRoleCreate (Ok (CreateRoleRequest.mkCreateRoleRequest "auditor" (Some 1) "audit"));
   ReqRoleUpdate 0 (Ok (UpdateRoleRequest.mkUpdateRoleRequest 1 "auditor" None ""));
   ReqRoleUpdate 0 (Ok (UpdateRoleRequest.mkUpdateRoleRequest 1 "" (Some 2) ""));
   ReqApiUpdate 0 (Ok (UpdateAPIRequest.mkUpdateAPIRequest 1 "" "" "" "" None "PATCH" "" None));
   ReqApiUpdate 0 (Ok (UpdateAPIRequest.mkUpdateAPIRequest 1 "" "" "" "" (Some 0) "POST" "" None));
   ReqRolePermission "2" (Ok (Some [], Some [1]))].

Lemma perm_requests_keep_tables_witness :
  let run := for_collect demo_requests (serve_perm (S := access) String.eqb (λ _, false)) demo_perms in
  ((λ r, Code <$> Written r) <$> run.2) = [[0]; [3002]; [400]; [400]; [0]; [0]] ∧ tables_ok String.eqb run.1.
Proof.
  intros run. split; [vm_compute; reflexivity|].
  refine (perm_requests_keep_tables (S := access) String.eqb String.eqb_sym (λ _, false) demo_requests demo_perms _).
  split; [|split; by repeat constructor].
  split; intros a b; rewrite !list_elem_of_In; cbn; intros [<-|[]] [<-|[]]; done.
Defined.
