(* ===== verification/SystemCtl.v ===== *)
(** * The controllers of processes, home page and terminal

    internal/api/v1/system/controller.go, home/home_controller.go and
    terminal/controller.go on top of [SystemInfo], [Home], [Terminal] and
    [Access].  [upgraded] is the answer of the WebSocket upgrader, which accepts
    every origin. *)

From S2P Require Import Prelude GoStrings Float64 Errors Entity External MemBackend SessionRepo WsPool Access SshSessions MenuService Auth GoPath Shell FileService Terminal Users SystemInfo Home OperationLog Http AccountCtl PermCtl.

Open Scope Z_scope.

(** ** system/controller.go *)

Section SystemCtl.
Context `{B : Backend} {K : Type} {KV : Kv K} {HK : HashKv K} {H P : Type} {SH : SysHost H P}.
Notation W := (iworld (K := K) (H := H)).

Definition bad_pid : string := "无效的 PID".
Definition ctrl_TerminateProcess (pid : string) : M W (Reply string) :=
  with_id bad_pid pid (λ pid, done_with "进程已终止" (TerminateProcess pid)).
Definition ctrl_RetainProcess (pid : string) : M W (Reply string) :=
  with_id bad_pid pid (λ pid, done_with "已保留该进程" (RetainProcess pid)).
Definition ctrl_CancelRetain (pid : string) : M W (Reply string) :=
  with_id bad_pid pid (λ pid, done_with "已取消保留" (CancelRetain pid)).
Definition ctrl_GetConfig : M W (Reply ConfigResponse) := c ← GetConfig; mret (respond (Success c)).
(** The two fields of the request, absent or null when not given. *)
Definition sys_ctrl_UpdateConfig (body : result (option bool * option Z)) : M W (Reply string) :=
  match body with
  | Err _ => mret (respond (BadRequest "参数错误"))
  | Ok (enabled, Some d) =>
      if d <? 1 then mret (respond (BadRequest "最大时长必须大于0"))
      else done_with "配置已更新" (UpdateConfig enabled (Some d))
  | Ok (enabled, None) => done_with "配置已更新" (UpdateConfig enabled None)
  end.

(** The reply, empty once the connection was upgraded. *)
Definition no_reply {D} : Reply D := mkReply [] None.
Definition ctrl_HandleWebSocket (user : option ctx_value) (upgraded : result unit) (now : Z)
  : M (ConnectionPool string) (Reply unit) :=
  match user with
  | None => mret (respond (BadRequest "未找到用户信息"))
  | Some CtxOther => mret (respond (BadRequest "用户信息类型错误"))
  | Some (CtxInt userID) =>
      match upgraded with
      | Err _ => mret no_reply
      | Ok _ => _ ← modify (HandleSyMessage userID now); mret no_reply
      end
  end.

(** ** home/home_controller.go *)

Variable unix_format : Z → string.
Variables has_collector has_repo : bool.
Variable lib_text : error → string.

Definition ctrl_Overview : M W (Reply HomeOverviewResponse) :=
  r ← GetOverview unix_format has_collector has_repo;
  mret (match r with
        | Err (ErrPanic what) => panicking what
        | Err e => respond (InternalError (err_Error lib_text e))
        | Ok data => respond (Success data)
        end).
Definition ctrl_WebSocketOverview (user : option ctx_value) (upgraded : result unit) (now : Z)
  : M (ConnectionPool string) (Reply unit) :=
  match GetUserID user with
  | Err e => mret (biz_reply e)
  | Ok userID =>
      if userID =? 0 then mret (respond (BadRequest "未找到用户信息"))
      else match upgraded with
           | Err _ => mret no_reply
           | Ok _ => _ ← modify (HandleHomeMessage userID now); mret no_reply
           end
  end.
End SystemCtl.

(** ** terminal/controller.go *)

Section TerminalCtl.
Context {S : Type} {Q : Sql S access} {msg : Type}.
Variable col_eq : string → string → bool.

(** [TRefused]: answered before the upgrade.  [TClosed]: the connection was
    upgraded and closed again. *)
Inductive terminal_reply : Type :=
  | TRefused (r : Reply unit)
  | TNotUpgraded
  | TClosed (e : error)
  | TOpen (c : connection).

(** [ensured]: the answer of [EnsureSSHSessionByType]; the first size is 80 by
    24.  A connection that is open goes on as [Terminal] has it. *)
Definition ctrl_WebSocketTerminal (user : option ctx_value) (upgraded ensured : result unit) (created : Z)
  : M (S * @terminalService msg) terminal_reply :=
  match GetUserID user with
  | Err e => mret (TRefused (biz_reply e))
  | Ok userID =>
      if userID =? 0 then mret (TRefused (respond (Unauthorized "用户未登录")))
      else
        a ← lift fst (λ s w, (s, w.2)) (HasSystemAccess col_eq userID AccessTypeTerminal);
        match a with
        | Err e => mret (TRefused (biz_reply e))
        | Ok isRoot =>
            match upgraded with
            | Err _ => mret TNotUpgraded
            | Ok _ =>
                h ← lift snd (λ t w, (w.1, t)) (conn_open userID isRoot ensured created);
                mret (match h with Err e => TClosed e | Ok c => TOpen c end)
            end
        end
  end.
End TerminalCtl.

(** * Properties *)

Section TerminalCtlProps.
Context {S : Type} {Q : Sql S access} {L : SqlLaws S access} {msg : Type}.
Variable col_eq : string → string → bool.

(** C15: A terminal is opened as root only for a user who has an enabled role
    with an enabled permission for root terminals, whatever reads fail, and in
    the name of the user of the token.  A request that is refused, also because
    the right could not be read, touches no terminal, and nothing changes the
    tables of rights. *)
Theorem ctrl_WebSocketTerminal_guarded user upgraded ensured created (w w' : S * @terminalService msg) r
  (Hu : slugs_unique col_eq (sql_view w.1))
  (E : ctrl_WebSocketTerminal col_eq user upgraded ensured created w = (w', r)) :
  sql_view w'.1 = sql_view w.1 ∧
  match r with
  | TOpen c =>
      user = Some (CtxInt (c_userID c)) ∧ c_userID c ≠ 0 ∧
      (c_isRoot c = true → system_access (sql_view w.1) (c_userID c) AccessTypeTerminal) ∧
      ensured = Ok tt ∧ conn_open (c_userID c) (c_isRoot c) ensured created w.2 = (w'.2, Ok c)
  | _ => w'.2 = w.2
  end.
Proof.
  unfold ctrl_WebSocketTerminal in E. destruct (GetUserID user) as [userID|e] eqn:Eu; [|by injection E as <- <-].
  destruct (Z.eqb_spec userID 0) as [|Hz]; [by injection E as <- <-|].
  assert (user = Some (CtxInt userID)) as ->.
  { destruct user as [[z|]|]; [by injection Eu as ->|done|]. by injection Eu as ?. }
  open_bind E as w1 a E1. unfold lift in E1.
  destruct (HasSystemAccess col_eq userID AccessTypeTerminal w.1) as [s x] eqn:Ea. injection E1 as <- <-.
  apply HasSystemAccess_post in Ea as (Hv & Hs & _); [|done].
  destruct x as [isRoot|e]; [|by injection E as <- <-].
  destruct upgraded as [[]|e]; [|by injection E as <- <-].
  open_bind E as w2 h E2. unfold lift in E2. cbn [fst snd] in E2.
  destruct (conn_open userID isRoot ensured created w.2) as [t y] eqn:Eo. injection E2 as <- <-.
  injection E as <- <-. cbn [fst snd]. split; [done|].
  pose proof Eo as Eo'. unfold conn_open in Eo. destruct ensured as [[]|e].
  - destruct (Add _ _ _) as [p c]. injection Eo as <- <-. cbn.
    split; [done|]. split; [done|]. split; [intros ->; by apply Hs|done].
  - by injection Eo as <- <-.
Qed.
End TerminalCtlProps.

(** The operator of [demo_access] opens a root terminal. *)
Definition no_terminals : @terminalService string := mkTerminal NewConnectionPool ∅ ∅.
Definition demo_terminal_request :=
  ctrl_WebSocketTerminal String.eqb (Some (CtxInt 1)) (Ok tt) (Ok tt) 0 (demo_access, no_terminals).
Lemma ctrl_WebSocketTerminal_guarded_witness :
  (∃ c, snd demo_terminal_request = TOpen c ∧ c_isRoot c = true) ∧
  system_access demo_access 1 AccessTypeTerminal.
Proof.
  assert (slugs_unique String.eqb (sql_view (demo_access, no_terminals).1)) as Hu by exact demo_slugs_unique.
  pose proof (ctrl_WebSocketTerminal_guarded String.eqb (Some (CtxInt 1)) (Ok tt) (Ok tt) 0
    (demo_access, no_terminals) _ _ Hu (surjective_pairing _)) as H.
  change (ctrl_WebSocketTerminal _ _ _ _ _ _) with demo_terminal_request in H. destruct H as [_ H].
  assert (∃ c, snd demo_terminal_request = TOpen c ∧ c_isRoot c = true ∧ c_userID c = 1) as (c & Ec & Hr & Hi)
    by (eexists; split; [vm_compute; reflexivity|by split]).
  rewrite Ec in H. destruct H as (_ & _ & Ha & _). rewrite Hi in Ha. split; [by exists c|exact (Ha Hr)].
Defined.
