(* ===== verification/App.v ===== *)
(** * Start and shutdown (internal/app/app.go, cmd/server/main.go)

    The life of the process over the states of the components: the scheduler,
    the terminals with the pool of connections, the SSH sessions, the operation
    log, the disk usage scheduler and the collectors of [SystemInfo] and [Home].
    Background goroutines are counted, and the waits of the shutdown end when
    they have returned.  What [Initialize] asks the environment is given as answers; [Infra] computes
    those of the configuration and of the databases. *)

From S2P Require Import Prelude GoStrings Float64 Errors Entity External MemBackend Gpu JobRepo Queue JobService Scheduler SchedulerSpec SessionRepo WsPool SshSessions GoPath Shell FileService DiskUsage Terminal OperationLog.

Open Scope Z_scope.

(** ** Collectors *)

(** [HomeOverviewCollector] and [ResourceCollector]: [Once], the context and the
    goroutines that [wg] counts. *)
Record collector : Type := mkCollector { co_once : bool; co_cancelled : bool; co_loops : nat }.
Definition new_collector : collector := mkCollector false false 0.
Definition collector_Start (loops : nat) (c : collector) : collector :=
  if co_once c then c else mkCollector true (co_cancelled c) loops.
Definition collector_cancel (c : collector) : collector := mkCollector (co_once c) true (co_loops c).
(** A goroutine is back at its [select]: if the context is cancelled it returns
    and calls [wg.Done]. *)
Definition collector_turn (c : collector) : collector :=
  if co_cancelled c then mkCollector (co_once c) true (pred (co_loops c)) else c.
Definition collector_done (c : collector) : bool := bool_decide (co_loops c = 0%nat).
(** [Stop]; [None] when a goroutine is left after [turns] turns. *)
Definition collector_Stop (turns : nat) (c : collector) : option collector :=
  wait_for collector_done collector_turn turns (collector_cancel c).

Lemma collector_Stop_ends c :
  ∃ c', collector_Stop (co_loops c) c = Some c' ∧ co_loops c' = 0%nat.
Proof.
  destruct (wait_for_ends collector_done collector_turn (λ x, co_cancelled x = true) co_loops (co_loops c)
    (collector_cancel c)) as (c' & E & Hd & _); [|done|done|].
  - intros [o k l] Hk Hd. cbn in Hk. subst k. destruct l; [done|]. cbn. split; [done|lia].
  - exists c'. split; [exact E|]. by apply bool_decide_eq_true in Hd.
Qed.

(** The pusher, the checker and the cleaner; the overview. *)
Definition NewSystemInfoService : collector := collector_Start 3 new_collector.
Definition NewHomeService : collector := collector_Start 1 new_collector.

Module AppConfig.
(** [Server.Enabled] with the settings of the SSH server. *)
Record AppConfig : Type := mkAppConfig { Enabled : bool; Server : SshSessions.Config; Port : Z; Mode : string }.
End AppConfig.
Notation AppConfig := AppConfig.AppConfig.

Section App.
Context `{B : Backend} {D : Type} {TL : Table D UserOperationLog} {msg : Type}.

(** [a_loops]: the loops [run] and [startAuditor] of the scheduler;
    [a_sweeper]: [cleanupIdleSessions] of the terminals; [a_timer]:
    [StartCleanupTimer] of the SSH sessions. *)
Record App : Type := mkApp {
  a_scheduler : Sched;
  a_terminals : @terminalService msg;
  a_sessions : option SessionManager;
  a_log : LogManager;
  a_logs : D;
  a_disk : DiskUsageScheduler;
  a_info : collector;
  a_home : collector;
  a_serving : bool;
  a_databases : bool;
  a_loops : nat;
  a_sweeper : bool;
  a_timer : bool
}.

(** ** Start *)

Definition initConfig (loaded : result AppConfig) : result AppConfig :=
  match loaded with Err e => Err (ErrWrap "加载配置失败" e) | Ok cfg => Ok cfg end.
Definition initLogger (ready : result unit) : result unit :=
  match ready with Err e => Err (ErrWrap "日志初始化失败" e) | Ok _ => Ok tt end.
(** [InitializeGpus] is [SyncGpuCards]; [out] is the answer of nvidia-smi.  Its
    failure is a warning, as is that of the migration. *)
Definition initDatabase (mysql redis : result unit) (out : option string) : M World (result unit) :=
  match mysql with
  | Err e => mret (Err (ErrWrap "MySQL 初始化失败" e))
  | Ok _ =>
      match redis with
      | Err _ => mret (Err (ErrPanic "初始化redis失败"))
      | Ok _ =>
          g ← SyncGpuCards out;
          mret (match g with Err (ErrPanic what) => Err (ErrPanic what) | _ => Ok tt end)
      end
  end.
(** [SetSSHTimeout] of the authentication service: the setting, also a zero one,
    replaces the default of [NewSessionManager]. *)
Definition SetSSHTimeout (timeout : Z) (sm : SessionManager) : SessionManager :=
  mkManager (SetTimeout timeout (Cfg sm)) (sessions sm) (store sm) (stopped sm).
(** [NewAuthService] reads a field of the configuration it is given, which is
    nil when the SSH server is disabled. *)
Definition NewAuthService (sshConfig : option SshSessions.Config) : result string :=
  match sshConfig with
  | Some c => Ok (Config.ServerHost c)
  | None => Err (ErrPanic "nil pointer dereference")
  end.
Definition initDependencies (cfg : AppConfig) (w : World) (logs : D) : result App :=
  let sshConfig := if AppConfig.Enabled cfg then Some (AppConfig.Server cfg) else None in
  match NewAuthService sshConfig with
  | Err e => Err e
  | Ok _ =>
      Ok (mkApp (NewScheduler w) (mkTerminal NewConnectionPool ∅ ∅)
            ((λ c, SetSSHTimeout (Config.Timeout c) (NewSessionManager c)) <$> sshConfig)
            NewLogManager logs (disk_Start NewDiskUsageScheduler) NewSystemInfoService NewHomeService false true 0 true
            (match sshConfig with Some c => 0 <? Config.SessionTimeout c | None => false end))
  end.
Definition Initialize (loaded : result AppConfig) (log mysql redis : result unit) (out : option string)
  (logs : D) (w : World) : World * result App :=
  match initConfig loaded with
  | Err e => (w, Err e)
  | Ok cfg =>
      match initLogger log with
      | Err e => (w, Err e)
      | Ok _ =>
          let '(w', d) := initDatabase mysql redis out w in
          match d with
          | Err e => (w', Err e)
          | Ok _ => (w', initDependencies cfg w' logs)
          end
      end
  end.

(** [Run] up to the wait for a signal. *)
Definition set_scheduler (s : Sched) (a : App) : App :=
  mkApp s (a_terminals a) (a_sessions a) (a_log a) (a_logs a) (a_disk a) (a_info a) (a_home a) (a_serving a) (a_databases a)
    (a_loops a) (a_sweeper a) (a_timer a).
Definition set_terminals (t : @terminalService msg) (a : App) : App :=
  mkApp (a_scheduler a) t (a_sessions a) (a_log a) (a_logs a) (a_disk a) (a_info a) (a_home a) (a_serving a) (a_databases a)
    (a_loops a) (a_sweeper a) (a_timer a).
Definition set_sessions (s : option SessionManager) (a : App) : App :=
  mkApp (a_scheduler a) (a_terminals a) s (a_log a) (a_logs a) (a_disk a) (a_info a) (a_home a) (a_serving a) (a_databases a)
    (a_loops a) (a_sweeper a) (a_timer a).
Definition set_log (l : LogManager) (d : D) (a : App) : App :=
  mkApp (a_scheduler a) (a_terminals a) (a_sessions a) l d (a_disk a) (a_info a) (a_home a) (a_serving a) (a_databases a)
    (a_loops a) (a_sweeper a) (a_timer a).
Definition set_background (k : DiskUsageScheduler) (i h : collector) (a : App) : App :=
  mkApp (a_scheduler a) (a_terminals a) (a_sessions a) (a_log a) (a_logs a) k i h (a_serving a) (a_databases a)
    (a_loops a) (a_sweeper a) (a_timer a).
Definition set_open (serving databases : bool) (a : App) : App :=
  mkApp (a_scheduler a) (a_terminals a) (a_sessions a) (a_log a) (a_logs a) (a_disk a) (a_info a) (a_home a) serving databases
    (a_loops a) (a_sweeper a) (a_timer a).
Definition set_loops (n : nat) (timer : bool) (a : App) : App :=
  mkApp (a_scheduler a) (a_terminals a) (a_sessions a) (a_log a) (a_logs a) (a_disk a) (a_info a) (a_home a) (a_serving a)
    (a_databases a) n (a_sweeper a) timer.
(** [Start] ends with its two loops unless the scheduler ran already. *)
Definition Run (a : App) : App :=
  let n := if isRunning (a_scheduler a) then a_loops a else S (S (a_loops a)) in
  set_open true (a_databases a) (set_loops n (a_timer a) (set_scheduler (fst (Start (a_scheduler a))) a)).

(** ** Shutdown *)

(** What [wg.Wait] of the scheduler waits for, once [Stop] has cancelled the
    context: its loops return, and every monitor returns through its deferred
    function. *)
Definition sched_done (x : nat * Sched) : bool := bool_decide (x.1 = 0%nat) && bool_decide (length (monitors x.2) = 0%nat).
Definition sched_turn (x : nat * Sched) : nat * Sched :=
  let '(n, s) := x in
  if negb (ctx_done s) then (n, s)
  else match n, monitors s with
       | S n, _ => (n, s)
       | O, (jp, _) :: _ => (O, set_monitor 0 jp None (fst (monitor_exit jp s)))
       | O, [] => (O, s)
       end.
(** The whole of [Stop]: a scheduler that does not run is left alone. *)
Definition scheduler_Stop (turns : nat) (n : nat) (s : Sched) : option (nat * Sched) :=
  if isRunning s then wait_for sched_done sched_turn turns (n, fst (Stop s)) else Some (n, s).

(** The timer of the SSH sessions is back at its [select]: it returns when
    [stopChan] is closed. *)
Definition timer_turn (a : App) : App :=
  match a_sessions a with
  | Some sm => if stopped sm then set_loops (a_loops a) false a else a
  | None => a
  end.

(** The steps of [gracefulShutdown] in their order; an [Err] is a panic, or a
    wait that does not end.  Each step has the lock of its component; requests
    are served between them until the HTTP server is down.  A goroutine that is
    waited for has as many turns as there are goroutines; before it sees the
    cancelled context it may take a tick that is due as well. *)
Inductive stage : Type :=
  | ClosePool | CloseTerminals | StopScheduler | StopDisk | StopInfo | StopHome | CloseLog
  | ShutdownServer | CloseSessions | CloseDatabases.
Definition stages : list stage :=
  [ClosePool; CloseTerminals; StopScheduler; StopDisk; StopInfo; StopHome; CloseLog; ShutdownServer;
   CloseSessions; CloseDatabases].

(** [Close] of the log closes the queue and waits until the consumer has
    taken every entry. *)
Fixpoint drain (q : list UserOperationLog) (d : D) : D :=
  match q with [] => d | e :: q => drain q (fst (consume e d)) end.
Definition waited {X : Type} (o : option X) (f : X → App) : result App :=
  match o with Some x => Ok (f x) | None => Err (ErrMsg "still waiting") end.
Definition run_stage (s : stage) (a : App) : result App :=
  match s with
  | ClosePool =>
      match WsPool.CloseAll (t_pool (a_terminals a)) with
      | Err e => Err e
      | Ok p => Ok (set_terminals (set_pool p (a_terminals a)) a)
      end
  | CloseTerminals => Ok (set_terminals (CloseAllTerminals (a_terminals a)) a)
  | StopScheduler =>
      waited (scheduler_Stop (a_loops a + length (monitors (a_scheduler a))) (a_loops a) (a_scheduler a))
        (λ x, set_loops x.1 (a_timer a) (set_scheduler x.2 a))
  | StopDisk =>
      waited (disk_Stop (disk_left (a_disk a)) (a_disk a)) (λ d, set_background d (a_info a) (a_home a) a)
  | StopInfo =>
      waited (collector_Stop (co_loops (a_info a)) (a_info a)) (λ c, set_background (a_disk a) c (a_home a) a)
  | StopHome =>
      waited (collector_Stop (co_loops (a_home a)) (a_home a)) (λ c, set_background (a_disk a) (a_info a) c a)
  | CloseLog =>
      match lm_close (a_log a) with
      | Err e => Err e
      | Ok _ => Ok (set_log (mkLogManager [] true) (drain (logChan (a_log a)) (a_logs a)) a)
      end
  | ShutdownServer => Ok (set_open false (a_databases a) a)
  | CloseSessions =>
      match a_sessions a with
      | None => Ok a
      | Some sm => match SshSessions.CloseAll sm with Err e => Err e | Ok sm' => Ok (set_sessions (Some sm') a) end
      end
  | CloseDatabases => Ok (set_open (a_serving a) false a)
  end.
Fixpoint run_stages (l : list stage) (a : App) : result App :=
  match l with
  | [] => Ok a
  | s :: l => match run_stage s a with Err e => Err e | Ok a' => run_stages l a' end
  end.
Definition gracefulShutdown : App → result App := run_stages stages.
End App.
Arguments App {B} D msg.

(** * Properties *)

(** ** The pool *)

Section KnownClients.
Context {msg : Type}.
Implicit Types (p : ConnectionPool msg) (t : @terminalService msg).

(** Every client was registered with its metadata. *)
Definition known (p : ConnectionPool msg) : Prop :=
  map_Forall (λ _ cl, is_Some (Client.Metadata cl)) (heap p).
Definition closed_client (p : ConnectionPool msg) (c : positive) : Prop :=
  ∀ cl, heap p !! c = Some cl → Client.closed cl = true.

Lemma known_Add u md p : known p → known (fst (Add u (Some md) p)).
Proof.
  intros Hk. unfold Add. destruct (has_role (Some md) "admin"); cbn; by apply map_Forall_insert_2.
Qed.
Lemma close_tables_heap c md p p' : close_tables c md p = Some p' → heap p' = heap p.
Proof. unfold close_tables. intros H. repeat case_match; by simplify_eq. Qed.
Lemma Close_known c p :
  known p → ∃ p', Close c p = Ok p' ∧ known p' ∧ closed_client p' c ∧
    ∀ k, closed_client p k → closed_client p' k.
Proof.
  intros Hk. unfold Close, closed_client. destruct (heap p !! c) as [cl|] eqn:Hc.
  2:{ exists p. split_and!; [done|done|by rewrite Hc|done]. }
  destruct (Client.closed cl) eqn:Ho.
  { exists p. split_and!; [done|done|rewrite Hc; by intros ? [= <-]|done]. }
  destruct (Hk c cl Hc) as [m Hm]. rewrite Hm.
  destruct (close_tables c (Some m) p) as [p1|] eqn:Ht.
  2:{ unfold close_tables in Ht. repeat case_match; simplify_eq. }
  eexists. split; [done|]. apply close_tables_heap in Ht. unfold known. cbn. rewrite Ht. split_and!.
  - by apply map_Forall_insert_2.
  - rewrite lookup_insert_eq. by intros ? [= <-].
  - intros k Hcl x. destruct (decide (c = k)) as [<-|]; [rewrite lookup_insert_eq; by intros [= <-]|].
    rewrite lookup_insert_ne by done. apply Hcl.
Qed.
Lemma known_close_client c p : known p → known (close_client c p).
Proof. intros Hk. unfold close_client. by destruct (Close_known c p Hk) as (p' & -> & ? & _). Qed.
Lemma known_foldr_close cs p : known p → known (foldr close_client p cs).
Proof. intros Hk. induction cs as [|c cs IH]; [done|]. by apply known_close_client. Qed.
Lemma known_send d c p p' : send d c p = Ok p' → known p → known p'.
Proof.
  unfold send. destruct (heap p !! c) as [cl|] eqn:Hc; [|by intros [= <-]].
  destruct (Client.closed cl); [done|]. case_decide; intros [= <-] Hk; [|done].
  apply map_Forall_insert_2; [exact (Hk c cl Hc)|done].
Qed.
Lemma known_safe_send m c p : known p → known (safeSendTerminalMessage m c p).
Proof.
  intros Hk. unfold safeSendTerminalMessage. destruct m as [m|]; [|done].
  destruct (send m c p) eqn:E; [by eapply known_send|done].
Qed.
Lemma known_foldr_send m cs p : known p → known (foldr (safeSendTerminalMessage m) p cs).
Proof. intros Hk. induction cs as [|c cs IH]; [done|]. by apply known_safe_send. Qed.

Lemma close_list_closes cs p :
  known p → ∃ p', close_list cs p = Ok p' ∧ known p' ∧
    (∀ c, c ∈ cs ∨ closed_client p c → closed_client p' c).
Proof.
  revert p. induction cs as [|c cs IH]; intros p Hk; cbn.
  { exists p. split_and!; [done|done|]. intros c [[]%elem_of_nil|?]; done. }
  destruct (Close_known c p Hk) as (p1 & -> & Hk1 & Hc & Hmono). destruct (IH p1 Hk1) as (p' & -> & Hk' & Hall).
  exists p'. split_and!; [done|done|]. intros k [[->|Hk2]%elem_of_cons|Hk2]; apply Hall; auto.
Qed.

Lemma on_wrapper_pool {A} r f (none : A) t : t_pool (on_wrapper r f none t).1 = t_pool t.
Proof. unfold on_wrapper. destruct (t_store t !! r) as [sw|]; [|done]. by destruct (f sw). Qed.
Lemma known_close_ref r b t : known (t_pool t) → known (t_pool (close_ref r b t)).
Proof.
  intros Hk. unfold close_ref. pose proof (on_wrapper_pool r close_wrapper [] t) as Hp.
  destruct (on_wrapper r close_wrapper [] t) as [t' cs]. cbn in Hp.
  destruct b; cbn; [apply known_foldr_close|]; by rewrite Hp.
Qed.
Lemma known_close_keys P t : known (t_pool t) → known (t_pool (close_keys P t)).
Proof.
  intros Hk. unfold close_keys, take_keys. generalize ((map_to_list (filter (λ x, P x.1 = true) (t_sessions t))).*2).
  intros l. induction l as [|r l IH]; [done|]. by apply known_close_ref.
Qed.

Lemma known_close_session u root b t : known (t_pool t) → known (t_pool (closeTerminalSession u root b t)).
Proof. intros Hk. unfold closeTerminalSession, take_key. destruct (t_sessions t !! _); [by apply known_close_ref|done]. Qed.

Lemma close_ref_mono r b t c :
  known (t_pool t) → closed_client (t_pool t) c → closed_client (t_pool (close_ref r b t)) c.
Proof.
  intros Hk Hc. unfold close_ref. pose proof (on_wrapper_pool r close_wrapper [] t) as Hp.
  destruct (on_wrapper r close_wrapper [] t) as [t' cs]. cbn in Hp. rewrite <- Hp in Hk, Hc.
  destruct b; cbn; [|done]. induction cs as [|x cs IH]; [done|]. cbn. unfold close_client at 1.
  destruct (Close_known x _ (known_foldr_close cs _ Hk)) as (p' & -> & _ & _ & Hm). by apply Hm.
Qed.
Lemma close_keys_mono P t c :
  known (t_pool t) → closed_client (t_pool t) c → closed_client (t_pool (close_keys P t)) c.
Proof.
  intros Hk Hc. unfold close_keys, take_keys. generalize ((map_to_list (filter (λ x, P x.1 = true) (t_sessions t))).*2).
  set (t0 := mkTerminal _ _ _). intros l.
  assert (known (t_pool (foldr (λ r, close_ref r true) t0 l)) ∧
          closed_client (t_pool (foldr (λ r, close_ref r true) t0 l)) c) as [_ ?]; [|done].
  induction l as [|r l [IH1 IH2]]; [done|]. cbn. split; [by apply known_close_ref|by apply close_ref_mono].
Qed.

Lemma known_terminal_step encode t t' : terminal_step encode t t' → known (t_pool t) → known (t_pool t').
Proof.
  intros Hs Hk. destruct Hs as [u root e n ? ? r H|u root i n cl cr ? ? r H|n a m c ? ? c' r H|n a b r c ? ? c' H
    |n r c ?|c ?|n r c ?|n r p ?|key r ?|n u root c r a ? ? x H|u ?|?|key ?].
  - unfold conn_open in H. destruct e; [|by injection H as <- _].
    destruct (Add u _ _) as [p c] eqn:E. injection H as <- _. cbn.
    replace p with (fst (Add u (Some (terminal_metadata u n)) (t_pool (closeTerminalSession u root true t)))) by by rewrite E.
    by apply known_Add, known_close_session.
  - unfold getOrCreateTerminalSession in H. repeat case_match; by injection H as <- _.
  - unfold messageHandler in H. destruct m as [cols rows| |data|].
    + destruct (c_sw c); injection H as <- _ _; [by rewrite on_wrapper_pool|done].
    + injection H as <- _ _. by apply known_close_session.
    + destruct (c_sw c) as [r'|]; [|by injection H as <- _ _].
      pose proof (on_wrapper_pool r' (writeInput n data a) (Err no_terminal) t) as Hp.
      destruct (on_wrapper r' _ _ t). injection H as <- _ _. cbn in Hp. by rewrite Hp.
    + by injection H as <- _ _.
  - unfold conn_init in H. injection H as <- _.
    destruct (c_pendingInput c), (c_pendingResize c) as [[cols rows]|]; by rewrite ?on_wrapper_pool.
  - unfold conn_bind. cbn. apply known_safe_send. by rewrite on_wrapper_pool.
  - by apply known_close_client.
  - unfold conn_done. by rewrite on_wrapper_pool.
  - unfold Write. destruct (t_store t !! r) as [sw|]; [|done]. destruct (write_output n p sw) as [sw' [|x l]]; [done|].
    by apply known_foldr_send.
  - unfold closeTerminalSessionByKey, take_key. destruct (t_sessions t !! key); [|done].
    case_bool_decide; [by apply known_close_ref|done].
  - unfold ResizeTerminal in H. destruct (t_sessions t !! _) as [y|]; [|by injection H as <- _].
    pose proof (on_wrapper_pool y (resize n c r a) (Err no_terminal) t) as Hp. rewrite H in Hp. cbn in Hp. by rewrite Hp.
  - by apply known_close_keys.
  - by apply known_close_keys.
  - unfold close_key, take_key. destruct (t_sessions t !! key); [by apply known_close_ref|done].
Qed.
End KnownClients.

(** ** Sessions *)

Lemma close_list_closed l sm r s :
  r ∈ l → store (foldr (λ r, SshSessions.update r UserSession.close) sm l) !! r = Some s → UserSession.closed s = true.
Proof.
  induction l as [|x l IH]; [by intros ?%elem_of_nil|]. intros Hr. cbn.
  destruct (decide (x = r)) as [<-|Hne].
  - rewrite lookup_alter_eq. intros Hs. apply fmap_Some in Hs as (s0 & _ & ->). done.
  - rewrite lookup_alter_ne by done. apply IH. apply elem_of_cons in Hr as [->|?]; done.
Qed.

(** [CloseAll] closes every session of the table. *)
Lemma CloseAll_closes sm :
  sm_inv sm → stopped sm = false →
  ∃ sm', SshSessions.CloseAll sm = Ok sm' ∧ stopped sm' = true ∧ sessions sm' = ∅ ∧
    ∀ key r s, sessions sm !! key = Some r → store sm' !! r = Some s → UserSession.closed s = true.
Proof.
  intros Hi Hs. unfold SshSessions.CloseAll. rewrite Hs. eexists. split; [done|]. split; [done|]. split; [done|].
  intros key r s Hl. cbn. apply close_list_closed. apply list_elem_of_fmap. exists (key, r). split; [done|].
  apply elem_of_map_to_list, map_lookup_filter_Some. split; [done|]. cbn. unfold ref_is.
  by destruct (Hi _ _ Hl) as (s0 & -> & _).
Qed.

(** ** The life of the process *)

Section AppProps.
Context `{B : Backend} {BL : BackendLaws B} {D : Type} {TL : Table D UserOperationLog} {msg : Type}.
Variable encode : Terminal.bytes → option msg.
Notation A := (App D msg).

(** The tasks of the disk usage scheduler begin and end. *)
Inductive disk_step : DiskUsageScheduler → DiskUsageScheduler → Prop :=
  | dk_first d : (0 < ds_first d)%nat → disk_step d (fst (first_task d))
  | dk_timer d : (0 < ds_loops d)%nat → disk_step d (fst (begin_task d))
  | dk_end d : ds_busy d = true → disk_step d (end_task d).

(** What the components do while the server runs, in any order: each step
    holds the lock of its component; closing a terminal is one step here, and
    [TerminalConc] has it in pieces.  Only the shutdown stops the scheduler, and
    a new process is another start. *)
Inductive app_step : A → A → Prop :=
  | as_terminal t a : terminal_step encode (a_terminals a) t → app_step a (set_terminals t a)
  | as_connect u md a :
      app_step a (set_terminals (set_pool (fst (Add u (Some md) (t_pool (a_terminals a)))) (a_terminals a)) a)
  | as_disconnect c p a : Close c (t_pool (a_terminals a)) = Ok p →
      app_step a (set_terminals (set_pool p (a_terminals a)) a)
  | as_push data c p a : send data c (t_pool (a_terminals a)) = Ok p →
      app_step a (set_terminals (set_pool p (a_terminals a)) a)
  | as_session sm sm' a : a_sessions a = Some sm → sm_step sm sm' → stopped sm' = stopped sm →
      app_step a (set_sessions (Some sm') a)
  | as_scheduler s a : step (a_scheduler a) s → isRunning s = true → ctx_done s = false →
      app_step a (set_scheduler s a)
  | as_disk d a : disk_step (a_disk a) d → app_step a (set_background d (a_info a) (a_home a) a)
  | as_log e l b a : lm_send e (a_log a) = Ok (l, b) → app_step a (set_log l (a_logs a) a)
  | as_save e q d b a : logChan (a_log a) = e :: q → consume e (a_logs a) = (d, b) →
      app_step a (set_log (mkLogManager q (lm_closed (a_log a))) d a).

Definition app_ok (a : A) : Prop :=
  (terminals_wf (a_terminals a) ∧ known (t_pool (a_terminals a))) ∧
  (∀ sm, a_sessions a = Some sm → sm_inv sm ∧ stopped sm = false) ∧
  lm_closed (a_log a) = false ∧
  (ds_isRunning (a_disk a) = true ∧ isRunning (a_scheduler a) = true) ∧
  (is_Some (a_sessions a) ∧ a_sweeper a = true).

(** ** The flags of the scheduler *)

Lemma keeps_flags_rest {X} (c : M World X) : keeps isRunning (on_world c) ∧ keeps ctx_done (on_world c).
Proof. destruct (keeps_on_world_rest c) as (_ & _ & ? & ?). done. Qed.
#[local] Hint Extern 1 (keeps isRunning (on_world _)) => (apply keeps_flags_rest) : keeps.
#[local] Hint Extern 1 (keeps ctx_done (on_world _)) => (apply keeps_flags_rest) : keeps.
#[local] Hint Extern 1 (keeps _ (modify (track _))) => (by intros ? ? ? [= <- _]) : keeps.
#[local] Hint Extern 1 (keeps _ (modify (spawn_monitor _))) => (by intros ? ? ? [= <- _]) : keeps.
#[local] Hint Extern 1 (keeps _ (modify (untrack _))) => (by intros ? ? ? [= <- _]) : keeps.

Lemma recover_running : keeps isRunning recoverRunningJobs.
Proof. unfold recoverRunningJobs, recover_job, recover_process, handleMissingProcess. solve_keeps. Qed.
Lemma Start_running (s : Sched) : isRunning (fst (Start s)) = true.
Proof.
  unfold Start, mbind, M_bind, gets. destruct (isRunning s) eqn:Er; [done|].
  change (isRunning (fst (recoverRunningJobs (set_running s))) = true).
  destruct (recoverRunningJobs (set_running s)) as [s' u] eqn:E. exact (recover_running _ _ _ E).
Qed.
Lemma monitor_exit_flags jp : keeps isRunning (monitor_exit jp) ∧ keeps ctx_done (monitor_exit jp).
Proof. unfold monitor_exit. split; solve_keeps. Qed.

(** The wait of [Stop] ends: the loops and the monitors are gone. *)
Lemma scheduler_Stop_ends n (s : Sched) :
  isRunning s = true →
  ∃ n' s', scheduler_Stop (n + length (monitors s)) n s = Some (n', s') ∧
    isRunning s' = false ∧ n' = 0%nat ∧ monitors s' = [].
Proof.
  intros Hr. unfold scheduler_Stop. rewrite Hr.
  assert (fst (Stop s) = set_stopped s) as -> by (unfold Stop, mbind, M_bind, gets; by rewrite Hr).
  destruct (wait_for_ends sched_done sched_turn (λ x, isRunning x.2 = false ∧ ctx_done x.2 = true)
    (λ x, x.1 + length (monitors x.2))%nat (n + length (monitors s)) (n, set_stopped s))
    as ([n' s'] & E & Hd & Hn & _); [|done|done|].
  - intros [k x] [Hx Hc] Hd. cbn in Hx, Hc. unfold sched_turn. rewrite Hc. cbn [negb].
    destruct k as [|k]; [|cbn; split; [done|lia]]. unfold sched_done in Hd. cbn in Hd.
    destruct (monitors x) as [|[jp m] l] eqn:Em; [done|].
    destruct (monitor_exit jp x) as [x' u] eqn:Ex. cbn. unfold set_monitor. cbn.
    rewrite (proj2 (monitor_monitors jp m) _ _ _ Ex), Em.
    destruct (monitor_exit_flags jp) as [H1 H2]. rewrite (H1 _ _ _ Ex), (H2 _ _ _ Ex). cbn. split; [done|lia].
  - exists n', s'. apply andb_true_iff in Hd as [H1%bool_decide_eq_true H2%bool_decide_eq_true].
    cbn in *. split_and!; [done..|]. by apply nil_length_inv.
Qed.

Lemma Initialize_ok loaded log mysql redis out logs w w' a :
  Initialize loaded log mysql redis out logs w = (w', Ok a) → app_ok (Run a) ∧ a_serving (Run a) = true.
Proof.
  unfold Initialize. destruct (initConfig loaded) as [cfg|e]; [|done]. destruct (initLogger log); [|done].
  destruct (initDatabase mysql redis out w) as [w1 [u|e]]; [|done]. unfold initDependencies.
  destruct (AppConfig.Enabled cfg); [|done]. intros [= <- <-]. split; [|done].
  unfold app_ok. cbn. split; [split; [|done]|].
  - split; cbn; intros *; rewrite lookup_empty; discriminate.
  - split; [|split; [done|split; [split; [done|apply Start_running]|by split; [eexists|]]]].
    intros sm [= <-]. split; [by intros key r|done].
Qed.

Lemma app_step_ok a a' : app_step a a' → app_ok a → app_ok a'.
Proof.
  intros Hs ([Hw Hk] & Hse & Hl & [Hd Hr] & [Hso Hsw]).
  destruct Hs as [t a Ht|u md a|c p a Hc|data c p a Hc|sm sm' a Hsm Hst Hsp|s a Hst Hrun _|d a Hst|e l b a He|e q d b a Hq Hc];
    unfold app_ok; cbn.
  - split; [split; [by eapply wf_step|by eapply known_terminal_step]|done].
  - split; [split; [by apply wf_pool|by apply known_Add]|done].
  - split; [split; [by apply wf_pool|]|done].
    destruct (Close_known c _ Hk) as (p' & E & ? & _). rewrite Hc in E. by injection E as ->.
  - split; [split; [by apply wf_pool|by eapply known_send]|done].
  - split; [done|]. split; [|done]. intros x [= <-]. destruct (Hse _ Hsm) as [Hi Hn].
    split; [by eapply sm_step_inv|congruence].
  - done.
  - split_and!; try done. destruct Hst as [d _|d _|d _]; unfold first_task, begin_task; by repeat case_match.
  - split; [done|]. split; [done|]. split; [|done]. unfold lm_send in He. rewrite Hl in He.
    case_bool_decide; by injection He as <- _.
  - done.
Qed.

(** What a shutdown leaves.  The sweeper of the idle terminals has no way to
    end; the timer of the SSH sessions ends when it is next at its [select]. *)
Record halted (a a' : A) : Prop := {
  h_terminals : t_sessions (a_terminals a') = ∅ ∧
    ∀ r sw, t_store (a_terminals a') !! r = Some sw → sw_closed sw = true ∧ sw_pty sw = None;
  h_clients c : c ∈ user_client_list (t_pool (a_terminals a)) ∨ c ∈ adminClients (t_pool (a_terminals a)) →
    closed_client (t_pool (a_terminals a')) c;
  h_sessions : ∃ sm sm', a_sessions a = Some sm ∧ a_sessions a' = Some sm' ∧ sessions sm' = ∅ ∧
    ∀ key r s, sessions sm !! key = Some r → store sm' !! r = Some s → UserSession.closed s = true;
  h_scheduler : isRunning (a_scheduler a') = false ∧ a_loops a' = 0%nat ∧ monitors (a_scheduler a') = [];
  h_disk : ds_isRunning (a_disk a') = false ∧
    (ds_loops (a_disk a'), ds_first (a_disk a'), ds_busy (a_disk a')) = (0, 0, false)%nat;
  h_collectors : co_loops (a_info a') = 0%nat ∧ co_loops (a_home a') = 0%nat;
  h_log : logChan (a_log a') = [] ∧ lm_closed (a_log a') = true ∧ a_logs a' = drain (logChan (a_log a)) (a_logs a);
  h_closed : a_serving a' = false ∧ a_databases a' = false;
  h_timer : a_timer (timer_turn a') = false;
  h_sweeper : a_sweeper a' = true
}.

Lemma CloseAllTerminals_all (t : @terminalService msg) :
  terminals_wf t → t_sessions (CloseAllTerminals t) = ∅ ∧
  ∀ r sw, t_store (CloseAllTerminals t) !! r = Some sw → sw_closed sw = true ∧ sw_pty sw = None.
Proof.
  intros Hw. destruct (wf_close_keys (λ _, true) t Hw) as [[_ H2] Hse].
  assert (t_sessions (CloseAllTerminals t) = ∅) as He.
  { unfold CloseAllTerminals. rewrite Hse. apply map_empty. intros k. apply map_lookup_filter_None. by right. }
  split; [done|]. intros r sw Hr.
  destruct (H2 r sw Hr) as [(_ & _ & _ & Hcl & _) Hin].
  destruct (sw_closed sw) eqn:Hc; [by split; [done|apply Hcl]|].
  specialize (Hin eq_refl ltac:(by intros [])). fold (CloseAllTerminals t) in Hin. by rewrite He in Hin.
Qed.

(** The life of the process.  After a start that succeeded and any
    interleaving of what the components do, a shutdown during which no request
    is served never panics and never waits for ever, and leaves what [halted]
    says. *)
Theorem app_lifecycle loaded log mysql redis out logs w w' a0 a
  (Hinit : Initialize loaded log mysql redis out logs w = (w', Ok a0))
  (Hrun : rtc app_step (Run a0) a) :
  ∃ a', gracefulShutdown a = Ok a' ∧ halted a a'.
Proof.
  apply Initialize_ok in Hinit as [Hok _].
  assert (app_ok a) as ([Hw Hk] & Hse & Hl & [Hd Hr] & [[sm Hsm] Hsw])
    by (clear -Hok Hrun BL; induction Hrun; eauto using app_step_ok).
  clear Hok Hrun. unfold gracefulShutdown, run_stages, stages, run_stage.
  destruct (close_list_closes (user_client_list (t_pool (a_terminals a)) ++ elements (adminClients (t_pool (a_terminals a))))
    _ Hk) as (p & Ep & Hkp & Hcp). unfold WsPool.CloseAll at 1. rewrite Ep. cbn.
  destruct (scheduler_Stop_ends (a_loops a) _ Hr) as (n' & s' & -> & Hs). cbn.
  destruct (disk_Stop_ends _ Hd) as (d' & -> & Hds). cbn.
  destruct (collector_Stop_ends (a_info a)) as (i' & -> & Hi). cbn.
  destruct (collector_Stop_ends (a_home a)) as (h' & -> & Hh). cbn.
  unfold lm_close. rewrite Hl. cbn. rewrite Hsm.
  destruct (Hse sm Hsm) as [Hinv Hn]. destruct (CloseAll_closes sm Hinv Hn) as (sm' & -> & Hst & Hemp & Hall).
  eexists. split; [done|].
  set (t1 := set_pool p (a_terminals a)).
  destruct (CloseAllTerminals_all t1) as [He Hcl]; [by apply wf_pool|].
  split; cbn; try done.
  - intros c Hc. refine (close_keys_mono (λ _, true) t1 c _ _); [done|]. apply Hcp. left. rewrite elem_of_app, elem_of_elements. done.
  - by exists sm, sm'.
  - unfold timer_turn. cbn. by rewrite Hst.
Qed.
End AppProps.

(** ** Concrete runs *)

Definition app_config : AppConfig := AppConfig.mkAppConfig true demo_cfg 8080 "release".
(** [out]: what nvidia-smi prints. *)
Definition app_start (out : option string) : World * result (App log_db Terminal.bytes) :=
  Initialize (Ok app_config) (Ok tt) (Ok tt) (Ok tt) out log_demo waiting_world.
Definition started_app : App log_db Terminal.bytes :=
  mkApp (NewScheduler waiting_world) (mkTerminal NewConnectionPool ∅ ∅)
    (Some (SetSSHTimeout 0 (NewSessionManager demo_cfg))) NewLogManager log_demo
    (disk_Start NewDiskUsageScheduler) NewSystemInfoService NewHomeService false true 0 true
    (0 <? Config.SessionTimeout demo_cfg).
Definition running_app : App log_db Terminal.bytes := Run started_app.

(** An administrator connects to the home page, a user opens a terminal. *)
Definition admin_metadata : SessionMetadata := SessionMetadata.mkSessionMetadata 9 "homeOverview" "admin" 0.
Definition app_connected : App log_db Terminal.bytes :=
  set_terminals (set_pool (fst (Add 9 (Some admin_metadata) (t_pool (a_terminals running_app)))) (a_terminals running_app)) running_app.
Definition greeted (t : @terminalService Terminal.bytes) : @terminalService Terminal.bytes :=
  fst (conn_open 7 false (Ok tt) 0 t).
Definition shelled (t : @terminalService Terminal.bytes) : @terminalService Terminal.bytes :=
  fst (getOrCreateTerminalSession 7 false 0 0 (Ok tt) (Ok 1%positive) t).
Definition with_terminal (a : App log_db Terminal.bytes) : App log_db Terminal.bytes :=
  set_terminals (shelled (greeted (a_terminals a))) a.

Lemma app_used_reached : rtc (app_step Some) running_app (with_terminal app_connected).
Proof.
  eapply rtc_l; [exact (as_connect Some 9 admin_metadata running_app)|]. fold app_connected.
  eapply rtc_l; [apply (as_terminal Some (greeted (a_terminals app_connected)))|].
  { eapply (ts_open _ 7 false (Ok tt) 0). apply surjective_pairing. }
  apply rtc_once.
  refine (as_terminal Some (shelled (greeted (a_terminals app_connected)))
    (set_terminals (greeted (a_terminals app_connected)) app_connected) _).
  eapply (ts_create _ 7 false 0 0 (Ok tt) (Ok 1%positive)). apply surjective_pairing.
Qed.

Lemma app_lifecycle_witness :
  ∃ a', gracefulShutdown (with_terminal app_connected) = Ok a' ∧ halted (with_terminal app_connected) a'.
Proof.
  refine (app_lifecycle Some (Ok app_config) (Ok tt) (Ok tt) (Ok tt) (Some "") log_demo waiting_world
    waiting_world started_app (with_terminal app_connected) _ app_used_reached).
  reflexivity.
Defined.

(** A terminal that is opened after [CloseAllTerminals], while the HTTP server
    still serves, stays open. *)
Example late_terminal_survives :
  match run_stages [ClosePool; CloseTerminals] app_connected with
  | Ok a => match run_stages [StopScheduler; StopDisk; StopInfo; StopHome; CloseLog; ShutdownServer; CloseSessions;
                              CloseDatabases] (with_terminal a) with
            | Ok a' => existsb (λ x, negb (sw_closed x.2)) (map_to_list (t_store (a_terminals a'))) = true
            | Err _ => False
            end
  | Err _ => False
  end.
Proof. vm_compute. reflexivity. Qed.

(** Where nvidia-smi cannot be run the start panics, although a failed
    initialisation of the cards is meant to be a warning. *)
Example no_cards_no_start : ∃ what, snd (app_start None) = Err (ErrPanic what).
Proof. eexists. reflexivity. Qed.

(** With the SSH server disabled in the configuration the start panics. *)
Example disabled_server_no_start :
  ∃ what, snd (Initialize (D := log_db) (msg := Terminal.bytes)
    (Ok (AppConfig.mkAppConfig false demo_cfg 8080 "release")) (Ok tt) (Ok tt) (Ok tt) (Some "") log_demo
    waiting_world) = Err (ErrPanic what).
Proof. eexists. reflexivity. Qed.
