(* ===== verification/Infra.v ===== *)
(** * Configuration, databases, logger and the life of the process

    pkg/config, pkg/database, pkg/logger, pkg/email, the drawing of captchas,
    internal/middleware/logger.go and internal/repository/redis_repository.go,
    and how internal/app/app.go uses them: [boot] is the start of the process
    from the configuration file on, [close_databases] the last step of its end.  Viper, gorm, go-redis and the environment variables are
    parameters; the laws of the database libraries account for the connection
    pools they open. *)

From S2P Require Import Prelude GoStrings Float64 Errors Entity External MemBackend Gpu JobRepo Queue JobService Scheduler SchedulerSpec SessionRepo WsPool SshSessions GoPath Shell FileService DiskUsage Terminal OperationLog App.

Open Scope Z_scope.

(** ** pkg/config/config.go *)

Module AppSection.
Record AppSection : Type := mkAppSection { Name : string; Version : string; Mode : string; Port : Z; AESSecret : string }.
End AppSection.
Module MySQLConfig.
Record MySQLConfig : Type := mkMySQLConfig {
  Host : string; Port : Z; Username : string; Password : string; Database : string; MaxIdleConns : Z; MaxOpenConns : Z
}.
End MySQLConfig.
Module RedisConfig.
Record RedisConfig : Type := mkRedisConfig { Host : string; Port : Z; Password : string; DB : Z; PoolSize : Z }.
End RedisConfig.
Module JWTConfig.
Record JWTConfig : Type := mkJWTConfig { Secret : string; ExpireHours : Z }.
End JWTConfig.
Module EmailConfig.
Record EmailConfig : Type := mkEmailConfig { Host : string; Port : Z; Username : string; Password : string }.
End EmailConfig.
Module LogConfig.
Record LogConfig : Type := mkLogConfig {
  Level : string; Filename : string; MaxSize : Z; MaxBackups : Z; MaxAge : Z; Compress : bool
}.
End LogConfig.
Module CORSSection.
Record CORSSection : Type := mkCORSSection {
  Enabled : bool; AllowOrigins : list string; AllowMethods : list string; AllowHeaders : list string;
  ExposeHeaders : list string; AllowCredentials : bool; MaxAge : Z
}.
End CORSSection.
Module ServerConfig.
Record ServerConfig : Type := mkServerConfig {
  Host : string; RootUsername : string; RootPassword : string; PrivateKeyPath : string;
  PrivateKeyPassphrase : string; BasePath : string; Timeout : Z; SessionTimeout : Z; Enabled : bool
}.
End ServerConfig.

(** [Config]; [Database] is its two parts, [GPU] its one switch. *)
Module Settings.
Record Settings : Type := mkSettings {
  App : AppSection.AppSection; MySQL : MySQLConfig.MySQLConfig; Redis : RedisConfig.RedisConfig;
  JWT : JWTConfig.JWTConfig; Log : LogConfig.LogConfig; CORS : CORSSection.CORSSection;
  Email : EmailConfig.EmailConfig; Server : ServerConfig.ServerConfig; AutoAllocate : bool
}.
Definition set_app (a : AppSection.AppSection) (s : Settings) : Settings :=
  mkSettings a (MySQL s) (Redis s) (JWT s) (Log s) (CORS s) (Email s) (Server s) (AutoAllocate s).
Definition set_mysql (m : MySQLConfig.MySQLConfig) (s : Settings) : Settings :=
  mkSettings (App s) m (Redis s) (JWT s) (Log s) (CORS s) (Email s) (Server s) (AutoAllocate s).
Definition set_redis (r : RedisConfig.RedisConfig) (s : Settings) : Settings :=
  mkSettings (App s) (MySQL s) r (JWT s) (Log s) (CORS s) (Email s) (Server s) (AutoAllocate s).
Definition set_jwt (j : JWTConfig.JWTConfig) (s : Settings) : Settings :=
  mkSettings (App s) (MySQL s) (Redis s) j (Log s) (CORS s) (Email s) (Server s) (AutoAllocate s).
End Settings.
Notation Settings := Settings.Settings.

(** ** What the libraries offer *)

(** Where viper looks for the file. *)
Inductive config_source : Type :=
  | ConfigFile (path : string)
  | ConfigSearch (name type : string) (paths : list string).

(** [gorm.Config] as the code fills it. *)
Record gorm_config : Type := mkGormConfig { no_foreign_keys : bool; skip_transaction : bool; verbose : bool }.
(** [redis.Options]. *)
Record redis_options : Type := mkRedisOptions { ro_addr : string; ro_password : string; ro_db : Z; ro_pool : Z }.

(** The pools of connections that are open, and the calls on them. *)
Class DbLib (S : Type) := {
  db_open : S → gset positive;
  gorm_Open : string → gorm_config → M S (result positive);
  gorm_DB : positive → M S (result unit);
  sql_SetPool : positive → Z → Z → Z → M S unit;
  db_Ping : positive → M S (result unit);
  redis_NewClient : redis_options → M S positive;
  db_Close : positive → M S (result unit)
}.
Class DbLibLaws (S : Type) `{DbLib S} : Prop := {
  gorm_Open_ok dsn g s s' h : gorm_Open dsn g s = (s', Ok h) → h ∉ db_open s ∧ db_open s' = {[h]} ∪ db_open s;
  gorm_Open_err dsn g s s' e : gorm_Open dsn g s = (s', Err e) → db_open s' = db_open s;
  gorm_DB_view h s s' r : gorm_DB h s = (s', r) → db_open s' = db_open s;
  sql_SetPool_view h a b c s s' r : sql_SetPool h a b c s = (s', r) → db_open s' = db_open s;
  db_Ping_view h s s' r : db_Ping h s = (s', r) → db_open s' = db_open s;
  redis_NewClient_ok o s s' h : redis_NewClient o s = (s', h) → h ∉ db_open s ∧ db_open s' = {[h]} ∪ db_open s;
  db_Close_spec h s s' r : db_Close h s = (s', r) → db_open s' = db_open s ∖ {[h]}
}.

Section Infra.
(** [V]: what viper has read; [L]: the state of the database libraries. *)
Context {V L : Type} `{DbLib L}.
Variable read_in_config : config_source → result V.
Variable unmarshal : V → result Settings.
Variable getenv : string → string.

(** The variables of the packages config and database, and what was printed. *)
Record process : Type := mkProcess {
  globalConfig : option Settings; mysqlDB : option positive; redisClient : option positive;
  lib : L; stdout : list V
}.
Definition set_config (c : Settings) (p : process) : process :=
  mkProcess (Some c) (mysqlDB p) (redisClient p) (lib p) (stdout p).
Definition set_mysqlDB (h : positive) (p : process) : process :=
  mkProcess (globalConfig p) (Some h) (redisClient p) (lib p) (stdout p).
Definition set_redisClient (h : positive) (p : process) : process :=
  mkProcess (globalConfig p) (mysqlDB p) (Some h) (lib p) (stdout p).
Definition put_lib (l : L) (p : process) : process :=
  mkProcess (globalConfig p) (mysqlDB p) (redisClient p) l (stdout p).
Definition print (v : V) (p : process) : process :=
  mkProcess (globalConfig p) (mysqlDB p) (redisClient p) (lib p) (stdout p ++ [v]).
Definition on_lib {A} : M L A → M process A := lift lib put_lib.

(** ** pkg/config/loader.go *)

Definition source_of (configPath : string) : config_source :=
  if negb (String.eqb configPath "") then ConfigFile configPath
  else ConfigSearch "config" "yaml" ["./configs"; "."].

(** [if val := os.Getenv(name); val != "" { ... }]. *)
Definition env_over (name : string) (set : string → Settings → Settings) (s : Settings) : Settings :=
  let val := getenv name in if negb (String.eqb val "") then set val s else s.
Definition over_mysql (v : string) (s : Settings) : Settings :=
  let m := Settings.MySQL s in
  Settings.set_mysql (MySQLConfig.mkMySQLConfig (MySQLConfig.Host m) (MySQLConfig.Port m) (MySQLConfig.Username m) v
    (MySQLConfig.Database m) (MySQLConfig.MaxIdleConns m) (MySQLConfig.MaxOpenConns m)) s.
Definition over_redis (v : string) (s : Settings) : Settings :=
  let r := Settings.Redis s in
  Settings.set_redis (RedisConfig.mkRedisConfig (RedisConfig.Host r) (RedisConfig.Port r) v (RedisConfig.DB r)
    (RedisConfig.PoolSize r)) s.
Definition over_jwt (v : string) (s : Settings) : Settings :=
  Settings.set_jwt (JWTConfig.mkJWTConfig v (JWTConfig.ExpireHours (Settings.JWT s))) s.
Definition over_aes (v : string) (s : Settings) : Settings :=
  let a := Settings.App s in
  Settings.set_app (AppSection.mkAppSection (AppSection.Name a) (AppSection.Version a) (AppSection.Mode a)
    (AppSection.Port a) v) s.
Definition with_env (s : Settings) : Settings :=
  env_over "AES_SECRET" over_aes (env_over "JWT_SECRET" over_jwt
    (env_over "REDIS_PASSWORD" over_redis (env_over "MYSQL_PASSWORD" over_mysql s))).

Definition Load (configPath : string) : M process (result Settings) :=
  match read_in_config (source_of configPath) with
  | Err e => mret (Err (ErrWrap "读取配置文件失败" e))
  | Ok v =>
      _ ← modify (print v);
      match unmarshal v with
      | Err e => mret (Err (ErrWrap "解析配置文件失败" e))
      | Ok config =>
          let config := with_env config in
          _ ← modify (set_config config);
          mret (Ok config)
      end
  end.
Definition config_Get : M process (result Settings) :=
  c ← gets globalConfig;
  mret (match c with
        | None => Err (ErrPanic "配置未初始化，请先调用 Load() 加载配置")
        | Some config => Ok config
        end).
Definition MustLoad (configPath : string) : M process (result Settings) :=
  r ← Load configPath;
  mret (match r with Err _ => Err (ErrPanic "panic(err)") | Ok config => Ok config end).

(** ** pkg/database *)

Definition hour : Z := 3600 * 1000000000.
Definition mysql_dsn (cfg : MySQLConfig.MySQLConfig) : string :=
  MySQLConfig.Username cfg +:+ ":" +:+ MySQLConfig.Password cfg +:+ "@tcp(" +:+ MySQLConfig.Host cfg +:+ ":" +:+
  Itoa (MySQLConfig.Port cfg) +:+ ")/" +:+ MySQLConfig.Database cfg +:+ "?charset=utf8mb4&parseTime=True&loc=Local".

Definition InitMySQL (cfg : MySQLConfig.MySQLConfig) : M process (result positive) :=
  c ← config_Get;
  match c with
  | Err e => mret (Err e)
  | Ok config =>
      let debug := String.eqb (AppSection.Mode (Settings.App config)) "debug" in
      d ← on_lib (gorm_Open (mysql_dsn cfg) (mkGormConfig true true debug));
      match d with
      | Err e => mret (Err (ErrWrap "MySQL 连接失败" e))
      | Ok db =>
          q ← on_lib (gorm_DB db);
          match q with
          | Err e => mret (Err (ErrWrap "获取 SQL DB 失败" e))
          | Ok _ =>
              _ ← on_lib (sql_SetPool db (MySQLConfig.MaxIdleConns cfg) (MySQLConfig.MaxOpenConns cfg) hour);
              p ← on_lib (db_Ping db);
              match p with
              | Err e => mret (Err (ErrWrap "MySQL Ping 失败" e))
              | Ok _ => _ ← modify (set_mysqlDB db); mret (Ok db)
              end
          end
      end
  end.
Definition GetMySQL : M process (result positive) :=
  h ← gets mysqlDB; mret (match h with None => Err (ErrPanic "MySQL 未初始化") | Some db => Ok db end).
Definition CloseMySQL : M process (result unit) :=
  h ← gets mysqlDB;
  match h with
  | None => mret (Ok tt)
  | Some db =>
      q ← on_lib (gorm_DB db);
      match q with Err e => mret (Err e) | Ok _ => on_lib (db_Close db) end
  end.

Definition InitRedis (cfg : RedisConfig.RedisConfig) : M process (result positive) :=
  client ← on_lib (redis_NewClient (mkRedisOptions (RedisConfig.Host cfg +:+ ":" +:+ Itoa (RedisConfig.Port cfg))
    (RedisConfig.Password cfg) (RedisConfig.DB cfg) (RedisConfig.PoolSize cfg)));
  p ← on_lib (db_Ping client);
  match p with
  | Err e => mret (Err (ErrWrap "redis 连接失败" e))
  | Ok _ => _ ← modify (set_redisClient client); mret (Ok client)
  end.
(** Nil when there is none. *)
Definition GetRedis : M process (option positive) := gets redisClient.
Definition CloseRedis : M process (result unit) :=
  h ← gets redisClient;
  match h with None => mret (Ok tt) | Some client => on_lib (db_Close client) end.
End Infra.
Arguments process : clear implicits.

(** ** pkg/logger *)

Inductive log_level : Type := DebugLevel | InfoLevel | WarnLevel | ErrorLevel | FatalLevel.
Definition level_num (l : log_level) : Z :=
  match l with DebugLevel => -1 | InfoLevel => 0 | WarnLevel => 1 | ErrorLevel => 2 | FatalLevel => 5 end.

(** What [Init] builds: the level, the rotated file, the outputs. *)
Record zap_logger : Type := mkZap {
  z_level : log_level; z_file : LogConfig.LogConfig; z_stdout : bool; z_caller_skip : Z; z_stacktrace : log_level
}.
Definition level_of (s : string) : log_level :=
  if String.eqb s "debug" then DebugLevel
  else if String.eqb s "info" then InfoLevel
  else if String.eqb s "warn" then WarnLevel
  else if String.eqb s "error" then ErrorLevel
  else InfoLevel.
Definition logger_Init (cfg : LogConfig.LogConfig) : result zap_logger :=
  Ok (mkZap (level_of (LogConfig.Level cfg)) cfg true 1 ErrorLevel).
Definition default_log : LogConfig.LogConfig := LogConfig.mkLogConfig "debug" "operationLogs/app.log" 100 3 28 true.
Definition InitDefault : result zap_logger := logger_Init default_log.
Definition InitFromConfig {V L} : M (process V L) (result zap_logger) :=
  c ← config_Get; mret (match c with Err e => Err e | Ok cfg => logger_Init (Settings.Log cfg) end).
(** A core writes the entries at its level and above. *)
Definition log_enabled (z : zap_logger) (l : log_level) : bool := level_num (z_level z) <=? level_num l.

(** The calls on the logger that [Init] made: what is written, and whether the
    process goes on.  The formatted calls write the formatted text. *)
Definition log_at (l : log_level) (z : zap_logger) (msg : string) : M (list (log_level * string)) bool := λ w,
  (if log_enabled z l then w ++ [(l, msg)] else w, match l with FatalLevel => false | _ => true end).
Definition log_Debug := log_at DebugLevel.
Definition log_Info := log_at InfoLevel.
Definition log_Warn := log_at WarnLevel.
Definition log_Error := log_at ErrorLevel.
Definition log_Fatal := log_at FatalLevel.
Definition log_Debugf := log_at DebugLevel.
Definition log_Infof := log_at InfoLevel.
Definition log_Warnf := log_at WarnLevel.
Definition log_Errorf := log_at ErrorLevel.
Definition log_Fatalf := log_at FatalLevel.

(** ** pkg/email and pkg/captcha *)

(** A message of gomail as the code fills it. *)
Record mail : Type := mkMail { m_from : string; m_to : string; m_subject : string; m_type : string; m_body : string }.
Section Mail.
(** [X]: the state of the mail servers; a dialer is its host, port, user and
    password. *)
Context {V L X : Type}.
Variable DialAndSend : string → Z → string → string → mail → M X (result unit).

Definition SendEmail (p : process V L) (z : zap_logger) (to subject body : string)
  : M (X * list (log_level * string)) (result unit) :=
  match snd (config_Get p) with
  | Err e => mret (Err e)
  | Ok config =>
      let cfg := Settings.Email config in
      let m := mkMail (EmailConfig.Username cfg) to subject "text/html" body in
      err ← lift fst (λ x s, (x, snd s))
        (DialAndSend (EmailConfig.Host cfg) (EmailConfig.Port cfg) (EmailConfig.Username cfg) (EmailConfig.Password cfg) m);
      _ ← lift snd (λ l s, (fst s, l)) (log_Error z "发送验证码错误:");
      mret err
  end.
End Mail.

(** [base64Captcha.DriverString]. *)
Record captcha_driver : Type := mkDriver {
  cd_height : Z; cd_width : Z; cd_noise : Z; cd_lines : Z; cd_length : Z; cd_source : string; cd_colour : Z * Z * Z * Z
}.
Definition driver : captcha_driver := mkDriver 40 120 0 0 4 "1234567890" (255, 255, 255, 255).
(** [draw]: the library; it keeps the answer in the store under the identifier
    it returns with the picture. *)
Definition captcha_Generate {X} (draw : captcha_driver → M X (result (string * string))) : M X (result (string * string)) :=
  draw driver.

(** ** internal/middleware/logger.go *)

(** A request as the middleware sees it, and what the handlers behind it left. *)
Record access_request : Type := mkAccess {
  ac_method : string; ac_path : string; ac_query : string; ac_ip : string; ac_agent : string
}.
Record outcome : Type := mkOutcome { oc_status : Z; oc_errors : list string; oc_end : Z }.
Inductive zap_field : Type := ZString (k v : string) | ZInt (k : string) (v : Z) | ZDuration (k : string) (v : Z).
Definition Logger (error_string : list string → string) (start : Z) (r : access_request) (o : outcome) : list zap_field :=
  [ZString "method" (ac_method r); ZString "path" (ac_path r); ZString "query" (ac_query r);
   ZInt "status" (oc_status o); ZString "ip" (ac_ip r); ZString "user_agent" (ac_agent r);
   ZDuration "latency" (oc_end o - start)] ++
  match oc_errors o with [] => [] | es => [ZString "errors" (error_string es)] end.

(** ** The start and the end of the process *)

Section Boot.
Context {V L : Type} `{DbLib L}.
Context `{B : Backend} {D : Type} {TL : Table D UserOperationLog} {msg : Type}.
Variable read_in_config : config_source → result V.
Variable unmarshal : V → result Settings.
Variable getenv : string → string.

(** What [initDependencies] takes from the configuration. *)
Definition app_config_of (s : Settings) : AppConfig :=
  let v := Settings.Server s in
  AppConfig.mkAppConfig (ServerConfig.Enabled v)
    (Config.mkConfig (ServerConfig.Host v) (ServerConfig.RootUsername v) (ServerConfig.RootPassword v)
       (ServerConfig.PrivateKeyPath v) (ServerConfig.PrivateKeyPassphrase v) (ServerConfig.Timeout v)
       (ServerConfig.SessionTimeout v))
    (AppSection.Port (Settings.App s)) (AppSection.Mode (Settings.App s)).
Definition no_value {A} (r : result A) : result unit := match r with Ok _ => Ok tt | Err e => Err e end.

(** [Initialize] with the calls of the packages it uses: MySQL is opened before
    Redis, and Redis only if MySQL could be. *)
Definition boot (out : option string) (logs : D) (w : World)
  : M (process V L) (World * result (App D msg)) :=
  l ← Load read_in_config unmarshal getenv "";
  match l with
  | Err e => mret (Initialize (Err e) (Ok tt) (Ok tt) (Ok tt) out logs w)
  | Ok cfg =>
      let log := no_value (logger_Init (Settings.Log cfg)) in
      m ← InitMySQL (Settings.MySQL cfg);
      match m with
      | Err e => mret (Initialize (Ok (app_config_of cfg)) log (Err e) (Ok tt) out logs w)
      | Ok _ =>
          r ← InitRedis (Settings.Redis cfg);
          mret (Initialize (Ok (app_config_of cfg)) log (Ok tt) (no_value r) out logs w)
      end
  end.
(** The end of [gracefulShutdown]: both errors are dropped. *)
Definition close_databases : M (process V L) unit := _ ← CloseMySQL; _ ← CloseRedis; mret tt.
End Boot.

(** ** internal/repository/redis_repository.go *)

(** A reply of go-redis: [Err()] is its error, [Result()] both. *)
Record cmd (A : Type) : Type := mkCmd { cmd_val : A; cmd_error : option error }.
Arguments mkCmd {A}. Arguments cmd_val {A}. Arguments cmd_error {A}.
Definition cmd_Err {A} (c : cmd A) : result unit := match cmd_error c with None => Ok tt | Some e => Err e end.
Definition cmd_Result {A} (c : cmd A) : result A := match cmd_error c with None => Ok (cmd_val c) | Some e => Err e end.

(** The commands of a go-redis client. *)
Class GoRedis (S : Type) := {
  gr_view : S → kview;
  gr_Set : string → string → Z → M S (cmd string);
  gr_Get : string → M S (cmd string);
  gr_Del : list string → M S (cmd Z);
  gr_SAdd : string → list string → M S (cmd Z);
  gr_SRem : string → list string → M S (cmd Z);
  gr_SMembers : string → M S (cmd (list string));
  gr_SIsMember : string → string → M S (cmd bool);
  gr_HSet : string → list (string * string) → M S (cmd Z);
  gr_HGet : string → string → M S (cmd string);
  gr_HGetAll : string → M S (cmd (gmap string string));
  gr_HDel : string → list string → M S (cmd Z)
}.

Section RedisRepository.
Context {S : Type} `{GoRedis S}.
Definition rr_Set (key value : string) (expiration : Z) : M S (result unit) :=
  c ← gr_Set key value expiration; mret (cmd_Err c).
Definition rr_Get (key : string) : M S (result string) := c ← gr_Get key; mret (cmd_Result c).
Definition rr_Del (key : string) : M S (result unit) := c ← gr_Del [key]; mret (cmd_Err c).
Definition rr_SAdd (key : string) (members : list string) : M S (result unit) :=
  c ← gr_SAdd key members; mret (cmd_Err c).
Definition rr_SRem (key : string) (members : list string) : M S (result unit) :=
  c ← gr_SRem key members; mret (cmd_Err c).
Definition rr_SMembers (key : string) : M S (result (list string)) := c ← gr_SMembers key; mret (cmd_Result c).
Definition rr_SIsMember (key member : string) : M S (result bool) := c ← gr_SIsMember key member; mret (cmd_Result c).
Definition rr_HSet (key : string) (values : list (string * string)) : M S (result unit) :=
  c ← gr_HSet key values; mret (cmd_Err c).
Definition rr_HGet (key field : string) : M S (result string) := c ← gr_HGet key field; mret (cmd_Result c).
Definition rr_HGetAll (key : string) : M S (result (gmap string string)) := c ← gr_HGetAll key; mret (cmd_Result c).
Definition rr_HDel (key : string) (fields : list string) : M S (result unit) := c ← gr_HDel key fields; mret (cmd_Err c).

(** The repository is the store the services are written against. *)
#[export] Instance redisRepository : Kv S := {
  kv_view := gr_view; kv_Set := rr_Set; kv_Get := rr_Get; kv_Del := rr_Del;
  kv_SAdd k m := rr_SAdd k [m]; kv_SRem k m := rr_SRem k [m]; kv_SMembers := rr_SMembers
}.
End RedisRepository.

(** * Properties *)

(** ** The repository keeps the promises of the store *)

Class GoRedisLaws (S : Type) `{GoRedis S} : Prop := {
  gr_Set_spec k v t s s' c : gr_Set k v t s = (s', c) →
    gr_view s' = match cmd_error c with None => put_str k v (gr_view s) | Some _ => gr_view s end;
  gr_Get_view k s s' c : gr_Get k s = (s', c) → gr_view s' = gr_view s;
  gr_Get_ok k s s' c : gr_Get k s = (s', c) → cmd_error c = None → kv_str (gr_view s) !! k = Some (cmd_val c);
  gr_Get_nil k s s' c : gr_Get k s = (s', c) → cmd_error c = Some ErrRedisNil → kv_str (gr_view s) !! k = None;
  gr_Del_spec ks s s' c : gr_Del ks s = (s', c) →
    gr_view s' = match cmd_error c with None => foldr del_key (gr_view s) ks | Some _ => gr_view s end;
  gr_SAdd_spec k ms s s' c : gr_SAdd k ms s = (s', c) →
    gr_view s' = match cmd_error c with
                 | None => put_set k (list_to_set ms ∪ members k (gr_view s)) (gr_view s)
                 | Some _ => gr_view s end;
  gr_SRem_spec k ms s s' c : gr_SRem k ms s = (s', c) →
    gr_view s' = match cmd_error c with
                 | None => put_set k (members k (gr_view s) ∖ list_to_set ms) (gr_view s)
                 | Some _ => gr_view s end;
  gr_SMembers_view k s s' c : gr_SMembers k s = (s', c) → gr_view s' = gr_view s;
  gr_SMembers_ok k s s' c : gr_SMembers k s = (s', c) → cmd_error c = None →
    cmd_val c ≡ₚ elements (members k (gr_view s))
}.

#[export] Instance redisRepository_laws {S} `{GoRedisLaws S} : KvLaws S.
Proof.
  split; cbn.
  - intros k v t s s' r E. unfold rr_Set in E. open_bind E as s1 c E1. injection E as <- <-.
    rewrite (gr_Set_spec _ _ _ _ _ _ E1). unfold cmd_Err. by destruct (cmd_error c).
  - intros k s s' r E. unfold rr_Get in E. open_bind E as s1 c E1. injection E as <- <-. by eapply gr_Get_view.
  - intros k s s' v E. unfold rr_Get in E. open_bind E as s1 c E1. unfold cmd_Result, mret, M_ret in E.
    destruct (cmd_error c) eqn:Ec; simplify_eq/=. by eapply gr_Get_ok.
  - intros k s s' E. unfold rr_Get in E. open_bind E as s1 c E1. unfold cmd_Result, mret, M_ret in E.
    destruct (cmd_error c) eqn:Ec; simplify_eq/=. by eapply gr_Get_nil.
  - intros k s s' r E. unfold rr_Del in E. open_bind E as s1 c E1. injection E as <- <-.
    rewrite (gr_Del_spec _ _ _ _ E1). unfold cmd_Err. by destruct (cmd_error c).
  - intros k m s s' r E. unfold rr_SAdd in E. open_bind E as s1 c E1. injection E as <- <-.
    rewrite (gr_SAdd_spec _ _ _ _ _ E1). unfold cmd_Err. destruct (cmd_error c); [done|]. cbn.
    by rewrite union_empty_r_L.
  - intros k m s s' r E. unfold rr_SRem in E. open_bind E as s1 c E1. injection E as <- <-.
    rewrite (gr_SRem_spec _ _ _ _ _ E1). unfold cmd_Err. destruct (cmd_error c); [done|]. cbn.
    by rewrite union_empty_r_L.
  - intros k s s' r E. unfold rr_SMembers in E. open_bind E as s1 c E1. injection E as <- <-. by eapply gr_SMembers_view.
  - intros k s s' l E. unfold rr_SMembers in E. open_bind E as s1 c E1. unfold cmd_Result, mret, M_ret in E.
    destruct (cmd_error c) eqn:Ec; simplify_eq/=. by eapply gr_SMembers_ok.
Qed.

(** ** The pools of connections *)

Section Databases.
Context {V L : Type} {DB : DbLib L} {DBL : DbLibLaws L}.
Implicit Types (st : process V L).

Definition opened st : gset positive := db_open (lib st).

Lemma on_lib_inv {A} (c : M L A) st st' (a : A) :
  on_lib c st = (st', a) → ∃ l, c (lib st) = (l, a) ∧ st' = put_lib l st.
Proof. intros E. unfold on_lib, lift in E. destruct (c (lib st)) as [l x]. exists l. by injection E as <- <-. Qed.

Lemma config_Get_inv st st' r : config_Get st = (st', r) → st' = st ∧ ∀ c, r = Ok c → globalConfig st = Some c.
Proof.
  unfold config_Get. intros E. open_bind E as s1 c E1. injection E1 as <- <-. injection E as <- <-.
  split; [done|]. destruct (globalConfig st); intros x [= ->]; done.
Qed.

(** What a start of a database leaves: it is open and registered, or nothing is
    registered and at most one pool is left behind. *)
Lemma InitMySQL_spec cfg st st' r :
  InitMySQL cfg st = (st', r) →
  globalConfig st' = globalConfig st ∧ redisClient st' = redisClient st ∧
  match r with
  | Ok h => mysqlDB st' = Some h ∧ h ∉ opened st ∧ opened st' = {[h]} ∪ opened st
  | Err _ => mysqlDB st' = mysqlDB st ∧
             (opened st' = opened st ∨ ∃ h, h ∉ opened st ∧ opened st' = {[h]} ∪ opened st)
  end.
Proof.
  unfold InitMySQL. intros E. open_bind E as s1 c E1. apply config_Get_inv in E1 as [-> _].
  destruct c as [cfg'|e]; [|injection E as <- <-; split_and!; auto].
  open_bind E as s2 d E2. apply on_lib_inv in E2 as (l2 & E2 & ->).
  destruct d as [db|e].
  2:{ injection E as <- <-. apply gorm_Open_err in E2. unfold opened. cbn. split_and!; auto. }
  apply gorm_Open_ok in E2 as [Hn Ho].
  open_bind E as s3 q E3. apply on_lib_inv in E3 as (l3 & E3 & ->). apply gorm_DB_view in E3. cbn in E3.
  destruct q as [u|e].
  2:{ injection E as <- <-. unfold opened. cbn. rewrite E3, Ho. split_and!; eauto. }
  open_bind E as s4 x E4. apply on_lib_inv in E4 as (l4 & E4 & ->). apply sql_SetPool_view in E4. cbn in E4.
  open_bind E as s5 y E5. apply on_lib_inv in E5 as (l5 & E5 & ->). apply db_Ping_view in E5. cbn in E5.
  destruct y as [z|e]; injection E as <- <-; unfold opened; cbn; rewrite E5, E4, E3, Ho; split_and!; eauto.
Qed.

Lemma InitRedis_spec cfg st st' r :
  InitRedis cfg st = (st', r) →
  globalConfig st' = globalConfig st ∧ mysqlDB st' = mysqlDB st ∧
  ∃ h, h ∉ opened st ∧ opened st' = {[h]} ∪ opened st ∧
    match r with Ok h' => h' = h ∧ redisClient st' = Some h | Err _ => redisClient st' = redisClient st end.
Proof.
  unfold InitRedis. intros E. open_bind E as s1 h E1. apply on_lib_inv in E1 as (l1 & E1 & ->).
  apply redis_NewClient_ok in E1 as [Hn Ho].
  open_bind E as s2 y E2. apply on_lib_inv in E2 as (l2 & E2 & ->). apply db_Ping_view in E2. cbn in E2.
  destruct y; injection E as <- <-; unfold opened; cbn; (split_and!; [done|done|]); exists h; rewrite E2, Ho; auto.
Qed.

Lemma close_databases_spec st m r :
  mysqlDB st = Some m → redisClient st = Some r → is_ok (snd (CloseMySQL st)) = true →
  opened (fst (close_databases st)) = opened st ∖ {[m]} ∖ {[r]}.
Proof.
  intros Hm Hr Hok. unfold close_databases.
  destruct (CloseMySQL st) as [s1 x] eqn:E1. unfold mbind at 1, M_bind at 1. rewrite E1.
  assert (opened s1 = opened st ∖ {[m]} ∧ redisClient s1 = Some r) as [H1 H1r].
  { unfold CloseMySQL, mbind at 1, M_bind at 1, gets in E1. rewrite Hm in E1. open_bind E1 as s2 q E2.
    apply on_lib_inv in E2 as (l2 & E2 & ->). apply gorm_DB_view in E2.
    destruct q as [u|e]; [|by injection E1 as <- <-].
    apply on_lib_inv in E1 as (l3 & E3 & ->). apply db_Close_spec in E3. cbn in E3. unfold opened. cbn.
    by rewrite E3, E2. }
  destruct (CloseRedis s1) as [s2 y] eqn:E2. unfold mbind at 1, M_bind at 1. rewrite E2. cbn. rewrite <- H1.
  unfold CloseRedis, mbind, M_bind, gets in E2. rewrite H1r in E2.
  apply on_lib_inv in E2 as (l3 & E3 & ->). by apply db_Close_spec in E3.
Qed.
End Databases.

(** ** From the configuration file to the end *)

Section BootProps.
Context {V L : Type} {DB : DbLib L} {DBL : DbLibLaws L}.
Context `{B : Backend} {BL : BackendLaws B} {D : Type} {TL : Table D UserOperationLog} {msg : Type}.
Variable encode : Terminal.bytes → option msg.
Variable read_in_config : config_source → result V.
Variable unmarshal : V → result Settings.
Variable getenv : string → string.
Implicit Types (st : process V L).

Lemma Load_inv path st st' r :
  Load read_in_config unmarshal getenv path st = (st', r) →
  mysqlDB st' = mysqlDB st ∧ redisClient st' = redisClient st ∧ lib st' = lib st ∧
  match r with
  | Ok cfg => globalConfig st' = Some cfg ∧ ∃ v file, read_in_config (source_of path) = Ok v ∧
                unmarshal v = Ok file ∧ cfg = with_env getenv file
  | Err _ => globalConfig st' = globalConfig st
  end.
Proof.
  unfold Load. destruct (read_in_config (source_of path)) as [v|e] eqn:Ev; [|by intros [= <- <-]].
  unfold mbind, M_bind, modify. destruct (unmarshal v) as [file|e] eqn:Ef; intros [= <- <-]; [|done].
  split_and!; [done..|]. exists v, file. done.
Qed.

(** A start that fails after the configuration is read never makes an App. *)
Lemma Initialize_needs_databases loaded log mysql redis out (logs : D) w w' (a : App D msg) :
  Initialize loaded log mysql redis out logs w = (w', Ok a) →
  ∃ cfg, loaded = Ok cfg ∧ mysql = Ok tt ∧ redis = Ok tt ∧ AppConfig.Enabled cfg = true.
Proof.
  unfold Initialize. destruct loaded as [cfg|e]; [|done]. cbn. destruct (initLogger log); [|done].
  unfold initDatabase. destruct mysql as [[]|e]; [|done]. destruct redis as [[]|e]; [|done].
  intros Hi. exists cfg. split_and!; try done.
  destruct ((g ← SyncGpuCards out; _) w) as [w1 [u|e]]; [|done]. unfold initDependencies in Hi.
  by destruct (AppConfig.Enabled cfg).
Qed.

Lemma ret_inv {W A} (x y : A) (s s' : W) : (mret x : M W A) s = (s', y) → s' = s ∧ x = y.
Proof. by intros [= -> ->]. Qed.

Lemma boot_inv out (logs : D) w st st' w' (a : App D msg) :
  boot read_in_config unmarshal getenv out logs w st = (st', (w', Ok a)) →
  ∃ v file m r, read_in_config (ConfigSearch "config" "yaml" ["./configs"; "."]) = Ok v ∧
    unmarshal v = Ok file ∧ globalConfig st' = Some (with_env getenv file) ∧
    ServerConfig.Enabled (Settings.Server (with_env getenv file)) = true ∧
    Initialize (Ok (app_config_of (with_env getenv file))) (Ok tt) (Ok tt) (Ok tt) out logs w = (w', Ok a) ∧
    mysqlDB st' = Some m ∧ redisClient st' = Some r ∧ m ≠ r ∧ m ∉ opened st ∧ r ∉ opened st ∧
    opened st' = {[r]} ∪ ({[m]} ∪ opened st).
Proof.
  unfold boot. intros E. open_bind E as s1 l E1. apply Load_inv in E1 as (Hm1 & Hr1 & Hl1 & HL).
  destruct l as [cfg|e]; [|apply ret_inv in E as [_ E]; by apply Initialize_needs_databases in E as (? & ? & _)].
  destruct HL as (Hg & v & file & Hv & Hf & ->).
  open_bind E as s2 m E2. apply InitMySQL_spec in E2 as (Hg2 & Hr2 & HM).
  destruct m as [m|e]; [|apply ret_inv in E as [_ E]; by apply Initialize_needs_databases in E as (? & _ & ? & _)].
  destruct HM as (Hm2 & Hmn & Hmo).
  open_bind E as s3 r E3. apply InitRedis_spec in E3 as (Hg3 & Hm3 & h & Hrn & Hro & Hrr).
  apply ret_inv in E as [-> E]. pose proof (Initialize_needs_databases _ _ _ _ _ _ _ _ _ E) as (c & [= <-] & _ & Hre & Hen).
  destruct r as [r|e]; [|done]. destruct Hrr as [-> Hrc].
  assert (opened s1 = opened st) as Ho1 by (unfold opened; by rewrite Hl1).
  exists v, file, m, h. rewrite Hmo, Ho1 in Hrn. rewrite Hro, Hmo, Ho1. rewrite Ho1 in Hmn.
  split_and!; try done; [congruence|congruence|set_solver..].
Qed.

End BootProps.

(** ** What is logged *)

(** An error and a fatal message are written whatever level is configured, and
    an unknown level is that of [info]: debug messages need "debug". *)
Theorem log_levels cfg msg w :
  (log_Error (mkZap (level_of (LogConfig.Level cfg)) cfg true 1 ErrorLevel) msg w).1 = w ++ [(ErrorLevel, msg)] ∧
  (log_Fatal (mkZap (level_of (LogConfig.Level cfg)) cfg true 1 ErrorLevel) msg w).1 = w ++ [(FatalLevel, msg)] ∧
  ((log_Debug (mkZap (level_of (LogConfig.Level cfg)) cfg true 1 ErrorLevel) msg w).1 = w ↔
     LogConfig.Level cfg ≠ "debug"%string).
Proof.
  unfold level_of, log_Error, log_Fatal, log_Debug, log_at, log_enabled. cbn [z_level].
  destruct (String.eqb_spec (LogConfig.Level cfg) "debug") as [->|Hd]; cbn.
  - split_and!; [done..|]. split; [|done]. intros He. apply (f_equal length) in He. rewrite length_app in He. cbn in He. lia.
  - destruct (String.eqb (LogConfig.Level cfg) "info"), (String.eqb (LogConfig.Level cfg) "warn"),
      (String.eqb (LogConfig.Level cfg) "error"); cbn; done.
Qed.

(** ** What the environment sets *)

(** Each of the four secrets is the variable if that is set and the file's
    otherwise; nothing else changes. *)
Theorem with_env_secrets getenv s :
  let pick name file := if String.eqb (getenv name) "" then file else getenv name in
  MySQLConfig.Password (Settings.MySQL (with_env getenv s)) = pick "MYSQL_PASSWORD" (MySQLConfig.Password (Settings.MySQL s)) ∧
  RedisConfig.Password (Settings.Redis (with_env getenv s)) = pick "REDIS_PASSWORD" (RedisConfig.Password (Settings.Redis s)) ∧
  JWTConfig.Secret (Settings.JWT (with_env getenv s)) = pick "JWT_SECRET" (JWTConfig.Secret (Settings.JWT s)) ∧
  AppSection.AESSecret (Settings.App (with_env getenv s)) = pick "AES_SECRET" (AppSection.AESSecret (Settings.App s)) ∧
  Settings.Server (with_env getenv s) = Settings.Server s ∧ Settings.Log (with_env getenv s) = Settings.Log s ∧
  Settings.CORS (with_env getenv s) = Settings.CORS s ∧ Settings.Email (with_env getenv s) = Settings.Email s.
Proof.
  cbn. unfold with_env, env_over.
  destruct (String.eqb (getenv "MYSQL_PASSWORD") ""), (String.eqb (getenv "REDIS_PASSWORD") ""),
    (String.eqb (getenv "JWT_SECRET") ""), (String.eqb (getenv "AES_SECRET") ""); done.
Qed.

(** ** Concrete runs *)

(** The libraries in memory: the open pools and the answers of [Ping] to come. *)
#[export] Instance mem_db : DbLib (gset positive * list bool) := {
  db_open s := s.1;
  gorm_Open _ _ s := let h := fresh s.1 in (({[h]} ∪ s.1, s.2), Ok h);
  gorm_DB _ s := (s, Ok tt);
  sql_SetPool _ _ _ _ s := (s, tt);
  db_Ping _ s := ((s.1, tail s.2), if default true (head s.2) then Ok tt else Err (ErrExt 0));
  redis_NewClient _ s := let h := fresh s.1 in (({[h]} ∪ s.1, s.2), h);
  db_Close h s := ((s.1 ∖ {[h]}, s.2), Ok tt)
}.
#[export] Instance mem_db_laws : DbLibLaws (gset positive * list bool).
Proof.
  split; cbn.
  - intros dsn g s s' h [= <- <-]. split; [apply is_fresh|done].
  - by intros.
  - by intros h s s' r [= <- _].
  - by intros h x y z s s' r [= <- _].
  - by intros h s s' r [= <- _].
  - intros o s s' h [= <- <-]. split; [apply is_fresh|done].
  - by intros h s s' r [= <- _].
Qed.

Definition demo_settings : Settings :=
  Settings.mkSettings (AppSection.mkAppSection "cloudque" "1.0" "release" 8080 "aes")
    (MySQLConfig.mkMySQLConfig "db" 3306 "root" "from-file" "cloudque" 10 100)
    (RedisConfig.mkRedisConfig "redis" 6379 "" 0 10) (JWTConfig.mkJWTConfig "jwt" 24)
    default_log (CORSSection.mkCORSSection false [] [] [] [] false 0)
    (EmailConfig.mkEmailConfig "mail" 25 "u" "p")
    (ServerConfig.mkServerConfig (Config.ServerHost demo_cfg) (Config.RootUsername demo_cfg)
       (Config.RootPassword demo_cfg) (Config.PrivateKeyPath demo_cfg) (Config.PrivateKeyPassphrase demo_cfg)
       "/" (Config.Timeout demo_cfg) (Config.SessionTimeout demo_cfg) true) false.
Definition demo_env (name : string) : string := if String.eqb name "MYSQL_PASSWORD" then "from-env" else "".
Definition cold (pings : list bool) : process Settings (gset positive * list bool) := mkProcess None None None (∅, pings) [].
Definition demo_boot (pings : list bool)
  : process Settings (gset positive * list bool) * (World * result (App log_db Terminal.bytes)) :=
  boot (λ _, Ok demo_settings) Ok demo_env (Some "") log_demo waiting_world (cold pings).


(** The password of the environment is used, and the settings of the file, with
    every secret in it, are printed. *)
Example secrets_printed :
  (MySQLConfig.Password ∘ Settings.MySQL <$> globalConfig (fst (demo_boot []))) = Some "from-env" ∧
  stdout (fst (demo_boot [])) = [demo_settings].
Proof. vm_compute. split; reflexivity. Qed.

(** A pool whose first ping fails is neither registered nor closed. *)
Example failed_ping_leaks :
  mysqlDB (fst (demo_boot [false])) = None ∧ opened (fst (demo_boot [false])) = {[1%positive]}.
Proof. vm_compute. split; reflexivity. Qed.

(** A WebSocket request carries its token in the query, and the access log
    writes the query. *)
Example token_in_access_log :
  ZString "query" "token=eyJhbGciOi" ∈
  Logger (λ _, "") 0 (mkAccess "GET" "/api/v1/terminal/ws" "token=eyJhbGciOi" "10.0.0.1" "ws") (mkOutcome 101 [] 5).
Proof. do 2 right. left. Qed.

(** A mail that was sent is logged as an error all the same. *)
Example sent_mail_logged_as_error :
  SendEmail (λ _ _ _ _ m, λ box, (box ++ [m], Ok tt)) (fst (demo_boot [])) (mkZap InfoLevel default_log true 1 ErrorLevel)
    "a@b.c" "code" "123456" ([], []) =
  (([mkMail "u" "a@b.c" "code" "text/html" "123456"], [(ErrorLevel, "发送验证码错误:")]), Ok tt).
Proof. vm_compute. reflexivity. Qed.
